(** * rlite control device (kernel/ctrl-dev.c): a shallow embedding

    The development follows the layout of [kernel/ctrl-dev.c]:
    machine integers and kernel helpers first, then the data model
    ([struct rl_ctrl], [struct ipcp_entry], [struct flow_entry],
    [struct rl_dm]), then the operations in the order of the source file,
    and finally the properties of each component.

    Kernel objects that the C code reaches through pointers live in
    per-type object stores (lists indexed by address); a pointer is the
    index of the object in its store.  Hash tables, queues and lists hold
    pointers, so an update through one alias is seen through every
    other. *)

From Stdlib Require Import ZArith String Ascii Bool Lia List.
From Stdlib Require Import Strings.Byte Sorting.Sorted Sorting.Permutation.
Import ListNotations.
Local Open Scope Z_scope.

(* ===================================================================== *)
(** ** Machine integers and kernel helpers *)
(* ===================================================================== *)

Module Mach.

(** [unsigned int] / [uint32_t] arithmetic. *)
Definition u32 (x : Z) : Z := x mod 2 ^ 32.

(** [uint16_t] arithmetic. *)
Definition u16 (x : Z) : Z := x mod 2 ^ 16.

(** [unsigned long] arithmetic (LP64 kernel). *)
Definition ulong (x : Z) : Z := x mod 2 ^ 64.

(** The cast [(long)x] of an [unsigned long]. *)
Definition to_long (x : Z) : Z :=
  if ulong x <? 2 ^ 63 then ulong x else ulong x - 2 ^ 64.

(** The cast [(int)x], used by [atomic_t]. *)
Definition to_int (x : Z) : Z :=
  if u32 x <? 2 ^ 31 then u32 x else u32 x - 2 ^ 32.

(** [time_after(a, b)] is [(long)((b) - (a)) < 0]. *)
Definition time_after (a b : Z) : bool := to_long (b - a) <? 0.

(** [time_before(a, b)] is [time_after(b, a)]. *)
Definition time_before (a b : Z) : bool := time_after b a.

(** Signed distance between two jiffies values, [(long)(a - b)]. *)
Definition tdiff (a b : Z) : Z := to_long (a - b).

(** Flag words: [flags & mask], [flags |= mask], [flags &= ~mask]. *)
Definition has_flag (flags mask : Z) : bool := negb (Z.land flags mask =? 0).
Definition set_flag (flags mask : Z) : Z := Z.lor flags mask.
Definition clear_flag (flags mask : Z) : Z := Z.land flags (Z.lnot mask).

(** Linux error numbers used by the control device. *)
Definition EPERM : Z := 1.
Definition ENXIO : Z := 6.
Definition EAGAIN : Z := 11.
Definition ENOMEM : Z := 12.
Definition EFAULT : Z := 14.
Definition EBUSY : Z := 16.
Definition EINVAL : Z := 22.
Definition ENOSPC : Z := 28.
Definition ENOSYS : Z := 38.
Definition ENOBUFS : Z := 105.
Definition ERESTARTSYS : Z := 512.

(** Object stores: [deref] reads the object at an address, [store]
    writes it back.  Reading outside the store yields the default
    (zeroed) object, writing outside has no effect. *)
Definition deref {A : Type} (d : A) (mem : list A) (p : nat) : A := nth p mem d.

Fixpoint store {A : Type} (mem : list A) (p : nat) (x : A) : list A :=
  match mem, p with
  | [], _ => []
  | _ :: m, O => x :: m
  | y :: m, S p' => y :: store m p' x
  end.

End Mach.
Import Mach.

(* ===================================================================== *)
(** ** Constants of the control device *)
(* ===================================================================== *)

(** [RL_UPQUEUE_SIZE_MAX] is [(1 << 14)]. *)
Definition RL_UPQUEUE_SIZE_MAX : Z := Z.shiftl 1 14.

Definition APPL_REG_PENDING : Z := 1.
Definition APPL_REG_COMPLETE : Z := 2.

Definition IPCP_ID_BITMAP_SIZE : Z := 256.
Definition PORT_ID_BITMAP_SIZE : Z := 65536.
Definition CEP_ID_BITMAP_SIZE : Z := PORT_ID_BITMAP_SIZE.
Definition IPCP_HASHTABLE_BITS : Z := 6.
Definition PORT_ID_HASHTABLE_BITS : Z := 10.
Definition CEP_ID_HASHTABLE_BITS : Z := 10.

(** Modelled from the spec: the flow flag masks are declared in
    [rlite-kernel.h], which is not part of the sources at hand.  The
    specification lists the flag set {PENDING, ALLOCATED, DEALLOCATED,
    NEVER_BOUND, DEL_POSTPONED, INITIATOR}; each flag is one bit of
    [flow_entry.flags], in that order. *)
Definition RL_FLOW_PENDING : Z := 1.
Definition RL_FLOW_ALLOCATED : Z := 2.
Definition RL_FLOW_DEALLOCATED : Z := 4.
Definition RL_FLOW_NEVER_BOUND : Z := 8.
Definition RL_FLOW_DEL_POSTPONED : Z := 16.
Definition RL_FLOW_INITIATOR : Z := 32.

(** Modelled from the spec: the IPCP flag masks (ZOMBIE, USE_CEP_IDS) are
    declared in [rlite-kernel.h]; each is one bit of [ipcp_entry.flags]. *)
Definition RL_K_IPCP_USE_CEP_IDS : Z := 1.
Definition RL_K_IPCP_ZOMBIE : Z := 2.

(** Modelled from the spec: the end-of-file bit of [txrx.flags], declared
    in [rlite-kernel.h]. *)
Definition RL_TXRX_EOF : Z := 1.

(** Modelled from the spec: the control device has one subscription
    bit, "subscribe to IPCP updates", declared in [rlite/kernel-msg.h];
    [RL_F_ALL] is the mask of all defined bits. *)
Definition RL_F_IPCPS : Z := 1.
Definition RL_F_ALL : Z := 1.

(** The sentinel [~0U] stored in [flow_entry.expires] while the flow is
    not linked in the put-queue. *)
Definition EXPIRES_NONE : Z := 2 ^ 32 - 1.

(* ===================================================================== *)
(** ** Messages queued upstream *)
(* ===================================================================== *)

(** The [update_type] of an [RLITE_KER_IPCP_UPDATE] message. *)
Inductive rl_ipcp_update_t :=
| RL_IPCP_UPDATE_ADD
| RL_IPCP_UPDATE_UPD
| RL_IPCP_UPDATE_UIPCP_DEL
| RL_IPCP_UPDATE_DEL.

(** [struct rl_kmsg_ipcp_update], with the fields [ipcp_update_fill]
    writes; strings are [None] when the pointer is NULL. *)
Record rl_kmsg_ipcp_update := {
  upd_event_id : Z;
  upd_update_type : rl_ipcp_update_t;
  upd_ipcp_id : Z;
  upd_ipcp_addr : Z;
  upd_txhdroom : Z;
  upd_rxhdroom : Z;
  upd_tailroom : Z;
  upd_max_sdu_size : Z;
  upd_pcisizes : Z;
  upd_ipcp_name : option string;
  upd_dif_name : option string;
  upd_dif_type : option string
}.

(** [struct rl_kmsg_flow_fetch_resp]. *)
Record rl_kmsg_flow_fetch_resp := {
  ffr_event_id : Z;
  ffr_end : Z;
  ffr_ipcp_id : Z;
  ffr_local_port : Z;
  ffr_remote_port : Z;
  ffr_local_addr : Z;
  ffr_remote_addr : Z;
  ffr_spec : Z;
  ffr_flow_control : Z
}.

(** [struct rl_kmsg_reg_fetch_resp]. *)
Record rl_kmsg_reg_fetch_resp := {
  rfr_event_id : Z;
  rfr_end : Z;
  rfr_ipcp_id : Z;
  rfr_pending : Z;
  rfr_appl_name : option string
}.

(** [struct rl_kmsg_ipcp_config_get_resp]. *)
Record rl_kmsg_ipcp_config_get_resp := {
  cgr_event_id : Z;
  cgr_param_value : string
}.

(** The messages the modelled handlers append to an upstream queue; the
    constructor stands for [hdr.msg_type]. *)
Inductive rl_msg :=
| RLITE_KER_IPCP_UPDATE (m : rl_kmsg_ipcp_update)
| RLITE_KER_FLOW_FETCH_RESP (m : rl_kmsg_flow_fetch_resp)
| RLITE_KER_REG_FETCH_RESP (m : rl_kmsg_reg_fetch_resp)
| RLITE_KER_IPCP_CONFIG_GET_RESP (m : rl_kmsg_ipcp_config_get_resp).


(* ===================================================================== *)
(** ** Data model *)
(* ===================================================================== *)

(** [struct upqueue_entry]: a serialized message and its length. *)
Record upqueue_entry := {
  sermsg : list byte;
  serlen : Z
}.

(** [struct flows_fetch_q_entry] and [struct regs_fetch_q_entry] hold the
    response to hand out. *)
Definition flows_fetch_q_entry := rl_kmsg_flow_fetch_resp.
Definition regs_fetch_q_entry := rl_kmsg_reg_fetch_resp.

(** [struct rl_ctrl]: the state of one open control device. *)
Record rl_ctrl := {
  upqueue : list upqueue_entry;
  upqueue_size : Z;
  flows_fetch_q : list flows_fetch_q_entry;
  regs_fetch_q : list regs_fetch_q_entry;
  rc_flags : Z
}.

Definition rl_ctrl_zero : rl_ctrl :=
  {| upqueue := []; upqueue_size := 0; flows_fetch_q := []; regs_fetch_q := [];
     rc_flags := 0 |}.

Definition set_upqueue (rc : rl_ctrl) (q : list upqueue_entry) (sz : Z) : rl_ctrl :=
  {| upqueue := q; upqueue_size := sz; flows_fetch_q := flows_fetch_q rc;
     regs_fetch_q := regs_fetch_q rc; rc_flags := rc_flags rc |}.

Definition set_flows_fetch_q (rc : rl_ctrl) (q : list flows_fetch_q_entry) : rl_ctrl :=
  {| upqueue := upqueue rc; upqueue_size := upqueue_size rc; flows_fetch_q := q;
     regs_fetch_q := regs_fetch_q rc; rc_flags := rc_flags rc |}.

Definition set_regs_fetch_q (rc : rl_ctrl) (q : list regs_fetch_q_entry) : rl_ctrl :=
  {| upqueue := upqueue rc; upqueue_size := upqueue_size rc;
     flows_fetch_q := flows_fetch_q rc; regs_fetch_q := q; rc_flags := rc_flags rc |}.

Definition set_rc_flags (rc : rl_ctrl) (f : Z) : rl_ctrl :=
  {| upqueue := upqueue rc; upqueue_size := upqueue_size rc;
     flows_fetch_q := flows_fetch_q rc; regs_fetch_q := regs_fetch_q rc; rc_flags := f |}.

(** [struct registered_appl]; [app_rc] is the address of the control
    device that registered the name. *)
Record registered_appl := {
  app_name : string;
  app_rc : nat;
  app_event_id : Z;
  app_ipcp : nat;
  app_state : Z;
  app_refcnt : Z
}.

Definition registered_appl_zero : registered_appl :=
  {| app_name := EmptyString; app_rc := O; app_event_id := 0; app_ipcp := O;
     app_state := 0; app_refcnt := 0 |}.

Definition set_app_refcnt (a : registered_appl) (v : Z) : registered_appl :=
  {| app_name := app_name a; app_rc := app_rc a; app_event_id := app_event_id a;
     app_ipcp := app_ipcp a; app_state := app_state a; app_refcnt := v |}.

Definition set_app_state (a : registered_appl) (v : Z) : registered_appl :=
  {| app_name := app_name a; app_rc := app_rc a; app_event_id := app_event_id a;
     app_ipcp := app_ipcp a; app_state := v; app_refcnt := app_refcnt a |}.

(** [struct dif]. *)
Record dif := {
  dif_name : string;
  dif_ty : string;
  dif_max_pdu_size : Z;
  dif_refcnt : Z
}.

Definition set_dif_refcnt (d : dif) (v : Z) : dif :=
  {| dif_name := dif_name d; dif_ty := dif_ty d; dif_max_pdu_size := dif_max_pdu_size d;
     dif_refcnt := v |}.

Definition dif_zero : dif :=
  {| dif_name := EmptyString; dif_ty := EmptyString; dif_max_pdu_size := 0;
     dif_refcnt := 0 |}.

(** [struct ipcp_ops], the hooks of the factory that created the IPCP.
    Factory code is outside [ctrl-dev.c]: a hook is recorded by its
    presence ([None] is a NULL function pointer) and by the value it
    returns.  [ops_appl_register name reg] returns the hook's result,
    [ops_config name value] its result and the [notify] it writes,
    [ops_config_get name] its result and the text it leaves in [valbuf]. *)
Record ipcp_ops := {
  ops_appl_register : option (string -> bool -> Z);
  ops_config : option (string -> string -> Z * Z);
  ops_config_get : option (string -> Z * string);
  ops_pduft_flush : option Z;
  ops_flow_deallocated : bool
}.

Definition ipcp_ops_zero : ipcp_ops :=
  {| ops_appl_register := None; ops_config := None; ops_config_get := None;
     ops_pduft_flush := None; ops_flow_deallocated := false |}.

(** [struct ipcp_entry], with the fields [ctrl-dev.c] reads or writes.
    [ipcp_dif] and [uipcp] are addresses ([None] is NULL); [ipcp_priv]
    tells whether the factory constructor has run. *)
Record ipcp_entry := {
  ipcp_id : Z;
  ipcp_name : option string;
  ipcp_dif : option nat;
  ipcp_addr : Z;
  ipcp_flags : Z;
  txhdroom : Z;
  rxhdroom : Z;
  tailroom : Z;
  max_sdu_size : Z;
  pcisizes : Z;
  flow_del_wait_ms : Z;
  ipcp_refcnt : Z;
  registered_appls : list nat;
  uipcp : option nat;
  ipcp_priv : bool;
  ops : ipcp_ops
}.

Definition ipcp_zero : ipcp_entry :=
  {| ipcp_id := 0; ipcp_name := None; ipcp_dif := None; ipcp_addr := 0; ipcp_flags := 0;
     txhdroom := 0; rxhdroom := 0; tailroom := 0; max_sdu_size := 0; pcisizes := 0;
     flow_del_wait_ms := 0; ipcp_refcnt := 0; registered_appls := []; uipcp := None;
     ipcp_priv := false; ops := ipcp_ops_zero |}.

Definition set_ipcp_flags (x : ipcp_entry) (v : Z) : ipcp_entry :=
  {| ipcp_id := ipcp_id x; ipcp_name := ipcp_name x; ipcp_dif := ipcp_dif x; ipcp_addr
     := ipcp_addr x; ipcp_flags := v; txhdroom := txhdroom x; rxhdroom := rxhdroom x;
     tailroom := tailroom x; max_sdu_size := max_sdu_size x; pcisizes := pcisizes x;
     flow_del_wait_ms := flow_del_wait_ms x; ipcp_refcnt := ipcp_refcnt x;
     registered_appls := registered_appls x; uipcp := uipcp x; ipcp_priv := ipcp_priv x;
     ops := ops x |}.

Definition set_txhdroom (x : ipcp_entry) (v : Z) : ipcp_entry :=
  {| ipcp_id := ipcp_id x; ipcp_name := ipcp_name x; ipcp_dif := ipcp_dif x; ipcp_addr
     := ipcp_addr x; ipcp_flags := ipcp_flags x; txhdroom := v; rxhdroom := rxhdroom x;
     tailroom := tailroom x; max_sdu_size := max_sdu_size x; pcisizes := pcisizes x;
     flow_del_wait_ms := flow_del_wait_ms x; ipcp_refcnt := ipcp_refcnt x;
     registered_appls := registered_appls x; uipcp := uipcp x; ipcp_priv := ipcp_priv x;
     ops := ops x |}.

Definition set_rxhdroom (x : ipcp_entry) (v : Z) : ipcp_entry :=
  {| ipcp_id := ipcp_id x; ipcp_name := ipcp_name x; ipcp_dif := ipcp_dif x; ipcp_addr
     := ipcp_addr x; ipcp_flags := ipcp_flags x; txhdroom := txhdroom x; rxhdroom := v;
     tailroom := tailroom x; max_sdu_size := max_sdu_size x; pcisizes := pcisizes x;
     flow_del_wait_ms := flow_del_wait_ms x; ipcp_refcnt := ipcp_refcnt x;
     registered_appls := registered_appls x; uipcp := uipcp x; ipcp_priv := ipcp_priv x;
     ops := ops x |}.

Definition set_max_sdu_size (x : ipcp_entry) (v : Z) : ipcp_entry :=
  {| ipcp_id := ipcp_id x; ipcp_name := ipcp_name x; ipcp_dif := ipcp_dif x; ipcp_addr
     := ipcp_addr x; ipcp_flags := ipcp_flags x; txhdroom := txhdroom x; rxhdroom :=
     rxhdroom x; tailroom := tailroom x; max_sdu_size := v; pcisizes := pcisizes x;
     flow_del_wait_ms := flow_del_wait_ms x; ipcp_refcnt := ipcp_refcnt x;
     registered_appls := registered_appls x; uipcp := uipcp x; ipcp_priv := ipcp_priv x;
     ops := ops x |}.

Definition set_flow_del_wait_ms (x : ipcp_entry) (v : Z) : ipcp_entry :=
  {| ipcp_id := ipcp_id x; ipcp_name := ipcp_name x; ipcp_dif := ipcp_dif x; ipcp_addr
     := ipcp_addr x; ipcp_flags := ipcp_flags x; txhdroom := txhdroom x; rxhdroom :=
     rxhdroom x; tailroom := tailroom x; max_sdu_size := max_sdu_size x; pcisizes :=
     pcisizes x; flow_del_wait_ms := v; ipcp_refcnt := ipcp_refcnt x; registered_appls
     := registered_appls x; uipcp := uipcp x; ipcp_priv := ipcp_priv x; ops := ops x |}.

Definition set_ipcp_refcnt (x : ipcp_entry) (v : Z) : ipcp_entry :=
  {| ipcp_id := ipcp_id x; ipcp_name := ipcp_name x; ipcp_dif := ipcp_dif x; ipcp_addr
     := ipcp_addr x; ipcp_flags := ipcp_flags x; txhdroom := txhdroom x; rxhdroom :=
     rxhdroom x; tailroom := tailroom x; max_sdu_size := max_sdu_size x; pcisizes :=
     pcisizes x; flow_del_wait_ms := flow_del_wait_ms x; ipcp_refcnt := v;
     registered_appls := registered_appls x; uipcp := uipcp x; ipcp_priv := ipcp_priv x;
     ops := ops x |}.

Definition set_registered_appls (x : ipcp_entry) (v : list nat) : ipcp_entry :=
  {| ipcp_id := ipcp_id x; ipcp_name := ipcp_name x; ipcp_dif := ipcp_dif x; ipcp_addr
     := ipcp_addr x; ipcp_flags := ipcp_flags x; txhdroom := txhdroom x; rxhdroom :=
     rxhdroom x; tailroom := tailroom x; max_sdu_size := max_sdu_size x; pcisizes :=
     pcisizes x; flow_del_wait_ms := flow_del_wait_ms x; ipcp_refcnt := ipcp_refcnt x;
     registered_appls := v; uipcp := uipcp x; ipcp_priv := ipcp_priv x; ops := ops x |}.

(** [struct flow_entry], with the fields [ctrl-dev.c] reads or writes.
    [txrx_ipcp] is the address of the IPCP that supports the flow,
    [upper_rc] and [upper_ipcp] the upper binding. *)
Record flow_entry := {
  local_port : Z;
  local_cep : Z;
  remote_port : Z;
  remote_addr : Z;
  uid : Z;
  flow_flags : Z;
  flow_refcnt : Z;
  expires : Z;
  txrx_ipcp : nat;
  txrx_flags : Z;
  upper_rc : option nat;
  upper_ipcp : option nat;
  flow_spec : Z;
  cfg_dtcp_flags : Z
}.

Definition flow_zero : flow_entry :=
  {| local_port := 0; local_cep := 0; remote_port := 0; remote_addr := 0; uid := 0;
     flow_flags := 0; flow_refcnt := 0; expires := 0; txrx_ipcp := O; txrx_flags := 0;
     upper_rc := None; upper_ipcp := None; flow_spec := 0; cfg_dtcp_flags := 0 |}.

Definition set_flow_flags (x : flow_entry) (v : Z) : flow_entry :=
  {| local_port := local_port x; local_cep := local_cep x; remote_port := remote_port x;
     remote_addr := remote_addr x; uid := uid x; flow_flags := v; flow_refcnt :=
     flow_refcnt x; expires := expires x; txrx_ipcp := txrx_ipcp x; txrx_flags :=
     txrx_flags x; upper_rc := upper_rc x; upper_ipcp := upper_ipcp x; flow_spec :=
     flow_spec x; cfg_dtcp_flags := cfg_dtcp_flags x |}.

Definition set_flow_refcnt (x : flow_entry) (v : Z) : flow_entry :=
  {| local_port := local_port x; local_cep := local_cep x; remote_port := remote_port x;
     remote_addr := remote_addr x; uid := uid x; flow_flags := flow_flags x; flow_refcnt
     := v; expires := expires x; txrx_ipcp := txrx_ipcp x; txrx_flags := txrx_flags x;
     upper_rc := upper_rc x; upper_ipcp := upper_ipcp x; flow_spec := flow_spec x;
     cfg_dtcp_flags := cfg_dtcp_flags x |}.

Definition set_expires (x : flow_entry) (v : Z) : flow_entry :=
  {| local_port := local_port x; local_cep := local_cep x; remote_port := remote_port x;
     remote_addr := remote_addr x; uid := uid x; flow_flags := flow_flags x; flow_refcnt
     := flow_refcnt x; expires := v; txrx_ipcp := txrx_ipcp x; txrx_flags := txrx_flags
     x; upper_rc := upper_rc x; upper_ipcp := upper_ipcp x; flow_spec := flow_spec x;
     cfg_dtcp_flags := cfg_dtcp_flags x |}.

Definition set_txrx_flags (x : flow_entry) (v : Z) : flow_entry :=
  {| local_port := local_port x; local_cep := local_cep x; remote_port := remote_port x;
     remote_addr := remote_addr x; uid := uid x; flow_flags := flow_flags x; flow_refcnt
     := flow_refcnt x; expires := expires x; txrx_ipcp := txrx_ipcp x; txrx_flags := v;
     upper_rc := upper_rc x; upper_ipcp := upper_ipcp x; flow_spec := flow_spec x;
     cfg_dtcp_flags := cfg_dtcp_flags x |}.

Definition set_cfg_dtcp_flags (x : flow_entry) (v : Z) : flow_entry :=
  {| local_port := local_port x; local_cep := local_cep x; remote_port := remote_port x;
     remote_addr := remote_addr x; uid := uid x; flow_flags := flow_flags x; flow_refcnt
     := flow_refcnt x; expires := expires x; txrx_ipcp := txrx_ipcp x; txrx_flags :=
     txrx_flags x; upper_rc := upper_rc x; upper_ipcp := upper_ipcp x; flow_spec :=
     flow_spec x; cfg_dtcp_flags := v |}.

(** [struct rl_dm], the data model of one network namespace, together
    with the object stores its pointers refer to.  Hash tables are arrays
    of buckets, each bucket the chain of the objects hashed there;
    bitmaps are integers read with [Z.testbit].  [flows_putq_tmr] is the
    expiration the put-queue timer is armed to, [flows_removew] and
    [appl_removew] tell whether the work item is scheduled. *)
Record rl_dm := {
  ipcp_mem : list ipcp_entry;
  flow_mem : list flow_entry;
  dif_mem : list dif;
  rc_mem : list rl_ctrl;
  app_mem : list registered_appl;
  ipcp_id_bitmap : Z;
  ipcp_table : list (list nat);
  port_id_bitmap : Z;
  flow_table : list (list nat);
  flow_table_by_cep : list (list nat);
  uid_cnt : Z;
  cep_id_bitmap : Z;
  difs : list nat;
  ctrl_devs : list nat;
  appl_removeq : list nat;
  appl_removew : bool;
  flows_putq_tmr : option Z;
  flows_removeq : list nat;
  flows_putq : list nat;
  flows_removew : bool
}.

Definition set_ipcp_mem (x : rl_dm) (v : list ipcp_entry) : rl_dm :=
  {| ipcp_mem := v; flow_mem := flow_mem x; dif_mem := dif_mem x; rc_mem := rc_mem x;
     app_mem := app_mem x; ipcp_id_bitmap := ipcp_id_bitmap x; ipcp_table := ipcp_table
     x; port_id_bitmap := port_id_bitmap x; flow_table := flow_table x;
     flow_table_by_cep := flow_table_by_cep x; uid_cnt := uid_cnt x; cep_id_bitmap :=
     cep_id_bitmap x; difs := difs x; ctrl_devs := ctrl_devs x; appl_removeq :=
     appl_removeq x; appl_removew := appl_removew x; flows_putq_tmr := flows_putq_tmr x;
     flows_removeq := flows_removeq x; flows_putq := flows_putq x; flows_removew :=
     flows_removew x |}.

Definition set_flow_mem (x : rl_dm) (v : list flow_entry) : rl_dm :=
  {| ipcp_mem := ipcp_mem x; flow_mem := v; dif_mem := dif_mem x; rc_mem := rc_mem x;
     app_mem := app_mem x; ipcp_id_bitmap := ipcp_id_bitmap x; ipcp_table := ipcp_table
     x; port_id_bitmap := port_id_bitmap x; flow_table := flow_table x;
     flow_table_by_cep := flow_table_by_cep x; uid_cnt := uid_cnt x; cep_id_bitmap :=
     cep_id_bitmap x; difs := difs x; ctrl_devs := ctrl_devs x; appl_removeq :=
     appl_removeq x; appl_removew := appl_removew x; flows_putq_tmr := flows_putq_tmr x;
     flows_removeq := flows_removeq x; flows_putq := flows_putq x; flows_removew :=
     flows_removew x |}.

Definition set_dif_mem (x : rl_dm) (v : list dif) : rl_dm :=
  {| ipcp_mem := ipcp_mem x; flow_mem := flow_mem x; dif_mem := v; rc_mem := rc_mem x;
     app_mem := app_mem x; ipcp_id_bitmap := ipcp_id_bitmap x; ipcp_table := ipcp_table
     x; port_id_bitmap := port_id_bitmap x; flow_table := flow_table x;
     flow_table_by_cep := flow_table_by_cep x; uid_cnt := uid_cnt x; cep_id_bitmap :=
     cep_id_bitmap x; difs := difs x; ctrl_devs := ctrl_devs x; appl_removeq :=
     appl_removeq x; appl_removew := appl_removew x; flows_putq_tmr := flows_putq_tmr x;
     flows_removeq := flows_removeq x; flows_putq := flows_putq x; flows_removew :=
     flows_removew x |}.

Definition set_rc_mem (x : rl_dm) (v : list rl_ctrl) : rl_dm :=
  {| ipcp_mem := ipcp_mem x; flow_mem := flow_mem x; dif_mem := dif_mem x; rc_mem := v;
     app_mem := app_mem x; ipcp_id_bitmap := ipcp_id_bitmap x; ipcp_table := ipcp_table
     x; port_id_bitmap := port_id_bitmap x; flow_table := flow_table x;
     flow_table_by_cep := flow_table_by_cep x; uid_cnt := uid_cnt x; cep_id_bitmap :=
     cep_id_bitmap x; difs := difs x; ctrl_devs := ctrl_devs x; appl_removeq :=
     appl_removeq x; appl_removew := appl_removew x; flows_putq_tmr := flows_putq_tmr x;
     flows_removeq := flows_removeq x; flows_putq := flows_putq x; flows_removew :=
     flows_removew x |}.

Definition set_app_mem (x : rl_dm) (v : list registered_appl) : rl_dm :=
  {| ipcp_mem := ipcp_mem x; flow_mem := flow_mem x; dif_mem := dif_mem x; rc_mem :=
     rc_mem x; app_mem := v; ipcp_id_bitmap := ipcp_id_bitmap x; ipcp_table :=
     ipcp_table x; port_id_bitmap := port_id_bitmap x; flow_table := flow_table x;
     flow_table_by_cep := flow_table_by_cep x; uid_cnt := uid_cnt x; cep_id_bitmap :=
     cep_id_bitmap x; difs := difs x; ctrl_devs := ctrl_devs x; appl_removeq :=
     appl_removeq x; appl_removew := appl_removew x; flows_putq_tmr := flows_putq_tmr x;
     flows_removeq := flows_removeq x; flows_putq := flows_putq x; flows_removew :=
     flows_removew x |}.

Definition set_uid_cnt (x : rl_dm) (v : Z) : rl_dm :=
  {| ipcp_mem := ipcp_mem x; flow_mem := flow_mem x; dif_mem := dif_mem x; rc_mem :=
     rc_mem x; app_mem := app_mem x; ipcp_id_bitmap := ipcp_id_bitmap x; ipcp_table :=
     ipcp_table x; port_id_bitmap := port_id_bitmap x; flow_table := flow_table x;
     flow_table_by_cep := flow_table_by_cep x; uid_cnt := v; cep_id_bitmap :=
     cep_id_bitmap x; difs := difs x; ctrl_devs := ctrl_devs x; appl_removeq :=
     appl_removeq x; appl_removew := appl_removew x; flows_putq_tmr := flows_putq_tmr x;
     flows_removeq := flows_removeq x; flows_putq := flows_putq x; flows_removew :=
     flows_removew x |}.

Definition set_ipcp_id_bitmap (x : rl_dm) (v : Z) : rl_dm :=
  {| ipcp_mem := ipcp_mem x; flow_mem := flow_mem x; dif_mem := dif_mem x; rc_mem :=
     rc_mem x; app_mem := app_mem x; ipcp_id_bitmap := v; ipcp_table := ipcp_table x;
     port_id_bitmap := port_id_bitmap x; flow_table := flow_table x; flow_table_by_cep
     := flow_table_by_cep x; uid_cnt := uid_cnt x; cep_id_bitmap := cep_id_bitmap x;
     difs := difs x; ctrl_devs := ctrl_devs x; appl_removeq := appl_removeq x;
     appl_removew := appl_removew x; flows_putq_tmr := flows_putq_tmr x; flows_removeq
     := flows_removeq x; flows_putq := flows_putq x; flows_removew := flows_removew x
     |}.

Definition set_ipcp_table (x : rl_dm) (v : list (list nat)) : rl_dm :=
  {| ipcp_mem := ipcp_mem x; flow_mem := flow_mem x; dif_mem := dif_mem x; rc_mem :=
     rc_mem x; app_mem := app_mem x; ipcp_id_bitmap := ipcp_id_bitmap x; ipcp_table :=
     v; port_id_bitmap := port_id_bitmap x; flow_table := flow_table x;
     flow_table_by_cep := flow_table_by_cep x; uid_cnt := uid_cnt x; cep_id_bitmap :=
     cep_id_bitmap x; difs := difs x; ctrl_devs := ctrl_devs x; appl_removeq :=
     appl_removeq x; appl_removew := appl_removew x; flows_putq_tmr := flows_putq_tmr x;
     flows_removeq := flows_removeq x; flows_putq := flows_putq x; flows_removew :=
     flows_removew x |}.

Definition set_port_id_bitmap (x : rl_dm) (v : Z) : rl_dm :=
  {| ipcp_mem := ipcp_mem x; flow_mem := flow_mem x; dif_mem := dif_mem x; rc_mem :=
     rc_mem x; app_mem := app_mem x; ipcp_id_bitmap := ipcp_id_bitmap x; ipcp_table :=
     ipcp_table x; port_id_bitmap := v; flow_table := flow_table x; flow_table_by_cep :=
     flow_table_by_cep x; uid_cnt := uid_cnt x; cep_id_bitmap := cep_id_bitmap x; difs
     := difs x; ctrl_devs := ctrl_devs x; appl_removeq := appl_removeq x; appl_removew
     := appl_removew x; flows_putq_tmr := flows_putq_tmr x; flows_removeq :=
     flows_removeq x; flows_putq := flows_putq x; flows_removew := flows_removew x |}.

Definition set_flow_table (x : rl_dm) (v : list (list nat)) : rl_dm :=
  {| ipcp_mem := ipcp_mem x; flow_mem := flow_mem x; dif_mem := dif_mem x; rc_mem :=
     rc_mem x; app_mem := app_mem x; ipcp_id_bitmap := ipcp_id_bitmap x; ipcp_table :=
     ipcp_table x; port_id_bitmap := port_id_bitmap x; flow_table := v;
     flow_table_by_cep := flow_table_by_cep x; uid_cnt := uid_cnt x; cep_id_bitmap :=
     cep_id_bitmap x; difs := difs x; ctrl_devs := ctrl_devs x; appl_removeq :=
     appl_removeq x; appl_removew := appl_removew x; flows_putq_tmr := flows_putq_tmr x;
     flows_removeq := flows_removeq x; flows_putq := flows_putq x; flows_removew :=
     flows_removew x |}.

Definition set_flow_table_by_cep (x : rl_dm) (v : list (list nat)) : rl_dm :=
  {| ipcp_mem := ipcp_mem x; flow_mem := flow_mem x; dif_mem := dif_mem x; rc_mem :=
     rc_mem x; app_mem := app_mem x; ipcp_id_bitmap := ipcp_id_bitmap x; ipcp_table :=
     ipcp_table x; port_id_bitmap := port_id_bitmap x; flow_table := flow_table x;
     flow_table_by_cep := v; uid_cnt := uid_cnt x; cep_id_bitmap := cep_id_bitmap x;
     difs := difs x; ctrl_devs := ctrl_devs x; appl_removeq := appl_removeq x;
     appl_removew := appl_removew x; flows_putq_tmr := flows_putq_tmr x; flows_removeq
     := flows_removeq x; flows_putq := flows_putq x; flows_removew := flows_removew x
     |}.

Definition set_cep_id_bitmap (x : rl_dm) (v : Z) : rl_dm :=
  {| ipcp_mem := ipcp_mem x; flow_mem := flow_mem x; dif_mem := dif_mem x; rc_mem :=
     rc_mem x; app_mem := app_mem x; ipcp_id_bitmap := ipcp_id_bitmap x; ipcp_table :=
     ipcp_table x; port_id_bitmap := port_id_bitmap x; flow_table := flow_table x;
     flow_table_by_cep := flow_table_by_cep x; uid_cnt := uid_cnt x; cep_id_bitmap := v;
     difs := difs x; ctrl_devs := ctrl_devs x; appl_removeq := appl_removeq x;
     appl_removew := appl_removew x; flows_putq_tmr := flows_putq_tmr x; flows_removeq
     := flows_removeq x; flows_putq := flows_putq x; flows_removew := flows_removew x
     |}.

Definition set_difs (x : rl_dm) (v : list nat) : rl_dm :=
  {| ipcp_mem := ipcp_mem x; flow_mem := flow_mem x; dif_mem := dif_mem x; rc_mem :=
     rc_mem x; app_mem := app_mem x; ipcp_id_bitmap := ipcp_id_bitmap x; ipcp_table :=
     ipcp_table x; port_id_bitmap := port_id_bitmap x; flow_table := flow_table x;
     flow_table_by_cep := flow_table_by_cep x; uid_cnt := uid_cnt x; cep_id_bitmap :=
     cep_id_bitmap x; difs := v; ctrl_devs := ctrl_devs x; appl_removeq := appl_removeq
     x; appl_removew := appl_removew x; flows_putq_tmr := flows_putq_tmr x;
     flows_removeq := flows_removeq x; flows_putq := flows_putq x; flows_removew :=
     flows_removew x |}.

Definition set_appl_removeq (x : rl_dm) (v : list nat) : rl_dm :=
  {| ipcp_mem := ipcp_mem x; flow_mem := flow_mem x; dif_mem := dif_mem x; rc_mem :=
     rc_mem x; app_mem := app_mem x; ipcp_id_bitmap := ipcp_id_bitmap x; ipcp_table :=
     ipcp_table x; port_id_bitmap := port_id_bitmap x; flow_table := flow_table x;
     flow_table_by_cep := flow_table_by_cep x; uid_cnt := uid_cnt x; cep_id_bitmap :=
     cep_id_bitmap x; difs := difs x; ctrl_devs := ctrl_devs x; appl_removeq := v;
     appl_removew := appl_removew x; flows_putq_tmr := flows_putq_tmr x; flows_removeq
     := flows_removeq x; flows_putq := flows_putq x; flows_removew := flows_removew x
     |}.

Definition set_appl_removew (x : rl_dm) (v : bool) : rl_dm :=
  {| ipcp_mem := ipcp_mem x; flow_mem := flow_mem x; dif_mem := dif_mem x; rc_mem :=
     rc_mem x; app_mem := app_mem x; ipcp_id_bitmap := ipcp_id_bitmap x; ipcp_table :=
     ipcp_table x; port_id_bitmap := port_id_bitmap x; flow_table := flow_table x;
     flow_table_by_cep := flow_table_by_cep x; uid_cnt := uid_cnt x; cep_id_bitmap :=
     cep_id_bitmap x; difs := difs x; ctrl_devs := ctrl_devs x; appl_removeq :=
     appl_removeq x; appl_removew := v; flows_putq_tmr := flows_putq_tmr x;
     flows_removeq := flows_removeq x; flows_putq := flows_putq x; flows_removew :=
     flows_removew x |}.

Definition set_flows_putq_tmr (x : rl_dm) (v : option Z) : rl_dm :=
  {| ipcp_mem := ipcp_mem x; flow_mem := flow_mem x; dif_mem := dif_mem x; rc_mem :=
     rc_mem x; app_mem := app_mem x; ipcp_id_bitmap := ipcp_id_bitmap x; ipcp_table :=
     ipcp_table x; port_id_bitmap := port_id_bitmap x; flow_table := flow_table x;
     flow_table_by_cep := flow_table_by_cep x; uid_cnt := uid_cnt x; cep_id_bitmap :=
     cep_id_bitmap x; difs := difs x; ctrl_devs := ctrl_devs x; appl_removeq :=
     appl_removeq x; appl_removew := appl_removew x; flows_putq_tmr := v; flows_removeq
     := flows_removeq x; flows_putq := flows_putq x; flows_removew := flows_removew x
     |}.

Definition set_flows_removeq (x : rl_dm) (v : list nat) : rl_dm :=
  {| ipcp_mem := ipcp_mem x; flow_mem := flow_mem x; dif_mem := dif_mem x; rc_mem :=
     rc_mem x; app_mem := app_mem x; ipcp_id_bitmap := ipcp_id_bitmap x; ipcp_table :=
     ipcp_table x; port_id_bitmap := port_id_bitmap x; flow_table := flow_table x;
     flow_table_by_cep := flow_table_by_cep x; uid_cnt := uid_cnt x; cep_id_bitmap :=
     cep_id_bitmap x; difs := difs x; ctrl_devs := ctrl_devs x; appl_removeq :=
     appl_removeq x; appl_removew := appl_removew x; flows_putq_tmr := flows_putq_tmr x;
     flows_removeq := v; flows_putq := flows_putq x; flows_removew := flows_removew x
     |}.

Definition set_flows_putq (x : rl_dm) (v : list nat) : rl_dm :=
  {| ipcp_mem := ipcp_mem x; flow_mem := flow_mem x; dif_mem := dif_mem x; rc_mem :=
     rc_mem x; app_mem := app_mem x; ipcp_id_bitmap := ipcp_id_bitmap x; ipcp_table :=
     ipcp_table x; port_id_bitmap := port_id_bitmap x; flow_table := flow_table x;
     flow_table_by_cep := flow_table_by_cep x; uid_cnt := uid_cnt x; cep_id_bitmap :=
     cep_id_bitmap x; difs := difs x; ctrl_devs := ctrl_devs x; appl_removeq :=
     appl_removeq x; appl_removew := appl_removew x; flows_putq_tmr := flows_putq_tmr x;
     flows_removeq := flows_removeq x; flows_putq := v; flows_removew := flows_removew x
     |}.

Definition set_flows_removew (x : rl_dm) (v : bool) : rl_dm :=
  {| ipcp_mem := ipcp_mem x; flow_mem := flow_mem x; dif_mem := dif_mem x; rc_mem :=
     rc_mem x; app_mem := app_mem x; ipcp_id_bitmap := ipcp_id_bitmap x; ipcp_table :=
     ipcp_table x; port_id_bitmap := port_id_bitmap x; flow_table := flow_table x;
     flow_table_by_cep := flow_table_by_cep x; uid_cnt := uid_cnt x; cep_id_bitmap :=
     cep_id_bitmap x; difs := difs x; ctrl_devs := ctrl_devs x; appl_removeq :=
     appl_removeq x; appl_removew := appl_removew x; flows_putq_tmr := flows_putq_tmr x;
     flows_removeq := flows_removeq x; flows_putq := flows_putq x; flows_removew := v
     |}.


(** What the kernel and the message codec provide and [ctrl-dev.c] only
    uses: the serializer of [rlite/utils], [sizeof(struct upqueue_entry)],
    Linux's [hash_min] and [msecs_to_jiffies], the number of the one
    [ioctl] command, [RLITE_IOCTL_CHFLAGS], the null address
    [RL_ADDR_NULL], the invalid port id [RL_PORT_ID_NONE], the timeout of
    unbound flows [RL_UNBOUND_FLOW_TO] in jiffies, the flow-control bit
    [DTCP_CFG_FLOW_CTRL] of the DTCP configuration, and
    [rl_iodevs_shutdown_by_ipcp] of the I/O devices, which shuts down
    flows of an IPCP and touches nothing but flows. *)
Record kernel := {
  serialize_rlite_msg : rl_msg -> list byte;
  sizeof_upqueue_entry : Z;
  hash_min : Z -> Z -> nat;
  msecs_to_jiffies : Z -> Z;
  RLITE_IOCTL_CHFLAGS : Z;
  RL_ADDR_NULL : Z;
  RL_PORT_ID_NONE : Z;
  RL_UNBOUND_FLOW_TO : Z;
  DTCP_CFG_FLOW_CTRL : Z;
  rl_iodevs_shutdown_by_ipcp : list flow_entry -> nat -> list flow_entry
}.

(** Reading and writing the objects of a data model through a pointer. *)
Definition ipcp_at (dm : rl_dm) (p : nat) : ipcp_entry := deref ipcp_zero (ipcp_mem dm) p.
Definition flow_at (dm : rl_dm) (p : nat) : flow_entry := deref flow_zero (flow_mem dm) p.
Definition dif_at (dm : rl_dm) (p : nat) : dif := deref dif_zero (dif_mem dm) p.
Definition rc_at (dm : rl_dm) (p : nat) : rl_ctrl := deref rl_ctrl_zero (rc_mem dm) p.
Definition app_at (dm : rl_dm) (p : nat) : registered_appl :=
  deref registered_appl_zero (app_mem dm) p.

Definition ipcp_store (dm : rl_dm) (p : nat) (e : ipcp_entry) : rl_dm :=
  set_ipcp_mem dm (store (ipcp_mem dm) p e).
Definition flow_store (dm : rl_dm) (p : nat) (f : flow_entry) : rl_dm :=
  set_flow_mem dm (store (flow_mem dm) p f).
Definition dif_store (dm : rl_dm) (p : nat) (d : dif) : rl_dm :=
  set_dif_mem dm (store (dif_mem dm) p d).
Definition rc_store (dm : rl_dm) (p : nat) (rc : rl_ctrl) : rl_dm :=
  set_rc_mem dm (store (rc_mem dm) p rc).
Definition app_store (dm : rl_dm) (p : nat) (a : registered_appl) : rl_dm :=
  set_app_mem dm (store (app_mem dm) p a).

(** Linux hash tables ([hashtable.h]) over pointers. *)
Module Hash.

(** [hash_for_each]: every bucket in turn, each chain from its head. *)
Definition for_each (t : list (list nat)) : list nat := concat t.

(** The chain at [&table[h]]. *)
Definition bucket (t : list (list nat)) (h : nat) : list nat := nth h t [].

(** [hash_add]: link at the head of the chain of bucket [h]. *)
Definition add (t : list (list nat)) (h : nat) (p : nat) : list (list nat) :=
  store t h (p :: bucket t h).

(** [hash_del]: unlink the node from the chain it is on. *)
Definition del (t : list (list nat)) (p : nat) : list (list nat) :=
  map (filter (fun q => negb (Nat.eqb q p))) t.

(** [hash_init] for a table of [2 ^ bits] buckets. *)
Definition init (bits : Z) : list (list nat) := repeat [] (Z.to_nat (2 ^ bits)).

End Hash.

(** Linux bitmaps ([bitmap.h]) as integers. *)
Module Bitmap.

Definition set (b : Z) (i : Z) : Z := Z.setbit b i.
Definition clear (b : Z) (i : Z) : Z := Z.clearbit b i.

Fixpoint scan (b : Z) (i : Z) (n : nat) : Z :=
  match n with
  | O => i
  | S n' => if Z.testbit b i then scan b (i + 1) n' else i
  end.

(** [bitmap_find_next_zero_area(b, size, 0, 1, 0)] of [lib/bitmap.c]:
    [index] is what [find_next_zero_bit] returns, the first clear bit
    among the first [size] and [size] when all are set; the area of one
    bit ends at [index + 1], and an area that ends beyond [size] makes
    the function return that end, so a full map gives [size + 1]. *)
Definition find_first_zero (b : Z) (size : Z) : Z :=
  let index := scan b 0 (Z.to_nat size) in
  let end_ := index + 1 in
  if size <? end_ then end_ else index.

End Bitmap.

(* ===================================================================== *)
(** ** The upstream queue of a control device *)
(* ===================================================================== *)

(** What a producer that sleeps in [rl_upqueue_append] sees when it runs
    again: the value of [jiffies] it reads, and what the other users of
    the device (the reader, other producers) did to the device while the
    queue lock was released. *)
Record upq_wait := {
  wait_jiffies : Z;
  wait_interference : rl_ctrl -> rl_ctrl
}.

(** The same for a reader sleeping in [rl_ctrl_read]: whether a signal is
    pending when it finds the queue empty, and what happened to the
    device while it slept in [schedule()]. *)
Record read_wait := {
  rw_signal_pending : bool;
  rw_interference : rl_ctrl -> rl_ctrl
}.

(** Outcome of [rl_ctrl_read]: the return value, the device, the bytes
    copied to the user buffer, the file position and whether the writers
    sleeping on the queue were woken up. *)
Record read_result := {
  rd_ret : Z;
  rd_rc : rl_ctrl;
  rd_buf : option (list byte);
  rd_ppos : Z;
  rd_wake_writers : bool
}.

Section Upqueue.

Variable K : kernel.

(** [upqentry_size]: [entry->serlen + sizeof( *entry )], returned as an
    [unsigned int]. *)
Definition upqentry_size (entry : upqueue_entry) : Z :=
  u32 (serlen entry + sizeof_upqueue_entry K).

(** The entry built by [rl_upqueue_append] for a message. *)
Definition upqueue_entry_of (rmsg : rl_msg) : upqueue_entry :=
  {| sermsg := serialize_rlite_msg K rmsg;
     serlen := u32 (Z.of_nat (length (serialize_rlite_msg K rmsg))) |}.

(** The [for (;;)] loop of [rl_upqueue_append].  Each turn takes the
    queue lock and compares the accounted size with the budget; a
    producer that may sleep reads [jiffies] and, before the deadline
    [exp], sleeps and tries again.  The result is [None] when the
    supplied observations end before the loop does. *)
Fixpoint upqueue_append_loop (rc : rl_ctrl) (entry : upqueue_entry) (maysleep : bool)
    (exp : Z) (env : list upq_wait) {struct env} : option (Z * rl_ctrl) :=
  if RL_UPQUEUE_SIZE_MAX <? u32 (upqueue_size rc + upqentry_size entry) then
    (* No free space in the queue. *)
    if negb maysleep then Some (- ENOSPC, rc)
    else
      match env with
      | [] => None
      | w :: env' =>
          if negb (time_before (wait_jiffies w) exp) then Some (- ENOSPC, rc)
          else upqueue_append_loop (wait_interference w rc) entry maysleep exp env'
      end
  else
    Some (0, set_upqueue rc (upqueue rc ++ [entry])
               (u32 (upqueue_size rc + upqentry_size entry))).

(** [rl_upqueue_append] on a non-NULL device.  [alloc_ok] tells whether
    the two allocations succeed, [jiffies] is the time at entry. *)
Definition rl_upqueue_append (rc : rl_ctrl) (rmsg : rl_msg) (maysleep : bool)
    (alloc_ok : bool) (jiffies : Z) (env : list upq_wait) : option (Z * rl_ctrl) :=
  if negb alloc_ok then Some (- ENOMEM, rc)
  else
    let entry := upqueue_entry_of rmsg in
    let exp := ulong (jiffies + msecs_to_jiffies K 5) in
    upqueue_append_loop rc entry maysleep exp env.

(** A producer that cannot sleep needs no observation. *)
Definition rl_upqueue_append_atomic (rc : rl_ctrl) (rmsg : rl_msg) : Z * rl_ctrl :=
  match rl_upqueue_append rc rmsg false true 0 [] with
  | Some r => r
  | None => (- ENOSPC, rc)
  end.

(** The [while (len)] loop of [rl_ctrl_read]. *)
Fixpoint rl_ctrl_read_loop (rc : rl_ctrl) (ppos len : Z) (blocking copy_ok : bool)
    (env : list read_wait) {struct env} : option read_result :=
  match upqueue rc with
  | [] =>
      (* No pending messages? Let's sleep. *)
      match env with
      | [] => None
      | w :: env' =>
          if rw_signal_pending w then
            Some {| rd_ret := - ERESTARTSYS; rd_rc := rc; rd_buf := None;
                    rd_ppos := ppos; rd_wake_writers := false |}
          else if negb blocking then
            Some {| rd_ret := - EAGAIN; rd_rc := rc; rd_buf := None;
                    rd_ppos := ppos; rd_wake_writers := false |}
          else rl_ctrl_read_loop (rw_interference w rc) ppos len blocking copy_ok env'
      end
  | entry :: rest =>
      if len <? serlen entry then
        (* Not enough space? Don't pop the entry from the upqueue. *)
        Some {| rd_ret := - ENOBUFS; rd_rc := rc; rd_buf := None;
                rd_ppos := ppos; rd_wake_writers := false |}
      else if negb copy_ok then
        Some {| rd_ret := - EFAULT; rd_rc := rc; rd_buf := None;
                rd_ppos := ppos; rd_wake_writers := false |}
      else
        let ret := to_int (serlen entry) in
        Some {| rd_ret := ret;
                rd_rc := set_upqueue rc rest (u32 (upqueue_size rc - upqentry_size entry));
                rd_buf := Some (sermsg entry);
                rd_ppos := ppos + ret;
                rd_wake_writers := 0 <? ret |}
  end.

(** [rl_ctrl_read]: [len] is the size of the user buffer, [blocking]
    is [!(f->f_flags & O_NONBLOCK)], [copy_ok] tells whether
    [copy_to_user] succeeds. *)
Definition rl_ctrl_read (rc : rl_ctrl) (ppos len : Z) (blocking copy_ok : bool)
    (env : list read_wait) : option read_result :=
  if len =? 0 then
    Some {| rd_ret := 0; rd_rc := rc; rd_buf := None; rd_ppos := ppos;
            rd_wake_writers := false |}
  else rl_ctrl_read_loop rc ppos len blocking copy_ok env.

(** [rl_ctrl_poll]: readable iff the queue is not empty, always
    writable. *)
Definition rl_ctrl_poll (rc : rl_ctrl) : bool * bool :=
  (match upqueue rc with [] => false | _ => true end, true).

(** The size of a queue as the specification measures it: the sum of
    [entry_len + entry_header] over the queued entries. *)
Definition upqueue_bytes (q : list upqueue_entry) : Z :=
  fold_right (fun e acc => serlen e + sizeof_upqueue_entry K + acc) 0 q.

(** An entry is well formed when its length is that of its buffer and
    the entry fits the [unsigned int] accounting with room to spare. *)
Definition upqueue_entry_ok (e : upqueue_entry) : Prop :=
  0 <= serlen e /\ serlen e + sizeof_upqueue_entry K < 2 ^ 31.

(** The accounting invariant of a device. *)
Definition upqueue_inv (rc : rl_ctrl) : Prop :=
  Forall upqueue_entry_ok (upqueue rc) /\
  upqueue_size rc = upqueue_bytes (upqueue rc) /\
  upqueue_bytes (upqueue rc) <= RL_UPQUEUE_SIZE_MAX.

(** The device after the first [k] interferences of a wait trace. *)
Fixpoint after_waits (rc : rl_ctrl) (env : list upq_wait) (k : nat) : rl_ctrl :=
  match k, env with
  | S k', w :: env' => after_waits (wait_interference w rc) env' k'
  | _, _ => rc
  end.

End Upqueue.

(** A message fits the accounting when its serialization, together with
    the entry header, is far from the range of an [unsigned int]. *)
Definition msg_fits (K : kernel) (rmsg : rl_msg) : Prop :=
  Z.of_nat (length (serialize_rlite_msg K rmsg)) + sizeof_upqueue_entry K < 2 ^ 31.

(** Whatever the other users of a device do while a task sleeps keeps
    the accounting invariant. *)
Definition upq_env_ok (K : kernel) (env : list upq_wait) : Prop :=
  Forall (fun w => forall rc, upqueue_inv K rc -> upqueue_inv K (wait_interference w rc)) env.

Definition read_env_ok (K : kernel) (env : list read_wait) : Prop :=
  Forall (fun w => forall rc, upqueue_inv K rc -> upqueue_inv K (rw_interference w rc)) env.

(* ===================================================================== *)
(** ** The message dispatcher *)
(* ===================================================================== *)

(** The numbers of the request types the dispatcher names, from the
    [enum] of [rlite/kernel-msg.h], and [RLITE_KER_MSG_MAX]. *)
Record rl_ker_msg_types := {
  RLITE_KER_IPCP_CREATE : Z;
  RLITE_KER_IPCP_DESTROY : Z;
  RLITE_KER_IPCP_CONFIG : Z;
  RLITE_KER_IPCP_PDUFT_SET : Z;
  RLITE_KER_IPCP_PDUFT_FLUSH : Z;
  RLITE_KER_APPL_REGISTER_RESP : Z;
  RLITE_KER_IPCP_UIPCP_SET : Z;
  RLITE_KER_UIPCP_FA_REQ_ARRIVED : Z;
  RLITE_KER_UIPCP_FA_RESP_ARRIVED : Z;
  RLITE_KER_FLOW_DEALLOC : Z;
  RLITE_KER_FLOW_FETCH : Z;
  RLITE_KER_MSG_MAX : Z
}.

(** What the caller and the kernel contribute to one [write]: whether
    the temporary buffer can be allocated, whether [copy_from_user]
    succeeds, and whether the caller has [CAP_SYS_ADMIN]. *)
Record write_env := {
  kbuf_alloc_ok : bool;
  copy_from_user_ok : bool;
  capable_sys_admin : bool
}.

Section Dispatcher.

Variable N : rl_ker_msg_types.

(** The state the handlers work on (the data model and the device). *)
Variable St : Type.

(** A decoded request ([struct rl_msg_base] and its extensions) and its
    [hdr.msg_type]. *)
Variable msg : Type.
Variable msg_type : msg -> Z.

(** [deserialize_rlite_msg] of the message codec: [None] when it returns
    a non-zero value. *)
Variable deserialize_rlite_msg : list byte -> option msg.

(** [sizeof(struct rl_msg_base)]. *)
Variable sizeof_rl_msg_base : Z.

(** The signature of a message handler. *)
Definition rl_msg_handler_t : Type := St -> msg -> Z * St.

(** Outcome of a [write]: the return value, the state, the file position
    and the type of the request whose handler was invoked, if any. *)
Record write_result := {
  wr_ret : Z;
  wr_state : St;
  wr_ppos : Z;
  wr_dispatched : option Z
}.

(** The [switch] that checks permissions: the cases that require
    [CAP_SYS_ADMIN]. *)
Definition privileged (ty : Z) : bool :=
  existsb (Z.eqb ty)
    [RLITE_KER_IPCP_CREATE N; RLITE_KER_IPCP_DESTROY N; RLITE_KER_IPCP_CONFIG N;
     RLITE_KER_IPCP_PDUFT_SET N; RLITE_KER_IPCP_PDUFT_FLUSH N;
     RLITE_KER_APPL_REGISTER_RESP N; RLITE_KER_IPCP_UIPCP_SET N;
     RLITE_KER_UIPCP_FA_REQ_ARRIVED N; RLITE_KER_UIPCP_FA_RESP_ARRIVED N;
     RLITE_KER_FLOW_DEALLOC N].

(** [rl_ctrl_write]: [handlers] is the table [rc->handlers] ([None] is
    a NULL entry), [ubuf] the bytes of the user buffer. *)
Definition rl_ctrl_write (handlers : Z -> option rl_msg_handler_t) (st : St)
    (ubuf : list byte) (ppos : Z) (env : write_env) : write_result :=
  let len := Z.of_nat (length ubuf) in
  let fail (e : Z) := {| wr_ret := - e; wr_state := st; wr_ppos := ppos;
                         wr_dispatched := None |} in
  if len <? sizeof_rl_msg_base then fail EINVAL
  else if negb (kbuf_alloc_ok env) then fail ENOMEM
  else if negb (copy_from_user_ok env) then fail EFAULT
  else
    match deserialize_rlite_msg ubuf with
    | None => fail EINVAL
    | Some bmsg =>
        let ty := msg_type bmsg in
        (* Demultiplex the message to the right message handler. *)
        if RLITE_KER_MSG_MAX N <? ty then fail EINVAL
        else
          match handlers ty with
          | None => fail EINVAL
          | Some handler =>
              (* Check permissions. *)
              if privileged ty && negb (capable_sys_admin env) then fail EPERM
              else
                (* Carry out the requested operation. *)
                let (ret, st') := handler st bmsg in
                if negb (ret =? 0) then
                  {| wr_ret := ret; wr_state := st'; wr_ppos := ppos;
                     wr_dispatched := Some ty |}
                else
                  {| wr_ret := len; wr_state := st'; wr_ppos := ppos + len;
                     wr_dispatched := Some ty |}
          end
    end.

End Dispatcher.

Arguments wr_ret {St} _.
Arguments wr_state {St} _.
Arguments wr_ppos {St} _.
Arguments wr_dispatched {St} _.

(* ===================================================================== *)
(** ** DIFs and IPC processes *)
(* ===================================================================== *)

(** [struct rl_kmsg_ipcp_create], the request of [IPCP_CREATE]. *)
Record rl_kmsg_ipcp_create := {
  icr_event_id : Z;
  icr_name : string;
  icr_dif_name : string;
  icr_dif_type : string
}.

(** [list_del_init] on a list of pointers. *)
Definition list_del (l : list nat) (p : nat) : list nat :=
  filter (fun q => negb (Nat.eqb q p)) l.

Section Ipcps.

Variable K : kernel.

(** [dif_get]: take a reference to the DIF called [name], creating it if
    needed; a DIF of that name and another type is an error.  The result
    is the DIF (NULL on error), [*err] and the data model. *)
Definition dif_get (dm : rl_dm) (name ty : string) : option nat * Z * rl_dm :=
  match find (fun cur => String.eqb (dif_name (dif_at dm cur)) name) (difs dm) with
  | Some cur =>
      (* A DIF called 'dif_name' already exists. *)
      if String.eqb (dif_ty (dif_at dm cur)) ty then
        (Some cur, 0,
         dif_store dm cur (set_dif_refcnt (dif_at dm cur)
                             (u32 (dif_refcnt (dif_at dm cur) + 1))))
      else (None, - EINVAL, dm)
  | None =>
      (* A DIF called 'dif_name' does not exist yet. *)
      let cur := length (dif_mem dm) in
      let d := {| dif_name := name; dif_ty := ty; dif_max_pdu_size := 8000;
                  dif_refcnt := 1 |} in
      (Some cur, 0, set_difs (set_dif_mem dm (dif_mem dm ++ [d])) (difs dm ++ [cur]))
  end.

(** [dif_put]. *)
Definition dif_put (dm : rl_dm) (d : option nat) : rl_dm :=
  match d with
  | None => dm
  | Some d =>
      let o := dif_at dm d in
      let r := u32 (dif_refcnt o - 1) in
      let dm1 := dif_store dm d (set_dif_refcnt o r) in
      if negb (r =? 0) then dm1 else set_difs dm1 (list_del (difs dm1) d)
  end.

(** The DIF of an IPCP, [entry->dif]. *)
Definition ipcp_dif_at (dm : rl_dm) (entry : ipcp_entry) : dif :=
  match ipcp_dif entry with
  | Some d => dif_at dm d
  | None => dif_zero
  end.

(** The chain walk of [__ipcp_get]. *)
Definition ipcp_lookup (dm : rl_dm) (id : Z) : option nat :=
  find (fun p => ipcp_id (ipcp_at dm p) =? id)
       (Hash.bucket (ipcp_table dm) (hash_min K id IPCP_HASHTABLE_BITS)).

(** [__ipcp_get]: look an IPCP up by id and take a reference. *)
Definition __ipcp_get (dm : rl_dm) (id : Z) : option nat * rl_dm :=
  match ipcp_lookup dm id with
  | Some p =>
      let entry := ipcp_at dm p in
      (Some p, ipcp_store dm p (set_ipcp_refcnt entry (u32 (ipcp_refcnt entry + 1))))
  | None => (None, dm)
  end.

(** The body of the scan of [ipcp_select_by_dif] over the entries that
    [hash_for_each] visits; [selected] is the running choice. *)
Fixpoint ipcp_select_scan (dm : rl_dm) (dname : option string) (selected : option nat)
    (l : list nat) : option nat :=
  match l with
  | [] => selected
  | p :: l' =>
      let entry := ipcp_at dm p in
      if has_flag (ipcp_flags entry) RL_K_IPCP_ZOMBIE then
        (* Zombie ipcps cannot be selected. *)
        ipcp_select_scan dm dname selected l'
      else
        match dname with
        | None =>
            (* The request does not specify a DIF: select any DIF,
               giving priority to higher ranked normal DIFs. *)
            let better :=
              match selected with
              | None => true
              | Some s =>
                  String.eqb (dif_ty (ipcp_dif_at dm entry)) "normal"
                  && (negb (String.eqb (dif_ty (ipcp_dif_at dm (ipcp_at dm s))) "normal")
                      || (txhdroom (ipcp_at dm s) <? txhdroom entry))
              end in
            ipcp_select_scan dm dname (if better then Some p else selected) l'
        | Some name =>
            if String.eqb (dif_name (ipcp_dif_at dm entry)) name then Some p
            else ipcp_select_scan dm dname selected l'
        end
  end.

(** [ipcp_select_by_dif]: the selected IPCP, with a reference taken. *)
Definition ipcp_select_by_dif (dm : rl_dm) (dname : option string) : option nat * rl_dm :=
  match ipcp_select_scan dm dname None (Hash.for_each (ipcp_table dm)) with
  | Some s =>
      let entry := ipcp_at dm s in
      (Some s, ipcp_store dm s (set_ipcp_refcnt entry (u32 (ipcp_refcnt entry + 1))))
  | None => (None, dm)
  end.

(** [ipcp_add_entry]: the return value, [*pentry] and the data model. *)
Definition ipcp_add_entry (dm : rl_dm) (req : rl_kmsg_ipcp_create)
  : Z * option nat * rl_dm :=
  (* Check if an IPC process with that name already exists. *)
  if existsb (fun cur => match ipcp_name (ipcp_at dm cur) with
                         | Some n => String.eqb n (icr_name req)
                         | None => false
                         end) (Hash.for_each (ipcp_table dm))
  then (- EINVAL, None, dm)
  else
    (* Create or take a reference to the specified DIF. *)
    match dif_get dm (icr_dif_name req) (icr_dif_type req) with
    | (None, ret, dm1) => (ret, None, dm1)
    | (Some d, _, dm1) =>
        (* Try to alloc an IPC process id from the bitmap. *)
        let id := Bitmap.find_first_zero (ipcp_id_bitmap dm1) IPCP_ID_BITMAP_SIZE in
        if id <? IPCP_ID_BITMAP_SIZE then
          let entry :=
            {| ipcp_id := id; ipcp_name := Some (icr_name req); ipcp_dif := Some d;
               ipcp_addr := RL_ADDR_NULL K; ipcp_flags := 0; txhdroom := 0; rxhdroom := 0;
               tailroom := 0; max_sdu_size := Z.shiftl 1 16 - 1; pcisizes := 0;
               flow_del_wait_ms := 4000; ipcp_refcnt := 1; registered_appls := [];
               uipcp := None; ipcp_priv := false; ops := ipcp_ops_zero |} in
          let p := length (ipcp_mem dm1) in
          let dm2 := set_ipcp_mem dm1 (ipcp_mem dm1 ++ [entry]) in
          let dm3 := set_ipcp_id_bitmap dm2 (Bitmap.set (ipcp_id_bitmap dm2) id) in
          (0, Some p,
           set_ipcp_table dm3
             (Hash.add (ipcp_table dm3) (hash_min K id IPCP_HASHTABLE_BITS) p))
        else (- ENOSPC, None, dif_put dm1 (Some d))
    end.

(** The [RL_IPCP_UPDATE_DEL] message of [__ipcp_put]: all the fields
    but the id are zeroed. *)
Definition ipcp_del_update (ut : rl_ipcp_update_t) (id : Z) : rl_msg :=
  RLITE_KER_IPCP_UPDATE
    {| upd_event_id := 0; upd_update_type := ut; upd_ipcp_id := id;
       upd_ipcp_addr := 0; upd_txhdroom := 0; upd_rxhdroom := 0; upd_tailroom := 0;
       upd_max_sdu_size := 0; upd_pcisizes := 0; upd_ipcp_name := None;
       upd_dif_name := None; upd_dif_type := None |}.

(** Upqueue a message to each opened control device that subscribed to
    the IPCP updates; the producer cannot sleep and failures are
    ignored. *)
Definition upqueue_broadcast (dm : rl_dm) (m : rl_msg) : rl_dm :=
  fold_left
    (fun d rcur =>
       if has_flag (rc_flags (rc_at d rcur)) RL_F_IPCPS
       then rc_store d rcur (snd (rl_upqueue_append_atomic K (rc_at d rcur) m))
       else d)
    (ctrl_devs dm) dm.

(** [__ipcp_put]: drop a reference; the last one unlinks the IPCP from
    the table and the bitmap, releases its DIF and broadcasts the
    [DEL] update. *)
Definition __ipcp_put (dm : rl_dm) (entry : option nat) : Z * rl_dm :=
  match entry with
  | None => (0, dm)
  | Some p =>
      let e := ipcp_at dm p in
      let r := u32 (ipcp_refcnt e - 1) in
      let dm1 := ipcp_store dm p (set_ipcp_refcnt e r) in
      if negb (r =? 0) then (0, dm1)
      else
        let dm2 := set_ipcp_table dm1 (Hash.del (ipcp_table dm1) p) in
        let dm3 := set_ipcp_id_bitmap dm2 (Bitmap.clear (ipcp_id_bitmap dm2) (ipcp_id e)) in
        let dm4 := dif_put dm3 (ipcp_dif e) in
        (0, upqueue_broadcast dm4 (ipcp_del_update RL_IPCP_UPDATE_DEL (ipcp_id e)))
  end.

(** [ipcp_update_fill]. *)
Definition ipcp_update_fill (dm : rl_dm) (ipcp : ipcp_entry) (update_type : rl_ipcp_update_t)
  : rl_kmsg_ipcp_update :=
  {| upd_event_id := 0; upd_update_type := update_type; upd_ipcp_id := ipcp_id ipcp;
     upd_ipcp_addr := ipcp_addr ipcp; upd_txhdroom := txhdroom ipcp;
     upd_rxhdroom := rxhdroom ipcp; upd_tailroom := tailroom ipcp;
     upd_max_sdu_size := max_sdu_size ipcp; upd_pcisizes := pcisizes ipcp;
     upd_ipcp_name := ipcp_name ipcp;
     upd_dif_name := option_map (fun d => dif_name (dif_at dm d)) (ipcp_dif ipcp);
     upd_dif_type := option_map (fun d => dif_ty (dif_at dm d)) (ipcp_dif ipcp) |}.

(** [ipcp_update_all]. *)
Definition ipcp_update_all (dm : rl_dm) (id : Z) (update_type : rl_ipcp_update_t)
  : Z * rl_dm :=
  match __ipcp_get dm id with
  | (None, _) => (- ENXIO, dm)
  | (Some p, dm1) =>
      let upd := ipcp_update_fill dm1 (ipcp_at dm1 p) update_type in
      let dm2 := upqueue_broadcast dm1 (RLITE_KER_IPCP_UPDATE upd) in
      (0, snd (__ipcp_put dm2 (Some p)))
  end.

End Ipcps.

(* ===================================================================== *)
(** ** Registered applications *)
(* ===================================================================== *)

Section Applications.

Variable K : kernel.

(** [__ipcp_application_get]: the first application of the IPCP with
    that name, with a reference taken. *)
Definition __ipcp_application_get (dm : rl_dm) (ipcp : nat) (appl_name : string)
  : option nat * rl_dm :=
  match find (fun a => String.eqb (app_name (app_at dm a)) appl_name)
             (registered_appls (ipcp_at dm ipcp)) with
  | Some app =>
      (Some app,
       app_store dm app (set_app_refcnt (app_at dm app) (u32 (app_refcnt (app_at dm app) + 1))))
  | None => (None, dm)
  end.

(** [appl_del]: tell the kernel-side hook, if any, and release the
    reference the registration holds on its IPCP. *)
Definition appl_del (dm : rl_dm) (app : nat) : rl_dm :=
  snd (__ipcp_put K dm (Some (app_ipcp (app_at dm app)))).

(** [appl_removew_func]: the worker that runs the deferred removals. *)
Definition appl_removew_func (dm : rl_dm) : rl_dm :=
  fold_left appl_del (appl_removeq dm) (set_appl_removew (set_appl_removeq dm []) false).

(** [ipcp_application_put]. *)
Definition ipcp_application_put (dm : rl_dm) (app : option nat) : rl_dm :=
  match app with
  | None => dm
  | Some a =>
      let o := app_at dm a in
      let ipcp := app_ipcp o in
      let r := u32 (app_refcnt o - 1) in
      let dm1 := app_store dm a (set_app_refcnt o r) in
      if negb (r =? 0) then dm1
      else
        let e := ipcp_at dm1 ipcp in
        let dm2 := ipcp_store dm1 ipcp
                     (set_registered_appls e (list_del (registered_appls e) a)) in
        match ops_appl_register (ops e) with
        | Some _ =>
            (* Perform cleanup operation in process context. *)
            set_appl_removew (set_appl_removeq dm2 (appl_removeq dm2 ++ [a])) true
        | None =>
            (* No mutex required, perform the removal in current context. *)
            appl_del dm2 a
        end
  end.

(** [ipcp_application_add]; [alloc_ok] tells whether the allocations of
    the new entry and of its name succeed. *)
Definition ipcp_application_add (dm : rl_dm) (ipcp : nat) (appl_name : string) (rc : nat)
    (event_id : Z) (uipcp : bool) (alloc_ok : bool) : Z * rl_dm :=
  match __ipcp_application_get dm ipcp appl_name with
  | (Some app, dm1) =>
      let old_rc := app_rc (app_at dm1 app) in
      let dm2 := ipcp_application_put dm1 (Some app) in
      if Nat.eqb old_rc rc then
        (* This registration was already asked on this control device. *)
        (1, dm2)
      else
        (* Application was already registered on a different control device. *)
        (- EBUSY, dm2)
  | (None, _) =>
      (* Create a new registered application. *)
      if negb alloc_ok then (- ENOMEM, dm)
      else
        let newapp := length (app_mem dm) in
        let o := {| app_name := appl_name; app_rc := rc; app_event_id := event_id;
                    app_ipcp := ipcp;
                    app_state := if uipcp then APPL_REG_PENDING else APPL_REG_COMPLETE;
                    app_refcnt := 1 |} in
        let dm1 := set_app_mem dm (app_mem dm ++ [o]) in
        let e := ipcp_at dm1 ipcp in
        let dm2 := ipcp_store dm1 ipcp
                     (set_registered_appls e (registered_appls e ++ [newapp])) in
        let e2 := ipcp_at dm2 ipcp in
        let dm3 := ipcp_store dm2 ipcp (set_ipcp_refcnt e2 (u32 (ipcp_refcnt e2 + 1))) in
        match ops_appl_register (ops e2) with
        | Some hook =>
            let ret := hook appl_name true in
            if negb (ret =? 0) then (ret, ipcp_application_put dm3 (Some newapp))
            else (ret, dm3)
        | None => (0, dm3)
        end
  end.

(** [ipcp_application_get]. *)
Definition ipcp_application_get (dm : rl_dm) (ipcp : nat) (appl_name : string)
  : option nat * rl_dm :=
  __ipcp_application_get dm ipcp appl_name.

(** [ipcp_application_del]. *)
Definition ipcp_application_del (dm : rl_dm) (ipcp : nat) (appl_name : string) : Z * rl_dm :=
  match ipcp_application_get dm ipcp appl_name with
  | (None, _) => (- EINVAL, dm)
  | (Some app, dm1) =>
      let dm2 := ipcp_application_put dm1 (Some app) in (* To match ipcp_application_get(). *)
      (0, ipcp_application_put dm2 (Some app))            (* To remove the application. *)
  end.

(** [application_steal]: to be called under the registration lock; [l]
    is the list of the caller. *)
Definition application_steal (dm : rl_dm) (appl : nat) (l : list nat) : rl_dm * list nat :=
  let o := app_at dm appl in
  if app_refcnt o =? 1 then
    (* Just move the reference. *)
    let e := ipcp_at dm (app_ipcp o) in
    (ipcp_store dm (app_ipcp o)
       (set_registered_appls e (list_del (registered_appls e) appl)),
     l ++ [appl])
  else
    (app_store dm appl (set_app_refcnt o (u32 (app_refcnt o - 1))), l).

(** [ipcp_del]: mark the IPCP as a zombie, unregister its applications,
    shut its flows down and drop the reference of the table. *)
Definition ipcp_del (dm : rl_dm) (id : Z) : Z * rl_dm :=
  if IPCP_ID_BITMAP_SIZE <=? id then (- ENXIO, dm)
  else
    match __ipcp_get K dm id with
    | (None, _) => (- ENXIO, dm)
    | (Some p, dm1) =>
        let dm2 := snd (__ipcp_put K dm1 (Some p)) in (* To match the ipcp_get(). *)
        if has_flag (ipcp_flags (ipcp_at dm2 p)) RL_K_IPCP_ZOMBIE then (- ENXIO, dm2)
        else
          let e := ipcp_at dm2 p in
          let dm3 := ipcp_store dm2 p
                       (set_ipcp_flags e (set_flag (ipcp_flags e) RL_K_IPCP_ZOMBIE)) in
          (* Unregister all the applications associated to this IPCP. *)
          let '(dm4, remove_apps) :=
            fold_left (fun st app => application_steal (fst st) app (snd st))
                      (registered_appls (ipcp_at dm3 p)) (dm3, []) in
          let dm5 := fold_left (fun d app => ipcp_application_put d (Some app))
                               remove_apps dm4 in
          (* Shutdown all the allocated flows bound by user-space applications. *)
          let dm6 := set_flow_mem dm5 (rl_iodevs_shutdown_by_ipcp K (flow_mem dm5) p) in
          __ipcp_put K dm6 (Some p) (* Let the recount drop to 0. *)
    end.

End Applications.

(** Predicates used to state the properties of the selection. *)
Definition ipcp_is_zombie (dm : rl_dm) (p : nat) : bool :=
  has_flag (ipcp_flags (ipcp_at dm p)) RL_K_IPCP_ZOMBIE.

Definition ipcp_is_normal (dm : rl_dm) (p : nat) : bool :=
  String.eqb (dif_ty (ipcp_dif_at dm (ipcp_at dm p))) "normal".

(* ===================================================================== *)
(** ** Data model and control device life cycle *)
(* ===================================================================== *)

(** The data model that [rl_dm_get] builds for a namespace that has
    none: empty bitmaps, tables, lists and object stores.  The memory
    comes from [rl_alloc] without [__GFP_ZERO] and [uid_cnt] is never
    assigned: the counter starts at [uid0], whatever 32-bit value the
    memory held. *)
Definition rl_dm_init (uid0 : Z) : rl_dm :=
  {| ipcp_mem := []; flow_mem := []; dif_mem := []; rc_mem := []; app_mem := [];
     ipcp_id_bitmap := 0; ipcp_table := Hash.init IPCP_HASHTABLE_BITS;
     port_id_bitmap := 0; flow_table := Hash.init PORT_ID_HASHTABLE_BITS;
     flow_table_by_cep := Hash.init CEP_ID_HASHTABLE_BITS; uid_cnt := u32 uid0;
     cep_id_bitmap := 0; difs := []; ctrl_devs := []; appl_removeq := [];
     appl_removew := false; flows_putq_tmr := None; flows_removeq := [];
     flows_putq := []; flows_removew := false |}.

(** [rl_ctrl_open]: a new device with empty queues, linked at the tail
    of [ctrl_devs]. *)
Definition rl_ctrl_open (dm : rl_dm) : nat * rl_dm :=
  let rc := length (rc_mem dm) in
  (rc, {| ipcp_mem := ipcp_mem dm; flow_mem := flow_mem dm; dif_mem := dif_mem dm;
          rc_mem := rc_mem dm ++ [rl_ctrl_zero]; app_mem := app_mem dm;
          ipcp_id_bitmap := ipcp_id_bitmap dm; ipcp_table := ipcp_table dm;
          port_id_bitmap := port_id_bitmap dm; flow_table := flow_table dm;
          flow_table_by_cep := flow_table_by_cep dm; uid_cnt := uid_cnt dm;
          cep_id_bitmap := cep_id_bitmap dm; difs := difs dm;
          ctrl_devs := ctrl_devs dm ++ [rc]; appl_removeq := appl_removeq dm;
          appl_removew := appl_removew dm; flows_putq_tmr := flows_putq_tmr dm;
          flows_removeq := flows_removeq dm; flows_putq := flows_putq dm;
          flows_removew := flows_removew dm |}).

(* ===================================================================== *)
(** ** Subscription to the IPCP updates *)
(* ===================================================================== *)

Section Updates.

Variable K : kernel.

(** The [ADD] update that the replay builds for an IPCP. *)
Definition initial_update_of (dm : rl_dm) (entry : nat) : rl_msg :=
  RLITE_KER_IPCP_UPDATE (ipcp_update_fill dm (ipcp_at dm entry) RL_IPCP_UPDATE_ADD).

(** [initial_ipcp_update]: one [ADD] update per entry that
    [hash_for_each] visits, appended to the device by a producer that
    cannot sleep; the results of the appends are ignored. *)
Definition initial_ipcp_update (dm : rl_dm) (rc : nat) : Z * rl_dm :=
  (0, fold_left
        (fun d entry =>
           rc_store d rc
             (snd (rl_upqueue_append_atomic K (rc_at d rc) (initial_update_of d entry))))
        (Hash.for_each (ipcp_table dm)) dm).

(** [rl_ctrl_ioctl] on the device [rc]. *)
Definition rl_ctrl_ioctl (dm : rl_dm) (rc : nat) (cmd flags : Z) : Z * rl_dm :=
  let changed := u32 (Z.lxor flags (rc_flags (rc_at dm rc))) in
  (* We have only one command, to change the flags. *)
  if negb (cmd =? RLITE_IOCTL_CHFLAGS K) then (- EINVAL, dm)
  else if negb (Z.land flags (Z.lnot RL_F_ALL) =? 0) then (- EINVAL, dm)
  else
    let dm1 :=
      if negb (Z.land (Z.land changed flags) RL_F_IPCPS =? 0)
      then snd (initial_ipcp_update dm rc)   (* User turned on IPCP updates. *)
      else dm in
    (0, rc_store dm1 rc (set_rc_flags (rc_at dm1 rc) (u32 flags))).

(** The bytes the replay would add to a queue. *)
Definition replay_bytes (dm : rl_dm) (l : list nat) : Z :=
  upqueue_bytes K (map (fun p => upqueue_entry_of K (initial_update_of dm p)) l).

End Updates.

(* ===================================================================== *)
(** ** Flows: lookup, release and the put-queue *)
(* ===================================================================== *)

(** [struct rl_kmsg_flow_dealloc], the request of [FLOW_DEALLOC]. *)
Record rl_kmsg_flow_dealloc := {
  fd_event_id : Z;
  fd_port_id : Z;
  fd_uid : Z
}.

Section Flows.

Variable K : kernel.

(** [atomic_inc] and [atomic_dec] on the [atomic_t] reference counter. *)
Definition atomic_inc (v : Z) : Z := to_int (v + 1).
Definition atomic_dec (v : Z) : Z := to_int (v - 1).

(** [flow_lookup]: to be called under the flows lock. *)
Definition flow_lookup (dm : rl_dm) (port_id : Z) : option nat :=
  find (fun p => local_port (flow_at dm p) =? port_id)
       (Hash.bucket (flow_table dm) (hash_min K port_id PORT_ID_HASHTABLE_BITS)).

(** [flow_get]: look a flow up by port id and take a reference. *)
Definition flow_get (dm : rl_dm) (port_id : Z) : option nat * rl_dm :=
  match flow_lookup dm port_id with
  | Some flow =>
      let f := flow_at dm flow in
      (Some flow, flow_store dm flow (set_flow_refcnt f (atomic_inc (flow_refcnt f))))
  | None => (None, dm)
  end.

(** The insertion walk of [flows_putq_add]: stop at the first entry
    that expires after the flow and link the flow right before it, at
    the tail when there is none. *)
Fixpoint putq_insert (dm : rl_dm) (flow : nat) (q : list nat) : list nat :=
  match q with
  | [] => [flow]
  | cur :: q' =>
      if time_after (expires (flow_at dm cur)) (expires (flow_at dm flow))
      then flow :: cur :: q'
      else cur :: putq_insert dm flow q'
  end.

(** [flows_putq_add], to be called under the flows lock; [jiffies] is
    the current time. *)
Definition flows_putq_add (jiffies : Z) (dm : rl_dm) (flow : nat) (jdelta : Z) : rl_dm :=
  let f := flow_at dm flow in
  let dm1 := flow_store dm flow (set_flow_refcnt f (atomic_inc (flow_refcnt f))) in
  if expires (flow_at dm1 flow) =? EXPIRES_NONE then   (* don't insert twice *)
    let f1 := flow_at dm1 flow in
    let dm2 := flow_store dm1 flow (set_expires f1 (ulong (jiffies + jdelta))) in
    (* Insert flow in the putq, keeping the putq sorted by expiration
       time, in ascending order. *)
    let dm3 := set_flows_putq dm2 (putq_insert dm2 flow (flows_putq dm2)) in
    (* Adjust timer expiration according to the new first entry. *)
    match flows_putq dm3 with
    | cur :: _ => set_flows_putq_tmr dm3 (Some (expires (flow_at dm3 cur)))
    | [] => dm3
    end
  else dm1.

(** [__flow_put]: drop a reference.  The last release marks the flow
    deallocated and either postpones its removal, queueing it on the
    put-queue, or unlinks it and hands it to the removal worker.  The
    inactivity timers of the DTP state are outside this model. *)
Definition __flow_put (jiffies : Z) (dm : rl_dm) (entry : option nat) (lock : bool) : rl_dm :=
  match entry with
  | None => dm
  | Some p =>
      let e := flow_at dm p in
      let ipcp := ipcp_at dm (txrx_ipcp e) in
      let r := atomic_dec (flow_refcnt e) in
      let dm1 := flow_store dm p (set_flow_refcnt e r) in
      if negb (r =? 0) then dm1   (* Flow is still being used by someone. *)
      else
        let e1 := flow_at dm1 p in
        let dm2 := flow_store dm1 p
                     (set_flow_flags e1 (set_flag (flow_flags e1) RL_FLOW_DEALLOCATED)) in
        let e2 := flow_at dm2 p in
        if negb (has_flag (flow_flags e2) RL_FLOW_DEL_POSTPONED)
           && has_flag (flow_flags e2) RL_FLOW_ALLOCATED
           && negb (has_flag (flow_flags e2) RL_FLOW_NEVER_BOUND)
        then
          let dm3 := flow_store dm2 p
                       (set_flow_flags e2 (set_flag (flow_flags e2) RL_FLOW_DEL_POSTPONED)) in
          (* Reference counter is zero here, we need to reset it to 1
             and let the delayed remove function do its job. *)
          let e3 := flow_at dm3 p in
          let dm4 := flow_store dm3 p (set_flow_refcnt e3 (atomic_inc (flow_refcnt e3))) in
          flows_putq_add jiffies dm4 p (u32 (msecs_to_jiffies K (flow_del_wait_ms ipcp)))
        else
          (* Detach from tables. *)
          let dm3 := set_flow_table dm2 (Hash.del (flow_table dm2) p) in
          let dm4 := set_port_id_bitmap dm3
                       (Bitmap.clear (port_id_bitmap dm3) (local_port e2)) in
          let dm5 :=
            if has_flag (ipcp_flags ipcp) RL_K_IPCP_USE_CEP_IDS then
              set_cep_id_bitmap
                (set_flow_table_by_cep dm4 (Hash.del (flow_table_by_cep dm4) p))
                (Bitmap.clear (cep_id_bitmap dm4) (local_cep e2))
            else dm4 in
          (* Enqueue into the remove list and schedule the work. *)
          set_flows_removew (set_flows_removeq dm5 (flows_removeq dm5 ++ [p])) true
  end.

(** [flow_put(f)] is [__flow_put(f, true)]. *)
Definition flow_put (jiffies : Z) (dm : rl_dm) (entry : option nat) : rl_dm :=
  __flow_put jiffies dm entry true.

(** [flows_putq_del]. *)
Definition flows_putq_del (jiffies : Z) (dm : rl_dm) (flow : nat) : rl_dm :=
  let dm1 := flow_store dm flow (set_expires (flow_at dm flow) EXPIRES_NONE) in
  let dm2 := set_flows_putq dm1 (list_del (flows_putq dm1) flow) in
  flow_put jiffies dm2 (Some flow).

(** [flow_add]: allocate a port id (and a CEP id if the IPCP uses them),
    link the new flow in the tables and start the unbound timer.  The
    result is the return value, [*pentry] and the data model; [flowcfg]
    is the DTCP flag word of the configuration, if one is given.  With
    all the [PORT_ID_BITMAP_SIZE = 65536] port ids taken the search
    returns 65537, which the 16-bit [local_port] holds as 1: the test
    on the port id cannot fail. *)
Definition flow_add (jiffies : Z) (dm : rl_dm) (ipcp : nat) (upper_rc_ upper_ipcp_ : option nat)
    (flowcfg : option Z) (flowspec : Z) : Z * option nat * rl_dm :=
  if has_flag (ipcp_flags (ipcp_at dm ipcp)) RL_K_IPCP_ZOMBIE then
    (* Zombie ipcps don't accept new flows. *)
    (- ENXIO, None, dm)
  else
    let use_cep := has_flag (ipcp_flags (ipcp_at dm ipcp)) RL_K_IPCP_USE_CEP_IDS in
    (* [local_port] is an [rl_port_t], 16 bits wide, and [local_cep] an
       [rlm_cepid_t], 32 bits wide: the result of the search is
       truncated by the assignment. *)
    let port := u16 (Bitmap.find_first_zero (port_id_bitmap dm) PORT_ID_BITMAP_SIZE) in
    let cep := if use_cep
               then u32 (Bitmap.find_first_zero (cep_id_bitmap dm) CEP_ID_BITMAP_SIZE)
               else 0 in
    if (port <? PORT_ID_BITMAP_SIZE) && (cep <? CEP_ID_BITMAP_SIZE) then
      let entry := length (flow_mem dm) in
      let f := {| local_port := port; local_cep := cep; remote_port := RL_PORT_ID_NONE K;
                  remote_addr := RL_ADDR_NULL K; uid := uid_cnt dm;
                  flow_flags := Z.lor RL_FLOW_PENDING RL_FLOW_NEVER_BOUND;
                  flow_refcnt := atomic_inc 1; (* on behalf of the caller *)
                  expires := EXPIRES_NONE; txrx_ipcp := ipcp; txrx_flags := 0;
                  upper_rc := upper_rc_; upper_ipcp := upper_ipcp_; flow_spec := flowspec;
                  cfg_dtcp_flags := 0 |} in
      let dm1 := set_flow_mem dm (flow_mem dm ++ [f]) in
      let dm2 := set_port_id_bitmap dm1 (Bitmap.set (port_id_bitmap dm1) port) in
      let dm3 := if use_cep then set_cep_id_bitmap dm2 (Bitmap.set (cep_id_bitmap dm2) cep)
                 else dm2 in
      let dm4 := set_flow_table dm3
                   (Hash.add (flow_table dm3) (hash_min K port PORT_ID_HASHTABLE_BITS) entry) in
      let dm5 := if use_cep
                 then set_flow_table_by_cep dm4
                        (Hash.add (flow_table_by_cep dm4)
                                  (hash_min K cep CEP_ID_HASHTABLE_BITS) entry)
                 else dm4 in
      let dm6 := set_uid_cnt dm5 (u32 (uid_cnt dm5 + 1)) in
      (* Start the unbound timer *)
      let dm7 := flows_putq_add jiffies dm6 entry (RL_UNBOUND_FLOW_TO K) in
      let i := ipcp_at dm7 ipcp in
      let dm8 := ipcp_store dm7 ipcp (set_ipcp_refcnt i (u32 (ipcp_refcnt i + 1))) in
      let dm9 := match flowcfg with
                 | Some cfg => flow_store dm8 entry (set_cfg_dtcp_flags (flow_at dm8 entry) cfg)
                 | None => dm8
                 end in
      (0, Some entry, dm9)
    else (- ENOSPC, None, dm).

(** [flow_make_mortal]: the first binding of an I/O device to the flow
    stops the unbound timer. *)
Definition flow_make_mortal (jiffies : Z) (dm : rl_dm) (flow : option nat) : rl_dm :=
  match flow with
  | None => dm
  | Some p =>
      let f := flow_at dm p in
      if has_flag (flow_flags f) RL_FLOW_NEVER_BOUND then
        let dm1 := flow_store dm p
                     (set_flow_flags f (clear_flag (flow_flags f) RL_FLOW_NEVER_BOUND)) in
        let f1 := flow_at dm1 p in
        let dm2 := flow_store dm1 p (set_flow_refcnt f1 (atomic_dec (flow_refcnt f1))) in
        flows_putq_del jiffies dm2 p
      else dm
  end.

(** The walk of [flows_putq_drain] over the entries of the put-queue. *)
Fixpoint flows_putq_drain_loop (jiffies : Z) (dm : rl_dm) (q : list nat) : rl_dm :=
  match q with
  | [] => dm
  | flow :: q' =>
      if negb (time_before jiffies (expires (flow_at dm flow))) then
        let dm1 := set_flows_putq dm (list_del (flows_putq dm) flow) in
        let dm2 := flow_store dm1 flow (set_expires (flow_at dm1 flow) EXPIRES_NONE) in
        let dm3 := __flow_put jiffies dm2 (Some flow) false in (* match flows_putq_add() *)
        let dm4 := __flow_put jiffies dm3 (Some flow) false in
        flows_putq_drain_loop jiffies dm4 q'
      else dm (* We can stop here. *)
  end.

(** [flows_putq_drain]: the timer function of the put-queue.  The timer
    has fired; it is pending again only if the function re-arms it. *)
Definition flows_putq_drain (jiffies : Z) (dm : rl_dm) : rl_dm :=
  let dm1 := flows_putq_drain_loop jiffies dm (flows_putq dm) in
  (* Reschedule if needed. *)
  match flows_putq dm1 with
  | flow :: _ => set_flows_putq_tmr dm1 (Some (expires (flow_at dm1 flow)))
  | [] => set_flows_putq_tmr dm1 None
  end.

(** [rl_flow_shutdown]: set the end-of-file condition on an allocated
    flow; the flow stays linked. *)
Definition rl_flow_shutdown (dm : rl_dm) (flow : nat) : rl_dm :=
  let f := flow_at dm flow in
  if has_flag (flow_flags f) RL_FLOW_ALLOCATED then
    let dm1 := flow_store dm flow (set_txrx_flags f (set_flag (txrx_flags f) RL_TXRX_EOF)) in
    let f1 := flow_at dm1 flow in
    flow_store dm1 flow (set_flow_flags f1 (set_flag (flow_flags f1) RL_FLOW_DEALLOCATED))
  else dm.

(** [rl_flow_dealloc], the handler of [FLOW_DEALLOC]. *)
Definition rl_flow_dealloc (jiffies : Z) (dm : rl_dm) (req : rl_kmsg_flow_dealloc)
  : Z * rl_dm :=
  match flow_get dm (fd_port_id req) with
  | (Some flow, dm1) =>
      if uid (flow_at dm1 flow) =? fd_uid req then
        (0, flow_put jiffies (rl_flow_shutdown dm1 flow) (Some flow))
      else (- ENXIO, flow_put jiffies dm1 (Some flow))
  | (None, dm1) => (- ENXIO, flow_put jiffies dm1 None)
  end.

(** The put-queue is sorted when no entry expires after its successor. *)
Definition putq_sorted (dm : rl_dm) (q : list nat) : Prop :=
  Sorted
    (fun a b => time_after (expires (flow_at dm a)) (expires (flow_at dm b)) = false) q.

(** The expirations of the queued flows lie within a quarter of the
    range of [jiffies] around the current time. *)
Definition putq_window (jiffies : Z) (dm : rl_dm) (q : list nat) : Prop :=
  Forall (fun a => - 2 ^ 62 < tdiff (expires (flow_at dm a)) jiffies < 2 ^ 62) q.

(** The flow that [__flow_put] hands to [flows_putq_add] when it
    postpones the removal: marked, with one reference. *)
Definition postponed_flow (e : flow_entry) : flow_entry :=
  set_flow_refcnt
    (set_flow_flags e
       (set_flag (set_flag (flow_flags e) RL_FLOW_DEALLOCATED) RL_FLOW_DEL_POSTPONED)) 1.

(** The flow that [__flow_put] leaves in the store when it unlinks it. *)
Definition unlinked_flow (e : flow_entry) : flow_entry :=
  set_flow_flags (set_flow_refcnt e 0) (set_flag (flow_flags e) RL_FLOW_DEALLOCATED).

(** The test of [__flow_put] that postpones the removal of a flow. *)
Definition flow_postponable (f : flow_entry) : bool :=
  negb (has_flag (flow_flags f) RL_FLOW_DEL_POSTPONED)
  && has_flag (flow_flags f) RL_FLOW_ALLOCATED
  && negb (has_flag (flow_flags f) RL_FLOW_NEVER_BOUND).

End Flows.

(* ===================================================================== *)
(** ** Configuration of an IPCP *)
(* ===================================================================== *)

(** Linux's [kstrtox] family in base 10 and the ["%u"] conversion of
    [snprintf], which [ctrl-dev.c] uses to read and print the numeric
    parameters. *)
Module Kstrtox.

Definition ERANGE : Z := 34.

(** The value of a decimal digit, [None] for any other character. *)
Definition digit_val (c : ascii) : option Z :=
  let n := Z.of_N (N_of_ascii c) in
  if (48 <=? n) && (n <=? 57) then Some (n - 48) else None.

(** [_parse_integer]: consume the leading digits; the result is the
    value, the number of digits and the rest of the string. *)
Fixpoint _parse_integer (s : string) (acc : Z) (cnt : nat) : Z * nat * string :=
  match s with
  | EmptyString => (acc, cnt, s)
  | String c s' =>
      match digit_val c with
      | Some d => _parse_integer s' (acc * 10 + d) (S cnt)
      | None => (acc, cnt, s)
      end
  end.

(** [kstrtoull(s, 10, &res)]: an optional plus sign, at least one digit,
    an optional newline, and nothing else; the result is the return
    value and [res]. *)
Definition kstrtoull (s : string) : Z * Z :=
  let s1 := match s with
            | String "+"%char s' => s'
            | _ => s
            end in
  let '(v, cnt, rest) := _parse_integer s1 0 0 in
  if 2 ^ 64 <=? v then (- ERANGE, 0)
  else if Nat.eqb cnt 0 then (- EINVAL, 0)
  else
    let rest1 := match rest with
                 | String "010"%char r => r
                 | _ => rest
                 end in
    match rest1 with
    | EmptyString => (0, v)
    | _ => (- EINVAL, 0)
    end.

(** [kstrtou32] and [kstrtou16]: the value must fit the type. *)
Definition kstrtou32 (s : string) : Z * Z :=
  let (rv, tmp) := kstrtoull s in
  if rv <? 0 then (rv, 0)
  else if negb (tmp =? u32 tmp) then (- ERANGE, 0)
  else (0, tmp).

Definition kstrtou16 (s : string) : Z * Z :=
  let (rv, tmp) := kstrtoull s in
  if rv <? 0 then (rv, 0)
  else if negb (tmp =? u16 tmp) then (- ERANGE, 0)
  else (0, tmp).

Definition digit_char (d : Z) : ascii := ascii_of_N (Z.to_N (48 + d)).

(** The digits of [n], most significant first, in front of [acc]. *)
Fixpoint fmt_digits (fuel : nat) (n : Z) (acc : string) : string :=
  match fuel with
  | O => acc
  | S fuel' =>
      let acc' := String (digit_char (n mod 10)) acc in
      if n / 10 =? 0 then acc' else fmt_digits fuel' (n / 10) acc'
  end.

(** [snprintf(buf, 64, "%u", n)] for an unsigned value of at most 64
    bits: its decimal digits, no sign, no leading zero. *)
Definition fmt_u (n : Z) : string := fmt_digits 20 n EmptyString.

End Kstrtox.

(** [struct rl_kmsg_ipcp_config], the request of [IPCP_CONFIG]; the
    strings are [None] when the pointer is NULL. *)
Record rl_kmsg_ipcp_config := {
  icf_event_id : Z;
  icf_ipcp_id : Z;
  icf_name : option string;
  icf_value : option string
}.

(** [struct rl_kmsg_ipcp_config_get_req]. *)
Record rl_kmsg_ipcp_config_get_req := {
  icg_event_id : Z;
  icg_ipcp_id : Z;
  icg_param_name : option string
}.

Section Config.

Variable K : kernel.

(** [rl_configstr_to_u16]: the return value, [*dst] and [*changed]
    ([None] when [changed] is NULL). *)
Definition rl_configstr_to_u16 (src : string) (dst : Z) (changed : option Z)
  : Z * Z * option Z :=
  let (ret, v) := Kstrtox.kstrtou16 src in
  if ret =? 0 then
    (ret, v, option_map (fun _ => if negb (dst =? v) then 1 else 0) changed)
  else (ret, dst, changed).

(** [rl_configstr_to_u32]. *)
Definition rl_configstr_to_u32 (src : string) (dst : Z) (changed : option Z)
  : Z * Z * option Z :=
  let (ret, v) := Kstrtox.kstrtou32 src in
  if ret =? 0 then
    (ret, v, option_map (fun _ => if negb (dst =? v) then 1 else 0) changed)
  else (ret, dst, changed).

(** The parameters that [rl_ipcp_config] manages itself when the IPCP
    does not: the return value, the IPCP and [notify]. *)
Definition ipcp_config_core (entry : ipcp_entry) (name value : string) (notify : Z)
  : Z * ipcp_entry * Z :=
  if String.eqb name "txhdroom" then
    let '(ret, v, _) := rl_configstr_to_u16 value (txhdroom entry) None in
    (ret, set_txhdroom entry v, notify)
  else if String.eqb name "rxhdroom" then
    let '(ret, v, _) := rl_configstr_to_u16 value (rxhdroom entry) None in
    (ret, set_rxhdroom entry v, notify)
  else if String.eqb name "mss" then
    let '(ret, v, changed) := rl_configstr_to_u32 value (max_sdu_size entry) (Some notify) in
    (ret, set_max_sdu_size entry v, match changed with Some c => c | None => notify end)
  else if String.eqb name "flow-del-wait-ms" then
    let '(ret, v, _) := rl_configstr_to_u32 value (flow_del_wait_ms entry) None in
    (ret, set_flow_del_wait_ms entry v, notify)
  else (- EINVAL, entry, notify). (* unknown request *)

(** [rl_ipcp_config], the handler of [IPCP_CONFIG]. *)
Definition rl_ipcp_config (dm : rl_dm) (req : rl_kmsg_ipcp_config) : Z * rl_dm :=
  match icf_name req, icf_value req with
  | Some name, Some value =>
      match __ipcp_get K dm (icf_ipcp_id req) with
      | (None, _) => (- EINVAL, dm)
      | (Some p, dm1) =>
          let entry := ipcp_at dm1 p in
          (* Check if the IPCP knows how to change this parameter. *)
          let '(ret0, notify0) :=
            match ops_config (ops entry) with
            | Some hook => hook name value
            | None => (- ENOSYS, 0)
            end in
          let '(ret, entry', notify) :=
            if ret0 =? - ENOSYS then
              (* This operation was not managed by ops.config, let's see
                 if we can manage it here. *)
              ipcp_config_core entry name value notify0
            else (ret0, entry, notify0) in
          let dm2 := ipcp_store dm1 p entry' in
          let dm3 :=
            if (ret =? 0) && negb (notify =? 0)
            then snd (ipcp_update_all K dm2 (icf_ipcp_id req) RL_IPCP_UPDATE_UPD)
            else dm2 in
          (ret, snd (__ipcp_put K dm3 (Some p)))
      end
  | _, _ => (- EINVAL, dm)
  end.

(** The text that [rl_ipcp_config_get] prints for the parameters it
    manages itself. *)
Definition ipcp_config_get_core (entry : ipcp_entry) (name : string) : Z * string :=
  if String.eqb name "txhdroom" then (0, Kstrtox.fmt_u (txhdroom entry))
  else if String.eqb name "rxhdroom" then (0, Kstrtox.fmt_u (rxhdroom entry))
  else if String.eqb name "mss" then (0, Kstrtox.fmt_u (max_sdu_size entry))
  else if String.eqb name "flow-del-wait-ms" then (0, Kstrtox.fmt_u (flow_del_wait_ms entry))
  else (- EINVAL, EmptyString). (* unknown request *)

(** [rl_ipcp_config_get], the handler of [IPCP_CONFIG_GET_REQ], on the
    device [rc]; the response is appended by a producer that may sleep,
    so the call takes the current time and the observations of the
    wait. *)
Definition rl_ipcp_config_get (jiffies : Z) (env : list upq_wait) (dm : rl_dm) (rc : nat)
    (req : rl_kmsg_ipcp_config_get_req) : option (Z * rl_dm) :=
  match icg_param_name req with
  | None => Some (- EINVAL, dm)
  | Some name =>
      match __ipcp_get K dm (icg_ipcp_id req) with
      | (None, _) => Some (- EINVAL, dm)
      | (Some p, dm1) =>
          let entry := ipcp_at dm1 p in
          let '(ret0, valbuf0) :=
            match ops_config_get (ops entry) with
            | Some hook => hook name
            | None => (- ENOSYS, EmptyString)
            end in
          let '(ret, valbuf) :=
            if ret0 =? - ENOSYS then ipcp_config_get_core entry name
            else (ret0, valbuf0) in
          if ret =? 0 then
            let resp := RLITE_KER_IPCP_CONFIG_GET_RESP
                          {| cgr_event_id := icg_event_id req; cgr_param_value := valbuf |} in
            match rl_upqueue_append K (rc_at dm1 rc) resp true true jiffies env with
            | None => None
            | Some (ret', rc') =>
                Some (ret', snd (__ipcp_put K (rc_store dm1 rc rc') (Some p)))
            end
          else Some (ret, snd (__ipcp_put K dm1 (Some p)))
      end
  end.

End Config.

(* ===================================================================== *)
(** ** Fetch cursors *)
(* ===================================================================== *)

(** [struct rl_kmsg_flow_fetch] and [struct rl_kmsg_reg_fetch], the
    requests; [ipcp_id] is [0xffff] when no filter is asked for. *)
Record rl_kmsg_flow_fetch := {
  ff_event_id : Z;
  ff_ipcp_id : Z
}.

Record rl_kmsg_reg_fetch := {
  rf_event_id : Z;
  rf_ipcp_id : Z
}.

(** The terminators, zeroed by [memset] but for [end]. *)
Definition flow_fetch_end : rl_kmsg_flow_fetch_resp :=
  {| ffr_event_id := 0; ffr_end := 1; ffr_ipcp_id := 0; ffr_local_port := 0;
     ffr_remote_port := 0; ffr_local_addr := 0; ffr_remote_addr := 0; ffr_spec := 0;
     ffr_flow_control := 0 |}.

Definition reg_fetch_end : rl_kmsg_reg_fetch_resp :=
  {| rfr_event_id := 0; rfr_end := 1; rfr_ipcp_id := 0; rfr_pending := 0;
     rfr_appl_name := None |}.

Definition set_ffr_event_id (r : rl_kmsg_flow_fetch_resp) (ev : Z) : rl_kmsg_flow_fetch_resp :=
  {| ffr_event_id := ev; ffr_end := ffr_end r; ffr_ipcp_id := ffr_ipcp_id r;
     ffr_local_port := ffr_local_port r; ffr_remote_port := ffr_remote_port r;
     ffr_local_addr := ffr_local_addr r; ffr_remote_addr := ffr_remote_addr r;
     ffr_spec := ffr_spec r; ffr_flow_control := ffr_flow_control r |}.

Definition set_rfr_event_id (r : rl_kmsg_reg_fetch_resp) (ev : Z) : rl_kmsg_reg_fetch_resp :=
  {| rfr_event_id := ev; rfr_end := rfr_end r; rfr_ipcp_id := rfr_ipcp_id r;
     rfr_pending := rfr_pending r; rfr_appl_name := rfr_appl_name r |}.

(** [rl_alloc] and [rl_strdup] with [GFP_ATOMIC] may fail.  The outcomes
    of the allocations of a call are read from a list, in the order of
    the calls; past its end every allocation succeeds. *)
Definition rl_alloc (allocs : list bool) : bool * list bool :=
  match allocs with
  | [] => (true, [])
  | ok :: rest => (ok, rest)
  end.

(** The messages that successive requests with the event ids [evs] hand
    out from the queue [q]: the entries in order, each with the event id
    of its request. *)
Definition flow_fetch_msgs (evs : list Z) (q : list rl_kmsg_flow_fetch_resp) : list rl_msg :=
  map (fun x => RLITE_KER_FLOW_FETCH_RESP (set_ffr_event_id (snd x) (fst x))) (combine evs q).

Definition reg_fetch_msgs (evs : list Z) (q : list rl_kmsg_reg_fetch_resp) : list rl_msg :=
  map (fun x => RLITE_KER_REG_FETCH_RESP (set_rfr_event_id (snd x) (fst x))) (combine evs q).

Section Fetch.

Variable K : kernel.

(** The response that [rl_flow_fetch] fills for a flow. *)
Definition flow_fetch_resp_of (dm : rl_dm) (entry : nat) : rl_kmsg_flow_fetch_resp :=
  let f := flow_at dm entry in
  let ipcp := ipcp_at dm (txrx_ipcp f) in
  {| ffr_event_id := 0;
     ffr_end := 0;
     ffr_ipcp_id := ipcp_id ipcp;
     ffr_local_port := local_port f;
     ffr_remote_port := remote_port f;
     ffr_local_addr := ipcp_addr ipcp;
     ffr_remote_addr := remote_addr f;
     ffr_spec := flow_spec f;
     ffr_flow_control :=
       if Z.land (cfg_dtcp_flags f) (DTCP_CFG_FLOW_CTRL K) =? 0 then 0 else 1 |}.

(** The [hash_for_each] loop of [rl_flow_fetch] over the flows still to
    visit; [q] is the fetch queue as built so far.  A failed allocation
    leaves the loop. *)
Fixpoint flow_fetch_snapshot (dm : rl_dm) (id : Z) (entries : list nat)
    (q : list flows_fetch_q_entry) (allocs : list bool)
  : list flows_fetch_q_entry * list bool :=
  match entries with
  | [] => (q, allocs)
  | entry :: rest =>
      if negb (id =? 65535)
         && negb (ipcp_id (ipcp_at dm (txrx_ipcp (flow_at dm entry))) =? id) then
        (* Filter out this flow as user asked only for flows belonging
           to a specific IPCP. *)
        flow_fetch_snapshot dm id rest q allocs
      else
        let (ok, allocs') := rl_alloc allocs in
        if negb ok then (q, allocs')
        else flow_fetch_snapshot dm id rest (q ++ [flow_fetch_resp_of dm entry]) allocs'
  end.

(** [rl_flow_fetch], the handler of [FLOW_FETCH], on the device [rc].
    [allocs] gives the outcomes of the allocations of queue entries,
    [alloc_ok] tells whether those of the append succeed. *)
Definition rl_flow_fetch (dm : rl_dm) (rc : nat) (req : rl_kmsg_flow_fetch)
    (allocs : list bool) (alloc_ok : bool) : Z * rl_dm :=
  let validated :=
    if negb (ff_ipcp_id req =? 65535) then
      (* Validate req->ipcp_id. *)
      match __ipcp_get K dm (ff_ipcp_id req) with
      | (None, _) => None
      | (Some ipcp, dm1) => Some (snd (__ipcp_put K dm1 (Some ipcp)))
      end
    else Some dm in
  match validated with
  | None => (- EINVAL, dm)
  | Some dm1 =>
      let rc0 := rc_at dm1 rc in
      let q :=
        match flows_fetch_q rc0 with
        | [] =>
            let (q1, allocs1) :=
              flow_fetch_snapshot dm1 (ff_ipcp_id req) (Hash.for_each (flow_table dm1))
                [] allocs in
            if fst (rl_alloc allocs1) then q1 ++ [flow_fetch_end] else q1
        | _ :: _ => flows_fetch_q rc0
        end in
      match q with
      | [] => (- ENOMEM, dm1)
      | fqe :: rest =>
          let resp := RLITE_KER_FLOW_FETCH_RESP (set_ffr_event_id fqe (ff_event_id req)) in
          let rc1 := set_flows_fetch_q rc0 rest in
          let (ret, rc2) :=
            if alloc_ok then rl_upqueue_append_atomic K rc1 resp else (- ENOMEM, rc1) in
          (ret, rc_store dm1 rc rc2)
      end
  end.

(** The [list_for_each_entry] loop of [rl_reg_fetch] over the names
    registered on [ipcp]; the queue entry is allocated first, then the
    copy of the name, which is NULL when [rl_strdup] fails. *)
Fixpoint reg_fetch_appls (dm : rl_dm) (ipcp : ipcp_entry) (appls : list nat)
    (q : list regs_fetch_q_entry) (allocs : list bool)
  : list regs_fetch_q_entry * list bool :=
  match appls with
  | [] => (q, allocs)
  | appl :: rest =>
      let (ok, allocs1) := rl_alloc allocs in
      if negb ok then (q, allocs1)
      else
        let (name_ok, allocs2) := rl_alloc allocs1 in
        let a := app_at dm appl in
        let fqe :=
          {| rfr_event_id := 0;
             rfr_end := 0;
             rfr_ipcp_id := ipcp_id ipcp;
             rfr_pending := if app_state a =? APPL_REG_COMPLETE then 0 else 1;
             rfr_appl_name := if name_ok then Some (app_name a) else None |} in
        reg_fetch_appls dm ipcp rest (q ++ [fqe]) allocs2
  end.

(** The [hash_for_each] loop of [rl_reg_fetch]. *)
Fixpoint reg_fetch_snapshot (dm : rl_dm) (id : Z) (ipcps : list nat)
    (q : list regs_fetch_q_entry) (allocs : list bool)
  : list regs_fetch_q_entry * list bool :=
  match ipcps with
  | [] => (q, allocs)
  | p :: rest =>
      let ipcp := ipcp_at dm p in
      if negb (id =? 65535) && negb (ipcp_id ipcp =? id) then
        (* Filter out this ipcp as user asked only for application
           names registered within a specific IPCP. *)
        reg_fetch_snapshot dm id rest q allocs
      else
        let (q1, allocs1) := reg_fetch_appls dm ipcp (registered_appls ipcp) q allocs in
        reg_fetch_snapshot dm id rest q1 allocs1
  end.

(** [rl_reg_fetch], the handler of [REG_FETCH]. *)
Definition rl_reg_fetch (dm : rl_dm) (rc : nat) (req : rl_kmsg_reg_fetch)
    (allocs : list bool) (alloc_ok : bool) : Z * rl_dm :=
  let validated :=
    if negb (rf_ipcp_id req =? 65535) then
      (* Validate req->ipcp_id. *)
      match __ipcp_get K dm (rf_ipcp_id req) with
      | (None, _) => None
      | (Some ipcp, dm1) => Some (snd (__ipcp_put K dm1 (Some ipcp)))
      end
    else Some dm in
  match validated with
  | None => (- EINVAL, dm)
  | Some dm1 =>
      let rc0 := rc_at dm1 rc in
      let q :=
        match regs_fetch_q rc0 with
        | [] =>
            let (q1, allocs1) :=
              reg_fetch_snapshot dm1 (rf_ipcp_id req) (Hash.for_each (ipcp_table dm1))
                [] allocs in
            if fst (rl_alloc allocs1) then q1 ++ [reg_fetch_end] else q1
        | _ :: _ => regs_fetch_q rc0
        end in
      match q with
      | [] => (- ENOMEM, dm1)
      | fqe :: rest =>
          let resp := RLITE_KER_REG_FETCH_RESP (set_rfr_event_id fqe (rf_event_id req)) in
          let rc1 := set_regs_fetch_q rc0 rest in
          let (ret, rc2) :=
            if alloc_ok then rl_upqueue_append_atomic K rc1 resp else (- ENOMEM, rc1) in
          (ret, rc_store dm1 rc rc2)
      end
  end.

(** Successive requests on one device, with the event ids [evs] and the
    same filter, every allocation succeeding: the results in order, and
    the final state. *)
Fixpoint flow_fetch_run (dm : rl_dm) (rc : nat) (id : Z) (evs : list Z) : list Z * rl_dm :=
  match evs with
  | [] => ([], dm)
  | ev :: evs' =>
      let (ret, dm1) := rl_flow_fetch dm rc {| ff_event_id := ev; ff_ipcp_id := id |} [] true in
      let (rets, dm2) := flow_fetch_run dm1 rc id evs' in
      (ret :: rets, dm2)
  end.

Fixpoint reg_fetch_run (dm : rl_dm) (rc : nat) (id : Z) (evs : list Z) : list Z * rl_dm :=
  match evs with
  | [] => ([], dm)
  | ev :: evs' =>
      let (ret, dm1) := rl_reg_fetch dm rc {| rf_event_id := ev; rf_ipcp_id := id |} [] true in
      let (rets, dm2) := reg_fetch_run dm1 rc id evs' in
      (ret :: rets, dm2)
  end.

(** The enumeration the contract describes: one response per flow of
    the table that passes the filter, in the order of [hash_for_each],
    then the terminator. *)
Definition flow_fetch_entries (dm : rl_dm) (id : Z) : list rl_kmsg_flow_fetch_resp :=
  map (flow_fetch_resp_of dm)
      (filter (fun entry =>
                 (id =? 65535)
                 || (ipcp_id (ipcp_at dm (txrx_ipcp (flow_at dm entry))) =? id))
              (Hash.for_each (flow_table dm)))
  ++ [flow_fetch_end].

(** One response per name registered on an IPCP that passes the filter,
    then the terminator. *)
Definition reg_fetch_resp_of (dm : rl_dm) (ipcp : ipcp_entry) (appl : nat)
  : rl_kmsg_reg_fetch_resp :=
  {| rfr_event_id := 0;
     rfr_end := 0;
     rfr_ipcp_id := ipcp_id ipcp;
     rfr_pending := if app_state (app_at dm appl) =? APPL_REG_COMPLETE then 0 else 1;
     rfr_appl_name := Some (app_name (app_at dm appl)) |}.

Definition reg_fetch_entries (dm : rl_dm) (id : Z) : list rl_kmsg_reg_fetch_resp :=
  flat_map (fun p => map (reg_fetch_resp_of dm (ipcp_at dm p))
                         (registered_appls (ipcp_at dm p)))
           (filter (fun p => (id =? 65535) || (ipcp_id (ipcp_at dm p) =? id))
                   (Hash.for_each (ipcp_table dm)))
  ++ [reg_fetch_end].

(** The filter of a fetch request is valid when it is [0xffff] or the
    id of an IPCP in the table, with a reference count that the check
    can raise and drop. *)
Definition fetch_filter_ok (dm : rl_dm) (id : Z) : Prop :=
  id = 65535 \/
  exists p, ipcp_lookup K dm id = Some p /\ (p < length (ipcp_mem dm))%nat /\
            0 < ipcp_refcnt (ipcp_at dm p) < 2 ^ 32 - 1.

(** The entries of the messages [msgs] all fit the accounting, and the
    queue [q] has room for all of them. *)
Definition upqueue_room (q : list upqueue_entry) (msgs : list rl_msg) : Prop :=
  Forall (msg_fits K) msgs /\
  upqueue_bytes K (q ++ map (upqueue_entry_of K) msgs) <= RL_UPQUEUE_SIZE_MAX.

End Fetch.

(** A request that the factory does not handle: the hook is absent or
    answers [-ENOSYS]. *)
Definition config_unhandled (e : ipcp_entry) (name value : string) : Prop :=
  match ops_config (ops e) with
  | Some hook => fst (hook name value) = - ENOSYS
  | None => True
  end.

Definition config_get_unhandled (e : ipcp_entry) (name : string) : Prop :=
  match ops_config_get (ops e) with
  | Some hook => fst (hook name) = - ENOSYS
  | None => True
  end.


(* ===================================================================== *)
(** ** IPCP factories *)
(* ===================================================================== *)

(** One more Linux error number. *)
Definition EBADF : Z := 9.

(** [struct ipcp_factory], as [ctrl-dev.c] reads it.  [fac_owner] tells
    whether [owner] is set, [fac_dif_type] is [None] for a NULL string,
    [fac_create] is [None] for a NULL constructor and otherwise tells,
    for an entry, whether the constructor returns a private state.
    [fac_ops] holds the hooks the control device calls; the other hooks
    of [ops] are recorded by their presence. *)
Record ipcp_factory := {
  fac_owner : bool;
  fac_dif_type : option string;
  fac_create : option (ipcp_entry -> bool);
  fac_use_cep_ids : bool;
  fac_ops : ipcp_ops;
  fac_ops_destroy : bool;
  fac_ops_sdu_write : bool;
  fac_ops_pduft_set : bool;
  fac_ops_pduft_del : bool;
  fac_ops_pduft_del_addr : bool;
  fac_ops_pduft_flush_by_flow : bool
}.

(** [strcmp(factory->dif_type, dif_type) == 0]. *)
Definition factory_has_type (dif_type : string) (factory : ipcp_factory) : bool :=
  match fac_dif_type factory with
  | Some ty => String.eqb ty dif_type
  | None => false
  end.

(** [ipcp_factories_find] on the list [rl_global.ipcp_factories]. *)
Definition ipcp_factories_find (factories : list ipcp_factory) (dif_type : option string)
  : option ipcp_factory :=
  match dif_type with
  | None => None
  | Some ty => find (factory_has_type ty) factories
  end.

(** [rl_ipcp_factory_register]: the return value and the list. *)
Definition rl_ipcp_factory_register (factories : list ipcp_factory)
    (factory : option ipcp_factory) : Z * list ipcp_factory :=
  match factory with
  | None => (- EINVAL, factories)
  | Some f =>
      match fac_create f, fac_owner f, fac_dif_type f with
      | Some _, true, Some ty =>
          match ipcp_factories_find factories (Some ty) with
          | Some _ => (- EBUSY, factories)
          | None =>
              (* Check if IPCP ops are ok. *)
              if negb (fac_ops_destroy f) || negb (fac_ops_sdu_write f) then
                (- EINVAL, factories)
              else if fac_ops_pduft_set f
                      && (negb (fac_ops_pduft_del f) || negb (fac_ops_pduft_del_addr f)
                          || match ops_pduft_flush (fac_ops f) with
                             | Some _ => false
                             | None => true
                             end
                          || negb (fac_ops_pduft_flush_by_flow f)) then
                (- EINVAL, factories)
              else
                (* Insert the new factory into the IPC process factories list. *)
                (0, factories ++ [f])
          end
      | _, _, _ => (- EINVAL, factories)
      end
  end.

(** [list_del_init] of the node that [ipcp_factories_find] returned: the
    first factory of that type. *)
Fixpoint factories_del (factories : list ipcp_factory) (ty : string) : list ipcp_factory :=
  match factories with
  | [] => []
  | f :: l => if factory_has_type ty f then l else f :: factories_del l ty
  end.

(** [rl_ipcp_factory_unregister]. *)
Definition rl_ipcp_factory_unregister (factories : list ipcp_factory)
    (dif_type : option string) : Z * list ipcp_factory :=
  match ipcp_factories_find factories dif_type, dif_type with
  | Some _, Some ty =>
      (* Just remove from the list, we don't have ownership of the
         factory object. *)
      (0, factories_del factories ty)
  | _, _ => (- EINVAL, factories)
  end.

(** The registry is well formed when every factory passed the checks of
    the registration and no two factories have the same type. *)
Definition factory_ok (f : ipcp_factory) : bool :=
  match fac_create f, fac_owner f, fac_dif_type f with
  | Some _, true, Some _ =>
      fac_ops_destroy f && fac_ops_sdu_write f
      && (negb (fac_ops_pduft_set f)
          || (fac_ops_pduft_del f && fac_ops_pduft_del_addr f
              && match ops_pduft_flush (fac_ops f) with
                 | Some _ => true
                 | None => false
                 end
              && fac_ops_pduft_flush_by_flow f))
  | _, _, _ => false
  end.

Definition factories_inv (factories : list ipcp_factory) : Prop :=
  Forall (fun f => factory_ok f = true) factories /\
  NoDup (map fac_dif_type factories).

(* ===================================================================== *)
(** ** Operations whose allocations can fail *)
(* ===================================================================== *)

(** [dif_get], [ipcp_add_entry], [flow_add] and [rl_ctrl_open] allocate
    the object they create.  Here they take the outcomes of their
    allocations, as [rl_alloc] reads them; with every allocation
    succeeding they are the operations of the sections above. *)
Module Gfp.

Section Gfp.

Variable K : kernel.

(** [dif_get]: the DIF, its name and its type are allocated when the
    DIF does not exist yet. *)
Definition dif_get (allocs : list bool) (dm : rl_dm) (name ty : string)
  : option nat * Z * rl_dm :=
  match find (fun cur => String.eqb (dif_name (dif_at dm cur)) name) (difs dm) with
  | Some cur =>
      (* A DIF called 'dif_name' already exists. *)
      if String.eqb (dif_ty (dif_at dm cur)) ty then
        (Some cur, 0,
         dif_store dm cur (set_dif_refcnt (dif_at dm cur)
                             (u32 (dif_refcnt (dif_at dm cur) + 1))))
      else
        (* DIF type mismatch: report error. *)
        (None, - EINVAL, dm)
  | None =>
      (* A DIF called 'dif_name' does not exist yet. *)
      let (cur_ok, allocs1) := rl_alloc allocs in
      if negb cur_ok then (None, - ENOMEM, dm)
      else
        let (name_ok, allocs2) := rl_alloc allocs1 in
        if negb name_ok then (None, - ENOMEM, dm)
        else
          let (ty_ok, _) := rl_alloc allocs2 in
          if negb ty_ok then (None, - ENOMEM, dm)
          else
            let cur := length (dif_mem dm) in
            let d := {| dif_name := name; dif_ty := ty; dif_max_pdu_size := 8000;
                        dif_refcnt := 1 |} in
            (Some cur, 0, set_difs (set_dif_mem dm (dif_mem dm ++ [d])) (difs dm ++ [cur]))
  end.

(** [ipcp_add_entry]: the entry and its per-CPU statistics are
    allocated first. *)
Definition ipcp_add_entry (allocs : list bool) (dm : rl_dm) (req : rl_kmsg_ipcp_create)
  : Z * option nat * rl_dm :=
  let (entry_ok, allocs1) := rl_alloc allocs in
  if negb entry_ok then (- ENOMEM, None, dm)
  else
    let (stats_ok, allocs2) := rl_alloc allocs1 in
    if negb stats_ok then (- ENOMEM, None, dm)
    else
      (* Check if an IPC process with that name already exists. *)
      if existsb (fun cur => match ipcp_name (ipcp_at dm cur) with
                             | Some n => String.eqb n (icr_name req)
                             | None => false
                             end) (Hash.for_each (ipcp_table dm))
      then (- EINVAL, None, dm)
      else
        (* Create or take a reference to the specified DIF. *)
        match dif_get allocs2 dm (icr_dif_name req) (icr_dif_type req) with
        | (None, ret, dm1) => (ret, None, dm1)
        | (Some d, _, dm1) =>
            (* Try to alloc an IPC process id from the bitmap. *)
            let id := Bitmap.find_first_zero (ipcp_id_bitmap dm1) IPCP_ID_BITMAP_SIZE in
            if id <? IPCP_ID_BITMAP_SIZE then
              let entry :=
                {| ipcp_id := id; ipcp_name := Some (icr_name req); ipcp_dif := Some d;
                   ipcp_addr := RL_ADDR_NULL K; ipcp_flags := 0; txhdroom := 0;
                   rxhdroom := 0; tailroom := 0; max_sdu_size := Z.shiftl 1 16 - 1;
                   pcisizes := 0; flow_del_wait_ms := 4000; ipcp_refcnt := 1;
                   registered_appls := []; uipcp := None; ipcp_priv := false;
                   ops := ipcp_ops_zero |} in
              let p := length (ipcp_mem dm1) in
              let dm2 := set_ipcp_mem dm1 (ipcp_mem dm1 ++ [entry]) in
              let dm3 := set_ipcp_id_bitmap dm2 (Bitmap.set (ipcp_id_bitmap dm2) id) in
              (0, Some p,
               set_ipcp_table dm3
                 (Hash.add (ipcp_table dm3) (hash_min K id IPCP_HASHTABLE_BITS) p))
            else (- ENOSPC, None, dif_put dm1 (Some d))
        end.

(** [flow_add]: the entry is allocated after the test of the zombie
    flag; the copies of the application names are not checked.  The
    port id found by the search is truncated to the 16 bits of
    [rl_port_t]. *)
Definition flow_add (alloc_ok : bool) (jiffies : Z) (dm : rl_dm) (ipcp : nat)
    (upper_rc_ upper_ipcp_ : option nat) (flowcfg : option Z) (flowspec : Z)
  : Z * option nat * rl_dm :=
  if has_flag (ipcp_flags (ipcp_at dm ipcp)) RL_K_IPCP_ZOMBIE then
    (* Zombie ipcps don't accept new flows. *)
    (- ENXIO, None, dm)
  else if negb alloc_ok then (- ENOMEM, None, dm)
  else
    let use_cep := has_flag (ipcp_flags (ipcp_at dm ipcp)) RL_K_IPCP_USE_CEP_IDS in
    (* [local_port] is an [rl_port_t], 16 bits wide, and [local_cep] an
       [rlm_cepid_t], 32 bits wide: the result of the search is
       truncated by the assignment. *)
    let port := u16 (Bitmap.find_first_zero (port_id_bitmap dm) PORT_ID_BITMAP_SIZE) in
    let cep := if use_cep
               then u32 (Bitmap.find_first_zero (cep_id_bitmap dm) CEP_ID_BITMAP_SIZE)
               else 0 in
    if (port <? PORT_ID_BITMAP_SIZE) && (cep <? CEP_ID_BITMAP_SIZE) then
      let entry := length (flow_mem dm) in
      let f := {| local_port := port; local_cep := cep; remote_port := RL_PORT_ID_NONE K;
                  remote_addr := RL_ADDR_NULL K; uid := uid_cnt dm;
                  flow_flags := Z.lor RL_FLOW_PENDING RL_FLOW_NEVER_BOUND;
                  flow_refcnt := atomic_inc 1; (* on behalf of the caller *)
                  expires := EXPIRES_NONE; txrx_ipcp := ipcp; txrx_flags := 0;
                  upper_rc := upper_rc_; upper_ipcp := upper_ipcp_; flow_spec := flowspec;
                  cfg_dtcp_flags := 0 |} in
      let dm1 := set_flow_mem dm (flow_mem dm ++ [f]) in
      let dm2 := set_port_id_bitmap dm1 (Bitmap.set (port_id_bitmap dm1) port) in
      let dm3 := if use_cep then set_cep_id_bitmap dm2 (Bitmap.set (cep_id_bitmap dm2) cep)
                 else dm2 in
      let dm4 := set_flow_table dm3
                   (Hash.add (flow_table dm3) (hash_min K port PORT_ID_HASHTABLE_BITS) entry) in
      let dm5 := if use_cep
                 then set_flow_table_by_cep dm4
                        (Hash.add (flow_table_by_cep dm4)
                                  (hash_min K cep CEP_ID_HASHTABLE_BITS) entry)
                 else dm4 in
      let dm6 := set_uid_cnt dm5 (u32 (uid_cnt dm5 + 1)) in
      (* Start the unbound timer *)
      let dm7 := flows_putq_add jiffies dm6 entry (RL_UNBOUND_FLOW_TO K) in
      let i := ipcp_at dm7 ipcp in
      let dm8 := ipcp_store dm7 ipcp (set_ipcp_refcnt i (u32 (ipcp_refcnt i + 1))) in
      let dm9 := match flowcfg with
                 | Some cfg => flow_store dm8 entry (set_cfg_dtcp_flags (flow_at dm8 entry) cfg)
                 | None => dm8
                 end in
      (0, Some entry, dm9)
    else (- ENOSPC, None, dm).

End Gfp.

End Gfp.

(* ===================================================================== *)
(** ** Creation and destruction of IPCPs *)
(* ===================================================================== *)

Definition set_uipcp (x : ipcp_entry) (v : option nat) : ipcp_entry :=
  {| ipcp_id := ipcp_id x; ipcp_name := ipcp_name x; ipcp_dif := ipcp_dif x;
     ipcp_addr := ipcp_addr x; ipcp_flags := ipcp_flags x; txhdroom := txhdroom x;
     rxhdroom := rxhdroom x; tailroom := tailroom x; max_sdu_size := max_sdu_size x;
     pcisizes := pcisizes x; flow_del_wait_ms := flow_del_wait_ms x;
     ipcp_refcnt := ipcp_refcnt x; registered_appls := registered_appls x; uipcp := v;
     ipcp_priv := ipcp_priv x; ops := ops x |}.

(** The entry that [ipcp_add] completes after the constructor of the
    factory returned a private state: [priv], [ops] and the CEP flag. *)
Definition ipcp_attach_factory (x : ipcp_entry) (factory : ipcp_factory) : ipcp_entry :=
  {| ipcp_id := ipcp_id x; ipcp_name := ipcp_name x; ipcp_dif := ipcp_dif x;
     ipcp_addr := ipcp_addr x;
     ipcp_flags := Z.lor (ipcp_flags x)
                         (if fac_use_cep_ids factory then RL_K_IPCP_USE_CEP_IDS else 0);
     txhdroom := txhdroom x; rxhdroom := rxhdroom x; tailroom := tailroom x;
     max_sdu_size := max_sdu_size x; pcisizes := pcisizes x;
     flow_del_wait_ms := flow_del_wait_ms x; ipcp_refcnt := ipcp_refcnt x;
     registered_appls := registered_appls x; uipcp := uipcp x; ipcp_priv := true;
     ops := fac_ops factory |}.

Definition set_app_rc (a : registered_appl) (v : nat) : registered_appl :=
  {| app_name := app_name a; app_rc := v; app_event_id := app_event_id a;
     app_ipcp := app_ipcp a; app_state := app_state a; app_refcnt := app_refcnt a |}.

(** What a task sleeping in [rl_ipcp_uipcp_wait] sees when it runs
    again: whether a signal is pending, and what the other tasks did to
    the data model while it slept in [schedule()]. *)
Record uipcp_wait := {
  uw_signal_pending : bool;
  uw_interference : rl_dm -> rl_dm
}.

Section IpcpHandlers.

Variable K : kernel.

(** [ipcp_add]: [factories] is the registry, [module_ok] tells whether
    [try_module_get] succeeds.  The result is the return value, [*ipcp_id]
    and the data model. *)
Definition ipcp_add (factories : list ipcp_factory) (module_ok : bool) (allocs : list bool)
    (dm : rl_dm) (req : rl_kmsg_ipcp_create) : Z * option Z * rl_dm :=
  match Gfp.ipcp_add_entry K allocs dm req with
  | (ret, None, dm1) => (ret, None, dm1)
  | (ret, Some entry, dm1) =>
      if negb (ret =? 0) then (ret, None, dm1)
      else
        let fail (e : Z) := (- e, None, snd (__ipcp_put K dm1 (Some entry))) in
        match ipcp_factories_find factories (Some (icr_dif_type req)) with
        | None => fail ENXIO
        | Some factory =>
            (* Take a reference on the module that will own the new IPC
               process. *)
            if negb module_ok then fail ENXIO
            else
              match fac_create factory with
              | Some create =>
                  if create (ipcp_at dm1 entry) then
                    (0, Some (ipcp_id (ipcp_at dm1 entry)),
                     ipcp_store dm1 entry (ipcp_attach_factory (ipcp_at dm1 entry) factory))
                  else fail EINVAL
              | None => fail EINVAL
              end
        end
  end.

(** [rl_ipcp_destroy], the handler of [IPCP_DESTROY]. *)
Definition rl_ipcp_destroy (dm : rl_dm) (id : Z) : Z * rl_dm :=
  (* Release the IPC process with the given ID. *)
  let (ret, dm1) := ipcp_del K dm id in
  if negb (ret =? 0) then (ret, dm1)
  else
    (* Upqueue an RLITE_KER_IPCP_UPDATE message to each opened ctrl device. *)
    (ret, upqueue_broadcast K dm1 (ipcp_del_update RL_IPCP_UPDATE_UIPCP_DEL id)).

(** [ipcp_pduft_flush]: the return value of the hook, 0 without hook. *)
Definition ipcp_pduft_flush (dm : rl_dm) (ipcp : option nat) : Z :=
  match ipcp with
  | None => - EINVAL
  | Some p =>
      match ops_pduft_flush (ops (ipcp_at dm p)) with
      | Some ret => ret
      | None => 0
      end
  end.

(** [rl_ipcp_pduft_flush], the handler of [IPCP_PDUFT_FLUSH]. *)
Definition rl_ipcp_pduft_flush (dm : rl_dm) (id : Z) : Z * rl_dm :=
  let (ipcp, dm1) := __ipcp_get K dm id in
  let ret := ipcp_pduft_flush dm1 ipcp in
  (ret, snd (__ipcp_put K dm1 ipcp)).

(** [rl_ipcp_uipcp_set], the handler of [IPCP_UIPCP_SET] on the device
    [rc]. *)
Definition rl_ipcp_uipcp_set (dm : rl_dm) (rc : nat) (id : Z) : Z * rl_dm :=
  match __ipcp_get K dm id with
  | (Some entry, dm1) =>
      let e := ipcp_at dm1 entry in
      match uipcp e with
      | Some _ => (- EBUSY, snd (__ipcp_put K dm1 (Some entry)))
      | None =>
          (0, snd (__ipcp_put K (ipcp_store dm1 entry (set_uipcp e (Some rc))) (Some entry)))
      end
  | (None, dm1) => (- EINVAL, snd (__ipcp_put K dm1 None)) (* Report failure by default. *)
  end.

(** The [for (;;)] loop of [rl_ipcp_uipcp_wait]; the result is [None]
    when the supplied observations end before the loop does. *)
Fixpoint uipcp_wait_loop (dm : rl_dm) (entry : nat) (env : list uipcp_wait)
  : option (Z * rl_dm) :=
  match uipcp (ipcp_at dm entry) with
  | Some _ => Some (0, dm)
  | None =>
      match env with
      | [] => None
      | w :: env' =>
          if uw_signal_pending w then Some (- ERESTARTSYS, dm)
          else uipcp_wait_loop (uw_interference w dm) entry env'
      end
  end.

(** [rl_ipcp_uipcp_wait], the handler of [IPCP_UIPCP_WAIT]. *)
Definition rl_ipcp_uipcp_wait (dm : rl_dm) (id : Z) (env : list uipcp_wait)
  : option (Z * rl_dm) :=
  match __ipcp_get K dm id with
  | (None, _) => Some (- EINVAL, dm)
  | (Some entry, dm1) =>
      match uipcp_wait_loop dm1 entry env with
      | Some (ret, dm2) => Some (ret, snd (__ipcp_put K dm2 (Some entry)))
      | None => None
      end
  end.

(** [rl_appl_move], the handler of [APPL_MOVE] on the device [rc];
    [dst_rc] is the device behind the file descriptor of the request,
    [None] when [fget] fails or the file is not a control device. *)
Definition rl_appl_move (dm : rl_dm) (rc : nat) (dst_rc : option nat) (id : Z) : Z * rl_dm :=
  match dst_rc with
  | None => (- EBADF, dm)
  | Some dst =>
      match __ipcp_get K dm id with
      | (None, _) => (- ENXIO, dm)
      | (Some ipcp, dm1) =>
          (* Search all the applications registered to this control device. *)
          let dm2 :=
            fold_left
              (fun d app =>
                 if Nat.eqb (app_rc (app_at d app)) rc
                 then app_store d app (set_app_rc (app_at d app) dst) (* Move the reference. *)
                 else d)
              (registered_appls (ipcp_at dm1 ipcp)) dm1 in
          (0, snd (__ipcp_put K dm2 (Some ipcp)))
      end
  end.

(** The [hash_for_each] loop of [rl_ipcp_has_flows]; [has_flows] is the
    running answer. *)
Fixpoint has_flows_scan (dm : rl_dm) (ipcp : nat) (report_all : bool) (has_flows : bool)
    (l : list nat) : bool :=
  match l with
  | [] => has_flows
  | flow :: l' =>
      let f := flow_at dm flow in
      let h1 := if Nat.eqb (txrx_ipcp f) ipcp then true else has_flows in
      let h2 := match upper_ipcp f with
                | Some u => if Nat.eqb u ipcp then true else h1
                | None => h1
                end in
      if negb report_all && h2 then h2 else has_flows_scan dm ipcp report_all h2 l'
  end.

(** [rl_ipcp_has_flows]. *)
Definition rl_ipcp_has_flows (dm : rl_dm) (ipcp : nat) (report_all : bool) : bool :=
  has_flows_scan dm ipcp report_all false (Hash.for_each (flow_table dm)).

(** [flow_get_by_cep]: look a flow up by CEP id and take a reference. *)
Definition flow_get_by_cep (dm : rl_dm) (cep_id : Z) : option nat * rl_dm :=
  match find (fun p => local_cep (flow_at dm p) =? cep_id)
             (Hash.bucket (flow_table_by_cep dm) (hash_min K cep_id CEP_ID_HASHTABLE_BITS)) with
  | Some entry =>
      let f := flow_at dm entry in
      (Some entry, flow_store dm entry (set_flow_refcnt f (atomic_inc (flow_refcnt f))))
  | None => (None, dm)
  end.

(** [flow_get_ref]. *)
Definition flow_get_ref (dm : rl_dm) (flow : option nat) : rl_dm :=
  match flow with
  | None => dm
  | Some p =>
      let f := flow_at dm p in
      flow_store dm p (set_flow_refcnt f (atomic_inc (flow_refcnt f)))
  end.

End IpcpHandlers.

(** A hash function is usable for a table of [2 ^ bits] buckets when its
    values are bucket indexes, as those of [hash_min] are. *)
Definition hash_in_range (K : kernel) : Prop :=
  forall val bits, 0 <= bits -> (hash_min K val bits < Z.to_nat (2 ^ bits))%nat.

(* ===================================================================== *)
(** ** Sequences of operations on a device *)
(* ===================================================================== *)

(** The other fields of a device, which the queue operations leave
    alone. *)
Definition same_cursors (a b : rl_ctrl) : Prop :=
  flows_fetch_q a = flows_fetch_q b /\ regs_fetch_q a = regs_fetch_q b /\
  rc_flags a = rc_flags b.

Section DeviceRuns.

Variable K : kernel.

(** The messages [msgs] appended in turn by a producer that cannot
    sleep: the results in order, and the device. *)
Fixpoint upqueue_append_run (rc : rl_ctrl) (msgs : list rl_msg) : list Z * rl_ctrl :=
  match msgs with
  | [] => ([], rc)
  | m :: msgs' =>
      let (ret, rc1) := rl_upqueue_append_atomic K rc m in
      let (rets, rc2) := upqueue_append_run rc1 msgs' in
      (ret :: rets, rc2)
  end.

(** [n] successive reads with a buffer of [len] bytes, none of which
    finds the queue empty: the buffers handed to the user in order, and
    the device.  A read that does not return ends the sequence. *)
Fixpoint rl_ctrl_read_run (rc : rl_ctrl) (n : nat) (len : Z)
  : list (option (list byte)) * rl_ctrl :=
  match n with
  | O => ([], rc)
  | S n' =>
      match rl_ctrl_read K rc 0 len false true [] with
      | Some r =>
          let (bufs, rc2) := rl_ctrl_read_run (rd_rc r) n' len in
          (rd_buf r :: bufs, rc2)
      | None => ([], rc)
      end
  end.

End DeviceRuns.

(** The list of DIFs is well formed when its nodes are distinct
    allocated objects, no two of the same name, each with at least one
    reference. *)
Definition difs_inv (dm : rl_dm) : Prop :=
  NoDup (difs dm) /\
  NoDup (map (fun d => dif_name (dif_at dm d)) (difs dm)) /\
  Forall (fun d => (d < length (dif_mem dm))%nat /\ 0 < dif_refcnt (dif_at dm d) < 2 ^ 32)
         (difs dm).

(** The table of IPCPs is well formed when it has the buckets of
    [hash_init], every linked entry is an allocated object that is
    chained once, in the bucket of its id, with its id below
    [IPCP_ID_BITMAP_SIZE] and marked in the bitmap, and no two linked
    entries have the same id. *)
Definition ipcp_table_inv (K : kernel) (dm : rl_dm) : Prop :=
  length (ipcp_table dm) = Z.to_nat (2 ^ IPCP_HASHTABLE_BITS) /\
  NoDup (Hash.for_each (ipcp_table dm)) /\
  NoDup (map (fun p => ipcp_id (ipcp_at dm p)) (Hash.for_each (ipcp_table dm))) /\
  (forall h p,
      In p (Hash.bucket (ipcp_table dm) h) ->
      (p < length (ipcp_mem dm))%nat /\
      hash_min K (ipcp_id (ipcp_at dm p)) IPCP_HASHTABLE_BITS = h /\
      0 <= ipcp_id (ipcp_at dm p) < IPCP_ID_BITMAP_SIZE /\
      Z.testbit (ipcp_id_bitmap dm) (ipcp_id (ipcp_at dm p)) = true).

(** The table of flows is well formed when it has the buckets of
    [hash_init], every linked flow is an allocated object that is
    chained once, in the bucket of its port id, with its port id below
    [PORT_ID_BITMAP_SIZE] and marked in the bitmap, and no two linked
    flows have the same port id. *)
Definition flow_table_inv (K : kernel) (dm : rl_dm) : Prop :=
  length (flow_table dm) = Z.to_nat (2 ^ PORT_ID_HASHTABLE_BITS) /\
  NoDup (Hash.for_each (flow_table dm)) /\
  NoDup (map (fun p => local_port (flow_at dm p)) (Hash.for_each (flow_table dm))) /\
  (forall h p,
      In p (Hash.bucket (flow_table dm) h) ->
      (p < length (flow_mem dm))%nat /\
      hash_min K (local_port (flow_at dm p)) PORT_ID_HASHTABLE_BITS = h /\
      0 <= local_port (flow_at dm p) < PORT_ID_BITMAP_SIZE /\
      Z.testbit (port_id_bitmap dm) (local_port (flow_at dm p)) = true).
(* ===================================================================== *)
(** ** A concrete platform for worked examples *)
(* ===================================================================== *)

Module Example.

(** A toy serializer: one byte for the message type, four bytes of
    padding for the rest of the header, then the text fields. *)
Definition text (s : option string) : list byte :=
  match s with
  | Some s => list_byte_of_string s
  | None => []
  end.

Definition serialize (m : rl_msg) : list byte :=
  match m with
  | RLITE_KER_IPCP_UPDATE u =>
      x12 :: repeat x00 4 ++ text (upd_ipcp_name u) ++ text (upd_dif_name u)
        ++ text (upd_dif_type u)
  | RLITE_KER_FLOW_FETCH_RESP r => x14 :: repeat x00 4 ++ repeat x00 35
  | RLITE_KER_REG_FETCH_RESP r => x1e :: repeat x00 4 ++ text (rfr_appl_name r)
  | RLITE_KER_IPCP_CONFIG_GET_RESP r =>
      x21 :: repeat x00 4 ++ list_byte_of_string (cgr_param_value r)
  end.

(** An LP64 kernel with [HZ = 1000]: [struct upqueue_entry] is a pointer,
    a [size_t] and a [list_head]; a jiffy is a millisecond; the hash of
    a small key is the key reduced to the table size; unbound flows are
    collected after three seconds. *)
Definition K0 : kernel :=
  {| serialize_rlite_msg := serialize;
     sizeof_upqueue_entry := 32;
     hash_min := fun val bits => Z.to_nat (val mod 2 ^ bits);
     msecs_to_jiffies := fun ms => ms;
     RLITE_IOCTL_CHFLAGS := 1;
     RL_ADDR_NULL := 0;
     RL_PORT_ID_NONE := 65535;
     RL_UNBOUND_FLOW_TO := 3000;
     DTCP_CFG_FLOW_CTRL := 4;
     rl_iodevs_shutdown_by_ipcp := fun flows _ => flows |}.

(** A queued entry of [n] bytes. *)
Definition entry_of_len (n : nat) : upqueue_entry :=
  {| sermsg := repeat x00 n; serlen := Z.of_nat n |}.

(** A device holding one 40-byte message. *)
Definition rc_one : rl_ctrl :=
  set_upqueue rl_ctrl_zero [entry_of_len 40] 72.

(** A device whose queue uses the whole budget: one message of 16352
    bytes and its 32-byte header. *)
Definition rc_full : rl_ctrl :=
  set_upqueue rl_ctrl_zero [entry_of_len (Z.to_nat 16352)] 16384.

(** What a sleeping producer sees at time [j] when nobody touched the
    device, and when the reader emptied the queue meanwhile. *)
Definition quiet (j : Z) : upq_wait :=
  {| wait_jiffies := j; wait_interference := fun rc => rc |}.

Definition drained (j : Z) : upq_wait :=
  {| wait_jiffies := j; wait_interference := fun rc => set_upqueue rc [] 0 |}.

(** A [CONFIG_GET] response used as a sample message. *)
Definition sample_msg : rl_msg :=
  RLITE_KER_IPCP_CONFIG_GET_RESP {| cgr_event_id := 7; cgr_param_value := "1500" |}.

End Example.

(** A numbering of the request types and a two-entry handler table over
    a counter, for worked examples of the dispatcher. *)
Module DispatchExample.

Definition N0 : rl_ker_msg_types :=
  {| RLITE_KER_IPCP_CREATE := 1; RLITE_KER_IPCP_DESTROY := 3; RLITE_KER_IPCP_CONFIG := 10;
     RLITE_KER_IPCP_PDUFT_SET := 11; RLITE_KER_IPCP_PDUFT_FLUSH := 12;
     RLITE_KER_APPL_REGISTER_RESP := 5; RLITE_KER_IPCP_UIPCP_SET := 13;
     RLITE_KER_UIPCP_FA_REQ_ARRIVED := 14; RLITE_KER_UIPCP_FA_RESP_ARRIVED := 15;
     RLITE_KER_FLOW_DEALLOC := 17; RLITE_KER_FLOW_FETCH := 19; RLITE_KER_MSG_MAX := 40 |}.

(** A request is decoded to its first byte, the message type. *)
Definition decode (buf : list byte) : option Z :=
  match buf with
  | b :: _ => Some (Z.of_N (Byte.to_N b))
  | [] => None
  end.

(** The handler of type 19 counts the requests; the handler of type 3
    fails with [-ENXIO]. *)
Definition handlers (ty : Z) : option (rl_msg_handler_t nat Z) :=
  if ty =? 19 then Some (fun st _ => (0, S st))
  else if ty =? 3 then Some (fun st _ => (- ENXIO, st))
  else None.

Definition user : write_env :=
  {| kbuf_alloc_ok := true; copy_from_user_ok := true; capable_sys_admin := false |}.

Definition root : write_env :=
  {| kbuf_alloc_ok := true; copy_from_user_ok := true; capable_sys_admin := true |}.

Definition request (ty : byte) : list byte := ty :: repeat x00 7.

End DispatchExample.

(** A data model with three IPCPs: a shim over Ethernet and two normal
    IPCPs, the second of which has the larger tx header room. *)
Module IpcpExample.

Import Example.

Definition create (name dif ty : string) (dm : rl_dm) : rl_dm :=
  snd (ipcp_add_entry K0 dm
         {| icr_event_id := 0; icr_name := name; icr_dif_name := dif; icr_dif_type := ty |}).

Definition with_txhdroom (p : nat) (v : Z) (dm : rl_dm) : rl_dm :=
  ipcp_store dm p (set_txhdroom (ipcp_at dm p) v).

Definition dm3 : rl_dm :=
  with_txhdroom 2 28 (with_txhdroom 1 14
    (create "n2.IPCP" "n2.DIF" "normal"
       (create "n1.IPCP" "n1.DIF" "normal"
          (create "eth.IPCP" "eth.DIF" "shim-eth" (rl_dm_init 0))))).

(** The same after [IPCP_DESTROY] of IPCP 2 while a flow still holds a
    reference on it. *)
Definition dm3_held : rl_dm :=
  ipcp_store dm3 2 (set_ipcp_refcnt (ipcp_at dm3 2) 2).

Definition dm3_zombie : rl_dm := snd (ipcp_del K0 dm3_held 2).

End IpcpExample.

(** A device opened on the data model with the zombie IPCP. *)
Module SubscribeExample.

Import Example.

Definition dm_open : rl_dm := snd (rl_ctrl_open IpcpExample.dm3_zombie).

Definition dm_subscribed : rl_dm := snd (rl_ctrl_ioctl K0 dm_open 0 1 RL_F_IPCPS).

(** The same device when its queue already uses the whole budget. *)
Definition dm_busy : rl_dm := rc_store dm_open 0 (set_upqueue (rc_at dm_open 0) (upqueue rc_full) 16384).

End SubscribeExample.

(** Registrations on IPCP 1 of the example: "srv" by device 0. *)
Module ApplExample.

Import Example.

Definition dm_srv : rl_dm :=
  snd (ipcp_application_add K0 IpcpExample.dm3 1 "srv" 0 42 true true).

End ApplExample.

(** The life of a flow on IPCP 1 of the example, started at time 1000:
    allocated by [flow_add], released by its creator, accepted by the
    peer, bound by an I/O device (which takes a reference and makes the
    flow mortal), and finally released by the I/O device at time 5000. *)
Module FlowExample.

Import Example.

Definition dm_added : rl_dm := snd (flow_add K0 1000 IpcpExample.dm3 1 (Some 0%nat) None None 0).

Definition dm_pending : rl_dm := flow_put K0 1000 dm_added (Some 0%nat).

Definition accept (dm : rl_dm) : rl_dm :=
  let f := flow_at dm 0 in
  flow_store dm 0
    (set_flow_flags f (set_flag (clear_flag (flow_flags f) RL_FLOW_PENDING) RL_FLOW_ALLOCATED)).

Definition dm_bound : rl_dm :=
  flow_make_mortal K0 2000 (snd (flow_get K0 (accept dm_pending) 0)) (Some 0%nat).

Definition dm_released : rl_dm := flow_put K0 5000 dm_bound (Some 0%nat).

Definition dm_drained : rl_dm := flows_putq_drain K0 9000 dm_released.

Definition dealloc (port u : Z) : rl_kmsg_flow_dealloc :=
  {| fd_event_id := 0; fd_port_id := port; fd_uid := u |}.

End FlowExample.

(** Configuration requests on IPCP 1 of the example, by a device opened
    on it. *)
Module ConfigExample.

Import Example.

Definition dm_dev : rl_dm := snd (rl_ctrl_open IpcpExample.dm3).

Definition config (v : string) : rl_kmsg_ipcp_config :=
  {| icf_event_id := 1; icf_ipcp_id := 1; icf_name := Some "mss"%string;
     icf_value := Some v |}.

Definition config_get : rl_kmsg_ipcp_config_get_req :=
  {| icg_event_id := 2; icg_ipcp_id := 1; icg_param_name := Some "mss"%string |}.

(** The text that a [CONFIG] of [v] followed by a [CONFIG_GET] leaves
    at the tail of the queue of the device. *)
Definition roundtrip (v : string) : option (Z * Z * list byte) :=
  let (r1, dm1) := rl_ipcp_config K0 dm_dev (config v) in
  match rl_ipcp_config_get K0 0 [] dm1 0 config_get with
  | Some (r2, dm2) => Some (r1, r2, sermsg (last (upqueue (rc_at dm2 0)) (entry_of_len 0)))
  | None => None
  end.

End ConfigExample.

(** Enumerations by a device opened on the three IPCPs of the example,
    with a flow on IPCP 1, a flow on IPCP 2 and the name "srv"
    registered on IPCP 1. *)
Module FetchExample.

Import Example.

Definition dm_dev : rl_dm := snd (rl_ctrl_open IpcpExample.dm3).

Definition dm_flows : rl_dm :=
  snd (flow_add K0 1000 (snd (flow_add K0 1000 dm_dev 1 (Some 0%nat) None None 0))
         2 (Some 0%nat) None None 0).

Definition dm_regs : rl_dm :=
  snd (ipcp_application_add K0 dm_flows 1 "srv" 0 42 true true).

Definition flow_fetch (ev id : Z) : rl_kmsg_flow_fetch :=
  {| ff_event_id := ev; ff_ipcp_id := id |}.

Definition reg_fetch (ev id : Z) : rl_kmsg_reg_fetch :=
  {| rf_event_id := ev; rf_ipcp_id := id |}.

(** The state after a first [FLOW_FETCH] without filter. *)
Definition dm_fetching : rl_dm := snd (rl_flow_fetch K0 dm_regs 0 (flow_fetch 1 65535) [] true).

End FetchExample.

(** A registry with the factory of the shim over Ethernet, which
    handles registrations in the kernel, and the factory of the normal
    IPCP, which uses CEP ids and has a PDU forwarding table. *)
Module FactoryExample.

Definition shim_eth : ipcp_factory :=
  {| fac_owner := true; fac_dif_type := Some "shim-eth"%string;
     fac_create := Some (fun _ => true); fac_use_cep_ids := false;
     fac_ops := {| ops_appl_register := Some (fun _ _ => 0); ops_config := None;
                   ops_config_get := None; ops_pduft_flush := None;
                   ops_flow_deallocated := true |};
     fac_ops_destroy := true; fac_ops_sdu_write := true; fac_ops_pduft_set := false;
     fac_ops_pduft_del := false; fac_ops_pduft_del_addr := false;
     fac_ops_pduft_flush_by_flow := false |}.

Definition normal : ipcp_factory :=
  {| fac_owner := true; fac_dif_type := Some "normal"%string;
     fac_create := Some (fun _ => true); fac_use_cep_ids := true;
     fac_ops := {| ops_appl_register := None; ops_config := None; ops_config_get := None;
                   ops_pduft_flush := Some 0; ops_flow_deallocated := false |};
     fac_ops_destroy := true; fac_ops_sdu_write := true; fac_ops_pduft_set := true;
     fac_ops_pduft_del := true; fac_ops_pduft_del_addr := true;
     fac_ops_pduft_flush_by_flow := true |}.

Definition registry : list ipcp_factory :=
  snd (rl_ipcp_factory_register (snd (rl_ipcp_factory_register [] (Some shim_eth)))
         (Some normal)).

End FactoryExample.
(* ===================================================================== *)
(** ** Facts about machine integers and object stores *)
(* ===================================================================== *)

(** Split the conjunctions of the goal without unfolding definitions. *)
Ltac splits := repeat match goal with |- _ /\ _ => split end.

Module MachFacts.

Lemma store_length {A} (mem : list A) p x : length (store mem p x) = length mem.
Proof.
  revert p; induction mem as [|y m IH]; intros [|p]; simpl; auto.
Qed.

Lemma deref_store_same {A} (d : A) mem p x :
  (p < length mem)%nat -> deref d (store mem p x) p = x.
Proof.
  unfold deref; revert p; induction mem as [|y m IH]; intros [|p] H; simpl in *;
    try lia; auto.
  apply IH; lia.
Qed.

Lemma deref_store_other {A} (d : A) mem p q x :
  p <> q -> deref d (store mem p x) q = deref d mem q.
Proof.
  unfold deref; revert p q; induction mem as [|y m IH]; intros [|p] [|q] H; simpl;
    auto; try congruence.
Qed.

Lemma store_deref_id {A} (d : A) mem p : store mem p (deref d mem p) = mem.
Proof.
  unfold deref; revert p; induction mem as [|y m IH]; intros [|p]; simpl; auto.
  now rewrite IH.
Qed.

Lemma store_store {A} (mem : list A) p x y : store (store mem p x) p y = store mem p y.
Proof.
  revert p; induction mem as [|z m IH]; intros [|p]; simpl; auto.
  now rewrite IH.
Qed.

(** Signed reading of a wrapped difference: when the mathematical
    value fits a [long], the cast recovers it. *)
Lemma to_long_small (x : Z) : - 2 ^ 63 <= x < 2 ^ 63 -> to_long x = x.
Proof.
  intros H. unfold to_long, ulong.
  destruct (Z_lt_le_dec x 0) as [Hn|Hp].
  - assert (E : x mod 2 ^ 64 = x + 2 ^ 64).
    { symmetry. apply Z.mod_unique with (q := -1); lia. }
    rewrite E. destruct (x + 2 ^ 64 <? 2 ^ 63) eqn:C.
    + apply Z.ltb_lt in C. lia.
    + lia.
  - rewrite Z.mod_small by lia.
    destruct (x <? 2 ^ 63) eqn:C; auto. apply Z.ltb_ge in C. lia.
Qed.

Lemma to_long_congr (x y : Z) : x mod 2 ^ 64 = y mod 2 ^ 64 -> to_long x = to_long y.
Proof. unfold to_long, ulong. now intros ->. Qed.

(** Inside a window of half the range around a common reference [n],
    the wrap-around comparison is the comparison of the distances. *)
Lemma tdiff_window (a b n : Z) :
  - 2 ^ 62 < tdiff a n < 2 ^ 62 ->
  - 2 ^ 62 < tdiff b n < 2 ^ 62 ->
  tdiff a b = tdiff a n - tdiff b n.
Proof.
  intros Ha Hb. unfold tdiff in *.
  assert (Ea : to_long (a - n) mod 2 ^ 64 = (a - n) mod 2 ^ 64).
  { unfold to_long, ulong. destruct ((a - n) mod 2 ^ 64 <? 2 ^ 63).
    - apply Z.mod_mod. lia.
    - rewrite Zminus_mod, Z_mod_same_full, Z.sub_0_r, !Z.mod_mod by lia. reflexivity. }
  assert (Eb : to_long (b - n) mod 2 ^ 64 = (b - n) mod 2 ^ 64).
  { unfold to_long, ulong. destruct ((b - n) mod 2 ^ 64 <? 2 ^ 63).
    - apply Z.mod_mod. lia.
    - rewrite Zminus_mod, Z_mod_same_full, Z.sub_0_r, !Z.mod_mod by lia. reflexivity. }
  rewrite <- (to_long_small (to_long (a - n) - to_long (b - n))) by lia.
  apply to_long_congr.
  rewrite (Zminus_mod (to_long (a - n))), Ea, Eb, <- Zminus_mod.
  f_equal. lia.
Qed.

Lemma time_after_window (a b n : Z) :
  - 2 ^ 62 < tdiff a n < 2 ^ 62 ->
  - 2 ^ 62 < tdiff b n < 2 ^ 62 ->
  time_after a b = (tdiff b n <? tdiff a n).
Proof.
  intros Ha Hb. unfold time_after. fold (tdiff b a).
  rewrite (tdiff_window b a n Hb Ha).
  destruct (tdiff b n - tdiff a n <? 0) eqn:C1, (tdiff b n <? tdiff a n) eqn:C2;
    auto; rewrite ?Z.ltb_lt, ?Z.ltb_ge in *; lia.
Qed.

End MachFacts.
Import MachFacts.

(* ===================================================================== *)
(** ** The upstream queue: budget and framing *)
(* ===================================================================== *)

Section UpqueueFacts.

Variable K : kernel.
Hypothesis sizeof_nonneg : 0 <= sizeof_upqueue_entry K.

Lemma RL_UPQUEUE_SIZE_MAX_val : RL_UPQUEUE_SIZE_MAX = 16384.
Proof. reflexivity. Qed.

Lemma u32_small (x : Z) : 0 <= x < 2 ^ 32 -> u32 x = x.
Proof. intros H. unfold u32. now apply Z.mod_small. Qed.

Lemma upqentry_size_ok (e : upqueue_entry) :
  upqueue_entry_ok K e -> upqentry_size K e = serlen e + sizeof_upqueue_entry K.
Proof.
  intros [H0 H1]. unfold upqentry_size. apply u32_small. lia.
Qed.

Lemma upqueue_bytes_app (q : list upqueue_entry) (e : upqueue_entry) :
  upqueue_bytes K (q ++ [e]) = upqueue_bytes K q + (serlen e + sizeof_upqueue_entry K).
Proof.
  induction q as [|x q IH]; simpl.
  - lia.
  - rewrite IH. lia.
Qed.

Lemma upqueue_bytes_nonneg (q : list upqueue_entry) :
  Forall (upqueue_entry_ok K) q -> 0 <= upqueue_bytes K q.
Proof.
  induction 1 as [|x q [Hx _] _ IH]; simpl; lia.
Qed.

Lemma upqueue_entry_of_ok (rmsg : rl_msg) :
  msg_fits K rmsg -> upqueue_entry_ok K (upqueue_entry_of K rmsg).
Proof.
  unfold msg_fits, upqueue_entry_ok, upqueue_entry_of. simpl. intros H.
  rewrite u32_small by lia. lia.
Qed.

(** The budget test of the loop is exact on a device that satisfies the
    invariant: no wrap-around hides an overflow. *)
Lemma upqueue_full_test (rc : rl_ctrl) (e : upqueue_entry) :
  upqueue_inv K rc -> upqueue_entry_ok K e ->
  u32 (upqueue_size rc + upqentry_size K e)
  = upqueue_bytes K (upqueue rc) + (serlen e + sizeof_upqueue_entry K).
Proof.
  intros (Hall & Hsz & Hmax) He.
  rewrite (upqentry_size_ok e He), Hsz.
  pose proof (upqueue_bytes_nonneg _ Hall) as Hnn.
  destruct He as [H0 H1]. rewrite RL_UPQUEUE_SIZE_MAX_val in Hmax.
  apply u32_small. lia.
Qed.

Lemma upqueue_append_loop_inv (entry : upqueue_entry) (maysleep : bool) (exp : Z) :
  upqueue_entry_ok K entry ->
  forall env rc ret rc',
    upq_env_ok K env -> upqueue_inv K rc ->
    upqueue_append_loop K rc entry maysleep exp env = Some (ret, rc') ->
    upqueue_inv K rc' /\ (ret = 0 \/ ret = - ENOSPC).
Proof.
  intros He env. induction env as [|w env IH]; intros rc ret rc' Henv Hinv; simpl;
    rewrite (upqueue_full_test rc entry Hinv He).
  - destruct (RL_UPQUEUE_SIZE_MAX <? _) eqn:Hfull.
    + destruct maysleep; simpl; [discriminate|].
      intros [= <- <-]. auto.
    + intros [= <- <-]. apply Z.ltb_ge in Hfull. split; [|auto].
      destruct Hinv as (Hall & Hsz & Hmax).
      unfold upqueue_inv; simpl. rewrite upqueue_bytes_app.
      repeat split; auto.
      apply Forall_app; split; auto.
  - destruct (RL_UPQUEUE_SIZE_MAX <? _) eqn:Hfull.
    + destruct maysleep; simpl; [|intros [= <- <-]; auto].
      destruct (time_before (wait_jiffies w) exp); simpl.
      * inversion Henv as [|? ? Hw Henv']; subst.
        apply IH; auto.
      * intros [= <- <-]. auto.
    + intros [= <- <-]. apply Z.ltb_ge in Hfull. split; [|auto].
      destruct Hinv as (Hall & Hsz & Hmax).
      unfold upqueue_inv; simpl. rewrite upqueue_bytes_app.
      repeat split; auto.
      apply Forall_app; split; auto.
Qed.

Lemma rl_ctrl_read_loop_inv (ppos len : Z) (blocking copy_ok : bool) :
  forall env rc res,
    read_env_ok K env -> upqueue_inv K rc ->
    rl_ctrl_read_loop K rc ppos len blocking copy_ok env = Some res ->
    upqueue_inv K (rd_rc res).
Proof.
  assert (Hhead : forall rc e rest, upqueue rc = e :: rest -> upqueue_inv K rc ->
            upqueue_inv K (set_upqueue rc rest (u32 (upqueue_size rc - upqentry_size K e)))).
  { intros rc e rest Hq (Hall & Hsz & Hmax). rewrite Hq in *.
    inversion Hall as [|? ? He Hrest]; subst.
    pose proof (upqueue_bytes_nonneg _ Hrest) as Hnn.
    rewrite (upqentry_size_ok e He), Hsz. simpl in *.
    rewrite RL_UPQUEUE_SIZE_MAX_val in *. destruct He as [H0 H1].
    unfold upqueue_inv; simpl. repeat split; auto.
    - rewrite u32_small by lia. lia.
    - rewrite RL_UPQUEUE_SIZE_MAX_val. lia. }
  intros env. induction env as [|w env IH]; intros rc res Henv Hinv; simpl;
    destruct (upqueue rc) as [|e rest] eqn:Hq; try discriminate.
  - destruct (len <? serlen e); [intros [= <-]; auto|].
    destruct copy_ok; simpl; intros [= <-]; simpl; auto.
  - inversion Henv as [|? ? Hw Henv']; subst.
    destruct (rw_signal_pending w); [intros [= <-]; auto|].
    destruct blocking; simpl; [|intros [= <-]; auto].
    apply IH; auto.
  - destruct (len <? serlen e); [intros [= <-]; auto|].
    destruct copy_ok; simpl; intros [= <-]; simpl; auto.
Qed.

End UpqueueFacts.

Section UpqueueBlocking.

Variable K : kernel.

(** A producer that cannot sleep decides at once. *)
Lemma upqueue_append_loop_atomic (rc : rl_ctrl) (entry : upqueue_entry) (exp : Z)
    (env : list upq_wait) :
  upqueue_append_loop K rc entry false exp env =
  if RL_UPQUEUE_SIZE_MAX <? u32 (upqueue_size rc + upqentry_size K entry)
  then Some (- ENOSPC, rc)
  else Some (0, set_upqueue rc (upqueue rc ++ [entry])
                  (u32 (upqueue_size rc + upqentry_size K entry))).
Proof. destruct env; reflexivity. Qed.

(** A sleeping producer gives up only at an observation that is not
    before the deadline; every earlier observation was before it, and the
    device is then as the other users left it. *)
Lemma upqueue_append_loop_nospace (entry : upqueue_entry) (exp : Z) :
  forall env rc rc',
    upqueue_append_loop K rc entry true exp env = Some (- ENOSPC, rc') ->
    exists k w,
      nth_error env k = Some w /\
      time_before (wait_jiffies w) exp = false /\
      (forall i w', (i < k)%nat -> nth_error env i = Some w' ->
                    time_before (wait_jiffies w') exp = true) /\
      rc' = after_waits rc env k.
Proof.
  intros env. induction env as [|w env IH]; intros rc rc'; simpl.
  - destruct (RL_UPQUEUE_SIZE_MAX <? _); discriminate.
  - destruct (RL_UPQUEUE_SIZE_MAX <? _); [|discriminate].
    destruct (time_before (wait_jiffies w) exp) eqn:Hb; simpl.
    + intros H. destruct (IH _ _ H) as (k & w0 & Hk & Hd & Hprev & Hrc).
      exists (S k), w0. simpl. repeat split; auto.
      intros [|i] w' Hi; simpl.
      * now intros [= <-].
      * apply Hprev. lia.
    + intros [= <-]. exists O, w. simpl. repeat split; auto.
      intros i w' Hi. lia.
Qed.

(** A successful append adds exactly the new entry at the tail of the
    queue the other users left. *)
Lemma upqueue_append_loop_success (entry : upqueue_entry) (maysleep : bool) (exp : Z) :
  forall env rc rc',
    upqueue_append_loop K rc entry maysleep exp env = Some (0, rc') ->
    exists k, upqueue rc' = upqueue (after_waits rc env k) ++ [entry].
Proof.
  intros env. induction env as [|w env IH]; intros rc rc'; simpl.
  - destruct (RL_UPQUEUE_SIZE_MAX <? _).
    + destruct maysleep; simpl; discriminate.
    + intros [= <-]. exists O. reflexivity.
  - destruct (RL_UPQUEUE_SIZE_MAX <? _).
    + destruct maysleep; simpl; [|discriminate].
      destruct (time_before (wait_jiffies w) exp); simpl; [|discriminate].
      intros H. destruct (IH _ _ H) as [k Hk]. exists (S k). exact Hk.
    + intros [= <-]. exists O. reflexivity.
Qed.

(** The loop returns as soon as the deadline shows up in the trace. *)
Lemma upqueue_append_loop_returns (entry : upqueue_entry) (maysleep : bool) (exp : Z) :
  forall env rc,
    Exists (fun w => time_before (wait_jiffies w) exp = false) env ->
    exists r, upqueue_append_loop K rc entry maysleep exp env = Some r.
Proof.
  intros env. induction env as [|w env IH]; intros rc Hex.
  - inversion Hex.
  - simpl. destruct (RL_UPQUEUE_SIZE_MAX <? _); [|eauto].
    destruct maysleep; simpl; [|eauto].
    destruct (time_before (wait_jiffies w) exp) eqn:Hb; simpl; [|eauto].
    apply IH. inversion Hex; subst; auto. congruence.
Qed.

End UpqueueBlocking.

Section UpqueueWaiting.

Variable K : kernel.
Hypothesis sizeof_nonneg : 0 <= sizeof_upqueue_entry K.

Lemma after_waits_O (rc : rl_ctrl) (env : list upq_wait) : after_waits rc env 0 = rc.
Proof. now destruct env. Qed.

Lemma after_waits_inv (env : list upq_wait) :
  upq_env_ok K env ->
  forall k rc, upqueue_inv K rc -> upqueue_inv K (after_waits rc env k).
Proof.
  induction 1 as [|w env Hw _ IH]; intros k rc Hinv.
  - now destruct k.
  - destruct k as [|k]; [exact Hinv|]. cbn [after_waits]. apply IH. now apply Hw.
Qed.

Lemma after_waits_quiet (env : list upq_wait) :
  (forall w, In w env -> forall r, wait_interference w r = r) ->
  forall k rc, after_waits rc env k = rc.
Proof.
  induction env as [|w env IH]; intros Hq k rc.
  - now destruct k.
  - destruct k as [|k]; [reflexivity|]. cbn [after_waits].
    rewrite (Hq w) by now left. apply IH. intros w' Hw'. apply Hq. now right.
Qed.

(** While the queue has no room and the time observed is before the
    deadline, a producer that may sleep sleeps and tries again. *)
Lemma upqueue_append_loop_waits (entry : upqueue_entry) (exp : Z) :
  upqueue_entry_ok K entry ->
  forall env k rc,
    upq_env_ok K env -> upqueue_inv K rc ->
    (k <= length env)%nat ->
    (forall i w, (i < k)%nat -> nth_error env i = Some w ->
                 time_before (wait_jiffies w) exp = true) ->
    (forall i, (i < k)%nat ->
               RL_UPQUEUE_SIZE_MAX
               < upqueue_bytes K (upqueue (after_waits rc env i))
                 + (serlen entry + sizeof_upqueue_entry K)) ->
    upqueue_append_loop K rc entry true exp env
    = upqueue_append_loop K (after_waits rc env k) entry true exp (skipn k env).
Proof.
  intros He env. induction env as [|w env IH]; intros k rc Henv Hinv Hk Hbefore Hfull.
  - destruct k; [reflexivity|]. cbn in Hk. lia.
  - destruct k as [|k]; [reflexivity|].
    cbn [after_waits skipn upqueue_append_loop].
    rewrite (upqueue_full_test K sizeof_nonneg rc entry Hinv He).
    pose proof (Hfull O ltac:(lia)) as H0. rewrite after_waits_O in H0.
    apply Z.ltb_lt in H0. rewrite H0. cbn [negb].
    rewrite (Hbefore O w ltac:(lia) eq_refl). cbn [negb].
    inversion Henv as [|? ? Hw Henv']; subst.
    apply IH; auto.
    + cbn in Hk. lia.
    + intros i w' Hi Hn. apply (Hbefore (S i) w'); [lia|exact Hn].
    + intros i Hi. apply (Hfull (S i)). lia.
Qed.

(** The loop on a queue with room. *)
Lemma upqueue_append_loop_room (entry : upqueue_entry) (maysleep : bool) (exp : Z)
    (env : list upq_wait) (rc : rl_ctrl) :
  upqueue_entry_ok K entry ->
  upqueue_inv K rc ->
  upqueue_bytes K (upqueue rc) + (serlen entry + sizeof_upqueue_entry K)
  <= RL_UPQUEUE_SIZE_MAX ->
  upqueue_append_loop K rc entry maysleep exp env
  = Some (0, set_upqueue rc (upqueue rc ++ [entry])
               (upqueue_bytes K (upqueue rc) + (serlen entry + sizeof_upqueue_entry K))).
Proof.
  intros He Hinv Hroom.
  assert (E : (RL_UPQUEUE_SIZE_MAX
               <? u32 (upqueue_size rc + upqentry_size K entry)) = false).
  { rewrite (upqueue_full_test K sizeof_nonneg rc entry Hinv He). apply Z.ltb_ge. lia. }
  destruct env; cbn [upqueue_append_loop]; rewrite E;
    now rewrite (upqueue_full_test K sizeof_nonneg rc entry Hinv He).
Qed.

(** The loop of a producer that may sleep, on a queue without room, at
    the deadline. *)
Lemma upqueue_append_loop_deadline (entry : upqueue_entry) (exp : Z) (w : upq_wait)
    (env : list upq_wait) (rc : rl_ctrl) :
  upqueue_entry_ok K entry ->
  upqueue_inv K rc ->
  RL_UPQUEUE_SIZE_MAX
  < upqueue_bytes K (upqueue rc) + (serlen entry + sizeof_upqueue_entry K) ->
  time_before (wait_jiffies w) exp = false ->
  upqueue_append_loop K rc entry true exp (w :: env) = Some (- ENOSPC, rc).
Proof.
  intros He Hinv Hfull Hd. cbn [upqueue_append_loop].
  rewrite (upqueue_full_test K sizeof_nonneg rc entry Hinv He).
  apply Z.ltb_lt in Hfull. rewrite Hfull. cbn [negb]. now rewrite Hd.
Qed.

Lemma skipn_nth_error {A} (l : list A) (k : nat) (x : A) :
  nth_error l k = Some x -> exists l', skipn k l = x :: l'.
Proof.
  revert k. induction l as [|a l IH]; intros [|k] H; cbn in *; try discriminate.
  - injection H as ->. eauto.
  - now apply IH.
Qed.

End UpqueueWaiting.

(** C4 — Upstream queue budget.  On a device whose accounted size is the
    sum of [entry_len + entry_header] over its queue and is within
    16384 bytes, (a) every append and (b) every read leave the device in
    that condition; (c) an append that would exceed the budget fails with
    [-ENOSPC] at once when the producer may not sleep, the device
    unchanged; (d) a producer that may sleep fails with [-ENOSPC] only at
    an observation of [jiffies] not before [entry time + 5 ms], having
    slept at every earlier one, and it leaves the device as the other
    users left it; (e) the call returns once the deadline is observed;
    (f) a producer that may sleep and finds no room at any of its
    attempts up to the first observation of [jiffies] that is not before
    the deadline does fail there with [-ENOSPC]; (g) if instead the
    other users make room while it sleeps, before the deadline, it
    appends its message to the queue they left and returns 0; (h) an
    append that fits succeeds at once, whether the producer may sleep or
    not; (i) when the other users do not touch the device, a call that
    fails with [-ENOSPC] leaves the device exactly as it was. *)
Theorem C4_upqueue_budget (K : kernel) (rc : rl_ctrl) (rmsg : rl_msg) (maysleep : bool)
    (jiffies : Z) (env : list upq_wait) :
  0 <= sizeof_upqueue_entry K ->
  msg_fits K rmsg ->
  upqueue_inv K rc ->
  upq_env_ok K env ->
  let exp := ulong (jiffies + msecs_to_jiffies K 5) in
  (forall alloc_ok ret rc',
      rl_upqueue_append K rc rmsg maysleep alloc_ok jiffies env = Some (ret, rc') ->
      upqueue_inv K rc' /\ upqueue_bytes K (upqueue rc') <= 16384) /\
  (forall ppos len blocking copy_ok renv res,
      read_env_ok K renv ->
      rl_ctrl_read K rc ppos len blocking copy_ok renv = Some res ->
      upqueue_inv K (rd_rc res) /\ upqueue_bytes K (upqueue (rd_rc res)) <= 16384) /\
  (maysleep = false ->
   RL_UPQUEUE_SIZE_MAX
     < upqueue_bytes K (upqueue rc)
       + (Z.of_nat (length (serialize_rlite_msg K rmsg)) + sizeof_upqueue_entry K) ->
   rl_upqueue_append K rc rmsg maysleep true jiffies env = Some (- ENOSPC, rc)) /\
  (maysleep = true ->
   forall rc',
     rl_upqueue_append K rc rmsg maysleep true jiffies env = Some (- ENOSPC, rc') ->
     exists k w,
       nth_error env k = Some w /\
       time_before (wait_jiffies w) exp = false /\
       (forall i w', (i < k)%nat -> nth_error env i = Some w' ->
                     time_before (wait_jiffies w') exp = true) /\
       rc' = after_waits rc env k) /\
  (Exists (fun w => time_before (wait_jiffies w) exp = false) env ->
   exists r, rl_upqueue_append K rc rmsg maysleep true jiffies env = Some r) /\
  (maysleep = true ->
   forall k w,
     nth_error env k = Some w ->
     time_before (wait_jiffies w) exp = false ->
     (forall i w', (i < k)%nat -> nth_error env i = Some w' ->
                   time_before (wait_jiffies w') exp = true) ->
     (forall i, (i <= k)%nat ->
                RL_UPQUEUE_SIZE_MAX
                < upqueue_bytes K (upqueue (after_waits rc env i))
                  + (Z.of_nat (length (serialize_rlite_msg K rmsg))
                     + sizeof_upqueue_entry K)) ->
     rl_upqueue_append K rc rmsg maysleep true jiffies env
     = Some (- ENOSPC, after_waits rc env k)) /\
  (maysleep = true ->
   forall k,
     (k <= length env)%nat ->
     (forall i w', (i < k)%nat -> nth_error env i = Some w' ->
                   time_before (wait_jiffies w') exp = true) ->
     (forall i, (i < k)%nat ->
                RL_UPQUEUE_SIZE_MAX
                < upqueue_bytes K (upqueue (after_waits rc env i))
                  + (Z.of_nat (length (serialize_rlite_msg K rmsg))
                     + sizeof_upqueue_entry K)) ->
     upqueue_bytes K (upqueue (after_waits rc env k))
     + (Z.of_nat (length (serialize_rlite_msg K rmsg)) + sizeof_upqueue_entry K)
     <= RL_UPQUEUE_SIZE_MAX ->
     rl_upqueue_append K rc rmsg maysleep true jiffies env
     = Some (0, set_upqueue (after_waits rc env k)
                  (upqueue (after_waits rc env k) ++ [upqueue_entry_of K rmsg])
                  (upqueue_bytes K (upqueue (after_waits rc env k))
                   + (Z.of_nat (length (serialize_rlite_msg K rmsg))
                      + sizeof_upqueue_entry K)))) /\
  (upqueue_bytes K (upqueue rc)
   + (Z.of_nat (length (serialize_rlite_msg K rmsg)) + sizeof_upqueue_entry K)
   <= RL_UPQUEUE_SIZE_MAX ->
   rl_upqueue_append K rc rmsg maysleep true jiffies env
   = Some (0, set_upqueue rc (upqueue rc ++ [upqueue_entry_of K rmsg])
                (upqueue_bytes K (upqueue rc)
                 + (Z.of_nat (length (serialize_rlite_msg K rmsg))
                    + sizeof_upqueue_entry K)))) /\
  ((forall w, In w env -> forall r, wait_interference w r = r) ->
   forall alloc_ok ret rc',
     rl_upqueue_append K rc rmsg maysleep alloc_ok jiffies env = Some (ret, rc') ->
     ret <> 0 -> rc' = rc).
Proof.
  intros Hsz Hfit Hinv Henv exp.
  pose proof (upqueue_entry_of_ok K Hsz rmsg Hfit) as He.
  assert (Hlen : serlen (upqueue_entry_of K rmsg)
                 = Z.of_nat (length (serialize_rlite_msg K rmsg))).
  { unfold upqueue_entry_of. cbn [serlen]. unfold msg_fits in Hfit.
    apply u32_small. lia. }
  assert (Hbound : forall rc0, upqueue_inv K rc0 ->
            upqueue_inv K rc0 /\ upqueue_bytes K (upqueue rc0) <= 16384).
  { intros rc0 Hrc0. split; auto. destruct Hrc0 as (_ & _ & Hb).
    now rewrite RL_UPQUEUE_SIZE_MAX_val in Hb. }
  split; [|split; [|split; [|split; [|split; [|split; [|split; [|split]]]]]]].
  - intros alloc_ok ret rc' H. apply Hbound.
    destruct alloc_ok; unfold rl_upqueue_append in H; simpl in H.
    + now destruct (upqueue_append_loop_inv K Hsz _ _ _ He _ _ _ _ Henv Hinv H).
    + now injection H as <- <-.
  - intros ppos len blocking copy_ok renv res Hrenv H. apply Hbound.
    unfold rl_ctrl_read in H. destruct (len =? 0).
    + now injection H as <-.
    + eapply rl_ctrl_read_loop_inv; eauto.
  - intros -> Hover. unfold rl_upqueue_append. simpl.
    rewrite upqueue_append_loop_atomic, (upqueue_full_test K Hsz rc _ Hinv He).
    simpl. unfold msg_fits in Hfit. rewrite (u32_small (Z.of_nat _)) by lia.
    apply Z.ltb_lt in Hover. now rewrite Hover.
  - intros -> rc' H. unfold rl_upqueue_append in H. simpl in H.
    now apply upqueue_append_loop_nospace in H.
  - intros Hex. unfold rl_upqueue_append. simpl.
    now apply upqueue_append_loop_returns.
  - intros -> k w Hk Hd Hbefore Hfull. unfold rl_upqueue_append. cbn [negb].
    fold exp.
    assert (Hkl : (k < length env)%nat) by (apply nth_error_Some; congruence).
    rewrite (upqueue_append_loop_waits K Hsz _ exp He env k rc Henv Hinv);
      [|lia|exact Hbefore|intros i Hi; rewrite Hlen; apply Hfull; lia].
    destruct (skipn_nth_error env k w Hk) as [env' ->].
    apply upqueue_append_loop_deadline; auto.
    + now apply after_waits_inv.
    + rewrite Hlen. apply Hfull. lia.
  - intros -> k Hk Hbefore Hfull Hroom. unfold rl_upqueue_append. cbn [negb].
    fold exp.
    rewrite (upqueue_append_loop_waits K Hsz _ exp He env k rc Henv Hinv);
      [|exact Hk|exact Hbefore|intros i Hi; rewrite Hlen; apply Hfull; lia].
    rewrite upqueue_append_loop_room; auto.
    + now rewrite Hlen.
    + now apply after_waits_inv.
    + now rewrite Hlen.
  - intros Hroom. unfold rl_upqueue_append. cbn [negb]. fold exp.
    rewrite upqueue_append_loop_room; auto.
    + now rewrite Hlen.
    + now rewrite Hlen.
  - intros Hquiet alloc_ok ret rc' H Hret.
    destruct alloc_ok; unfold rl_upqueue_append in H; cbn [negb] in H.
    + fold exp in H.
      destruct (upqueue_append_loop_inv K Hsz _ maysleep exp He _ _ _ _ Henv Hinv H)
        as [_ [->| ->]]; [now contradiction Hret|].
      destruct maysleep.
      * apply upqueue_append_loop_nospace in H.
        destruct H as (k & w & _ & _ & _ & ->). now apply after_waits_quiet.
      * rewrite upqueue_append_loop_atomic in H.
        destruct (RL_UPQUEUE_SIZE_MAX <? _); [now injection H as <-|discriminate].
    + now injection H as _ <-.
Qed.

Lemma example_rc_one_inv : upqueue_inv Example.K0 Example.rc_one.
Proof.
  unfold upqueue_inv, upqueue_entry_ok; simpl.
  split; [|split; [reflexivity|discriminate]].
  constructor; [|constructor]. simpl. lia.
Defined.

Lemma example_rc_full_inv : upqueue_inv Example.K0 Example.rc_full.
Proof.
  unfold upqueue_inv, upqueue_entry_ok, Example.rc_full. cbn [upqueue set_upqueue upqueue_size].
  split; [|split; [vm_compute; reflexivity|vm_compute; discriminate]].
  constructor; [|constructor]. vm_compute. split; [discriminate|reflexivity].
Qed.

(** A producer that may sleep, on the full device of the example, with
    nobody reading: it sleeps at time 2 and gives up at time 5, the
    deadline, the device untouched. *)
Lemma C4_upqueue_budget_witness :
  rl_upqueue_append Example.K0 Example.rc_full Example.sample_msg true true 0
    [Example.quiet 2; Example.quiet 5]
  = Some (- ENOSPC, Example.rc_full).
Proof.
  assert (H1 : 0 <= sizeof_upqueue_entry Example.K0) by (simpl; lia).
  assert (H2 : msg_fits Example.K0 Example.sample_msg) by (unfold msg_fits; simpl; lia).
  assert (H4 : upq_env_ok Example.K0 [Example.quiet 2; Example.quiet 5]).
  { constructor; [intros rc Hrc; exact Hrc|].
    constructor; [intros rc Hrc; exact Hrc|constructor]. }
  assert (Hfull : RL_UPQUEUE_SIZE_MAX
                  < upqueue_bytes Example.K0 (upqueue Example.rc_full)
                    + (Z.of_nat (length (serialize_rlite_msg Example.K0 Example.sample_msg))
                       + sizeof_upqueue_entry Example.K0)) by (vm_compute; reflexivity).
  refine (proj1 (proj2 (proj2 (proj2 (proj2 (proj2
            (C4_upqueue_budget Example.K0 Example.rc_full Example.sample_msg true 0
               [Example.quiet 2; Example.quiet 5] H1 H2 example_rc_full_inv H4))))))
            eq_refl 1%nat (Example.quiet 5) eq_refl _ _ _).
  - vm_compute. reflexivity.
  - intros [|i] w' Hi Hn; [|lia]. injection Hn as <-. vm_compute. reflexivity.
  - intros [|[|i]] Hi; try lia; exact Hfull.
Defined.

(** The same producer when the reader empties the queue while it
    sleeps: the message is appended to the empty queue. *)
Example upqueue_append_after_wait_example :
  rl_upqueue_append Example.K0 Example.rc_full Example.sample_msg true true 0
    [Example.quiet 2; Example.drained 3]
  = Some (0, set_upqueue Example.rc_full
               [upqueue_entry_of Example.K0 Example.sample_msg] 41).
Proof. vm_compute. reflexivity. Qed.

(** On the example device, appending the sample message succeeds and
    accounts 9 + 32 more bytes. *)
Example upqueue_append_example :
  rl_upqueue_append Example.K0 Example.rc_one Example.sample_msg false true 0 []
  = Some (0, set_upqueue Example.rc_one
               [Example.entry_of_len 40; upqueue_entry_of Example.K0 Example.sample_msg]
               113).
Proof. reflexivity. Qed.

(* ===================================================================== *)
(** ** Reading from the control device *)
(* ===================================================================== *)

(** C5, as stated, fails for a zero-length read: the buffer is shorter
    than the 40-byte message at the head of the queue, yet the read
    returns 0 rather than [-ENOBUFS] (the [while (len)] loop is not
    entered). *)
Lemma C5_zero_length_read :
  exists res,
    rl_ctrl_read Example.K0 Example.rc_one 0 0 true true [] = Some res /\
    0 < 40 /\ rd_ret res = 0 /\ rd_ret res <> - ENOBUFS.
Proof.
  eexists. split; [reflexivity|]. simpl. repeat split; lia.
Qed.

(** C5 (amended) — Framing of reads.  With a message at the head of the
    queue: a zero-length read returns 0 and changes nothing; a read with
    a non-empty buffer shorter than the message fails with [-ENOBUFS] and
    leaves the message queued, queue and accounted size unchanged; a read
    with a buffer that holds the message (and is writable) returns its
    length, copies exactly that message, removes it, subtracts
    [serlen + sizeof(entry)] from the accounted size, and wakes the
    writers up. *)
Theorem C5_read_framing (K : kernel) (rc : rl_ctrl) (ppos len : Z) (blocking : bool)
    (env : list read_wait) (entry : upqueue_entry) (rest : list upqueue_entry) :
  0 <= sizeof_upqueue_entry K ->
  upqueue_inv K rc ->
  upqueue rc = entry :: rest ->
  0 < serlen entry ->
  (forall copy_ok,
      rl_ctrl_read K rc ppos 0 blocking copy_ok env
      = Some {| rd_ret := 0; rd_rc := rc; rd_buf := None; rd_ppos := ppos;
                rd_wake_writers := false |}) /\
  (forall copy_ok,
      0 < len < serlen entry ->
      rl_ctrl_read K rc ppos len blocking copy_ok env
      = Some {| rd_ret := - ENOBUFS; rd_rc := rc; rd_buf := None; rd_ppos := ppos;
                rd_wake_writers := false |}) /\
  (serlen entry <= len ->
   exists res,
     rl_ctrl_read K rc ppos len blocking true env = Some res /\
     rd_ret res = serlen entry /\
     rd_buf res = Some (sermsg entry) /\
     upqueue (rd_rc res) = rest /\
     upqueue_size (rd_rc res) = upqueue_size rc - (serlen entry + sizeof_upqueue_entry K) /\
     upqueue_size (rd_rc res) = upqueue_bytes K rest /\
     flows_fetch_q (rd_rc res) = flows_fetch_q rc /\
     regs_fetch_q (rd_rc res) = regs_fetch_q rc /\
     rc_flags (rd_rc res) = rc_flags rc /\
     rd_ppos res = ppos + serlen entry /\
     rd_wake_writers res = true).
Proof.
  intros Hsz (Hall & Hacc & Hmax) Hq Hpos.
  rewrite Hq in *. inversion Hall as [|? ? He Hrest]; subst.
  pose proof (upqueue_bytes_nonneg K Hsz _ Hrest) as Hnn.
  assert (Hint : to_int (serlen entry) = serlen entry).
  { destruct He as [H0 H1]. unfold to_int. rewrite u32_small by lia.
    destruct (serlen entry <? 2 ^ 31) eqn:C; auto. apply Z.ltb_ge in C. lia. }
  split; [|split].
  - intros copy_ok. reflexivity.
  - intros copy_ok [Hl0 Hl]. unfold rl_ctrl_read.
    destruct (len =? 0) eqn:E; [apply Z.eqb_eq in E; lia|].
    destruct env; simpl; rewrite Hq; apply Z.ltb_lt in Hl; now rewrite Hl.
  - intros Hl. unfold rl_ctrl_read.
    destruct (len =? 0) eqn:E; [apply Z.eqb_eq in E; lia|].
    assert (Hge : (len <? serlen entry) = false) by (apply Z.ltb_ge; lia).
    eexists. split.
    + destruct env; simpl; rewrite Hq, Hge; simpl; reflexivity.
    + simpl. rewrite Hint, (upqentry_size_ok K Hsz entry He), Hacc. simpl in *.
      rewrite RL_UPQUEUE_SIZE_MAX_val in Hmax. destruct He as [H0 H1].
      rewrite u32_small by lia.
      repeat split; auto; try lia.
Qed.

Lemma C5_read_framing_witness :
  0 <= sizeof_upqueue_entry Example.K0 /\
  upqueue_inv Example.K0 Example.rc_one /\
  upqueue Example.rc_one = [Example.entry_of_len 40] /\
  0 < serlen (Example.entry_of_len 40) /\
  rl_ctrl_read Example.K0 Example.rc_one 0 39 true true []
  = Some {| rd_ret := - ENOBUFS; rd_rc := Example.rc_one; rd_buf := None; rd_ppos := 0;
            rd_wake_writers := false |}.
Proof.
  assert (H1 : 0 <= sizeof_upqueue_entry Example.K0) by (simpl; lia).
  assert (H3 : upqueue Example.rc_one = [Example.entry_of_len 40]) by reflexivity.
  assert (H4 : 0 < serlen (Example.entry_of_len 40)) by (simpl; lia).
  repeat (split; [assumption || exact example_rc_one_inv|]).
  apply (proj1 (proj2 (C5_read_framing Example.K0 Example.rc_one 0 39 true []
                         (Example.entry_of_len 40) [] H1 example_rc_one_inv H3 H4)) true).
  simpl. lia.
Defined.

(** Reading the example device with a 64-byte buffer hands out the
    40-byte message and empties the queue. *)
Example rl_ctrl_read_example :
  rl_ctrl_read Example.K0 Example.rc_one 0 64 true true []
  = Some {| rd_ret := 40; rd_rc := set_upqueue Example.rc_one [] 0;
            rd_buf := Some (repeat x00 40); rd_ppos := 40; rd_wake_writers := true |}.
Proof. reflexivity. Qed.

(* ===================================================================== *)
(** ** The message dispatcher *)
(* ===================================================================== *)

Section DispatcherFacts.

Variable N : rl_ker_msg_types.
Variables (St msg : Type).
Variable msg_type : msg -> Z.
Variable deserialize_rlite_msg : list byte -> option msg.
Variable sizeof_rl_msg_base : Z.

Lemma privileged_iff (ty : Z) :
  privileged N ty = true <->
  In ty [RLITE_KER_IPCP_CREATE N; RLITE_KER_IPCP_DESTROY N; RLITE_KER_IPCP_CONFIG N;
         RLITE_KER_IPCP_PDUFT_SET N; RLITE_KER_IPCP_PDUFT_FLUSH N;
         RLITE_KER_APPL_REGISTER_RESP N; RLITE_KER_IPCP_UIPCP_SET N;
         RLITE_KER_UIPCP_FA_REQ_ARRIVED N; RLITE_KER_UIPCP_FA_RESP_ARRIVED N;
         RLITE_KER_FLOW_DEALLOC N].
Proof.
  unfold privileged. rewrite existsb_exists. split.
  - intros (x & Hin & Heq). apply Z.eqb_eq in Heq. now subst.
  - intros Hin. exists ty. split; auto. apply Z.eqb_refl.
Qed.

End DispatcherFacts.

(** C8 — Dispatch of a written request.  For a request of [len] bytes
    that the codec decodes to [bmsg] (buffer allocated and copied in):
    (a) a type above [RLITE_KER_MSG_MAX] or without a handler fails with
    [-EINVAL], no handler runs and nothing changes; (b) a type of the
    privileged set written without [CAP_SYS_ADMIN] fails with [-EPERM],
    no handler runs; (c) otherwise the handler of the type runs once, the
    write returns [len] when the handler returns 0 and the handler's
    code otherwise, and for handlers that return 0 or a negative code the
    write returns [len] exactly when the handler succeeded.  The
    privileged set is exactly the ten types of the claim. *)
Theorem C8_write_dispatch (N : rl_ker_msg_types) (St msg : Type) (msg_type : msg -> Z)
    (deserialize_rlite_msg : list byte -> option msg) (sizeof_rl_msg_base : Z)
    (handlers : Z -> option (rl_msg_handler_t St msg)) (st : St) (ubuf : list byte)
    (ppos : Z) (env : write_env) (bmsg : msg) :
  let len := Z.of_nat (length ubuf) in
  let ty := msg_type bmsg in
  let res := rl_ctrl_write N St msg msg_type deserialize_rlite_msg sizeof_rl_msg_base
               handlers st ubuf ppos env in
  0 < sizeof_rl_msg_base <= len ->
  kbuf_alloc_ok env = true ->
  copy_from_user_ok env = true ->
  deserialize_rlite_msg ubuf = Some bmsg ->
  (RLITE_KER_MSG_MAX N < ty \/ handlers ty = None ->
   res = {| wr_ret := - EINVAL; wr_state := st; wr_ppos := ppos; wr_dispatched := None |}) /\
  (forall handler,
      ty <= RLITE_KER_MSG_MAX N -> handlers ty = Some handler ->
      In ty [RLITE_KER_IPCP_CREATE N; RLITE_KER_IPCP_DESTROY N; RLITE_KER_IPCP_CONFIG N;
             RLITE_KER_IPCP_PDUFT_SET N; RLITE_KER_IPCP_PDUFT_FLUSH N;
             RLITE_KER_APPL_REGISTER_RESP N; RLITE_KER_IPCP_UIPCP_SET N;
             RLITE_KER_UIPCP_FA_REQ_ARRIVED N; RLITE_KER_UIPCP_FA_RESP_ARRIVED N;
             RLITE_KER_FLOW_DEALLOC N] ->
      capable_sys_admin env = false ->
      res = {| wr_ret := - EPERM; wr_state := st; wr_ppos := ppos;
               wr_dispatched := None |}) /\
  (forall handler,
      ty <= RLITE_KER_MSG_MAX N -> handlers ty = Some handler ->
      (In ty [RLITE_KER_IPCP_CREATE N; RLITE_KER_IPCP_DESTROY N; RLITE_KER_IPCP_CONFIG N;
              RLITE_KER_IPCP_PDUFT_SET N; RLITE_KER_IPCP_PDUFT_FLUSH N;
              RLITE_KER_APPL_REGISTER_RESP N; RLITE_KER_IPCP_UIPCP_SET N;
              RLITE_KER_UIPCP_FA_REQ_ARRIVED N; RLITE_KER_UIPCP_FA_RESP_ARRIVED N;
              RLITE_KER_FLOW_DEALLOC N] -> capable_sys_admin env = true) ->
      wr_dispatched res = Some ty /\
      wr_state res = snd (handler st bmsg) /\
      (fst (handler st bmsg) = 0 -> wr_ret res = len /\ wr_ppos res = ppos + len) /\
      (fst (handler st bmsg) <> 0 ->
       wr_ret res = fst (handler st bmsg) /\ wr_ppos res = ppos) /\
      (fst (handler st bmsg) <= 0 -> (wr_ret res = len <-> fst (handler st bmsg) = 0))).
Proof.
  intros len ty res [Hbase Hlen] Halloc Hcopy Hdes.
  assert (Hpre : forall r,
             (if RLITE_KER_MSG_MAX N <? ty then
                {| wr_ret := - EINVAL; wr_state := st; wr_ppos := ppos;
                   wr_dispatched := None |}
              else
                match handlers ty with
                | None => {| wr_ret := - EINVAL; wr_state := st; wr_ppos := ppos;
                             wr_dispatched := None |}
                | Some handler =>
                    if privileged N ty && negb (capable_sys_admin env) then
                      {| wr_ret := - EPERM; wr_state := st; wr_ppos := ppos;
                         wr_dispatched := None |}
                    else
                      let (ret, st') := handler st bmsg in
                      if negb (ret =? 0) then
                        {| wr_ret := ret; wr_state := st'; wr_ppos := ppos;
                           wr_dispatched := Some ty |}
                      else
                        {| wr_ret := len; wr_state := st'; wr_ppos := ppos + len;
                           wr_dispatched := Some ty |}
                end) = r -> res = r).
  { intros r <-. subst res. unfold rl_ctrl_write. fold len.
    assert (E : (len <? sizeof_rl_msg_base) = false) by (apply Z.ltb_ge; lia).
    rewrite E, Halloc, Hcopy, Hdes. reflexivity. }
  split; [|split].
  - intros [Hmax|Hnone]; apply Hpre.
    + apply Z.ltb_lt in Hmax. now rewrite Hmax.
    + rewrite Hnone. now destruct (RLITE_KER_MSG_MAX N <? ty).
  - intros handler Hmax Hh Hpriv Hcap. apply Hpre.
    apply Z.ltb_ge in Hmax. rewrite Hmax, Hh.
    apply privileged_iff in Hpriv. now rewrite Hpriv, Hcap.
  - intros handler Hmax Hh Hpriv.
    assert (Hgate : privileged N ty && negb (capable_sys_admin env) = false).
    { destruct (privileged N ty) eqn:Hp; auto.
      apply privileged_iff in Hp. now rewrite (Hpriv Hp). }
    rewrite (Hpre _ eq_refl).
    apply Z.ltb_ge in Hmax. rewrite Hmax, Hh, Hgate.
    destruct (handler st bmsg) as [ret st'] eqn:Hrun. simpl.
    destruct (ret =? 0) eqn:Hret; simpl.
    + apply Z.eqb_eq in Hret. subst ret. repeat split; auto; try lia.
    + apply Z.eqb_neq in Hret. repeat split; auto; try lia.
Qed.

Lemma C8_write_dispatch_witness :
  rl_ctrl_write DispatchExample.N0 nat Z (fun t => t) DispatchExample.decode 6
    DispatchExample.handlers 0%nat (DispatchExample.request x03) 0 DispatchExample.user
  = {| wr_ret := - EPERM; wr_state := 0%nat; wr_ppos := 0; wr_dispatched := None |}.
Proof.
  refine (proj1 (proj2 (C8_write_dispatch DispatchExample.N0 nat Z (fun t => t)
            DispatchExample.decode 6 DispatchExample.handlers 0%nat
            (DispatchExample.request x03) 0 DispatchExample.user 3 _ _ _ _))
            (fun st _ => (- ENXIO, st)) _ _ _ _);
    try reflexivity; simpl; try lia; auto.
Defined.

(** An unprivileged [FLOW_FETCH] of 8 bytes runs its handler and returns
    8; a privileged writer reaches the failing handler of type 3 and
    gets its code; a type without handler is invalid. *)
Example rl_ctrl_write_examples :
  rl_ctrl_write DispatchExample.N0 nat Z (fun t => t) DispatchExample.decode 6
    DispatchExample.handlers 0%nat (DispatchExample.request x13) 0 DispatchExample.user
  = {| wr_ret := 8; wr_state := 1%nat; wr_ppos := 8; wr_dispatched := Some 19 |} /\
  rl_ctrl_write DispatchExample.N0 nat Z (fun t => t) DispatchExample.decode 6
    DispatchExample.handlers 0%nat (DispatchExample.request x03) 0 DispatchExample.root
  = {| wr_ret := - ENXIO; wr_state := 0%nat; wr_ppos := 0; wr_dispatched := Some 3 |} /\
  rl_ctrl_write DispatchExample.N0 nat Z (fun t => t) DispatchExample.decode 6
    DispatchExample.handlers 0%nat (DispatchExample.request x02) 0 DispatchExample.root
  = {| wr_ret := - EINVAL; wr_state := 0%nat; wr_ppos := 0; wr_dispatched := None |}.
Proof. repeat split. Qed.

(* ===================================================================== *)
(** ** Selection of an IPCP by DIF *)
(* ===================================================================== *)

Section SelectFacts.

Variable K : kernel.

(** What the scan returns is the running choice or a visited entry that
    is not a zombie. *)
Lemma ipcp_select_scan_sound (dm : rl_dm) (dname : option string) :
  forall l sel s,
    ipcp_select_scan dm dname sel l = Some s ->
    sel = Some s \/ (In s l /\ ipcp_is_zombie dm s = false).
Proof.
  induction l as [|p l IH]; intros sel s; simpl.
  - auto.
  - fold (ipcp_is_zombie dm p). destruct (ipcp_is_zombie dm p) eqn:Hz.
    + intros H. destruct (IH _ _ H) as [->|[Hin Hnz]]; auto.
    + destruct dname as [name|].
      * destruct (String.eqb _ name).
        -- intros [= <-]. auto.
        -- intros H. destruct (IH _ _ H) as [->|[Hin Hnz]]; auto.
      * intros H. apply IH in H. destruct H as [H|[Hin Hnz]]; auto.
        destruct sel as [s0|]; simpl in H.
        -- destruct (_ && _); injection H as <-; auto.
        -- injection H as <-; auto.
Qed.

(** With a DIF name, the scan returns an entry of that DIF. *)
Lemma ipcp_select_scan_named (dm : rl_dm) (name : string) :
  forall l s,
    ipcp_select_scan dm (Some name) None l = Some s ->
    dif_name (ipcp_dif_at dm (ipcp_at dm s)) = name.
Proof.
  induction l as [|p l IH]; intros s; simpl; [discriminate|].
  destruct (has_flag _ _); auto.
  destruct (String.eqb _ name) eqn:E; auto.
  intros [= <-]. now apply String.eqb_eq.
Qed.

Lemma ipcp_select_scan_named_finds (dm : rl_dm) (name : string) :
  forall l,
    (exists p, In p l /\ ipcp_is_zombie dm p = false /\
               dif_name (ipcp_dif_at dm (ipcp_at dm p)) = name) ->
    exists s, ipcp_select_scan dm (Some name) None l = Some s.
Proof.
  induction l as [|p l IH]; intros (q & Hin & Hz & Hn); simpl; [destruct Hin|].
  fold (ipcp_is_zombie dm p).
  destruct Hin as [->|Hin].
  - rewrite Hz, Hn, String.eqb_refl. eauto.
  - destruct (ipcp_is_zombie dm p); [apply IH; eauto|].
    destruct (String.eqb _ name); eauto.
Qed.

(** Without a DIF name: the running choice is never dropped for nothing,
    a visited live entry yields a choice, and the final choice is normal
    and has the largest tx header room among the live normal entries
    visited and the running choice. *)
Lemma ipcp_select_scan_any (dm : rl_dm) :
  forall l sel,
    (forall s0, sel = Some s0 -> exists s, ipcp_select_scan dm None sel l = Some s) /\
    ((exists p, In p l /\ ipcp_is_zombie dm p = false) ->
     exists s, ipcp_select_scan dm None sel l = Some s) /\
    (forall s, ipcp_select_scan dm None sel l = Some s ->
       (forall s0, sel = Some s0 -> ipcp_is_normal dm s0 = true ->
          ipcp_is_normal dm s = true /\ txhdroom (ipcp_at dm s0) <= txhdroom (ipcp_at dm s)) /\
       (forall q, In q l -> ipcp_is_zombie dm q = false -> ipcp_is_normal dm q = true ->
          ipcp_is_normal dm s = true /\ txhdroom (ipcp_at dm q) <= txhdroom (ipcp_at dm s))).
Proof.
  induction l as [|p l IH]; intros sel; simpl.
  - split; [|split].
    + intros s0 ->. eauto.
    + intros (p & [] & _).
    + intros s ->. split.
      * intros s0 [= <-] Hn. split; auto. lia.
      * intros q [].
  - fold (ipcp_is_zombie dm p). destruct (ipcp_is_zombie dm p) eqn:Hz.
    + destruct (IH sel) as (IH1 & IH2 & IH3). split; [|split]; auto.
      * intros (q & [->|Hin] & Hq); [congruence|]. apply IH2. eauto.
      * intros s Hs. destruct (IH3 s Hs) as [Ha Hb]. split; auto.
        intros q [->|Hin] Hqz Hqn; [congruence|]. auto.
    + fold (ipcp_is_normal dm p).
      set (sel' := if match sel with
                      | Some s => ipcp_is_normal dm p
                                  && (negb (String.eqb (dif_ty (ipcp_dif_at dm (ipcp_at dm s)))
                                                       "normal")
                                      || (txhdroom (ipcp_at dm s) <? txhdroom (ipcp_at dm p)))
                      | None => true
                      end then Some p else sel).
      assert (Hsome : exists s1, sel' = Some s1).
      { subst sel'. destruct sel as [s0|]; [destruct (_ && _)|]; eauto. }
      destruct (IH sel') as (IH1 & IH2 & IH3).
      destruct Hsome as [s1 Hs1].
      split; [|split].
      * intros s0 _. eapply IH1; eauto.
      * intros _. eapply IH1; eauto.
      * intros s Hs. destruct (IH3 s Hs) as [Ha Hb].
        (* the updated choice dominates both the old choice and [p] *)
        assert (Hdom_old : forall s0, sel = Some s0 -> ipcp_is_normal dm s0 = true ->
                  ipcp_is_normal dm s1 = true /\
                  txhdroom (ipcp_at dm s0) <= txhdroom (ipcp_at dm s1)).
        { intros s0 -> Hn0. subst sel'. fold (ipcp_is_normal dm s0) in Hs1.
          rewrite Hn0 in Hs1. simpl in Hs1.
          destruct (ipcp_is_normal dm p) eqn:Hnp; simpl in Hs1.
          - destruct (txhdroom (ipcp_at dm s0) <? txhdroom (ipcp_at dm p)) eqn:Hlt;
              injection Hs1 as <-; split; auto;
              rewrite ?Z.ltb_lt, ?Z.ltb_ge in Hlt; lia.
          - injection Hs1 as <-. split; auto. lia. }
        assert (Hdom_p : ipcp_is_normal dm p = true ->
                  ipcp_is_normal dm s1 = true /\
                  txhdroom (ipcp_at dm p) <= txhdroom (ipcp_at dm s1)).
        { intros Hnp. subst sel'. rewrite Hnp in Hs1. destruct sel as [s0|].
          - fold (ipcp_is_normal dm s0) in Hs1. simpl in Hs1.
            destruct (ipcp_is_normal dm s0) eqn:Hn0; simpl in Hs1.
            + destruct (txhdroom (ipcp_at dm s0) <? txhdroom (ipcp_at dm p)) eqn:Hlt;
                injection Hs1 as <-; split; auto;
                rewrite ?Z.ltb_lt, ?Z.ltb_ge in Hlt; lia.
            + injection Hs1 as <-. split; auto. lia.
          - injection Hs1 as <-. split; auto. lia. }
        split.
        -- intros s0 Hsel Hn0. destruct (Hdom_old s0 Hsel Hn0) as [Hn1 Hle].
           destruct (Ha s1 Hs1 Hn1) as [Hns Hle']. split; auto. lia.
        -- intros q [->|Hin] Hqz Hqn; auto.
           destruct (Hdom_p Hqn) as [Hn1 Hle].
           destruct (Ha s1 Hs1 Hn1) as [Hns Hle']. split; auto. lia.
Qed.

End SelectFacts.

(* ===================================================================== *)
(** ** What the operations on IPCPs leave alone *)
(* ===================================================================== *)

Section StoreFacts.

Context {A B : Type}.

Lemma deref_store (d : A) (mem : list A) (p q : nat) (x : A) :
  deref d (store mem p x) q
  = if Nat.eqb p q && Nat.ltb p (length mem) then x else deref d mem q.
Proof.
  destruct (Nat.eqb p q) eqn:E; simpl.
  - apply Nat.eqb_eq in E. subst q. destruct (Nat.ltb p (length mem)) eqn:L.
    + apply Nat.ltb_lt in L. now apply deref_store_same.
    + apply Nat.ltb_ge in L. unfold deref. clear -L. revert p L.
      induction mem as [|y m IH]; intros [|p] L; simpl in *; auto; try lia.
      apply IH. lia.
  - apply Nat.eqb_neq in E. now apply deref_store_other.
Qed.

(** Rewriting one object in place leaves every projection that the
    rewriting preserves unchanged in the whole store. *)
Lemma map_store_preserved (f : A -> B) (g : A -> A) (d : A) (mem : list A) (p : nat) :
  (forall x, f (g x) = f x) ->
  map f (store mem p (g (deref d mem p))) = map f mem.
Proof.
  intros Hfg. unfold deref. revert p.
  induction mem as [|y m IH]; intros [|p]; simpl; auto.
  - now rewrite Hfg.
  - now rewrite IH.
Qed.

End StoreFacts.

(** The operations are unfolded on demand in the proofs below. *)
Arguments __ipcp_get : simpl never.
Arguments __ipcp_put : simpl never.
Arguments dif_get : simpl never.
Arguments dif_put : simpl never.
Arguments upqueue_broadcast : simpl never.
Arguments appl_del : simpl never.
Arguments ipcp_application_put : simpl never.
Arguments application_steal : simpl never.
Arguments __ipcp_application_get : simpl never.
Arguments rl_upqueue_append_atomic : simpl never.

Section IpcpFrame.

Variable K : kernel.

(** The flag words of all the IPCPs of a data model. *)
Let flags_of (dm : rl_dm) : list Z := map ipcp_flags (ipcp_mem dm).

Lemma ipcp_flags_at (dm : rl_dm) (p : nat) :
  ipcp_flags (ipcp_at dm p) = nth p (flags_of dm) 0.
Proof.
  unfold ipcp_at, deref, flags_of.
  change 0 with (ipcp_flags ipcp_zero). now rewrite map_nth.
Qed.

Lemma flags_of_refcnt (dm : rl_dm) (p : nat) (r : ipcp_entry -> Z) :
  flags_of (ipcp_store dm p (set_ipcp_refcnt (ipcp_at dm p) (r (ipcp_at dm p))))
  = flags_of dm.
Proof.
  unfold flags_of, ipcp_store, ipcp_at; simpl.
  apply (map_store_preserved ipcp_flags (fun e => set_ipcp_refcnt e (r e))).
  reflexivity.
Qed.

Lemma flags_of_registered_appls (dm : rl_dm) (p : nat) (l : ipcp_entry -> list nat) :
  flags_of (ipcp_store dm p (set_registered_appls (ipcp_at dm p) (l (ipcp_at dm p))))
  = flags_of dm.
Proof.
  unfold flags_of, ipcp_store, ipcp_at; simpl.
  apply (map_store_preserved ipcp_flags (fun e => set_registered_appls e (l e))).
  reflexivity.
Qed.

Lemma ipcp_mem_broadcast (m : rl_msg) :
  forall l dm,
    ipcp_mem (fold_left
                (fun d rcur =>
                   if has_flag (rc_flags (rc_at d rcur)) RL_F_IPCPS
                   then rc_store d rcur (snd (rl_upqueue_append_atomic K (rc_at d rcur) m))
                   else d) l dm)
    = ipcp_mem dm.
Proof.
  induction l as [|rcur l IH]; intros dm; simpl; auto.
  rewrite IH. now destruct (has_flag _ _).
Qed.

Lemma ipcp_mem_dif_put (dm : rl_dm) (d : option nat) :
  ipcp_mem (dif_put dm d) = ipcp_mem dm.
Proof.
  unfold dif_put. destruct d as [d|]; simpl; auto.
  now destruct (negb _).
Qed.

Lemma flags_of_ipcp_get (dm : rl_dm) (id : Z) :
  flags_of (snd (__ipcp_get K dm id)) = flags_of dm.
Proof.
  unfold __ipcp_get. destruct (ipcp_lookup K dm id) as [p|]; simpl; auto.
  apply (flags_of_refcnt dm p (fun e => u32 (ipcp_refcnt e + 1))).
Qed.

Lemma flags_of_ipcp_put (dm : rl_dm) (e : option nat) :
  flags_of (snd (__ipcp_put K dm e)) = flags_of dm.
Proof.
  unfold __ipcp_put. destruct e as [p|]; simpl; auto.
  pose proof (flags_of_refcnt dm p (fun e => u32 (ipcp_refcnt e - 1))) as H.
  destruct (negb _); simpl; auto.
  unfold upqueue_broadcast, flags_of in *.
  rewrite ipcp_mem_broadcast, ipcp_mem_dif_put. exact H.
Qed.

Lemma flags_of_appl_del (dm : rl_dm) (app : nat) :
  flags_of (appl_del K dm app) = flags_of dm.
Proof. unfold appl_del. apply flags_of_ipcp_put. Qed.

Lemma flags_of_application_put (dm : rl_dm) (app : option nat) :
  flags_of (ipcp_application_put K dm app) = flags_of dm.
Proof.
  unfold ipcp_application_put. destruct app as [a|]; simpl; auto.
  destruct (negb _); simpl; auto.
  set (dm1 := app_store dm a _).
  pose proof (flags_of_registered_appls dm1 (app_ipcp (app_at dm a))
                (fun e => list_del (registered_appls e) a)) as H.
  destruct (ops_appl_register _).
  - exact H.
  - rewrite flags_of_appl_del. exact H.
Qed.

Lemma flags_of_application_steal (dm : rl_dm) (appl : nat) (l : list nat) :
  flags_of (fst (application_steal dm appl l)) = flags_of dm.
Proof.
  unfold application_steal. destruct (_ =? 1); simpl; auto.
  apply (flags_of_registered_appls dm (app_ipcp (app_at dm appl))
           (fun e => list_del (registered_appls e) appl)).
Qed.

Lemma flags_of_steal_all :
  forall apps dm l,
    flags_of (fst (fold_left (fun st app => application_steal (fst st) app (snd st))
                             apps (dm, l)))
    = flags_of dm.
Proof.
  induction apps as [|a apps IH]; intros dm l; cbn [fold_left fst snd]; auto.
  destruct (application_steal dm a l) as [dm' l'] eqn:E. cbn [fst snd].
  rewrite IH. change dm' with (fst (dm', l')). rewrite <- E.
  apply flags_of_application_steal.
Qed.

Lemma flags_of_put_all :
  forall apps dm,
    flags_of (fold_left (fun d app => ipcp_application_put K d (Some app)) apps dm)
    = flags_of dm.
Proof.
  induction apps as [|a apps IH]; intros dm; cbn [fold_left]; auto.
  rewrite IH. apply flags_of_application_put.
Qed.

Lemma has_flag_set_flag (f : Z) : has_flag (set_flag f RL_K_IPCP_ZOMBIE) RL_K_IPCP_ZOMBIE = true.
Proof.
  unfold has_flag, set_flag, RL_K_IPCP_ZOMBIE.
  destruct (Z.land (Z.lor f 2) 2 =? 0) eqn:E; auto.
  apply Z.eqb_eq in E.
  assert (H : Z.testbit (Z.land (Z.lor f 2) 2) 1 = true).
  { rewrite Z.land_spec, Z.lor_spec. simpl. now rewrite orb_true_r. }
  rewrite E in H. discriminate.
Qed.

(** After [ipcp_del], the IPCP that the id designates is a zombie,
    whether the call marked it or found it marked. *)
Lemma ipcp_del_zombie (dm : rl_dm) (id : Z) (p : nat) :
  ipcp_lookup K dm id = Some p ->
  (p < length (ipcp_mem dm))%nat ->
  id < IPCP_ID_BITMAP_SIZE ->
  ipcp_is_zombie (snd (ipcp_del K dm id)) p = true.
Proof.
  intros Hlk Hp Hid. unfold ipcp_del.
  assert (E : (IPCP_ID_BITMAP_SIZE <=? id) = false) by (apply Z.leb_gt; lia).
  rewrite E. clear E.
  pose proof (flags_of_ipcp_get dm id) as Hget.
  unfold __ipcp_get in *. rewrite Hlk in *. simpl in Hget.
  set (dm1 := ipcp_store dm p _) in *.
  pose proof (flags_of_ipcp_put dm1 (Some p)) as Hput.
  set (dm2 := snd (__ipcp_put K dm1 (Some p))) in *.
  unfold ipcp_is_zombie.
  destruct (has_flag (ipcp_flags (ipcp_at dm2 p)) RL_K_IPCP_ZOMBIE) eqn:Hz; simpl.
  - exact Hz.
  - set (dm3 := ipcp_store dm2 p _).
    assert (Hlen : length (flags_of dm2) = length (ipcp_mem dm)).
    { rewrite Hput, Hget. unfold flags_of. apply length_map. }
    assert (H3 : ipcp_flags (ipcp_at dm3 p)
                 = set_flag (ipcp_flags (ipcp_at dm2 p)) RL_K_IPCP_ZOMBIE).
    { unfold dm3, ipcp_at, ipcp_store. simpl. rewrite deref_store_same; auto.
      unfold flags_of in Hlen. rewrite length_map in Hlen. lia. }
    destruct (fold_left _ (registered_appls (ipcp_at dm3 p)) (dm3, [])) as [dm4 apps] eqn:E4.
    pose proof (flags_of_steal_all (registered_appls (ipcp_at dm3 p)) dm3 []) as Hs.
    rewrite E4 in Hs. simpl in Hs.
    set (dm5 := fold_left _ apps dm4).
    pose proof (flags_of_put_all apps dm4) as H5. fold dm5 in H5.
    set (dm6 := set_flow_mem dm5 _).
    pose proof (flags_of_ipcp_put dm6 (Some p)) as H6.
    rewrite ipcp_flags_at, H6.
    change (flags_of dm6) with (flags_of dm5). rewrite H5, Hs.
    rewrite <- ipcp_flags_at, H3. apply has_flag_set_flag.
Qed.

End IpcpFrame.

(** C2 — Selection by DIF.  (a) Whatever the DIF named, the selected
    IPCP is linked in the table, is not a zombie and, when a DIF is
    named, belongs to that DIF; (b) after [ipcp_del] of an id, the IPCP
    the id designated is never selected again; (c) without a DIF name
    some IPCP is selected as soon as the table holds one that is not a
    zombie, and (d) the selected one is then of type "normal" whenever a
    live normal IPCP exists, with a tx header room not below that of any
    live normal IPCP. *)
Theorem C2_select_by_dif (K : kernel) (dm : rl_dm) :
  (forall dname s dm',
      ipcp_select_by_dif dm dname = (Some s, dm') ->
      In s (Hash.for_each (ipcp_table dm)) /\
      ipcp_is_zombie dm s = false /\
      (forall name, dname = Some name ->
                    dif_name (ipcp_dif_at dm (ipcp_at dm s)) = name)) /\
  (forall id p dname,
      ipcp_lookup K dm id = Some p ->
      (p < length (ipcp_mem dm))%nat ->
      id < IPCP_ID_BITMAP_SIZE ->
      fst (ipcp_select_by_dif (snd (ipcp_del K dm id)) dname) <> Some p) /\
  ((exists p, In p (Hash.for_each (ipcp_table dm)) /\ ipcp_is_zombie dm p = false) ->
   exists s, fst (ipcp_select_by_dif dm None) = Some s) /\
  (forall s q,
      fst (ipcp_select_by_dif dm None) = Some s ->
      In q (Hash.for_each (ipcp_table dm)) ->
      ipcp_is_zombie dm q = false ->
      ipcp_is_normal dm q = true ->
      ipcp_is_normal dm s = true /\ txhdroom (ipcp_at dm q) <= txhdroom (ipcp_at dm s)).
Proof.
  assert (Hsel : forall d dname s,
             fst (ipcp_select_by_dif d dname) = Some s ->
             ipcp_select_scan d dname None (Hash.for_each (ipcp_table d)) = Some s).
  { intros d dname s. unfold ipcp_select_by_dif.
    destruct (ipcp_select_scan d dname None _); simpl; congruence. }
  split; [|split; [|split]].
  - intros dname s dm' H.
    assert (Hs : fst (ipcp_select_by_dif dm dname) = Some s) by now rewrite H.
    apply Hsel in Hs.
    destruct (ipcp_select_scan_sound dm dname _ _ _ Hs) as [|[Hin Hz]]; [discriminate|].
    repeat split; auto.
    intros name ->. eapply ipcp_select_scan_named; eauto.
  - intros id p dname Hlk Hp Hid Hs. apply Hsel in Hs.
    destruct (ipcp_select_scan_sound _ dname _ _ _ Hs) as [|[Hin Hz]]; [discriminate|].
    rewrite (ipcp_del_zombie K dm id p Hlk Hp Hid) in Hz. discriminate.
  - intros Hex.
    destruct (ipcp_select_scan_any dm (Hash.for_each (ipcp_table dm)) None)
      as (_ & H2 & _).
    destruct (H2 Hex) as [s Hs]. exists s.
    unfold ipcp_select_by_dif. now rewrite Hs.
  - intros s q Hs Hin Hz Hn. apply Hsel in Hs.
    destruct (ipcp_select_scan_any dm (Hash.for_each (ipcp_table dm)) None)
      as (_ & _ & H3).
    destruct (H3 s Hs) as [_ Hb]. auto.
Qed.

(** In the example, the normal IPCP with the 28-byte header room is
    selected when no DIF is named; once it is a zombie the other normal
    IPCP is, and its DIF does not select anything. *)
Example ipcp_select_examples :
  fst (ipcp_select_by_dif IpcpExample.dm3 None) = Some 2%nat /\
  fst (ipcp_select_by_dif IpcpExample.dm3 (Some "eth.DIF"%string)) = Some 0%nat /\
  In 2%nat (Hash.for_each (ipcp_table IpcpExample.dm3_zombie)) /\
  fst (ipcp_select_by_dif IpcpExample.dm3_zombie None) = Some 1%nat /\
  fst (ipcp_select_by_dif IpcpExample.dm3_zombie (Some "n2.DIF"%string)) = None.
Proof. vm_compute. repeat split; auto. Qed.

Lemma C2_select_by_dif_witness :
  ipcp_lookup Example.K0 IpcpExample.dm3_held 2 = Some 2%nat /\
  (2 < length (ipcp_mem IpcpExample.dm3_held))%nat /\
  2 < IPCP_ID_BITMAP_SIZE /\
  fst (ipcp_select_by_dif IpcpExample.dm3_zombie (Some "n2.DIF"%string)) <> Some 2%nat.
Proof.
  assert (H1 : ipcp_lookup Example.K0 IpcpExample.dm3_held 2 = Some 2%nat)
    by (vm_compute; reflexivity).
  assert (H2 : (2 < length (ipcp_mem IpcpExample.dm3_held))%nat)
    by (vm_compute; lia).
  assert (H3 : 2 < IPCP_ID_BITMAP_SIZE) by (vm_compute; reflexivity).
  repeat (split; [assumption|]).
  exact (proj1 (proj2 (C2_select_by_dif Example.K0 IpcpExample.dm3_held))
           2 2%nat (Some "n2.DIF"%string) H1 H2 H3).
Defined.

(* ===================================================================== *)
(** ** Replay of the IPCP updates to a new subscriber *)
(* ===================================================================== *)

Arguments initial_update_of : simpl never.

Section ReplayFacts.

Variable K : kernel.
Hypothesis sizeof_nonneg : 0 <= sizeof_upqueue_entry K.

(** An append that fits succeeds and queues the entry of the message. *)
Lemma rl_upqueue_append_atomic_fits (rc : rl_ctrl) (m : rl_msg) :
  upqueue_inv K rc -> msg_fits K m ->
  upqueue_bytes K (upqueue rc)
    + (serlen (upqueue_entry_of K m) + sizeof_upqueue_entry K) <= RL_UPQUEUE_SIZE_MAX ->
  rl_upqueue_append_atomic K rc m
  = (0, set_upqueue rc (upqueue rc ++ [upqueue_entry_of K m])
          (upqueue_bytes K (upqueue rc)
           + (serlen (upqueue_entry_of K m) + sizeof_upqueue_entry K))).
Proof.
  intros Hinv Hfit Hroom.
  pose proof (upqueue_entry_of_ok K sizeof_nonneg m Hfit) as He.
  unfold rl_upqueue_append_atomic, rl_upqueue_append. simpl.
  rewrite (upqueue_full_test K sizeof_nonneg rc _ Hinv He).
  apply Z.ltb_ge in Hroom. now rewrite Hroom.
Qed.

Lemma upqueue_inv_after_fit (rc : rl_ctrl) (m : rl_msg) :
  upqueue_inv K rc -> msg_fits K m ->
  upqueue_bytes K (upqueue rc)
    + (serlen (upqueue_entry_of K m) + sizeof_upqueue_entry K) <= RL_UPQUEUE_SIZE_MAX ->
  upqueue_inv K (set_upqueue rc (upqueue rc ++ [upqueue_entry_of K m])
                   (upqueue_bytes K (upqueue rc)
                    + (serlen (upqueue_entry_of K m) + sizeof_upqueue_entry K))).
Proof.
  intros (Hall & Hsz & Hmax) Hfit Hroom. unfold upqueue_inv; simpl.
  rewrite upqueue_bytes_app. repeat split; auto.
  apply Forall_app; split; auto. constructor; auto.
  now apply upqueue_entry_of_ok.
Qed.

(** The replay loop on a device with room for all the updates: the
    updates of the visited entries are queued in order, nothing else of
    the device changes, and the IPCPs and DIFs are left alone. *)
Lemma initial_ipcp_update_fold (dm : rl_dm) (rc : nat) :
  forall l d,
    ipcp_mem d = ipcp_mem dm -> dif_mem d = dif_mem dm ->
    (rc < length (rc_mem d))%nat ->
    upqueue_inv K (rc_at d rc) ->
    Forall (fun p => msg_fits K (initial_update_of dm p)) l ->
    upqueue_bytes K (upqueue (rc_at d rc)) + replay_bytes K dm l <= RL_UPQUEUE_SIZE_MAX ->
    let d' := fold_left
                (fun d entry =>
                   rc_store d rc
                     (snd (rl_upqueue_append_atomic K (rc_at d rc)
                             (initial_update_of d entry)))) l d in
    upqueue (rc_at d' rc)
    = upqueue (rc_at d rc) ++ map (fun p => upqueue_entry_of K (initial_update_of dm p)) l /\
    rc_flags (rc_at d' rc) = rc_flags (rc_at d rc) /\
    flows_fetch_q (rc_at d' rc) = flows_fetch_q (rc_at d rc) /\
    regs_fetch_q (rc_at d' rc) = regs_fetch_q (rc_at d rc) /\
    upqueue_inv K (rc_at d' rc) /\
    ipcp_mem d' = ipcp_mem dm /\ ipcp_table d' = ipcp_table d /\
    (length (rc_mem d') = length (rc_mem d))%nat.
Proof.
  induction l as [|p l IH]; intros d Hi Hd Hrc Hinv Hfits Hroom; cbn [fold_left map].
  - rewrite app_nil_r. splits; auto.
  - inversion Hfits as [|? ? Hfit Hfits']; subst.
    assert (Hmsg : initial_update_of d p = initial_update_of dm p).
    { unfold initial_update_of, ipcp_update_fill, ipcp_at, dif_at. now rewrite Hi, Hd. }
    rewrite Hmsg.
    unfold replay_bytes in Hroom. cbn [map upqueue_bytes fold_right] in Hroom.
    fold (upqueue_bytes K (map (fun p => upqueue_entry_of K (initial_update_of dm p)) l))
      in Hroom.
    fold (replay_bytes K dm l) in Hroom.
    assert (Hnn : 0 <= replay_bytes K dm l).
    { unfold replay_bytes. apply upqueue_bytes_nonneg; auto.
      apply Forall_forall. intros e He. apply in_map_iff in He.
      destruct He as (q & <- & Hq). apply upqueue_entry_of_ok; auto.
      rewrite Forall_forall in Hfits'. auto. }
    assert (Hroom1 : upqueue_bytes K (upqueue (rc_at d rc))
                     + (serlen (upqueue_entry_of K (initial_update_of dm p))
                        + sizeof_upqueue_entry K) <= RL_UPQUEUE_SIZE_MAX) by lia.
    rewrite (rl_upqueue_append_atomic_fits _ _ Hinv Hfit Hroom1). cbn [snd].
    set (rc1 := set_upqueue (rc_at d rc) _ _).
    set (d1 := rc_store d rc rc1).
    assert (Hat : rc_at d1 rc = rc1).
    { unfold d1, rc_at, rc_store. simpl. now apply deref_store_same. }
    specialize (IH d1).
    rewrite Hat in IH.
    destruct IH as (Hq & Hf & Hff & Hrf & Hinv' & Him & Hit & Hlen); auto.
    + unfold d1, rc_store. simpl. now rewrite store_length.
    + unfold rc1. now apply upqueue_inv_after_fit.
    + unfold rc1. simpl. rewrite upqueue_bytes_app. lia.
    + rewrite Hq. unfold rc1. simpl. rewrite <- app_assoc. simpl.
      splits; auto.
      rewrite Hlen. unfold d1, rc_store. simpl. now rewrite store_length.
Qed.

End ReplayFacts.

(** C10, as stated, fails when the queue of the new subscriber has no
    room: the replay appends without sleeping and ignores the result of
    each append.  On the example, IPCP 2 is a zombie that is still
    linked and the queue of device 0 uses the whole budget: the [ioctl]
    returns 0 and turns the subscription on, but the queue is as it was
    and holds no [ADD] update for the zombie. *)
Lemma C10_full_queue_drops_replay :
  In 2%nat (Hash.for_each (ipcp_table SubscribeExample.dm_busy)) /\
  ipcp_is_zombie SubscribeExample.dm_busy 2 = true /\
  has_flag (rc_flags (rc_at SubscribeExample.dm_busy 0)) RL_F_IPCPS = false /\
  upqueue_inv Example.K0 (rc_at SubscribeExample.dm_busy 0) /\
  fst (rl_ctrl_ioctl Example.K0 SubscribeExample.dm_busy 0
         (RLITE_IOCTL_CHFLAGS Example.K0) RL_F_IPCPS) = 0 /\
  has_flag (rc_flags (rc_at (snd (rl_ctrl_ioctl Example.K0 SubscribeExample.dm_busy 0
                                    (RLITE_IOCTL_CHFLAGS Example.K0) RL_F_IPCPS)) 0))
    RL_F_IPCPS = true /\
  upqueue (rc_at (snd (rl_ctrl_ioctl Example.K0 SubscribeExample.dm_busy 0
                         (RLITE_IOCTL_CHFLAGS Example.K0) RL_F_IPCPS)) 0)
  = upqueue (rc_at SubscribeExample.dm_busy 0) /\
  ~ In (upqueue_entry_of Example.K0 (initial_update_of SubscribeExample.dm_busy 2))
       (upqueue (rc_at (snd (rl_ctrl_ioctl Example.K0 SubscribeExample.dm_busy 0
                                (RLITE_IOCTL_CHFLAGS Example.K0) RL_F_IPCPS)) 0)).
Proof.
  assert (Hq : upqueue (rc_at (snd (rl_ctrl_ioctl Example.K0 SubscribeExample.dm_busy 0
                                      (RLITE_IOCTL_CHFLAGS Example.K0) RL_F_IPCPS)) 0)
               = upqueue (rc_at SubscribeExample.dm_busy 0)) by (vm_compute; reflexivity).
  assert (Hb : upqueue (rc_at SubscribeExample.dm_busy 0)
               = [Example.entry_of_len (Z.to_nat 16352)]) by (vm_compute; reflexivity).
  assert (Hs : upqueue_size (rc_at SubscribeExample.dm_busy 0) = 16384)
    by (vm_compute; reflexivity).
  split; [vm_compute; auto|]. split; [vm_compute; reflexivity|].
  split; [vm_compute; reflexivity|].
  split.
  { unfold upqueue_inv. rewrite Hb, Hs. split; [|split].
    - constructor; [|constructor]. vm_compute. split; [discriminate|reflexivity].
    - vm_compute. reflexivity.
    - vm_compute. discriminate. }
  splits.
  - vm_compute. reflexivity.
  - vm_compute. reflexivity.
  - exact Hq.
  - rewrite Hq, Hb. intros [H|[]]. apply (f_equal serlen) in H. vm_compute in H.
    discriminate H.
Qed.

(** C10 (amended) — Replay to a new subscriber.  When a device that had
    not subscribed turns [RL_F_IPCPS] on, and its queue has room for
    the replay, the [ioctl] succeeds and appends to the queue one [ADD]
    update for every IPCP linked in the table, in the order of the
    table, zombie or not: the update of an IPCP that [IPCP_DESTROY]
    marked and that is still linked is queued with the others. *)
Theorem C10_replay_includes_zombies (K : kernel) (dm : rl_dm) (rc : nat) :
  0 <= sizeof_upqueue_entry K ->
  (rc < length (rc_mem dm))%nat ->
  has_flag (rc_flags (rc_at dm rc)) RL_F_IPCPS = false ->
  upqueue_inv K (rc_at dm rc) ->
  Forall (fun p => msg_fits K (initial_update_of dm p)) (Hash.for_each (ipcp_table dm)) ->
  upqueue_bytes K (upqueue (rc_at dm rc))
    + replay_bytes K dm (Hash.for_each (ipcp_table dm)) <= RL_UPQUEUE_SIZE_MAX ->
  let res := rl_ctrl_ioctl K dm rc (RLITE_IOCTL_CHFLAGS K) RL_F_IPCPS in
  fst res = 0 /\
  upqueue (rc_at (snd res) rc)
  = upqueue (rc_at dm rc)
    ++ map (fun p => upqueue_entry_of K (initial_update_of dm p))
           (Hash.for_each (ipcp_table dm)) /\
  has_flag (rc_flags (rc_at (snd res) rc)) RL_F_IPCPS = true /\
  (forall p,
      In p (Hash.for_each (ipcp_table dm)) ->
      ipcp_is_zombie dm p = true ->
      In (upqueue_entry_of K (initial_update_of dm p)) (upqueue (rc_at (snd res) rc))).
Proof.
  intros Hsz Hrc Hoff Hinv Hfits Hroom res.
  assert (Hbit : Z.land (rc_flags (rc_at dm rc)) 1 = 0).
  { unfold has_flag, RL_F_IPCPS in Hoff. apply negb_false_iff in Hoff.
    now apply Z.eqb_eq in Hoff. }
  assert (Hchg : negb (Z.land (Z.land (u32 (Z.lxor RL_F_IPCPS (rc_flags (rc_at dm rc))))
                                 RL_F_IPCPS) RL_F_IPCPS =? 0) = true).
  { unfold RL_F_IPCPS. rewrite <- Z.land_assoc. change (Z.land 1 1) with 1.
    assert (Hodd : Z.testbit (Z.land (u32 (Z.lxor 1 (rc_flags (rc_at dm rc)))) 1) 0 = true).
    { rewrite Z.land_spec. unfold u32. rewrite Z.mod_pow2_bits_low by lia.
      rewrite Z.lxor_spec.
      assert (Hb0 : Z.testbit (rc_flags (rc_at dm rc)) 0 = false).
      { assert (Ht : Z.testbit (Z.land (rc_flags (rc_at dm rc)) 1) 0 = false)
          by (rewrite Hbit; apply Z.bits_0).
        rewrite Z.land_spec in Ht. simpl in Ht. now rewrite andb_true_r in Ht. }
      rewrite Hb0. reflexivity. }
    destruct (Z.land (u32 (Z.lxor 1 (rc_flags (rc_at dm rc)))) 1 =? 0) eqn:E; auto.
    apply Z.eqb_eq in E. rewrite E in Hodd. discriminate. }
  subst res. unfold rl_ctrl_ioctl.
  rewrite Z.eqb_refl. cbn [negb].
  change (Z.land RL_F_IPCPS (Z.lnot RL_F_ALL) =? 0) with true. cbn [negb].
  rewrite Hchg. unfold initial_ipcp_update. cbn [fst snd].
  destruct (initial_ipcp_update_fold K Hsz dm rc (Hash.for_each (ipcp_table dm)) dm
              eq_refl eq_refl Hrc Hinv Hfits Hroom)
    as (Hq & Hf & _ & _ & _ & _ & _ & Hlen).
  set (d' := fold_left _ _ dm) in *.
  assert (Hat : rc_at (rc_store d' rc (set_rc_flags (rc_at d' rc) (u32 RL_F_IPCPS))) rc
                = set_rc_flags (rc_at d' rc) (u32 RL_F_IPCPS)).
  { unfold rc_at, rc_store. simpl. apply deref_store_same. lia. }
  rewrite Hat. simpl. split; [reflexivity|]. split; [exact Hq|]. split; [reflexivity|].
  intros p Hin _. rewrite Hq. apply in_or_app. right.
  apply in_map_iff. eauto.
Qed.

(** In the example, IPCP 2 was destroyed while a flow held it: the new
    subscriber gets three [ADD] updates in the order of the table, and the
    one of the zombie is among them. *)
Example replay_example :
  map ipcp_id (map (ipcp_at SubscribeExample.dm_open)
                   (Hash.for_each (ipcp_table SubscribeExample.dm_open))) = [0; 1; 2] /\
  ipcp_is_zombie SubscribeExample.dm_open 2 = true /\
  upqueue (rc_at SubscribeExample.dm_subscribed 0)
  = map (fun p => upqueue_entry_of Example.K0
                    (initial_update_of SubscribeExample.dm_open p)) [0; 1; 2]%nat.
Proof. vm_compute. repeat split; auto. Qed.

Lemma C10_replay_includes_zombies_witness :
  In (upqueue_entry_of Example.K0 (initial_update_of SubscribeExample.dm_open 2))
     (upqueue (rc_at SubscribeExample.dm_subscribed 0)).
Proof.
  assert (Hrc : rc_at SubscribeExample.dm_open 0 = rl_ctrl_zero)
    by (vm_compute; reflexivity).
  assert (Htab : Hash.for_each (ipcp_table SubscribeExample.dm_open) = [0; 1; 2]%nat)
    by (vm_compute; reflexivity).
  refine (proj2 (proj2 (proj2
            (C10_replay_includes_zombies Example.K0 SubscribeExample.dm_open 0 _ _ _ _ _ _)))
            2%nat _ _).
  - simpl. lia.
  - vm_compute. lia.
  - rewrite Hrc. reflexivity.
  - rewrite Hrc. unfold upqueue_inv. simpl.
    splits; [constructor | reflexivity | discriminate].
  - rewrite Htab. repeat constructor; unfold msg_fits; vm_compute; reflexivity.
  - rewrite Htab, Hrc. vm_compute. discriminate.
  - rewrite Htab. simpl. auto.
  - vm_compute. reflexivity.
Defined.

(* ===================================================================== *)
(** ** Registration of applications *)
(* ===================================================================== *)

Section ApplicationFacts.

Variable K : kernel.

Lemma u32_inc_dec (r : Z) : 0 < r < 2 ^ 32 -> u32 (u32 (r + 1) - 1) = r.
Proof.
  intros H. unfold u32. rewrite Zminus_mod_idemp_l.
  replace (r + 1 - 1) with r by lia. apply Z.mod_small. lia.
Qed.

Lemma set_app_refcnt_id (a : registered_appl) (x : Z) :
  set_app_refcnt (set_app_refcnt a x) (app_refcnt a) = a.
Proof. now destruct a. Qed.

Lemma app_store_back (dm : rl_dm) (p : nat) (x : registered_appl) :
  app_store (app_store dm p x) p (app_at dm p) = dm.
Proof.
  unfold app_store, app_at. simpl. rewrite store_store, store_deref_id.
  now destruct dm.
Qed.

(** Taking and dropping a reference on a live registration is the
    identity on the data model. *)
Lemma application_get_put (dm : rl_dm) (ipcp : nat) (name : string) (app : nat) :
  find (fun a => String.eqb (app_name (app_at dm a)) name)
       (registered_appls (ipcp_at dm ipcp)) = Some app ->
  (app < length (app_mem dm))%nat ->
  0 < app_refcnt (app_at dm app) < 2 ^ 32 ->
  exists dm1,
    __ipcp_application_get dm ipcp name = (Some app, dm1) /\
    app_rc (app_at dm1 app) = app_rc (app_at dm app) /\
    ipcp_application_put K dm1 (Some app) = dm.
Proof.
  intros Hfind Hp Href. unfold __ipcp_application_get. rewrite Hfind.
  eexists. split; [reflexivity|].
  assert (Hat : app_at (app_store dm app (set_app_refcnt (app_at dm app)
                                           (u32 (app_refcnt (app_at dm app) + 1)))) app
                = set_app_refcnt (app_at dm app) (u32 (app_refcnt (app_at dm app) + 1))).
  { unfold app_at, app_store. simpl. now apply deref_store_same. }
  split.
  - now rewrite Hat.
  - unfold ipcp_application_put. rewrite Hat. simpl.
    rewrite (u32_inc_dec _ Href).
    assert (Hnz : (app_refcnt (app_at dm app) =? 0) = false) by (apply Z.eqb_neq; lia).
    rewrite Hnz. simpl. rewrite set_app_refcnt_id. apply app_store_back.
Qed.

End ApplicationFacts.

(** C3 — Registering an application name.  (a) When the name is
    already registered on the IPCP by the same control device, the call
    returns 1 and the data model is unchanged; (b) when it is registered
    by another device the call fails with [-EBUSY], the data model
    unchanged; (c) otherwise, allocation permitting, a new registration
    is created for the device with reference count 1, in state
    [APPL_REG_PENDING] when a uipcp will answer and [APPL_REG_COMPLETE]
    when not, and, the kernel-side hook being absent or successful, it is
    linked at the tail of the registrations of the IPCP, which gains a
    reference, and the call returns 0. *)
Theorem C3_application_add (K : kernel) (dm : rl_dm) (ipcp : nat) (appl_name : string)
    (rc : nat) (event_id : Z) (uipcp alloc_ok : bool) :
  (forall app,
      find (fun a => String.eqb (app_name (app_at dm a)) appl_name)
           (registered_appls (ipcp_at dm ipcp)) = Some app ->
      (app < length (app_mem dm))%nat ->
      0 < app_refcnt (app_at dm app) < 2 ^ 32 ->
      (app_rc (app_at dm app) = rc ->
       ipcp_application_add K dm ipcp appl_name rc event_id uipcp alloc_ok = (1, dm)) /\
      (app_rc (app_at dm app) <> rc ->
       ipcp_application_add K dm ipcp appl_name rc event_id uipcp alloc_ok
       = (- EBUSY, dm))) /\
  (find (fun a => String.eqb (app_name (app_at dm a)) appl_name)
        (registered_appls (ipcp_at dm ipcp)) = None ->
   (ipcp < length (ipcp_mem dm))%nat ->
   alloc_ok = true ->
   (ops_appl_register (ops (ipcp_at dm ipcp)) = None \/
    exists hook, ops_appl_register (ops (ipcp_at dm ipcp)) = Some hook /\
                 hook appl_name true = 0) ->
   let res := ipcp_application_add K dm ipcp appl_name rc event_id uipcp alloc_ok in
   let newapp := length (app_mem dm) in
   fst res = 0 /\
   app_at (snd res) newapp
   = {| app_name := appl_name; app_rc := rc; app_event_id := event_id; app_ipcp := ipcp;
        app_state := if uipcp then APPL_REG_PENDING else APPL_REG_COMPLETE;
        app_refcnt := 1 |} /\
   registered_appls (ipcp_at (snd res) ipcp)
   = registered_appls (ipcp_at dm ipcp) ++ [newapp] /\
   ipcp_refcnt (ipcp_at (snd res) ipcp) = u32 (ipcp_refcnt (ipcp_at dm ipcp) + 1)).
Proof.
  split.
  - intros app Hfind Hp Href.
    destruct (application_get_put K dm ipcp appl_name app Hfind Hp Href)
      as (dm1 & Hget & Hrc & Hput).
    unfold ipcp_application_add. rewrite Hget, Hput, Hrc. split.
    + intros ->. now rewrite Nat.eqb_refl.
    + intros Hne. apply Nat.eqb_neq in Hne. now rewrite Hne.
  - intros Hfind Hp -> Hhook res newapp. subst res.
    unfold ipcp_application_add, __ipcp_application_get. rewrite Hfind.
    cbn [negb]. cbv zeta. fold newapp.
    set (o := {| app_name := appl_name; app_rc := rc; app_event_id := event_id;
                 app_ipcp := ipcp;
                 app_state := if uipcp then APPL_REG_PENDING else APPL_REG_COMPLETE;
                 app_refcnt := 1 |}).
    set (dm1 := set_app_mem dm (app_mem dm ++ [o])).
    set (dm2 := ipcp_store dm1 ipcp
                  (set_registered_appls (ipcp_at dm1 ipcp)
                     (registered_appls (ipcp_at dm1 ipcp) ++ [newapp]))).
    assert (H2 : ipcp_at dm2 ipcp
                 = set_registered_appls (ipcp_at dm ipcp)
                     (registered_appls (ipcp_at dm ipcp) ++ [newapp])).
    { unfold dm2, ipcp_at, ipcp_store. simpl. now rewrite deref_store_same. }
    set (dm3 := ipcp_store dm2 ipcp
                  (set_ipcp_refcnt (ipcp_at dm2 ipcp) (u32 (ipcp_refcnt (ipcp_at dm2 ipcp) + 1)))).
    assert (H3 : ipcp_at dm3 ipcp
                 = set_ipcp_refcnt (ipcp_at dm2 ipcp) (u32 (ipcp_refcnt (ipcp_at dm2 ipcp) + 1))).
    { unfold dm3, ipcp_at, ipcp_store. simpl. rewrite deref_store_same; auto.
      rewrite store_length. exact Hp. }
    assert (Happ : app_at dm3 newapp = o).
    { unfold app_at, deref. simpl. unfold newapp. now rewrite nth_middle. }
    assert (Hops : ops (ipcp_at dm2 ipcp) = ops (ipcp_at dm ipcp)) by now rewrite H2.
    rewrite Hops.
    destruct Hhook as [Hnone|(hook & Hsome & Hret)].
    + rewrite Hnone. cbn [fst snd]. rewrite Happ, H3, H2. simpl. auto.
    + rewrite Hsome, Hret. cbn [fst snd negb Z.eqb]. rewrite Happ, H3, H2. simpl. auto.
Qed.

(** In the example, a second registration of "srv" by device 0 returns
    the sentinel, a registration by device 1 is refused, and both leave
    the data model as it was. *)
Example application_add_examples :
  fst (ipcp_application_add Example.K0 ApplExample.dm_srv 1 "srv" 0 43 true true) = 1 /\
  fst (ipcp_application_add Example.K0 ApplExample.dm_srv 1 "srv" 1 44 true true) = - EBUSY /\
  app_state (app_at ApplExample.dm_srv 0) = APPL_REG_PENDING /\
  registered_appls (ipcp_at ApplExample.dm_srv 1) = [0%nat].
Proof. vm_compute. auto. Qed.

Lemma C3_application_add_witness :
  ipcp_application_add Example.K0 ApplExample.dm_srv 1 "srv" 0 43 true true
  = (1, ApplExample.dm_srv).
Proof.
  refine (proj1 (proj1 (C3_application_add Example.K0 ApplExample.dm_srv 1 "srv" 0 43
                          true true) 0%nat _ _ _) _).
  - vm_compute. reflexivity.
  - vm_compute. lia.
  - assert (E : app_refcnt (app_at ApplExample.dm_srv 0) = 1) by (vm_compute; reflexivity).
    rewrite E. lia.
  - vm_compute. reflexivity.
Defined.

(* ===================================================================== *)
(** ** Release of flows and the put-queue *)
(* ===================================================================== *)

(** The life of the example flow: three references after [flow_add], one
    once bound; the last release postpones the removal, leaves two
    references and arms the timer 4000 ms later; the timer function
    then unlinks the flow and hands it to the removal worker. *)
Example flow_life_example :
  flow_refcnt (flow_at FlowExample.dm_added 0) = 3 /\
  flows_putq FlowExample.dm_added = [0%nat] /\
  flows_putq_tmr FlowExample.dm_added = Some 4000 /\
  flow_refcnt (flow_at FlowExample.dm_bound 0) = 1 /\
  flows_putq FlowExample.dm_bound = [] /\
  flow_refcnt (flow_at FlowExample.dm_released 0) = 2 /\
  flow_flags (flow_at FlowExample.dm_released 0)
  = Z.lor RL_FLOW_ALLOCATED (Z.lor RL_FLOW_DEALLOCATED RL_FLOW_DEL_POSTPONED) /\
  flows_putq FlowExample.dm_released = [0%nat] /\
  flows_putq_tmr FlowExample.dm_released = Some 9000 /\
  Hash.for_each (flow_table FlowExample.dm_released) = [0%nat] /\
  flow_refcnt (flow_at FlowExample.dm_drained 0) = 0 /\
  Hash.for_each (flow_table FlowExample.dm_drained) = [] /\
  flows_removeq FlowExample.dm_drained = [0%nat] /\
  Z.testbit (port_id_bitmap FlowExample.dm_drained) 0 = false.
Proof. vm_compute. repeat split; reflexivity. Qed.

Arguments flow_get : simpl never.
Arguments flows_putq_add : simpl never.
Arguments __flow_put : simpl never.
Arguments rl_flow_shutdown : simpl never.

Section FlowFrame.

Variable K : kernel.

Lemma to_int_small (x : Z) : - 2 ^ 31 <= x < 2 ^ 31 -> to_int x = x.
Proof.
  intros H. unfold to_int, u32.
  destruct (Z_lt_le_dec x 0) as [Hn|Hp].
  - assert (E : x mod 2 ^ 32 = x + 2 ^ 32).
    { symmetry. apply Z.mod_unique with (q := -1); lia. }
    rewrite E. destruct (x + 2 ^ 32 <? 2 ^ 31) eqn:C.
    + apply Z.ltb_lt in C. lia.
    + lia.
  - rewrite Z.mod_small by lia.
    destruct (x <? 2 ^ 31) eqn:C; auto. apply Z.ltb_ge in C. lia.
Qed.

Lemma flow_at_store (dm : rl_dm) (p q : nat) (x : flow_entry) :
  flow_at (flow_store dm p x) q
  = if Nat.eqb p q && Nat.ltb p (length (flow_mem dm)) then x else flow_at dm q.
Proof. unfold flow_at, flow_store. simpl. apply deref_store. Qed.

Lemma flow_at_store_same (dm : rl_dm) (p : nat) (x : flow_entry) :
  (p < length (flow_mem dm))%nat -> flow_at (flow_store dm p x) p = x.
Proof.
  intros H. rewrite flow_at_store, Nat.eqb_refl.
  apply Nat.ltb_lt in H. now rewrite H.
Qed.

Lemma flow_store_length (dm : rl_dm) (p : nat) (x : flow_entry) :
  length (flow_mem (flow_store dm p x)) = length (flow_mem dm).
Proof. unfold flow_store. simpl. apply store_length. Qed.

(** Rewriting a flow in place keeps every field that the rewriting does
    not touch, for all the flows of the store. *)
Lemma flow_store_preserves {B : Type} (f : flow_entry -> B) (g : flow_entry -> flow_entry)
    (dm : rl_dm) (p : nat) :
  (forall x, f (g x) = f x) ->
  map f (flow_mem (flow_store dm p (g (flow_at dm p)))) = map f (flow_mem dm).
Proof.
  intros H. unfold flow_store, flow_at. simpl. now apply map_store_preserved.
Qed.

Lemma flow_field_at {B : Type} (f : flow_entry -> B) (dm dm' : rl_dm) (p : nat) :
  map f (flow_mem dm') = map f (flow_mem dm) ->
  f (flow_at dm' p) = f (flow_at dm p).
Proof.
  intros H. unfold flow_at, deref.
  rewrite <- (map_nth f (flow_mem dm')), <- (map_nth f (flow_mem dm)). now rewrite H.
Qed.

(** The chain walk of [flow_lookup] reads the table and the port ids
    only. *)
Lemma flow_lookup_frame (dm dm' : rl_dm) (port : Z) :
  flow_table dm' = flow_table dm ->
  map local_port (flow_mem dm') = map local_port (flow_mem dm) ->
  flow_lookup K dm' port = flow_lookup K dm port.
Proof.
  intros Ht Hm. unfold flow_lookup. rewrite Ht.
  induction (Hash.bucket (flow_table dm) _) as [|p l IH]; simpl; auto.
  rewrite (flow_field_at local_port dm dm' p Hm), IH. reflexivity.
Qed.

Lemma flow_get_frame (dm : rl_dm) (port : Z) :
  flow_table (snd (flow_get K dm port)) = flow_table dm /\
  map local_port (flow_mem (snd (flow_get K dm port))) = map local_port (flow_mem dm) /\
  map uid (flow_mem (snd (flow_get K dm port))) = map uid (flow_mem dm) /\
  map flow_flags (flow_mem (snd (flow_get K dm port))) = map flow_flags (flow_mem dm).
Proof.
  unfold flow_get. destruct (flow_lookup K dm port) as [p|]; simpl; auto.
  splits; auto;
    apply (flow_store_preserves _ (fun f => set_flow_refcnt f (atomic_inc (flow_refcnt f))));
    reflexivity.
Qed.

Lemma rl_flow_shutdown_frame (dm : rl_dm) (p : nat) :
  flow_table (rl_flow_shutdown dm p) = flow_table dm /\
  map local_port (flow_mem (rl_flow_shutdown dm p)) = map local_port (flow_mem dm) /\
  map uid (flow_mem (rl_flow_shutdown dm p)) = map uid (flow_mem dm) /\
  map flow_refcnt (flow_mem (rl_flow_shutdown dm p)) = map flow_refcnt (flow_mem dm) /\
  length (flow_mem (rl_flow_shutdown dm p)) = length (flow_mem dm).
Proof.
  unfold rl_flow_shutdown. destruct (has_flag _ _); auto.
  set (dm1 := flow_store dm p _).
  assert (H1 : forall B (f : flow_entry -> B),
             (forall x v, f (set_txrx_flags x v) = f x) ->
             map f (flow_mem dm1) = map f (flow_mem dm)).
  { intros B f Hf.
    apply (flow_store_preserves f
             (fun x => set_txrx_flags x (set_flag (txrx_flags x) RL_TXRX_EOF))).
    intros x. apply Hf. }
  assert (H2 : forall B (f : flow_entry -> B),
             (forall x v, f (set_flow_flags x v) = f x) ->
             map f (flow_mem (flow_store dm1 p
                      (set_flow_flags (flow_at dm1 p)
                         (set_flag (flow_flags (flow_at dm1 p)) RL_FLOW_DEALLOCATED))))
             = map f (flow_mem dm1)).
  { intros B f Hf.
    apply (flow_store_preserves f
             (fun x => set_flow_flags x (set_flag (flow_flags x) RL_FLOW_DEALLOCATED))).
    intros x. apply Hf. }
  splits; auto.
  - rewrite H2, H1; auto.
  - rewrite H2, H1; auto.
  - rewrite H2, H1; auto.
  - unfold dm1. rewrite !flow_store_length. reflexivity.
Qed.

(** Dropping a reference that is not the last one rewrites the counter
    and nothing else. *)
Lemma flow_put_not_last (jiffies : Z) (dm : rl_dm) (p : nat) (lock : bool) :
  atomic_dec (flow_refcnt (flow_at dm p)) <> 0 ->
  __flow_put K jiffies dm (Some p) lock
  = flow_store dm p (set_flow_refcnt (flow_at dm p) (atomic_dec (flow_refcnt (flow_at dm p)))).
Proof.
  intros H. unfold __flow_put. apply Z.eqb_neq in H. now rewrite H.
Qed.

End FlowFrame.

(** C6, as stated, fails on the bound flow of the example (port 0,
    uid 0, allocated, one reference): a [FLOW_DEALLOC] succeeds, and a
    second one for the same flow succeeds as well instead of failing
    with [-ENXIO], because the first only shuts the flow down. *)
Lemma C6_second_dealloc_succeeds :
  let r1 := rl_flow_dealloc Example.K0 3000 FlowExample.dm_bound (FlowExample.dealloc 0 0) in
  let r2 := rl_flow_dealloc Example.K0 3000 (snd r1) (FlowExample.dealloc 0 0) in
  fst r1 = 0 /\ fst r2 = 0 /\ fst r2 <> - ENXIO /\
  Hash.for_each (flow_table (snd r1)) = [0%nat].
Proof. vm_compute. repeat split; auto; discriminate. Qed.

(** C6 (amended) — [FLOW_DEALLOC].  (a) The request succeeds exactly
    when a flow with the given port id is linked in the table and its
    uid is the given one, and fails with [-ENXIO] otherwise; (b) a
    success on a flow that is still referenced shuts the flow down
    without unlinking it: the flow keeps its port id, uid and reference
    count, so a second request for the same flow succeeds as well. *)
Theorem C6_flow_dealloc (K : kernel) (jiffies : Z) (dm : rl_dm) (req : rl_kmsg_flow_dealloc) :
  (fst (rl_flow_dealloc K jiffies dm req) = 0 <->
   exists flow, flow_lookup K dm (fd_port_id req) = Some flow /\
                uid (flow_at dm flow) = fd_uid req) /\
  (fst (rl_flow_dealloc K jiffies dm req) = 0 \/
   fst (rl_flow_dealloc K jiffies dm req) = - ENXIO) /\
  (forall flow,
      flow_lookup K dm (fd_port_id req) = Some flow ->
      uid (flow_at dm flow) = fd_uid req ->
      (flow < length (flow_mem dm))%nat ->
      0 < flow_refcnt (flow_at dm flow) < 2 ^ 31 - 1 ->
      let dm' := snd (rl_flow_dealloc K jiffies dm req) in
      flow_lookup K dm' (fd_port_id req) = Some flow /\
      uid (flow_at dm' flow) = fd_uid req /\
      flow_refcnt (flow_at dm' flow) = flow_refcnt (flow_at dm flow) /\
      (has_flag (flow_flags (flow_at dm flow)) RL_FLOW_ALLOCATED = true ->
       has_flag (flow_flags (flow_at dm' flow)) RL_FLOW_DEALLOCATED = true) /\
      forall jiffies', fst (rl_flow_dealloc K jiffies' dm' req) = 0).
Proof.
  assert (Hret : forall j d,
             fst (rl_flow_dealloc K j d req)
             = match flow_lookup K d (fd_port_id req) with
               | Some flow => if uid (flow_at d flow) =? fd_uid req then 0 else - ENXIO
               | None => - ENXIO
               end).
  { intros j d. unfold rl_flow_dealloc.
    destruct (flow_get_frame K d (fd_port_id req)) as (_ & _ & Hu & _).
    unfold flow_get in *. destruct (flow_lookup K d (fd_port_id req)) as [p|]; auto.
    cbn [snd] in Hu. cbn [fst snd]. rewrite (flow_field_at uid _ _ p Hu).
    now destruct (uid (flow_at d p) =? fd_uid req). }
  split; [|split].
  - rewrite Hret. split.
    + destruct (flow_lookup K dm (fd_port_id req)) as [p|]; [|discriminate].
      destruct (uid (flow_at dm p) =? fd_uid req) eqn:E; [|discriminate].
      intros _. exists p. split; auto. now apply Z.eqb_eq.
    + intros (p & -> & Hu). apply Z.eqb_eq in Hu. now rewrite Hu.
  - rewrite Hret. destruct (flow_lookup K dm (fd_port_id req)) as [p|]; auto.
    destruct (uid (flow_at dm p) =? fd_uid req); auto.
  - intros flow Hlk Hu Hp Href dm'.
    assert (Hdm' : dm' = (let dm1 := snd (flow_get K dm (fd_port_id req)) in
                          let dm2 := rl_flow_shutdown dm1 flow in
                          flow_store dm2 flow
                            (set_flow_refcnt (flow_at dm2 flow) (flow_refcnt (flow_at dm flow))))
                   /\ flow_refcnt (flow_at (rl_flow_shutdown
                                              (snd (flow_get K dm (fd_port_id req))) flow) flow)
                      = flow_refcnt (flow_at dm flow) + 1).
    { subst dm'. unfold rl_flow_dealloc.
      destruct (flow_get_frame K dm (fd_port_id req)) as (_ & _ & Hu1 & _).
      assert (Hr1 : flow_refcnt (flow_at (snd (flow_get K dm (fd_port_id req))) flow)
                    = flow_refcnt (flow_at dm flow) + 1).
      { unfold flow_get. rewrite Hlk. simpl. rewrite flow_at_store_same by auto.
        simpl. unfold atomic_inc. apply to_int_small. lia. }
      unfold flow_get in *. rewrite Hlk in *. cbn [fst snd] in *.
      set (dm1 := flow_store dm flow _) in *.
      rewrite (flow_field_at uid _ _ flow Hu1).
      apply Z.eqb_eq in Hu. rewrite Hu. cbn [snd].
      destruct (rl_flow_shutdown_frame dm1 flow) as (_ & _ & _ & Hr2 & _).
      pose proof (flow_field_at flow_refcnt _ _ flow Hr2) as Hr2'.
      rewrite Hr1 in Hr2'.
      assert (Hdec : atomic_dec (flow_refcnt (flow_at (rl_flow_shutdown dm1 flow) flow))
                     = flow_refcnt (flow_at dm flow)).
      { rewrite Hr2'. unfold atomic_dec.
        replace (flow_refcnt (flow_at dm flow) + 1 - 1) with (flow_refcnt (flow_at dm flow))
          by lia.
        apply to_int_small. lia. }
      split; [|exact Hr2'].
      unfold flow_put. rewrite flow_put_not_last; rewrite Hdec; [reflexivity|lia]. }
    destruct Hdm' as [Hdm' Hrs]. cbv zeta in Hdm'.
    set (dm1 := snd (flow_get K dm (fd_port_id req))) in *.
    set (dm2 := rl_flow_shutdown dm1 flow) in *.
    destruct (flow_get_frame K dm (fd_port_id req)) as (Ht1 & Hp1 & Hu1 & Hf1).
    destruct (rl_flow_shutdown_frame dm1 flow) as (Ht2 & Hp2 & Hu2 & Hr2 & Hl2).
    fold dm1 in Ht1, Hp1, Hu1, Hf1. fold dm2 in Ht2, Hp2, Hu2, Hr2, Hl2.
    assert (Hl1 : length (flow_mem dm1) = length (flow_mem dm)).
    { rewrite <- (length_map local_port), Hp1. apply length_map. }
    assert (Ht3 : flow_table dm' = flow_table dm).
    { rewrite Hdm'. simpl. congruence. }
    assert (Hp3 : map local_port (flow_mem dm') = map local_port (flow_mem dm)).
    { rewrite Hdm'.
      rewrite (flow_store_preserves local_port
                 (fun x => set_flow_refcnt x (flow_refcnt (flow_at dm flow)))) by reflexivity.
      congruence. }
    assert (Hu3 : map uid (flow_mem dm') = map uid (flow_mem dm)).
    { rewrite Hdm'.
      rewrite (flow_store_preserves uid
                 (fun x => set_flow_refcnt x (flow_refcnt (flow_at dm flow)))) by reflexivity.
      congruence. }
    assert (Hlk' : flow_lookup K dm' (fd_port_id req) = Some flow).
    { rewrite (flow_lookup_frame K dm dm' _ Ht3 Hp3). exact Hlk. }
    assert (Hu' : uid (flow_at dm' flow) = fd_uid req).
    { rewrite (flow_field_at uid _ _ flow Hu3). exact Hu. }
    splits; auto.
    + rewrite Hdm'. rewrite flow_at_store_same by lia. reflexivity.
    + intros Hal. rewrite Hdm'. rewrite flow_at_store_same by lia. simpl.
      unfold dm2, rl_flow_shutdown.
      rewrite (flow_field_at flow_flags _ _ flow Hf1), Hal.
      rewrite flow_at_store_same by (rewrite flow_store_length; lia).
      simpl. unfold has_flag, set_flag, RL_FLOW_DEALLOCATED.
      destruct (Z.land (Z.lor _ 4) 4 =? 0) eqn:E; auto.
      apply Z.eqb_eq in E.
      match type of E with
      | Z.land (Z.lor ?x 4) 4 = 0 =>
          assert (Hb : Z.testbit (Z.land (Z.lor x 4) 4) 2 = true)
            by (rewrite Z.land_spec, Z.lor_spec; simpl; now rewrite orb_true_r)
      end.
      rewrite E in Hb. discriminate.
    + intros j'. rewrite Hret, Hlk'. apply Z.eqb_eq in Hu'. now rewrite Hu'.
Qed.

(** After the flow is gone and its port id is reused by a new flow, a
    [FLOW_DEALLOC] with the uid of the old flow does not touch the new
    one. *)
Example flow_dealloc_port_reuse :
  let dm := snd (flow_add Example.K0 9500 FlowExample.dm_drained 1 (Some 0%nat) None None 0) in
  local_port (flow_at dm 1) = 0 /\ uid (flow_at dm 1) = 1 /\
  fst (rl_flow_dealloc Example.K0 9600 dm (FlowExample.dealloc 0 0)) = - ENXIO /\
  fst (rl_flow_dealloc Example.K0 9600 dm (FlowExample.dealloc 0 1)) = 0.
Proof. vm_compute. repeat split; reflexivity. Qed.

Lemma C6_flow_dealloc_witness :
  fst (rl_flow_dealloc Example.K0 4000
         (snd (rl_flow_dealloc Example.K0 3000 FlowExample.dm_bound
                 (FlowExample.dealloc 0 0)))
         (FlowExample.dealloc 0 0)) = 0.
Proof.
  refine (proj2 (proj2 (proj2 (proj2
            (proj2 (proj2 (C6_flow_dealloc Example.K0 3000 FlowExample.dm_bound
                             (FlowExample.dealloc 0 0))) 0%nat _ _ _ _)))) 4000).
  - vm_compute. reflexivity.
  - vm_compute. reflexivity.
  - vm_compute. lia.
  - assert (E : flow_refcnt (flow_at FlowExample.dm_bound 0) = 1)
      by (vm_compute; reflexivity).
    rewrite E. lia.
Defined.

(* ===================================================================== *)
(** ** The last release of a flow *)
(* ===================================================================== *)

Section FlagFacts.

(** A single-bit mask tests its bit; setting another bit does not
    change the test. *)
Lemma has_flag_pow2 (f i : Z) : 0 <= i -> has_flag f (2 ^ i) = Z.testbit f i.
Proof.
  intros Hi. unfold has_flag.
  assert (E : Z.land f (2 ^ i) = if Z.testbit f i then 2 ^ i else 0).
  { apply Z.bits_inj'. intros k Hk. rewrite Z.land_spec, Z.pow2_bits_eqb by lia.
    destruct (Z.eqb_spec i k) as [->|Hne].
    - rewrite andb_true_r. destruct (Z.testbit f k) eqn:T.
      + now rewrite Z.pow2_bits_eqb, Z.eqb_refl by lia.
      + now rewrite Z.bits_0.
    - rewrite andb_false_r. destruct (Z.testbit f i).
      + rewrite Z.pow2_bits_eqb by lia. symmetry. now apply Z.eqb_neq.
      + now rewrite Z.bits_0. }
  rewrite E. destruct (Z.testbit f i); simpl.
  - assert (0 < 2 ^ i) by (apply Z.pow_pos_nonneg; lia).
    destruct (2 ^ i =? 0) eqn:C; auto. apply Z.eqb_eq in C. lia.
  - reflexivity.
Qed.

Lemma has_flag_set_pow2 (f i j : Z) : 0 <= i -> 0 <= j ->
  has_flag (set_flag f (2 ^ j)) (2 ^ i) = has_flag f (2 ^ i) || (j =? i).
Proof.
  intros Hi Hj. rewrite !has_flag_pow2 by lia. unfold set_flag.
  now rewrite Z.lor_spec, Z.pow2_bits_eqb by lia.
Qed.

Lemma flow_flag_bits :
  RL_FLOW_ALLOCATED = 2 ^ 1 /\ RL_FLOW_DEALLOCATED = 2 ^ 2 /\
  RL_FLOW_NEVER_BOUND = 2 ^ 3 /\ RL_FLOW_DEL_POSTPONED = 2 ^ 4.
Proof. repeat split. Qed.

(** Marking a flow deallocated does not change the test that postpones
    its removal. *)
Lemma postpone_test_deallocated (f : Z) :
  negb (has_flag (set_flag f RL_FLOW_DEALLOCATED) RL_FLOW_DEL_POSTPONED)
  && has_flag (set_flag f RL_FLOW_DEALLOCATED) RL_FLOW_ALLOCATED
  && negb (has_flag (set_flag f RL_FLOW_DEALLOCATED) RL_FLOW_NEVER_BOUND)
  = negb (has_flag f RL_FLOW_DEL_POSTPONED)
    && has_flag f RL_FLOW_ALLOCATED
    && negb (has_flag f RL_FLOW_NEVER_BOUND).
Proof.
  destruct flow_flag_bits as (-> & -> & -> & ->).
  rewrite !has_flag_set_pow2 by lia. simpl. now rewrite !orb_false_r.
Qed.

End FlagFacts.

Section PutqFacts.

(** The insertion walk never returns an empty queue, and splits the old
    queue around the new flow. *)
Lemma putq_insert_split (dm : rl_dm) (flow : nat) :
  forall q, exists l1 l2, q = l1 ++ l2 /\ putq_insert dm flow q = l1 ++ flow :: l2.
Proof.
  induction q as [|cur q IH]; simpl.
  - exists [], []. auto.
  - destruct (time_after _ _).
    + exists [], (cur :: q). auto.
    + destruct IH as (l1 & l2 & -> & ->). exists (cur :: l1), l2. auto.
Qed.

(** Where [flows_putq_add] inserts: after every entry that does not
    expire after the new flow, before the first one that does. *)
Lemma putq_insert_position (dm : rl_dm) (flow : nat) :
  forall q,
  exists l1 l2,
    q = l1 ++ l2 /\ putq_insert dm flow q = l1 ++ flow :: l2 /\
    Forall (fun a => time_after (expires (flow_at dm a)) (expires (flow_at dm flow)) = false)
           l1 /\
    (forall b, hd_error l2 = Some b ->
               time_after (expires (flow_at dm b)) (expires (flow_at dm flow)) = true).
Proof.
  induction q as [|cur q IH]; simpl.
  - exists [], []. repeat split; auto. intros b Hb. discriminate Hb.
  - destruct (time_after _ _) eqn:Hta.
    + exists [], (cur :: q). repeat split; auto. intros b [= <-]. exact Hta.
    + destruct IH as (l1 & l2 & -> & -> & H1 & H2). exists (cur :: l1), l2.
      repeat split; auto.
Qed.

Lemma putq_sorted_frame (dm dm' : rl_dm) :
  forall q,
    (forall a, In a q -> expires (flow_at dm' a) = expires (flow_at dm a)) ->
    putq_sorted dm q -> putq_sorted dm' q.
Proof.
  unfold putq_sorted. induction q as [|a q IH]; intros Hq Hs.
  - constructor.
  - inversion Hs as [|? ? Hs' Hh]; subst. constructor.
    + apply IH; auto. intros b Hb. apply Hq. now right.
    + destruct q as [|b q]; constructor.
      inversion Hh; subst. rewrite !Hq; simpl; auto.
Qed.

Lemma putq_window_frame (jiffies : Z) (dm dm' : rl_dm) :
  forall q,
    (forall a, In a q -> expires (flow_at dm' a) = expires (flow_at dm a)) ->
    putq_window jiffies dm q -> putq_window jiffies dm' q.
Proof.
  unfold putq_window. intros q Hq Hw. rewrite Forall_forall in *.
  intros a Ha. rewrite Hq; auto.
Qed.

(** Inserting a flow whose expiration lies in the window keeps a sorted
    queue sorted. *)
Lemma putq_insert_sorted (jiffies : Z) (dm : rl_dm) (flow : nat) :
  - 2 ^ 62 < tdiff (expires (flow_at dm flow)) jiffies < 2 ^ 62 ->
  forall q,
    putq_window jiffies dm q -> putq_sorted dm q ->
    putq_sorted dm (putq_insert dm flow q).
Proof.
  intros Hf. unfold putq_sorted, putq_window.
  induction q as [|cur q IH]; intros Hw Hs; simpl.
  - repeat constructor.
  - inversion Hw as [|? ? Hc Hw']; subst.
    inversion Hs as [|? ? Hs' Hh]; subst.
    destruct (time_after (expires (flow_at dm cur)) (expires (flow_at dm flow))) eqn:Hta.
    + constructor; auto. constructor.
      rewrite (time_after_window _ _ jiffies Hc Hf) in Hta.
      rewrite (time_after_window _ _ jiffies Hf Hc).
      apply Z.ltb_lt in Hta. apply Z.ltb_ge. lia.
    + constructor; auto.
      destruct q as [|b q]; simpl.
      * constructor. exact Hta.
      * destruct (time_after (expires (flow_at dm b)) (expires (flow_at dm flow)));
          constructor; auto.
        now inversion Hh.
Qed.

End PutqFacts.

Section FlowPutFacts.

Variable K : kernel.

Lemma flow_store_store (dm : rl_dm) (p : nat) (x y : flow_entry) :
  flow_store (flow_store dm p x) p y = flow_store dm p y.
Proof. unfold flow_store. simpl. now rewrite store_store. Qed.

Lemma flow_at_store_other (dm : rl_dm) (p q : nat) (x : flow_entry) :
  p <> q -> flow_at (flow_store dm p x) q = flow_at dm q.
Proof.
  intros H. rewrite flow_at_store. apply Nat.eqb_neq in H. now rewrite H.
Qed.

Lemma flow_put_last_postponed (jiffies : Z) (dm : rl_dm) (p : nat) (lock : bool) :
  (p < length (flow_mem dm))%nat ->
  flow_refcnt (flow_at dm p) = 1 ->
  flow_postponable (flow_at dm p) = true ->
  __flow_put K jiffies dm (Some p) lock
  = flows_putq_add jiffies (flow_store dm p (postponed_flow (flow_at dm p))) p
      (u32 (msecs_to_jiffies K (flow_del_wait_ms (ipcp_at dm (txrx_ipcp (flow_at dm p)))))).
Proof.
  intros Hp Hr Hpost. unfold __flow_put. rewrite Hr.
  change (atomic_dec 1 =? 0) with true. cbv zeta. cbn [negb].
  repeat (rewrite ?flow_store_store;
          rewrite flow_at_store_same by (rewrite ?flow_store_length; exact Hp)).
  cbn [flow_flags flow_refcnt set_flow_flags set_flow_refcnt].
  rewrite postpone_test_deallocated.
  unfold flow_postponable in Hpost. rewrite Hpost.
  reflexivity.
Qed.

Lemma flow_put_last_unlinked (jiffies : Z) (dm : rl_dm) (p : nat) (lock : bool) :
  (p < length (flow_mem dm))%nat ->
  flow_refcnt (flow_at dm p) = 1 ->
  flow_postponable (flow_at dm p) = false ->
  __flow_put K jiffies dm (Some p) lock
  = let e := flow_at dm p in
    let ipcp := ipcp_at dm (txrx_ipcp e) in
    let dm2 := flow_store dm p (unlinked_flow e) in
    let dm3 := set_flow_table dm2 (Hash.del (flow_table dm) p) in
    let dm4 := set_port_id_bitmap dm3 (Bitmap.clear (port_id_bitmap dm) (local_port e)) in
    let dm5 :=
      if has_flag (ipcp_flags ipcp) RL_K_IPCP_USE_CEP_IDS then
        set_cep_id_bitmap
          (set_flow_table_by_cep dm4 (Hash.del (flow_table_by_cep dm) p))
          (Bitmap.clear (cep_id_bitmap dm) (local_cep e))
      else dm4 in
    set_flows_removew (set_flows_removeq dm5 (flows_removeq dm ++ [p])) true.
Proof.
  intros Hp Hr Hpost. unfold __flow_put. rewrite Hr.
  change (atomic_dec 1 =? 0) with true. cbv zeta. cbn [negb].
  repeat (rewrite ?flow_store_store;
          rewrite flow_at_store_same by (rewrite ?flow_store_length; exact Hp)).
  cbn [flow_flags flow_refcnt set_flow_flags set_flow_refcnt].
  rewrite postpone_test_deallocated.
  unfold flow_postponable in Hpost. rewrite Hpost.
  unfold unlinked_flow.
  destruct (has_flag _ RL_K_IPCP_USE_CEP_IDS); reflexivity.
Qed.

(** [flows_putq_add] on a flow that is not queued. *)
Lemma flows_putq_add_new (jiffies : Z) (dm : rl_dm) (p : nat) (jdelta : Z) :
  (p < length (flow_mem dm))%nat ->
  expires (flow_at dm p) = EXPIRES_NONE ->
  - 2 ^ 31 <= flow_refcnt (flow_at dm p) + 1 < 2 ^ 31 ->
  let f := set_expires (set_flow_refcnt (flow_at dm p) (flow_refcnt (flow_at dm p) + 1))
             (ulong (jiffies + jdelta)) in
  let dm2 := flow_store dm p f in
  let q := putq_insert dm2 p (flows_putq dm) in
  flows_putq_add jiffies dm p jdelta
  = set_flows_putq_tmr (set_flows_putq dm2 q) (Some (expires (flow_at dm2 (hd p q)))).
Proof.
  intros Hp Hexp Hr f dm2 q. unfold flows_putq_add. cbv zeta.
  repeat (rewrite ?flow_store_store;
          rewrite flow_at_store_same by (rewrite ?flow_store_length; exact Hp)).
  cbn [expires set_expires set_flow_refcnt flow_refcnt].
  rewrite Hexp, Z.eqb_refl. unfold atomic_inc. rewrite to_int_small by exact Hr.
  fold f. fold dm2. subst q.
  change (flows_putq (set_flows_putq dm2 (putq_insert dm2 p (flows_putq dm2))))
    with (putq_insert dm2 p (flows_putq dm)).
  change (flows_putq dm2) with (flows_putq dm).
  destruct (putq_insert_split dm2 p (flows_putq dm)) as (l1 & l2 & _ & Hq).
  destruct (putq_insert dm2 p (flows_putq dm)) as [|cur q'];
    [destruct l1; discriminate|].
  reflexivity.
Qed.

End FlowPutFacts.

Section IpcpAddFacts.

Variable K : kernel.

(** An IPCP created by [ipcp_add_entry] waits 4000 ms before its flows
    are removed. *)
Lemma ipcp_add_entry_default (dm0 : rl_dm) (req : rl_kmsg_ipcp_create) (pe : nat)
    (dm1 : rl_dm) :
  ipcp_add_entry K dm0 req = (0, Some pe, dm1) ->
  flow_del_wait_ms (ipcp_at dm1 pe) = 4000.
Proof.
  unfold ipcp_add_entry. destruct (existsb _ _); [discriminate|].
  destruct (dif_get dm0 (icr_dif_name req) (icr_dif_type req)) as [[[d|] ret] dmd];
    [|discriminate].
  destruct (_ <? IPCP_ID_BITMAP_SIZE); [|discriminate].
  intros [= <- <-]. unfold ipcp_at, deref. simpl. now rewrite nth_middle.
Qed.

End IpcpAddFacts.

Section FlowPutLast.

Variable K : kernel.

Lemma hash_del_not_in (t : list (list nat)) (p : nat) :
  ~ In p (Hash.for_each (Hash.del t p)).
Proof.
  unfold Hash.for_each, Hash.del. intros H. apply in_concat in H.
  destruct H as (b & Hb & Hp). apply in_map_iff in Hb.
  destruct Hb as (b0 & <- & _). apply filter_In in Hp.
  destruct Hp as [_ Hp]. now rewrite Nat.eqb_refl in Hp.
Qed.

Lemma tdiff_deadline (jiffies d : Z) :
  0 <= d < 2 ^ 62 -> tdiff (ulong (jiffies + d)) jiffies = d.
Proof.
  intros H. unfold tdiff. rewrite <- (to_long_small d) at 2 by lia.
  apply to_long_congr. unfold ulong.
  rewrite Zminus_mod_idemp_l. f_equal. lia.
Qed.

Lemma u32_range (x : Z) : 0 <= u32 x < 2 ^ 32.
Proof. unfold u32. apply Z.mod_pos_bound. lia. Qed.

(** What [flows_putq_add] never touches, and the reference it takes. *)
Lemma flows_putq_add_frame (jiffies : Z) (dm : rl_dm) (p : nat) (jdelta : Z) :
  let dm' := flows_putq_add jiffies dm p jdelta in
  flow_table dm' = flow_table dm /\
  flow_table_by_cep dm' = flow_table_by_cep dm /\
  port_id_bitmap dm' = port_id_bitmap dm /\
  cep_id_bitmap dm' = cep_id_bitmap dm /\
  flows_removeq dm' = flows_removeq dm /\
  map flow_flags (flow_mem dm') = map flow_flags (flow_mem dm) /\
  ((p < length (flow_mem dm))%nat ->
   flow_refcnt (flow_at dm' p) = atomic_inc (flow_refcnt (flow_at dm p))).
Proof.
  unfold flows_putq_add. cbv zeta.
  set (dm1 := flow_store dm p _).
  assert (Hf1 : map flow_flags (flow_mem dm1) = map flow_flags (flow_mem dm)).
  { apply (flow_store_preserves flow_flags
             (fun f => set_flow_refcnt f (atomic_inc (flow_refcnt f)))). reflexivity. }
  assert (Hr1 : (p < length (flow_mem dm))%nat ->
                flow_refcnt (flow_at dm1 p) = atomic_inc (flow_refcnt (flow_at dm p))).
  { intros Hp. unfold dm1. now rewrite flow_at_store_same. }
  destruct (expires (flow_at dm1 p) =? EXPIRES_NONE).
  - set (dm2 := flow_store dm1 p _).
    assert (Hf2 : map flow_flags (flow_mem dm2) = map flow_flags (flow_mem dm1)).
    { apply (flow_store_preserves flow_flags
               (fun f => set_expires f (ulong (jiffies + jdelta)))). reflexivity. }
    assert (Hr2 : (p < length (flow_mem dm))%nat ->
                  flow_refcnt (flow_at dm2 p) = atomic_inc (flow_refcnt (flow_at dm p))).
    { intros Hp. unfold dm2. rewrite flow_at_store_same.
      - simpl. auto.
      - unfold dm1. now rewrite flow_store_length. }
    destruct (flows_putq (set_flows_putq dm2 (putq_insert dm2 p (flows_putq dm2))));
      splits; auto; try (rewrite <- Hf1, <- Hf2; reflexivity).
  - splits; auto.
Qed.

End FlowPutLast.

(** On the bound flow of the example the only reference is dropped and
    the removal is postponed: the counter is raised back to 1, and the
    put-queue then takes its own reference. *)
Example flow_put_postponed_example :
  flow_refcnt (flow_at FlowExample.dm_bound 0) = 1 /\
  flow_postponable (flow_at FlowExample.dm_bound 0) = true /\
  flow_refcnt (postponed_flow (flow_at FlowExample.dm_bound 0)) = 1 /\
  flows_putq (__flow_put Example.K0 5000 FlowExample.dm_bound (Some 0%nat) true) = [0%nat] /\
  flow_refcnt (flow_at (__flow_put Example.K0 5000 FlowExample.dm_bound (Some 0%nat) true) 0)
  = 2.
Proof. vm_compute. repeat split; auto. Qed.

(** C1 — Last release of a flow.  When [__flow_put] drops the only
    reference of a flow, the flow is marked [DEALLOCATED].  If it was
    allocated, not postponed before and not never-bound, it is marked
    [DEL_POSTPONED], its reference counter is raised back to 1 and it is
    handed to [flows_putq_add], which takes the reference of the
    put-queue (the flow ends with two) and leaves the flow linked; a
    flow that is not queued yet gets the expiration
    [jiffies + msecs_to_jiffies(flow_del_wait_ms)] of its IPCP and is
    inserted in the put-queue after every entry that does not expire
    after it and before the first one that does, so that a sorted queue
    stays sorted (the comparison is [time_after], an order on
    expirations that lie within 2^62 jiffies of the current time), and
    the timer is armed to the expiration of the first entry.  Otherwise
    the flow is unlinked from the flow table and the port-id bitmap, and
    from the CEP table and bitmap when the IPCP uses CEP ids, and
    appended to the removal queue, the worker being scheduled.  An IPCP
    starts with [flow_del_wait_ms = 4000]. *)
Theorem C1_flow_put_last_release (K : kernel) (jiffies : Z) (dm : rl_dm) (p : nat)
    (lock : bool) :
  let e := flow_at dm p in
  let ipcp := ipcp_at dm (txrx_ipcp e) in
  let dm' := __flow_put K jiffies dm (Some p) lock in
  let e' := flow_at dm' p in
  (p < length (flow_mem dm))%nat ->
  flow_refcnt e = 1 ->
  has_flag (flow_flags e') RL_FLOW_DEALLOCATED = true /\
  (flow_postponable e = true ->
   has_flag (flow_flags e') RL_FLOW_DEL_POSTPONED = true /\
   has_flag (flow_flags (postponed_flow e)) RL_FLOW_DEL_POSTPONED = true /\
   flow_refcnt (postponed_flow e) = 1 /\
   dm' = flows_putq_add jiffies (flow_store dm p (postponed_flow e)) p
           (u32 (msecs_to_jiffies K (flow_del_wait_ms ipcp))) /\
   flow_refcnt e' = 2 /\
   flow_table dm' = flow_table dm /\
   port_id_bitmap dm' = port_id_bitmap dm /\
   flows_removeq dm' = flows_removeq dm /\
   (expires e = EXPIRES_NONE ->
    ~ In p (flows_putq dm) ->
    expires e' = ulong (jiffies + u32 (msecs_to_jiffies K (flow_del_wait_ms ipcp))) /\
    (exists l1 l2,
        flows_putq dm = l1 ++ l2 /\ flows_putq dm' = l1 ++ p :: l2 /\
        Forall (fun a => time_after (expires (flow_at dm a)) (expires e') = false) l1 /\
        (forall b, hd_error l2 = Some b ->
                   time_after (expires (flow_at dm b)) (expires e') = true)) /\
    flows_putq_tmr dm' = Some (expires (flow_at dm' (hd p (flows_putq dm')))) /\
    (putq_sorted dm (flows_putq dm) ->
     putq_window jiffies dm (flows_putq dm) ->
     putq_sorted dm' (flows_putq dm')))) /\
  (flow_postponable e = false ->
   flow_refcnt e' = 0 /\
   flow_table dm' = Hash.del (flow_table dm) p /\
   ~ In p (Hash.for_each (flow_table dm')) /\
   port_id_bitmap dm' = Bitmap.clear (port_id_bitmap dm) (local_port e) /\
   (has_flag (ipcp_flags ipcp) RL_K_IPCP_USE_CEP_IDS = true ->
    flow_table_by_cep dm' = Hash.del (flow_table_by_cep dm) p /\
    cep_id_bitmap dm' = Bitmap.clear (cep_id_bitmap dm) (local_cep e)) /\
   (has_flag (ipcp_flags ipcp) RL_K_IPCP_USE_CEP_IDS = false ->
    flow_table_by_cep dm' = flow_table_by_cep dm /\
    cep_id_bitmap dm' = cep_id_bitmap dm) /\
   flows_removeq dm' = flows_removeq dm ++ [p] /\
   flows_removew dm' = true /\
   flows_putq dm' = flows_putq dm) /\
  (forall dm0 req pe dm1,
      ipcp_add_entry K dm0 req = (0, Some pe, dm1) ->
      flow_del_wait_ms (ipcp_at dm1 pe) = 4000).
Proof.
  intros e ipcp dm' e' Hp Hr.
  assert (Hdealloc : forall f, has_flag (set_flag f RL_FLOW_DEALLOCATED) RL_FLOW_DEALLOCATED
                               = true).
  { intros f. destruct flow_flag_bits as (_ & -> & _ & _).
    rewrite has_flag_set_pow2 by lia. simpl. apply orb_true_r. }
  assert (Hpostp : forall f, has_flag (set_flag f RL_FLOW_DEL_POSTPONED) RL_FLOW_DEL_POSTPONED
                             = true).
  { intros f. destruct flow_flag_bits as (_ & _ & _ & ->).
    rewrite has_flag_set_pow2 by lia. simpl. apply orb_true_r. }
  assert (Hkeep : forall f, has_flag (set_flag f RL_FLOW_DEL_POSTPONED) RL_FLOW_DEALLOCATED
                            = has_flag f RL_FLOW_DEALLOCATED).
  { intros f. destruct flow_flag_bits as (_ & -> & _ & ->).
    rewrite has_flag_set_pow2 by lia. simpl. apply orb_false_r. }
  destruct (flow_postponable e) eqn:Hpost.
  - (* the removal is postponed *)
    pose proof (flow_put_last_postponed K jiffies dm p lock Hp Hr Hpost) as Heq.
    fold dm' in Heq. fold e in Heq. fold ipcp in Heq.
    set (dmP := flow_store dm p (postponed_flow e)) in *.
    set (d := u32 (msecs_to_jiffies K (flow_del_wait_ms ipcp))) in *.
    assert (HlenP : length (flow_mem dmP) = length (flow_mem dm))
      by apply flow_store_length.
    assert (HatP : flow_at dmP p = postponed_flow e)
      by (unfold dmP; now apply flow_at_store_same).
    destruct (flows_putq_add_frame jiffies dmP p d)
      as (Ht & _ & Hb & _ & Hrq & Hfl & Hrc).
    rewrite <- Heq in Ht, Hb, Hrq, Hfl, Hrc.
    assert (Hflags : flow_flags e' = flow_flags (postponed_flow e)).
    { unfold e'. rewrite (flow_field_at flow_flags _ _ p Hfl). now rewrite HatP. }
    assert (Hstep1 : has_flag (flow_flags (postponed_flow e)) RL_FLOW_DEL_POSTPONED = true)
      by (unfold postponed_flow; simpl; apply Hpostp).
    assert (Hstep2 : flow_refcnt (postponed_flow e) = 1) by reflexivity.
    assert (Hstep3 : dm' = flows_putq_add jiffies (flow_store dm p (postponed_flow e)) p
                             (u32 (msecs_to_jiffies K (flow_del_wait_ms ipcp))))
      by exact Heq.
    split; [|split; [|split]].
    + rewrite Hflags. unfold postponed_flow. simpl. now rewrite Hkeep, Hdealloc.
    + intros _.
      split; [rewrite Hflags; exact Hstep1|].
      split; [exact Hstep1|]. split; [exact Hstep2|]. split; [exact Hstep3|].
      splits; auto.
      * unfold e'. rewrite Hrc by lia. now rewrite HatP.
      * intros Hexp Hnin.
        assert (HexpP : expires (flow_at dmP p) = EXPIRES_NONE) by now rewrite HatP.
        assert (HrP : - 2 ^ 31 <= flow_refcnt (flow_at dmP p) + 1 < 2 ^ 31)
          by (rewrite HatP; simpl; lia).
        pose proof (flows_putq_add_new jiffies dmP p d
                      ltac:(lia) HexpP HrP) as Hnew.
        cbv zeta in Hnew. rewrite <- Heq in Hnew.
        assert (Hss : forall x, flow_store dmP p x = flow_store dm p x)
          by (intros x; apply flow_store_store).
        rewrite !Hss in Hnew.
        set (f := set_expires _ _) in Hnew.
        set (dm2 := flow_store dm p f) in Hnew.
        change (flows_putq dmP) with (flows_putq dm) in Hnew.
        set (q := putq_insert dm2 p (flows_putq dm)) in Hnew.
        assert (Hat2 : flow_at dm2 p = f) by (unfold dm2; now apply flow_at_store_same).
        assert (Hat' : forall a, flow_at dm' a = flow_at dm2 a) by (now rewrite Hnew).
        assert (Hq' : flows_putq dm' = q) by (now rewrite Hnew).
        assert (Hold : forall a, In a (flows_putq dm) ->
                                 expires (flow_at dm2 a) = expires (flow_at dm a)).
        { intros a Ha. unfold dm2. rewrite flow_at_store_other; auto.
          intros ->. contradiction. }
        splits.
        -- unfold e'. rewrite Hat', Hat2. reflexivity.
        -- destruct (putq_insert_position dm2 p (flows_putq dm))
             as (l1 & l2 & E1 & E2 & F1 & F2).
           exists l1, l2. rewrite Hq'. fold q in E2.
           assert (He' : expires e' = expires (flow_at dm2 p))
             by (unfold e'; now rewrite Hat').
           rewrite He'. splits; auto.
           ++ rewrite Forall_forall in *. intros a Ha.
              rewrite <- (Hold a) by (rewrite E1; apply in_or_app; now left).
              now apply F1.
           ++ intros b Hhd.
              rewrite <- (Hold b).
              ** now apply F2.
              ** rewrite E1. apply in_or_app. right.
                 destruct l2 as [|b0 l2]; [discriminate|]. injection Hhd as ->. now left.
        -- rewrite Hq', Hnew. simpl. reflexivity.
        -- intros Hsorted Hwin. rewrite Hq'.
           apply (putq_sorted_frame dm2 dm').
           { intros a _. now rewrite Hat'. }
           apply (putq_insert_sorted jiffies).
           ++ rewrite Hat2. unfold f. simpl. rewrite tdiff_deadline.
              ** pose proof (u32_range (msecs_to_jiffies K (flow_del_wait_ms ipcp))).
                 fold d in H. lia.
              ** pose proof (u32_range (msecs_to_jiffies K (flow_del_wait_ms ipcp))).
                 fold d in H. lia.
           ++ apply (putq_window_frame jiffies dm dm2); auto.
           ++ apply (putq_sorted_frame dm dm2); auto.
    + discriminate.
    + intros dm0 req pe dm1. apply ipcp_add_entry_default.
  - (* the flow is unlinked *)
    pose proof (flow_put_last_unlinked K jiffies dm p lock Hp Hr Hpost) as Heq.
    cbv zeta in Heq. fold dm' in Heq. fold e in Heq. fold ipcp in Heq.
    assert (Hat' : e' = unlinked_flow e).
    { unfold e'. rewrite Heq.
      destruct (has_flag (ipcp_flags ipcp) RL_K_IPCP_USE_CEP_IDS);
        unfold flow_at; simpl; apply deref_store_same; exact Hp. }
    split; [|split; [|split]].
    + rewrite Hat'. unfold unlinked_flow. simpl. apply Hdealloc.
    + discriminate.
    + intros _.
      assert (Htab : flow_table dm' = Hash.del (flow_table dm) p).
      { rewrite Heq. now destruct (has_flag (ipcp_flags ipcp) RL_K_IPCP_USE_CEP_IDS). }
      splits.
      * now rewrite Hat'.
      * exact Htab.
      * rewrite Htab. apply hash_del_not_in.
      * rewrite Heq. now destruct (has_flag (ipcp_flags ipcp) RL_K_IPCP_USE_CEP_IDS).
      * intros Hcep. rewrite Heq, Hcep. auto.
      * intros Hcep. rewrite Heq, Hcep. auto.
      * rewrite Heq. now destruct (has_flag (ipcp_flags ipcp) RL_K_IPCP_USE_CEP_IDS).
      * rewrite Heq. now destruct (has_flag (ipcp_flags ipcp) RL_K_IPCP_USE_CEP_IDS).
      * rewrite Heq. now destruct (has_flag (ipcp_flags ipcp) RL_K_IPCP_USE_CEP_IDS).
    + intros dm0 req pe dm1. apply ipcp_add_entry_default.
Qed.

Lemma C1_flow_put_last_release_witness :
  (0 < length (flow_mem FlowExample.dm_bound))%nat /\
  flow_refcnt (flow_at FlowExample.dm_bound 0) = 1 /\
  has_flag (flow_flags (flow_at (__flow_put Example.K0 5000 FlowExample.dm_bound
                                   (Some 0%nat) true) 0)) RL_FLOW_DEALLOCATED = true /\
  has_flag (flow_flags (flow_at (__flow_put Example.K0 5000 FlowExample.dm_bound
                                   (Some 0%nat) true) 0)) RL_FLOW_DEL_POSTPONED = true /\
  flow_refcnt (postponed_flow (flow_at FlowExample.dm_bound 0)) = 1 /\
  flow_table (__flow_put Example.K0 5000 FlowExample.dm_bound (Some 0%nat) true)
  = flow_table FlowExample.dm_bound.
Proof.
  assert (H1 : (0 < length (flow_mem FlowExample.dm_bound))%nat) by (vm_compute; lia).
  assert (H2 : flow_refcnt (flow_at FlowExample.dm_bound 0) = 1)
    by (vm_compute; reflexivity).
  assert (H3 : flow_postponable (flow_at FlowExample.dm_bound 0) = true)
    by (vm_compute; reflexivity).
  pose proof (C1_flow_put_last_release Example.K0 5000 FlowExample.dm_bound 0 true H1 H2)
    as X.
  cbv zeta in X. destruct X as (X1 & X2 & _).
  destruct (X2 H3) as (P1 & _ & P3 & _ & _ & P6 & _).
  exact (conj H1 (conj H2 (conj X1 (conj P1 (conj P3 P6))))).
Defined.

(* ===================================================================== *)
(** ** Configuration round trip *)
(* ===================================================================== *)

(** C7, as stated, fails for a decimal string with a leading zero: it
    denotes the 32-bit value 1500, [IPCP_CONFIG] accepts it, and
    [IPCP_CONFIG_GET] returns the text of the number, not the string
    that was written. *)
Lemma C7_leading_zero_not_returned :
  Kstrtox.kstrtou32 "01500" = (0, 1500) /\
  ConfigExample.roundtrip "01500"
  = Some (0, 0, Example.serialize
                  (RLITE_KER_IPCP_CONFIG_GET_RESP
                     {| cgr_event_id := 2; cgr_param_value := "1500" |})) /\
  "1500"%string <> "01500"%string.
Proof. vm_compute. repeat split; auto; discriminate. Qed.

Module KstrtoxFacts.

Import Kstrtox.

Lemma digit_val_char (d : Z) : 0 <= d <= 9 -> digit_val (digit_char d) = Some d.
Proof.
  intros H.
  assert (C : d = 0 \/ d = 1 \/ d = 2 \/ d = 3 \/ d = 4 \/ d = 5 \/ d = 6 \/ d = 7 \/
              d = 8 \/ d = 9) by lia.
  repeat (destruct C as [->|C]; [reflexivity|]). subst. reflexivity.
Qed.

Lemma digit_char_not_plus (d : Z) : 0 <= d <= 9 -> digit_char d <> "+"%char.
Proof.
  intros H.
  assert (C : d = 0 \/ d = 1 \/ d = 2 \/ d = 3 \/ d = 4 \/ d = 5 \/ d = 6 \/ d = 7 \/
              d = 8 \/ d = 9) by lia.
  repeat (destruct C as [->|C]; [discriminate|]). subst. discriminate.
Qed.

(** Parsing the digits that [fmt_digits] printed gives the number back:
    the [k >= 1] digits of [n] extend the value read so far. *)
Lemma parse_fmt_digits :
  forall fuel n acc,
    0 <= n < 10 ^ Z.of_nat (S fuel) ->
    exists k : nat,
      forall a c,
        _parse_integer (fmt_digits (S fuel) n acc) a c
        = _parse_integer acc (a * 10 ^ Z.of_nat (S k) + n) (S (c + k)).
Proof.
  induction fuel as [|fuel IH]; intros n acc Hn.
  - exists O. intros a c. cbn [fmt_digits].
    change (10 ^ Z.of_nat 1) with 10 in *.
    assert (Hd : n / 10 = 0) by (apply Z.div_small; lia).
    rewrite Hd. cbn [Z.eqb]. cbn [_parse_integer].
    rewrite Z.mod_small by lia. rewrite digit_val_char by lia.
    now rewrite Nat.add_0_r.
  - cbn [fmt_digits].
    assert (Hm : 0 <= n mod 10 <= 9) by (pose proof (Z.mod_pos_bound n 10); lia).
    destruct (n / 10 =? 0) eqn:Hz.
    + exists O. intros a c. apply Z.eqb_eq in Hz. cbn [_parse_integer].
      rewrite digit_val_char by lia.
      assert (Hn' : n = n mod 10) by (rewrite (Z.div_mod n 10) at 1; lia).
      rewrite <- Hn'. change (10 ^ Z.of_nat 1) with 10. now rewrite Nat.add_0_r.
    + assert (Hq : 0 <= n / 10 < 10 ^ Z.of_nat (S fuel)).
      { split; [apply Z.div_pos; lia|].
        apply Z.div_lt_upper_bound; [lia|].
        replace (Z.of_nat (S (S fuel))) with (Z.of_nat (S fuel) + 1) in Hn by lia.
        rewrite Z.pow_add_r in Hn by lia. lia. }
      destruct (IH (n / 10) (String (digit_char (n mod 10)) acc) Hq) as [k Hk].
      exists (S k). intros a c. rewrite Hk. cbn [_parse_integer].
      rewrite digit_val_char by lia.
      replace (S (c + S k)) with (S (S (c + k))) by lia.
      replace (a * 10 ^ Z.of_nat (S (S k)) + n)
        with ((a * 10 ^ Z.of_nat (S k) + n / 10) * 10 + n mod 10); [reflexivity|].
      replace (Z.of_nat (S (S k))) with (Z.of_nat (S k) + 1) by lia.
      rewrite Z.pow_add_r by lia.
      pose proof (Z.div_mod n 10 ltac:(lia)) as Hdm.
      set (P := 10 ^ Z.of_nat (S k)). change (10 ^ 1) with 10. lia.
Qed.

Lemma fmt_digits_head :
  forall fuel n acc,
    0 <= n ->
    exists d rest, fmt_digits (S fuel) n acc = String (digit_char d) rest /\ 0 <= d <= 9.
Proof.
  induction fuel as [|fuel IH]; intros n acc Hn; cbn [fmt_digits];
    assert (Hm : 0 <= n mod 10 <= 9) by (pose proof (Z.mod_pos_bound n 10); lia).
  - destruct (n / 10 =? 0); eauto.
  - destruct (n / 10 =? 0); eauto.
    apply IH. apply Z.div_pos; lia.
Qed.

(** [kstrtoull] reads back what ["%u"] prints. *)
Lemma kstrtoull_fmt_u (n : Z) : 0 <= n < 2 ^ 64 -> kstrtoull (fmt_u n) = (0, n).
Proof.
  intros Hn. unfold kstrtoull, fmt_u.
  destruct (fmt_digits_head 19 n EmptyString) as (d & rest & Hhd & Hd); [lia|].
  assert (Hskip : match fmt_digits 20 n EmptyString with
                  | String "+"%char s' => s'
                  | _ => fmt_digits 20 n EmptyString
                  end = fmt_digits 20 n EmptyString).
  { rewrite Hhd. pose proof (digit_char_not_plus d Hd) as Hne.
    destruct (digit_char d) as [[] [] [] [] [] [] [] []]; try reflexivity.
    now elim Hne. }
  rewrite Hskip.
  destruct (parse_fmt_digits 19 n EmptyString) as [k Hk].
  { split; [lia|]. change (10 ^ Z.of_nat 20) with 100000000000000000000. lia. }
  rewrite Hk. cbn [_parse_integer]. rewrite Z.mul_0_l, Z.add_0_l.
  assert (E : (2 ^ 64 <=? n) = false) by (apply Z.leb_gt; lia).
  rewrite E. reflexivity.
Qed.

Lemma kstrtou32_fmt_u (n : Z) : 0 <= n < 2 ^ 32 -> kstrtou32 (fmt_u n) = (0, n).
Proof.
  intros Hn. unfold kstrtou32. rewrite kstrtoull_fmt_u by lia.
  cbn [Z.ltb Z.compare]. rewrite u32_small by lia. now rewrite Z.eqb_refl.
Qed.

(** What [kstrtou32] accepts is a 32-bit value. *)
Lemma kstrtou32_range (s : string) (n : Z) : kstrtou32 s = (0, n) -> n = u32 n.
Proof.
  unfold kstrtou32. destruct (kstrtoull s) as [rv tmp].
  destruct (rv <? 0) eqn:Hneg.
  - intros [= -> <-]. discriminate.
  - destruct (tmp =? u32 tmp) eqn:E; simpl; [|discriminate].
    intros [= <-]. now apply Z.eqb_eq.
Qed.

End KstrtoxFacts.

Section ConfigFacts.

Variable K : kernel.

Lemma ipcp_at_store_same (dm : rl_dm) (p : nat) (x : ipcp_entry) :
  (p < length (ipcp_mem dm))%nat -> ipcp_at (ipcp_store dm p x) p = x.
Proof. intros H. unfold ipcp_at, ipcp_store. simpl. now apply deref_store_same. Qed.

Lemma ipcp_store_store (dm : rl_dm) (p : nat) (x y : ipcp_entry) :
  ipcp_store (ipcp_store dm p x) p y = ipcp_store dm p y.
Proof. unfold ipcp_store. simpl. now rewrite store_store. Qed.

(** The chain walk of [__ipcp_get] reads the table and the ids only. *)
Lemma ipcp_lookup_frame (dm dm' : rl_dm) (id : Z) :
  ipcp_table dm' = ipcp_table dm ->
  map ipcp_id (ipcp_mem dm') = map ipcp_id (ipcp_mem dm) ->
  ipcp_lookup K dm' id = ipcp_lookup K dm id.
Proof.
  intros Ht Hm. unfold ipcp_lookup. rewrite Ht.
  induction (Hash.bucket (ipcp_table dm) _) as [|p l IH]; simpl; auto.
  assert (E : ipcp_id (ipcp_at dm' p) = ipcp_id (ipcp_at dm p)).
  { unfold ipcp_at, deref.
    rewrite <- (map_nth ipcp_id (ipcp_mem dm')), <- (map_nth ipcp_id (ipcp_mem dm)).
    now rewrite Hm. }
  now rewrite E, IH.
Qed.

Lemma ipcp_get_live (dm : rl_dm) (id : Z) (p : nat) :
  ipcp_lookup K dm id = Some p ->
  0 <= ipcp_refcnt (ipcp_at dm p) < 2 ^ 32 - 1 ->
  __ipcp_get K dm id
  = (Some p, ipcp_store dm p (set_ipcp_refcnt (ipcp_at dm p) (ipcp_refcnt (ipcp_at dm p) + 1))).
Proof.
  intros Hlk Hr. unfold __ipcp_get. rewrite Hlk. now rewrite u32_small by lia.
Qed.

Lemma ipcp_put_not_last (dm : rl_dm) (p : nat) :
  1 < ipcp_refcnt (ipcp_at dm p) < 2 ^ 32 ->
  __ipcp_put K dm (Some p)
  = (0, ipcp_store dm p (set_ipcp_refcnt (ipcp_at dm p) (ipcp_refcnt (ipcp_at dm p) - 1))).
Proof.
  intros Hr. unfold __ipcp_put. rewrite u32_small by lia.
  assert (E : (ipcp_refcnt (ipcp_at dm p) - 1 =? 0) = false) by (apply Z.eqb_neq; lia).
  now rewrite E.
Qed.

Lemma ipcp_table_broadcast (dm : rl_dm) (m : rl_msg) :
  ipcp_mem (upqueue_broadcast K dm m) = ipcp_mem dm /\
  ipcp_table (upqueue_broadcast K dm m) = ipcp_table dm.
Proof.
  unfold upqueue_broadcast. generalize (ctrl_devs dm) as l. intros l.
  revert dm. induction l as [|rcur l IH]; intros dm; simpl; auto.
  destruct (IH (if has_flag (rc_flags (rc_at dm rcur)) RL_F_IPCPS
                then rc_store dm rcur
                       (snd (rl_upqueue_append_atomic K (rc_at dm rcur) m))
                else dm)) as [H1 H2].
  rewrite H1, H2. now destruct (has_flag _ _).
Qed.

Lemma set_ipcp_refcnt_back (e : ipcp_entry) (x : Z) :
  set_ipcp_refcnt (set_ipcp_refcnt e x) (ipcp_refcnt e) = e.
Proof. now destruct e. Qed.

(** Broadcasting an update about a live IPCP takes and drops a
    reference: the IPCPs and their table are as before. *)
Lemma ipcp_update_all_frame (dm : rl_dm) (id : Z) (p : nat) (ut : rl_ipcp_update_t) :
  ipcp_lookup K dm id = Some p ->
  (p < length (ipcp_mem dm))%nat ->
  0 < ipcp_refcnt (ipcp_at dm p) < 2 ^ 32 - 1 ->
  ipcp_mem (snd (ipcp_update_all K dm id ut)) = ipcp_mem dm /\
  ipcp_table (snd (ipcp_update_all K dm id ut)) = ipcp_table dm.
Proof.
  intros Hlk Hp Hr. unfold ipcp_update_all.
  rewrite (ipcp_get_live dm id p Hlk) by lia.
  set (dm1 := ipcp_store dm p _).
  set (dm2 := upqueue_broadcast K dm1 _).
  destruct (ipcp_table_broadcast dm1
              (RLITE_KER_IPCP_UPDATE (ipcp_update_fill dm1 (ipcp_at dm1 p) ut)))
    as [Hm Ht].
  fold dm2 in Hm, Ht.
  assert (Hat1 : ipcp_at dm1 p
                 = set_ipcp_refcnt (ipcp_at dm p) (ipcp_refcnt (ipcp_at dm p) + 1))
    by (unfold dm1; now apply ipcp_at_store_same).
  assert (Hat2 : ipcp_at dm2 p = ipcp_at dm1 p) by (unfold ipcp_at; now rewrite Hm).
  cbn [snd]. rewrite ipcp_put_not_last by (rewrite Hat2, Hat1; simpl; lia).
  cbn [snd]. rewrite Hat2, Hat1. cbn [ipcp_refcnt set_ipcp_refcnt].
  replace (ipcp_refcnt (ipcp_at dm p) + 1 - 1) with (ipcp_refcnt (ipcp_at dm p)) by lia.
  split.
  - unfold ipcp_store at 1. cbn [ipcp_mem set_ipcp_mem]. rewrite Hm. unfold dm1, ipcp_store.
    cbn [ipcp_mem set_ipcp_mem]. rewrite store_store.
    replace (set_ipcp_refcnt
               (set_ipcp_refcnt (ipcp_at dm p) (ipcp_refcnt (ipcp_at dm p) + 1))
               (ipcp_refcnt (ipcp_at dm p))) with (ipcp_at dm p)
      by (now destruct (ipcp_at dm p)).
    apply store_deref_id.
  - unfold ipcp_store at 1. cbn [ipcp_table set_ipcp_mem]. rewrite Ht. reflexivity.
Qed.

(** [IPCP_CONFIG] of ["mss"] on a live IPCP whose factory does not
    handle the parameter: the value read by [kstrtou32] is stored, and
    the IPCP is otherwise as before. *)
Lemma rl_ipcp_config_mss (dm : rl_dm) (ev id : Z) (p : nat) (v : string) (n : Z) :
  ipcp_lookup K dm id = Some p ->
  (p < length (ipcp_mem dm))%nat ->
  0 < ipcp_refcnt (ipcp_at dm p) < 2 ^ 32 - 2 ->
  config_unhandled (ipcp_at dm p) "mss" v ->
  Kstrtox.kstrtou32 v = (0, n) ->
  let res := rl_ipcp_config K dm {| icf_event_id := ev; icf_ipcp_id := id;
                                    icf_name := Some "mss"%string;
                                    icf_value := Some v |} in
  fst res = 0 /\
  ipcp_mem (snd res) = store (ipcp_mem dm) p (set_max_sdu_size (ipcp_at dm p) n) /\
  ipcp_table (snd res) = ipcp_table dm.
Proof.
  intros Hlk Hp Hr Hhook Hparse res. subst res.
  unfold rl_ipcp_config. cbn [icf_name icf_value icf_ipcp_id].
  rewrite (ipcp_get_live dm id p Hlk) by lia.
  set (e := ipcp_at dm p) in *.
  set (eA := set_ipcp_refcnt e (ipcp_refcnt e + 1)).
  rewrite (ipcp_at_store_same dm p eA Hp).
  assert (Hcore : forall n0,
             ipcp_config_core eA "mss" v n0
             = (0, set_max_sdu_size eA n, if negb (max_sdu_size eA =? n) then 1 else 0)).
  { intros n0. unfold ipcp_config_core. cbn [String.eqb Ascii.eqb Bool.eqb andb].
    unfold rl_configstr_to_u32. rewrite Hparse. reflexivity. }
  assert (Hpre : (let '(ret0, notify0) :=
                    match ops_config (ops eA) with
                    | Some hook => hook "mss"%string v
                    | None => (- ENOSYS, 0)
                    end in
                  if ret0 =? - ENOSYS then ipcp_config_core eA "mss" v notify0
                  else (ret0, eA, notify0))
                 = (0, set_max_sdu_size eA n, if negb (max_sdu_size eA =? n) then 1 else 0)).
  { unfold config_unhandled in Hhook. change (ops eA) with (ops e).
    destruct (ops_config (ops e)) as [hook|].
    - destruct (hook "mss"%string v) as [r0 n0]. simpl in Hhook. subst r0.
      rewrite Z.eqb_refl. apply Hcore.
    - rewrite Z.eqb_refl. apply Hcore. }
  set (c := if negb (max_sdu_size eA =? n) then 1 else 0) in *.
  set (pre := let '(ret0, notify0) := _ in _) in *.
  assert (Hshape : forall (k : Z * ipcp_entry * Z -> Z * rl_dm),
             (let '(ret0, notify0) :=
                match ops_config (ops eA) with
                | Some hook => hook "mss"%string v
                | None => (- ENOSYS, 0)
                end in
              let '(ret, entry', notify) :=
                if ret0 =? - ENOSYS then ipcp_config_core eA "mss" v notify0
                else (ret0, eA, notify0) in
              k (ret, entry', notify))
             = k (0, set_max_sdu_size eA n, c)).
  { intros k. rewrite <- Hpre. subst pre.
    destruct (match ops_config (ops eA) with
              | Some hook => hook "mss"%string v
              | None => (- ENOSYS, 0)
              end) as [r0 n0].
    destruct (if r0 =? - ENOSYS then ipcp_config_core eA "mss" v n0 else (r0, eA, n0))
      as [[r1 e1] n1]. reflexivity. }
  rewrite (Hshape (fun x =>
             let '(ret, entry', notify) := x in
             (ret,
              snd (__ipcp_put K
                     (if (ret =? 0) && negb (notify =? 0)
                      then snd (ipcp_update_all K
                                  (ipcp_store (ipcp_store dm p eA) p entry') id
                                  RL_IPCP_UPDATE_UPD)
                      else ipcp_store (ipcp_store dm p eA) p entry')
                     (Some p))))).
  cbn [fst snd Z.eqb andb]. rewrite ipcp_store_store.
  set (eB := set_max_sdu_size eA n).
  set (dm2 := ipcp_store dm p eB).
  assert (Hat2 : ipcp_at dm2 p = eB) by (unfold dm2; now apply ipcp_at_store_same).
  assert (Hlk2 : ipcp_lookup K dm2 id = Some p).
  { rewrite (ipcp_lookup_frame dm dm2); auto.
    unfold dm2, ipcp_store. cbn [ipcp_mem set_ipcp_mem].
    apply (map_store_preserved ipcp_id
             (fun x => set_max_sdu_size (set_ipcp_refcnt x (ipcp_refcnt x + 1)) n)).
    reflexivity. }
  assert (Hlen2 : length (ipcp_mem dm2) = length (ipcp_mem dm)).
  { unfold dm2, ipcp_store. cbn [ipcp_mem set_ipcp_mem]. apply store_length. }
  set (dm3 := if negb (c =? 0)
              then snd (ipcp_update_all K dm2 id RL_IPCP_UPDATE_UPD) else dm2).
  assert (H3 : ipcp_mem dm3 = ipcp_mem dm2 /\ ipcp_table dm3 = ipcp_table dm2).
  { unfold dm3. destruct (negb (c =? 0)); auto.
    apply (ipcp_update_all_frame dm2 id p); auto; [lia|].
    rewrite Hat2. simpl. lia. }
  destruct H3 as [Hm3 Ht3].
  assert (Hat3 : ipcp_at dm3 p = eB) by (unfold ipcp_at; rewrite Hm3; exact Hat2).
  rewrite ipcp_put_not_last by (rewrite Hat3; simpl; lia).
  cbn [snd]. rewrite Hat3. splits.
  - reflexivity.
  - unfold ipcp_store at 1. cbn [ipcp_mem set_ipcp_mem]. rewrite Hm3.
    unfold dm2, ipcp_store. cbn [ipcp_mem set_ipcp_mem]. rewrite store_store.
    f_equal. unfold eB, eA. simpl.
    replace (ipcp_refcnt e + 1 - 1) with (ipcp_refcnt e) by lia.
    now destruct e.
  - unfold ipcp_store at 1. cbn [ipcp_table set_ipcp_mem]. now rewrite Ht3.
Qed.

End ConfigFacts.

Section ConfigGetFacts.

Variable K : kernel.
Hypothesis sizeof_nonneg : 0 <= sizeof_upqueue_entry K.

(** With room in the queue the producer never sleeps: the entry is
    queued at the first turn of the loop, whatever the observations. *)
Lemma rl_upqueue_append_fits (rc : rl_ctrl) (m : rl_msg) (maysleep : bool) (jiffies : Z)
    (env : list upq_wait) :
  upqueue_inv K rc -> msg_fits K m ->
  upqueue_bytes K (upqueue rc)
    + (serlen (upqueue_entry_of K m) + sizeof_upqueue_entry K) <= RL_UPQUEUE_SIZE_MAX ->
  rl_upqueue_append K rc m maysleep true jiffies env
  = Some (0, set_upqueue rc (upqueue rc ++ [upqueue_entry_of K m])
               (upqueue_bytes K (upqueue rc)
                + (serlen (upqueue_entry_of K m) + sizeof_upqueue_entry K))).
Proof.
  intros Hinv Hfit Hroom.
  pose proof (upqueue_entry_of_ok K sizeof_nonneg m Hfit) as He.
  unfold rl_upqueue_append. cbn [negb]. cbv zeta.
  apply Z.ltb_ge in Hroom.
  destruct env as [|w env]; cbn [upqueue_append_loop];
    rewrite (upqueue_full_test K sizeof_nonneg rc _ Hinv He), Hroom; reflexivity.
Qed.

Lemma rc_at_store_same (dm : rl_dm) (p : nat) (x : rl_ctrl) :
  (p < length (rc_mem dm))%nat -> rc_at (rc_store dm p x) p = x.
Proof. intros H. unfold rc_at, rc_store. simpl. now apply deref_store_same. Qed.

(** [IPCP_CONFIG_GET] of ["mss"] on a live IPCP whose factory does not
    handle the parameter, on a device with room for the response: the
    response carries the decimal text of [max_sdu_size]. *)
Lemma rl_ipcp_config_get_mss (dm : rl_dm) (rc : nat) (ev id : Z) (p : nat) (jiffies : Z)
    (env : list upq_wait) :
  ipcp_lookup K dm id = Some p ->
  (p < length (ipcp_mem dm))%nat ->
  0 < ipcp_refcnt (ipcp_at dm p) < 2 ^ 32 - 1 ->
  config_get_unhandled (ipcp_at dm p) "mss" ->
  (rc < length (rc_mem dm))%nat ->
  let resp := RLITE_KER_IPCP_CONFIG_GET_RESP
                {| cgr_event_id := ev;
                   cgr_param_value := Kstrtox.fmt_u (max_sdu_size (ipcp_at dm p)) |} in
  upqueue_inv K (rc_at dm rc) -> msg_fits K resp ->
  upqueue_bytes K (upqueue (rc_at dm rc))
    + (serlen (upqueue_entry_of K resp) + sizeof_upqueue_entry K) <= RL_UPQUEUE_SIZE_MAX ->
  exists dm',
    rl_ipcp_config_get K jiffies env dm rc
      {| icg_event_id := ev; icg_ipcp_id := id; icg_param_name := Some "mss"%string |}
    = Some (0, dm') /\
    upqueue (rc_at dm' rc) = upqueue (rc_at dm rc) ++ [upqueue_entry_of K resp] /\
    ipcp_mem dm' = ipcp_mem dm.
Proof.
  intros Hlk Hp Hr Hhook Hrc resp Hinv Hfit Hroom.
  unfold rl_ipcp_config_get. cbn [icg_param_name icg_ipcp_id icg_event_id].
  rewrite (ipcp_get_live K dm id p Hlk) by lia.
  set (e := ipcp_at dm p) in *.
  set (eA := set_ipcp_refcnt e (ipcp_refcnt e + 1)).
  rewrite (ipcp_at_store_same dm p eA Hp).
  set (dmA := ipcp_store dm p eA).
  assert (Hcore : ipcp_config_get_core eA "mss" = (0, Kstrtox.fmt_u (max_sdu_size e))).
  { unfold ipcp_config_get_core. cbn [String.eqb Ascii.eqb Bool.eqb andb]. reflexivity. }
  assert (Hshape : forall (k : Z * string -> option (Z * rl_dm)),
             (let '(ret0, valbuf0) :=
                match ops_config_get (ops eA) with
                | Some hook => hook "mss"%string
                | None => (- ENOSYS, EmptyString)
                end in
              let '(ret, valbuf) :=
                if ret0 =? - ENOSYS then ipcp_config_get_core eA "mss"
                else (ret0, valbuf0) in
              k (ret, valbuf))
             = k (0, Kstrtox.fmt_u (max_sdu_size e))).
  { intros k. unfold config_get_unhandled in Hhook. change (ops eA) with (ops e).
    destruct (ops_config_get (ops e)) as [hook|].
    - destruct (hook "mss"%string) as [r0 b0]. simpl in Hhook. subst r0.
      rewrite Z.eqb_refl, Hcore. reflexivity.
    - rewrite Z.eqb_refl, Hcore. reflexivity. }
  rewrite (Hshape (fun x =>
             let '(ret, valbuf) := x in
             if ret =? 0
             then match rl_upqueue_append K (rc_at dmA rc)
                          (RLITE_KER_IPCP_CONFIG_GET_RESP
                             {| cgr_event_id := ev; cgr_param_value := valbuf |})
                          true true jiffies env with
                  | Some (ret', rc') =>
                      Some (ret', snd (__ipcp_put K (rc_store dmA rc rc') (Some p)))
                  | None => None
                  end
             else Some (ret, snd (__ipcp_put K dmA (Some p))))).
  cbn [Z.eqb]. fold resp.
  assert (HrcA : rc_at dmA rc = rc_at dm rc) by reflexivity.
  rewrite HrcA, (rl_upqueue_append_fits (rc_at dm rc) resp true jiffies env Hinv Hfit Hroom).
  set (rc' := set_upqueue _ _ _).
  set (dmB := rc_store dmA rc rc').
  assert (HatB : ipcp_at dmB p = eA).
  { unfold dmB. change (ipcp_at (rc_store dmA rc rc') p) with (ipcp_at dmA p).
    unfold dmA. now apply ipcp_at_store_same. }
  rewrite ipcp_put_not_last by (rewrite HatB; simpl; lia).
  cbn [snd]. rewrite HatB. eexists. split; [reflexivity|]. split.
  - change (rc_at (ipcp_store dmB p (set_ipcp_refcnt eA (ipcp_refcnt eA - 1))) rc)
      with (rc_at dmB rc).
    unfold dmB. rewrite rc_at_store_same by exact Hrc. reflexivity.
  - unfold ipcp_store at 1. cbn [ipcp_mem set_ipcp_mem].
    change (ipcp_mem dmB) with (ipcp_mem dmA). unfold dmA, ipcp_store.
    cbn [ipcp_mem set_ipcp_mem]. rewrite store_store.
    replace (set_ipcp_refcnt eA (ipcp_refcnt eA - 1)) with e.
    + apply store_deref_id.
    + unfold eA. simpl. replace (ipcp_refcnt e + 1 - 1) with (ipcp_refcnt e) by lia.
      now destruct e.
Qed.

End ConfigGetFacts.

(** C7 (amended) — Configuration round trip.  On a live IPCP whose
    factory does not handle ["mss"], for every string [v] that
    [kstrtou32] reads in base 10 as the number [n]: [IPCP_CONFIG] of
    ["mss"] to [v] returns 0 and stores [n] in [max_sdu_size]; a
    following [IPCP_CONFIG_GET] of ["mss"], on a device with room for the
    response, returns 0 and queues one response whose value is the
    decimal text of [n].  That text reads back as [n], and it is [v]
    itself when [v] is the decimal text of a number below [2^32], that
    is, with no sign, no leading zero and no final newline. *)
Theorem C7_config_mss_roundtrip (K : kernel) (dm : rl_dm) (rc : nat) (id : Z) (p : nat)
    (v : string) (n ev ev' jiffies : Z) (env : list upq_wait) :
  0 <= sizeof_upqueue_entry K ->
  ipcp_lookup K dm id = Some p ->
  (p < length (ipcp_mem dm))%nat ->
  0 < ipcp_refcnt (ipcp_at dm p) < 2 ^ 32 - 2 ->
  config_unhandled (ipcp_at dm p) "mss" v ->
  config_get_unhandled (ipcp_at dm p) "mss" ->
  Kstrtox.kstrtou32 v = (0, n) ->
  let res := rl_ipcp_config K dm {| icf_event_id := ev; icf_ipcp_id := id;
                                    icf_name := Some "mss"%string;
                                    icf_value := Some v |} in
  let dm1 := snd res in
  let resp := RLITE_KER_IPCP_CONFIG_GET_RESP
                {| cgr_event_id := ev'; cgr_param_value := Kstrtox.fmt_u n |} in
  (rc < length (rc_mem dm1))%nat ->
  upqueue_inv K (rc_at dm1 rc) ->
  msg_fits K resp ->
  upqueue_bytes K (upqueue (rc_at dm1 rc))
    + (serlen (upqueue_entry_of K resp) + sizeof_upqueue_entry K) <= RL_UPQUEUE_SIZE_MAX ->
  fst res = 0 /\
  max_sdu_size (ipcp_at dm1 p) = n /\
  (exists dm2,
      rl_ipcp_config_get K jiffies env dm1 rc
        {| icg_event_id := ev'; icg_ipcp_id := id; icg_param_name := Some "mss"%string |}
      = Some (0, dm2) /\
      upqueue (rc_at dm2 rc) = upqueue (rc_at dm1 rc) ++ [upqueue_entry_of K resp] /\
      max_sdu_size (ipcp_at dm2 p) = n) /\
  Kstrtox.kstrtou32 (Kstrtox.fmt_u n) = (0, n) /\
  ((exists m, 0 <= m < 2 ^ 32 /\ v = Kstrtox.fmt_u m) -> Kstrtox.fmt_u n = v).
Proof.
  intros Hsz Hlk Hp Hr Hcfg Hget Hparse res dm1 resp Hrc Hinv Hfit Hroom.
  destruct (rl_ipcp_config_mss K dm ev id p v n Hlk Hp Hr Hcfg Hparse)
    as (Hret & Hmem & Htab).
  fold res in Hret, Hmem, Htab. fold dm1 in Hmem, Htab.
  assert (Hat1 : ipcp_at dm1 p = set_max_sdu_size (ipcp_at dm p) n).
  { unfold ipcp_at at 1. rewrite Hmem. now apply deref_store_same. }
  assert (Hn : 0 <= n < 2 ^ 32).
  { rewrite (KstrtoxFacts.kstrtou32_range v n Hparse). unfold u32.
    apply Z.mod_pos_bound. lia. }
  assert (Hlk1 : ipcp_lookup K dm1 id = Some p).
  { rewrite (ipcp_lookup_frame K dm dm1); auto. rewrite Hmem.
    apply (map_store_preserved ipcp_id (fun x => set_max_sdu_size x n)). reflexivity. }
  assert (Hp1 : (p < length (ipcp_mem dm1))%nat) by (rewrite Hmem, store_length; exact Hp).
  splits.
  - exact Hret.
  - rewrite Hat1. reflexivity.
  - destruct (rl_ipcp_config_get_mss K Hsz dm1 rc ev' id p jiffies env Hlk1 Hp1) as (dm2 & H1 & H2 & H3).
    + rewrite Hat1. simpl. lia.
    + rewrite Hat1. exact Hget.
    + exact Hrc.
    + exact Hinv.
    + rewrite Hat1. exact Hfit.
    + rewrite Hat1. exact Hroom.
    + exists dm2. rewrite Hat1 in H2. cbn [max_sdu_size set_max_sdu_size] in H2.
      splits; auto. unfold ipcp_at. rewrite H3. fold (ipcp_at dm1 p). now rewrite Hat1.
  - now apply KstrtoxFacts.kstrtou32_fmt_u.
  - intros (m & Hm & ->).
    rewrite (KstrtoxFacts.kstrtou32_fmt_u m Hm) in Hparse. congruence.
Qed.

(** The round trip of ["1500"] on the IPCP 1 of the example. *)
Lemma C7_config_mss_roundtrip_witness :
  fst (rl_ipcp_config Example.K0 ConfigExample.dm_dev (ConfigExample.config "1500")) = 0 /\
  exists dm2,
    rl_ipcp_config_get Example.K0 0 []
      (snd (rl_ipcp_config Example.K0 ConfigExample.dm_dev (ConfigExample.config "1500")))
      0 ConfigExample.config_get
    = Some (0, dm2) /\
    upqueue (rc_at dm2 0)
    = upqueue (rc_at (snd (rl_ipcp_config Example.K0 ConfigExample.dm_dev
                             (ConfigExample.config "1500"))) 0)
      ++ [upqueue_entry_of Example.K0
            (RLITE_KER_IPCP_CONFIG_GET_RESP
               {| cgr_event_id := 2; cgr_param_value := "1500" |})] /\
    max_sdu_size (ipcp_at dm2 1) = 1500.
Proof.
  assert (Hrc : rc_at (snd (rl_ipcp_config Example.K0 ConfigExample.dm_dev
                              (ConfigExample.config "1500"))) 0 = rl_ctrl_zero)
    by (vm_compute; reflexivity).
  assert (Hfmt : Kstrtox.fmt_u 1500 = "1500"%string) by (vm_compute; reflexivity).
  assert (Hr : ipcp_refcnt (ipcp_at ConfigExample.dm_dev 1) = 1) by (vm_compute; reflexivity).
  pose proof (C7_config_mss_roundtrip Example.K0 ConfigExample.dm_dev 0 1 1 "1500" 1500 1 2
                0 []) as H.
  cbv zeta in H. rewrite Hfmt in H.
  refine ((fun X => conj (proj1 X) (proj1 (proj2 (proj2 X)))) (H _ _ _ _ _ _ _ _ _ _ _)).
  - vm_compute. discriminate.
  - vm_compute. reflexivity.
  - vm_compute. lia.
  - rewrite Hr. lia.
  - vm_compute. exact I.
  - vm_compute. exact I.
  - vm_compute. reflexivity.
  - vm_compute. lia.
  - change (upqueue_inv Example.K0
              (rc_at (snd (rl_ipcp_config Example.K0 ConfigExample.dm_dev
                             (ConfigExample.config "1500"))) 0)).
    rewrite Hrc. unfold upqueue_inv. simpl. splits; [constructor|reflexivity|].
    vm_compute. discriminate.
  - vm_compute. reflexivity.
  - change (rc_at _ 0)
      with (rc_at (snd (rl_ipcp_config Example.K0 ConfigExample.dm_dev
                          (ConfigExample.config "1500"))) 0).
    rewrite Hrc. vm_compute. discriminate.
Defined.

(* ===================================================================== *)
(** ** Fetch cursors *)
(* ===================================================================== *)

Arguments rl_flow_fetch : simpl never.
Arguments rl_reg_fetch : simpl never.

Section FetchFacts.

Variable K : kernel.
Hypothesis sizeof_nonneg : 0 <= sizeof_upqueue_entry K.

Lemma ipcp_store_self (dm : rl_dm) (p : nat) : ipcp_store dm p (ipcp_at dm p) = dm.
Proof.
  unfold ipcp_store, ipcp_at. rewrite store_deref_id. now destruct dm.
Qed.

(** The check of the filter takes a reference and drops it: a valid
    filter leaves the data model as it was. *)
Lemma fetch_validate (dm : rl_dm) (id : Z) :
  fetch_filter_ok K dm id ->
  (if negb (id =? 65535)
   then match __ipcp_get K dm id with
        | (None, _) => None
        | (Some ipcp, dm1) => Some (snd (__ipcp_put K dm1 (Some ipcp)))
        end
   else Some dm) = Some dm.
Proof.
  intros [->|(p & Hlk & Hp & Hr)]; [reflexivity|].
  destruct (negb (id =? 65535)); [|reflexivity].
  rewrite (ipcp_get_live K dm id p Hlk) by lia.
  set (eA := set_ipcp_refcnt (ipcp_at dm p) (ipcp_refcnt (ipcp_at dm p) + 1)).
  assert (Hat : ipcp_at (ipcp_store dm p eA) p = eA) by now apply ipcp_at_store_same.
  rewrite ipcp_put_not_last by (rewrite Hat; simpl; lia).
  cbn [snd]. rewrite Hat, ipcp_store_store. f_equal.
  replace (set_ipcp_refcnt eA (ipcp_refcnt eA - 1)) with (ipcp_at dm p).
  - apply ipcp_store_self.
  - unfold eA. simpl.
    replace (ipcp_refcnt (ipcp_at dm p) + 1 - 1) with (ipcp_refcnt (ipcp_at dm p)) by lia.
    now destruct (ipcp_at dm p).
Qed.

(** A filter that names no IPCP of the table fails the check. *)
Lemma fetch_validate_fails (dm : rl_dm) (id : Z) :
  id <> 65535 -> ipcp_lookup K dm id = None ->
  (if negb (id =? 65535)
   then match __ipcp_get K dm id with
        | (None, _) => None
        | (Some ipcp, dm1) => Some (snd (__ipcp_put K dm1 (Some ipcp)))
        end
   else Some dm) = None.
Proof.
  intros Hid Hlk. apply Z.eqb_neq in Hid. rewrite Hid. cbn [negb].
  unfold __ipcp_get. now rewrite Hlk.
Qed.

(** When every allocation succeeds the loops build the enumeration. *)
Lemma flow_fetch_snapshot_ok (dm : rl_dm) (id : Z) :
  forall entries q,
    flow_fetch_snapshot K dm id entries q []
    = (q ++ map (flow_fetch_resp_of K dm)
              (filter (fun entry =>
                         (id =? 65535)
                         || (ipcp_id (ipcp_at dm (txrx_ipcp (flow_at dm entry))) =? id))
                      entries), []).
Proof.
  induction entries as [|e l IH]; intros q; cbn [flow_fetch_snapshot filter map].
  - now rewrite app_nil_r.
  - destruct (id =? 65535); cbn [negb andb orb].
    + cbn [rl_alloc negb map]. rewrite IH, <- app_assoc. reflexivity.
    + destruct (ipcp_id (ipcp_at dm (txrx_ipcp (flow_at dm e))) =? id); cbn [negb].
      * cbn [rl_alloc negb map]. rewrite IH, <- app_assoc. reflexivity.
      * apply IH.
Qed.

Lemma reg_fetch_appls_ok (dm : rl_dm) (ipcp : ipcp_entry) :
  forall appls q,
    reg_fetch_appls dm ipcp appls q []
    = (q ++ map (reg_fetch_resp_of dm ipcp) appls, []).
Proof.
  induction appls as [|a l IH]; intros q; cbn [reg_fetch_appls map].
  - now rewrite app_nil_r.
  - cbn [rl_alloc negb]. rewrite IH, <- app_assoc. reflexivity.
Qed.

Lemma reg_fetch_snapshot_ok (dm : rl_dm) (id : Z) :
  forall ipcps q,
    reg_fetch_snapshot dm id ipcps q []
    = (q ++ flat_map (fun p => map (reg_fetch_resp_of dm (ipcp_at dm p))
                                   (registered_appls (ipcp_at dm p)))
              (filter (fun p => (id =? 65535) || (ipcp_id (ipcp_at dm p) =? id)) ipcps),
       []).
Proof.
  induction ipcps as [|p l IH]; intros q; cbn [reg_fetch_snapshot filter flat_map].
  - now rewrite app_nil_r.
  - destruct (id =? 65535); cbn [negb andb orb].
    + rewrite reg_fetch_appls_ok, IH. cbn [flat_map]. now rewrite <- app_assoc.
    + destruct (ipcp_id (ipcp_at dm p) =? id); cbn [negb].
      * rewrite reg_fetch_appls_ok, IH. cbn [flat_map]. now rewrite <- app_assoc.
      * apply IH.
Qed.

Lemma upqueue_bytes_app_list (a b : list upqueue_entry) :
  upqueue_bytes K (a ++ b) = upqueue_bytes K a + upqueue_bytes K b.
Proof.
  induction a as [|x a IH]; simpl.
  - reflexivity.
  - rewrite IH. lia.
Qed.

Lemma upqueue_bytes_msgs_nonneg (msgs : list rl_msg) :
  Forall (msg_fits K) msgs -> 0 <= upqueue_bytes K (map (upqueue_entry_of K) msgs).
Proof.
  intros H. apply upqueue_bytes_nonneg; auto.
  apply Forall_forall. intros e He. apply in_map_iff in He.
  destruct He as (m & <- & Hm). apply upqueue_entry_of_ok; auto.
  rewrite Forall_forall in H. auto.
Qed.

(** Room for a list of messages is room for the first, and then for
    the others. *)
Lemma upqueue_room_cons (q : list upqueue_entry) (m : rl_msg) (msgs : list rl_msg) :
  upqueue_room K q (m :: msgs) ->
  msg_fits K m /\
  upqueue_bytes K q + (serlen (upqueue_entry_of K m) + sizeof_upqueue_entry K)
    <= RL_UPQUEUE_SIZE_MAX /\
  upqueue_room K (q ++ [upqueue_entry_of K m]) msgs.
Proof.
  intros [Hfits Hroom]. inversion Hfits as [|? ? Hfit Hfits']; subst.
  pose proof (upqueue_bytes_msgs_nonneg msgs Hfits') as Hnn.
  rewrite upqueue_bytes_app_list in Hroom. cbn [map upqueue_bytes fold_right] in Hroom.
  fold (upqueue_bytes K (map (upqueue_entry_of K) msgs)) in Hroom.
  splits; auto; [lia|]. split; auto.
  rewrite !upqueue_bytes_app_list. cbn [upqueue_bytes fold_right]. lia.
Qed.

(** One [FLOW_FETCH] with a valid filter, when allocations succeed and
    the device has room: the head of the fetch queue, which is the
    enumeration just built if the queue was empty, goes upstream with
    the event id of the request, and the rest stays queued. *)
Lemma rl_flow_fetch_step (dm : rl_dm) (rc : nat) (ev id : Z)
    (fqe : rl_kmsg_flow_fetch_resp) (rest : list rl_kmsg_flow_fetch_resp) :
  fetch_filter_ok K dm id ->
  match flows_fetch_q (rc_at dm rc) with
  | [] => flow_fetch_entries K dm id
  | _ :: _ => flows_fetch_q (rc_at dm rc)
  end = fqe :: rest ->
  upqueue_inv K (rc_at dm rc) ->
  msg_fits K (RLITE_KER_FLOW_FETCH_RESP (set_ffr_event_id fqe ev)) ->
  upqueue_bytes K (upqueue (rc_at dm rc))
    + (serlen (upqueue_entry_of K (RLITE_KER_FLOW_FETCH_RESP (set_ffr_event_id fqe ev)))
       + sizeof_upqueue_entry K) <= RL_UPQUEUE_SIZE_MAX ->
  rl_flow_fetch K dm rc {| ff_event_id := ev; ff_ipcp_id := id |} [] true
  = (0, rc_store dm rc
          (set_upqueue (set_flows_fetch_q (rc_at dm rc) rest)
             (upqueue (rc_at dm rc)
              ++ [upqueue_entry_of K (RLITE_KER_FLOW_FETCH_RESP (set_ffr_event_id fqe ev))])
             (upqueue_bytes K (upqueue (rc_at dm rc))
              + (serlen (upqueue_entry_of K
                           (RLITE_KER_FLOW_FETCH_RESP (set_ffr_event_id fqe ev)))
                 + sizeof_upqueue_entry K)))).
Proof.
  intros Hok Hq Hinv Hfit Hroom.
  unfold rl_flow_fetch. cbn [ff_ipcp_id ff_event_id].
  rewrite (fetch_validate dm id Hok).
  rewrite flow_fetch_snapshot_ok. cbn [rl_alloc fst app]. cbv zeta.
  refine ((fun Hgen : forall q : list rl_kmsg_flow_fetch_resp, q = fqe :: rest ->
                      match q with
                      | [] => (- ENOMEM, dm)
                      | fqe0 :: rest0 =>
                          let (ret, rc2) :=
                            rl_upqueue_append_atomic K (set_flows_fetch_q (rc_at dm rc) rest0)
                              (RLITE_KER_FLOW_FETCH_RESP (set_ffr_event_id fqe0 ev)) in
                          (ret, rc_store dm rc rc2)
                      end = _ => Hgen _ Hq) _).
  intros q ->.
  rewrite (rl_upqueue_append_atomic_fits K sizeof_nonneg
             (set_flows_fetch_q (rc_at dm rc) rest) _ Hinv Hfit Hroom).
  reflexivity.
Qed.

Lemma rl_reg_fetch_step (dm : rl_dm) (rc : nat) (ev id : Z)
    (fqe : rl_kmsg_reg_fetch_resp) (rest : list rl_kmsg_reg_fetch_resp) :
  fetch_filter_ok K dm id ->
  match regs_fetch_q (rc_at dm rc) with
  | [] => reg_fetch_entries dm id
  | _ :: _ => regs_fetch_q (rc_at dm rc)
  end = fqe :: rest ->
  upqueue_inv K (rc_at dm rc) ->
  msg_fits K (RLITE_KER_REG_FETCH_RESP (set_rfr_event_id fqe ev)) ->
  upqueue_bytes K (upqueue (rc_at dm rc))
    + (serlen (upqueue_entry_of K (RLITE_KER_REG_FETCH_RESP (set_rfr_event_id fqe ev)))
       + sizeof_upqueue_entry K) <= RL_UPQUEUE_SIZE_MAX ->
  rl_reg_fetch K dm rc {| rf_event_id := ev; rf_ipcp_id := id |} [] true
  = (0, rc_store dm rc
          (set_upqueue (set_regs_fetch_q (rc_at dm rc) rest)
             (upqueue (rc_at dm rc)
              ++ [upqueue_entry_of K (RLITE_KER_REG_FETCH_RESP (set_rfr_event_id fqe ev))])
             (upqueue_bytes K (upqueue (rc_at dm rc))
              + (serlen (upqueue_entry_of K
                           (RLITE_KER_REG_FETCH_RESP (set_rfr_event_id fqe ev)))
                 + sizeof_upqueue_entry K)))).
Proof.
  intros Hok Hq Hinv Hfit Hroom.
  unfold rl_reg_fetch. cbn [rf_ipcp_id rf_event_id].
  rewrite (fetch_validate dm id Hok).
  rewrite reg_fetch_snapshot_ok. cbn [rl_alloc fst app]. cbv zeta.
  refine ((fun Hgen : forall q : list rl_kmsg_reg_fetch_resp, q = fqe :: rest ->
                      match q with
                      | [] => (- ENOMEM, dm)
                      | fqe0 :: rest0 =>
                          let (ret, rc2) :=
                            rl_upqueue_append_atomic K (set_regs_fetch_q (rc_at dm rc) rest0)
                              (RLITE_KER_REG_FETCH_RESP (set_rfr_event_id fqe0 ev)) in
                          (ret, rc_store dm rc rc2)
                      end = _ => Hgen _ Hq) _).
  intros q ->.
  rewrite (rl_upqueue_append_atomic_fits K sizeof_nonneg
             (set_regs_fetch_q (rc_at dm rc) rest) _ Hinv Hfit Hroom).
  reflexivity.
Qed.

End FetchFacts.

Section FetchRun.

Variable K : kernel.
Hypothesis sizeof_nonneg : 0 <= sizeof_upqueue_entry K.

(** Successive [FLOW_FETCH] requests, as many as the entries [q] at the
    head of the enumeration in progress: each returns 0 and the entries
    go upstream in order; what follows [q] stays in the fetch queue. *)
Lemma flow_fetch_run_pops (rc : nat) (id : Z) :
  forall evs q more dm,
    fetch_filter_ok K dm id ->
    (rc < length (rc_mem dm))%nat ->
    upqueue_inv K (rc_at dm rc) ->
    length evs = length q ->
    (evs <> [] ->
     match flows_fetch_q (rc_at dm rc) with
     | [] => flow_fetch_entries K dm id
     | _ :: _ => flows_fetch_q (rc_at dm rc)
     end = q ++ more) ->
    upqueue_room K (upqueue (rc_at dm rc)) (flow_fetch_msgs evs q) ->
    fst (flow_fetch_run K dm rc id evs) = map (fun _ => 0) evs /\
    upqueue (rc_at (snd (flow_fetch_run K dm rc id evs)) rc)
    = upqueue (rc_at dm rc) ++ map (upqueue_entry_of K) (flow_fetch_msgs evs q) /\
    (evs <> [] -> flows_fetch_q (rc_at (snd (flow_fetch_run K dm rc id evs)) rc) = more).
Proof.
  induction evs as [|ev evs IH]; intros q more dm Hok Hrc Hinv Hlen Heff Hroom.
  - destruct q; [|discriminate]. cbn. rewrite app_nil_r. splits; auto.
    intros H. now destruct H.
  - destruct q as [|fqe rest]; [discriminate|].
    assert (Heff' := Heff ltac:(discriminate)).
    change (flow_fetch_msgs (ev :: evs) (fqe :: rest))
      with (RLITE_KER_FLOW_FETCH_RESP (set_ffr_event_id fqe ev) :: flow_fetch_msgs evs rest)
      in *.
    destruct (upqueue_room_cons K sizeof_nonneg _ _ _ Hroom) as (Hfit & Hroom1 & Hroom').
    cbn [flow_fetch_run].
    rewrite (rl_flow_fetch_step K sizeof_nonneg dm rc ev id fqe (rest ++ more)
               Hok Heff' Hinv Hfit Hroom1).
    set (rc2 := set_upqueue _ _ _).
    set (dm1 := rc_store dm rc rc2).
    assert (Hat : rc_at dm1 rc = rc2) by (unfold dm1; now apply rc_at_store_same).
    assert (Hlen' : length evs = length rest) by (simpl in Hlen; lia).
    assert (IH' := IH rest more dm1).
    rewrite Hat in IH'.
    destruct IH' as (H1 & H2 & H3).
    + exact Hok.
    + unfold dm1, rc_store. simpl. now rewrite store_length.
    + unfold rc2.
      apply (upqueue_inv_after_fit K sizeof_nonneg
               (set_flows_fetch_q (rc_at dm rc) (rest ++ more))); auto.
    + exact Hlen'.
    + intros Hne. unfold rc2. cbn [flows_fetch_q set_upqueue set_flows_fetch_q].
      destruct rest as [|r rest']; [|reflexivity].
      destruct evs; [now destruct Hne|discriminate].
    + exact Hroom'.
    + destruct (flow_fetch_run K dm1 rc id evs) as [rets dm2] eqn:E.
      cbn [fst snd] in *. splits.
      * cbn [map]. now rewrite H1.
      * rewrite H2. unfold rc2. cbn [upqueue set_upqueue map].
        now rewrite <- app_assoc.
      * intros _. destruct evs as [|ev' evs'].
        -- cbn in E. injection E as _ <-. rewrite Hat. unfold rc2.
           cbn [flows_fetch_q set_upqueue set_flows_fetch_q].
           destruct rest; [reflexivity|discriminate].
        -- apply H3. discriminate.
Qed.

Lemma reg_fetch_run_pops (rc : nat) (id : Z) :
  forall evs q more dm,
    fetch_filter_ok K dm id ->
    (rc < length (rc_mem dm))%nat ->
    upqueue_inv K (rc_at dm rc) ->
    length evs = length q ->
    (evs <> [] ->
     match regs_fetch_q (rc_at dm rc) with
     | [] => reg_fetch_entries dm id
     | _ :: _ => regs_fetch_q (rc_at dm rc)
     end = q ++ more) ->
    upqueue_room K (upqueue (rc_at dm rc)) (reg_fetch_msgs evs q) ->
    fst (reg_fetch_run K dm rc id evs) = map (fun _ => 0) evs /\
    upqueue (rc_at (snd (reg_fetch_run K dm rc id evs)) rc)
    = upqueue (rc_at dm rc) ++ map (upqueue_entry_of K) (reg_fetch_msgs evs q) /\
    (evs <> [] -> regs_fetch_q (rc_at (snd (reg_fetch_run K dm rc id evs)) rc) = more).
Proof.
  induction evs as [|ev evs IH]; intros q more dm Hok Hrc Hinv Hlen Heff Hroom.
  - destruct q; [|discriminate]. cbn. rewrite app_nil_r. splits; auto.
    intros H. now destruct H.
  - destruct q as [|fqe rest]; [discriminate|].
    assert (Heff' := Heff ltac:(discriminate)).
    change (reg_fetch_msgs (ev :: evs) (fqe :: rest))
      with (RLITE_KER_REG_FETCH_RESP (set_rfr_event_id fqe ev) :: reg_fetch_msgs evs rest)
      in *.
    destruct (upqueue_room_cons K sizeof_nonneg _ _ _ Hroom) as (Hfit & Hroom1 & Hroom').
    cbn [reg_fetch_run].
    rewrite (rl_reg_fetch_step K sizeof_nonneg dm rc ev id fqe (rest ++ more)
               Hok Heff' Hinv Hfit Hroom1).
    set (rc2 := set_upqueue _ _ _).
    set (dm1 := rc_store dm rc rc2).
    assert (Hat : rc_at dm1 rc = rc2) by (unfold dm1; now apply rc_at_store_same).
    assert (Hlen' : length evs = length rest) by (simpl in Hlen; lia).
    assert (IH' := IH rest more dm1).
    rewrite Hat in IH'.
    destruct IH' as (H1 & H2 & H3).
    + exact Hok.
    + unfold dm1, rc_store. simpl. now rewrite store_length.
    + unfold rc2.
      apply (upqueue_inv_after_fit K sizeof_nonneg
               (set_regs_fetch_q (rc_at dm rc) (rest ++ more))); auto.
    + exact Hlen'.
    + intros Hne. unfold rc2. cbn [regs_fetch_q set_upqueue set_regs_fetch_q].
      destruct rest as [|r rest']; [|reflexivity].
      destruct evs; [now destruct Hne|discriminate].
    + exact Hroom'.
    + destruct (reg_fetch_run K dm1 rc id evs) as [rets dm2] eqn:E.
      cbn [fst snd] in *. splits.
      * cbn [map]. now rewrite H1.
      * rewrite H2. unfold rc2. cbn [upqueue set_upqueue map].
        now rewrite <- app_assoc.
      * intros _. destruct evs as [|ev' evs'].
        -- cbn in E. injection E as _ <-. rewrite Hat. unfold rc2.
           cbn [regs_fetch_q set_upqueue set_regs_fetch_q].
           destruct rest; [reflexivity|discriminate].
        -- apply H3. discriminate.
Qed.

End FetchRun.

(** In the example, three [FLOW_FETCH] requests without filter return
    the two flows and then the terminator, and the queue is empty again;
    with the filter 2 the enumeration is the flow of IPCP 2 and the
    terminator. *)
Example fetch_example :
  map (fun r => (ffr_end r, ffr_ipcp_id r, ffr_local_port r))
      (flow_fetch_entries Example.K0 FetchExample.dm_regs 65535)
  = [(0, 1, 0); (0, 2, 1); (1, 0, 0)] /\
  map (fun r => (ffr_end r, ffr_ipcp_id r, ffr_local_port r))
      (flow_fetch_entries Example.K0 FetchExample.dm_regs 2)
  = [(0, 2, 1); (1, 0, 0)] /\
  map (fun r => (rfr_end r, rfr_ipcp_id r, rfr_pending r, rfr_appl_name r))
      (reg_fetch_entries FetchExample.dm_regs 65535)
  = [(0, 1, 1, Some "srv"%string); (1, 0, 0, None)] /\
  fst (flow_fetch_run Example.K0 FetchExample.dm_regs 0 65535 [1; 2; 3]) = [0; 0; 0] /\
  flows_fetch_q
    (rc_at (snd (flow_fetch_run Example.K0 FetchExample.dm_regs 0 65535 [1; 2; 3])) 0) = [].
Proof. vm_compute. repeat split. Qed.

(** C9, as stated, fails for a request whose filter names no IPCP: in
    the middle of an enumeration, with two entries left in the fetch
    queue, a [FLOW_FETCH] (or [REG_FETCH]) for the IPCP id 7 returns
    [-EINVAL]; the head of the fetch queue is not popped and nothing is
    queued upstream. *)
Lemma C9_unknown_ipcp_pops_nothing :
  length (flows_fetch_q (rc_at FetchExample.dm_fetching 0)) = 2%nat /\
  ipcp_lookup Example.K0 FetchExample.dm_fetching 7 = None /\
  rl_flow_fetch Example.K0 FetchExample.dm_fetching 0 (FetchExample.flow_fetch 2 7) [] true
  = (- EINVAL, FetchExample.dm_fetching) /\
  rl_reg_fetch Example.K0 FetchExample.dm_fetching 0 (FetchExample.reg_fetch 2 7) [] true
  = (- EINVAL, FetchExample.dm_fetching).
Proof.
  split; [vm_compute; reflexivity|].
  assert (H : ipcp_lookup Example.K0 FetchExample.dm_fetching 7 = None)
    by (vm_compute; reflexivity).
  split; [exact H|].
  unfold rl_flow_fetch, rl_reg_fetch, FetchExample.flow_fetch, FetchExample.reg_fetch.
  cbn [ff_ipcp_id rf_ipcp_id].
  rewrite (fetch_validate_fails Example.K0 FetchExample.dm_fetching 7 ltac:(discriminate) H).
  split; reflexivity.
Qed.

(** C9 (amended) — Fetch cursors.  On a device whose upstream queue is
    well accounted: (a) a [FLOW_FETCH] or [REG_FETCH] whose filter is not
    [0xffff] and names no IPCP of the table returns [-EINVAL] and changes
    nothing.  With a filter that is [0xffff] or names an IPCP of the
    table, when allocations succeed and the upstream queue has room:
    (b) successive requests on a device with an empty fetch queue all
    return 0 and queue upstream, in order and each with the event id of
    its request, the responses of the enumeration, which is one response
    with [end = 0] per flow (registered name) passing the filter,
    followed by the terminator with [end = 1]; the entries not yet
    fetched stay in the fetch queue; (c) a request on a device with a
    non-empty fetch queue returns 0, pops the head of that queue and
    queues it upstream with the event id of the request. *)
Theorem C9_fetch_cursors (K : kernel) (dm : rl_dm) (rc : nat) (id : Z) :
  0 <= sizeof_upqueue_entry K ->
  (rc < length (rc_mem dm))%nat ->
  upqueue_inv K (rc_at dm rc) ->
  (id <> 65535 -> ipcp_lookup K dm id = None ->
   forall ev allocs alloc_ok,
     rl_flow_fetch K dm rc {| ff_event_id := ev; ff_ipcp_id := id |} allocs alloc_ok
     = (- EINVAL, dm) /\
     rl_reg_fetch K dm rc {| rf_event_id := ev; rf_ipcp_id := id |} allocs alloc_ok
     = (- EINVAL, dm)) /\
  (fetch_filter_ok K dm id ->
   (forall evs,
       flows_fetch_q (rc_at dm rc) = [] ->
       (length evs <= length (flow_fetch_entries K dm id))%nat ->
       upqueue_room K (upqueue (rc_at dm rc))
         (flow_fetch_msgs evs (flow_fetch_entries K dm id)) ->
       fst (flow_fetch_run K dm rc id evs) = map (fun _ => 0) evs /\
       upqueue (rc_at (snd (flow_fetch_run K dm rc id evs)) rc)
       = upqueue (rc_at dm rc)
         ++ map (upqueue_entry_of K) (flow_fetch_msgs evs (flow_fetch_entries K dm id)) /\
       (evs <> [] ->
        flows_fetch_q (rc_at (snd (flow_fetch_run K dm rc id evs)) rc)
        = skipn (length evs) (flow_fetch_entries K dm id))) /\
   (forall evs,
       regs_fetch_q (rc_at dm rc) = [] ->
       (length evs <= length (reg_fetch_entries dm id))%nat ->
       upqueue_room K (upqueue (rc_at dm rc))
         (reg_fetch_msgs evs (reg_fetch_entries dm id)) ->
       fst (reg_fetch_run K dm rc id evs) = map (fun _ => 0) evs /\
       upqueue (rc_at (snd (reg_fetch_run K dm rc id evs)) rc)
       = upqueue (rc_at dm rc)
         ++ map (upqueue_entry_of K) (reg_fetch_msgs evs (reg_fetch_entries dm id)) /\
       (evs <> [] ->
        regs_fetch_q (rc_at (snd (reg_fetch_run K dm rc id evs)) rc)
        = skipn (length evs) (reg_fetch_entries dm id))) /\
   (forall ev fqe rest,
       flows_fetch_q (rc_at dm rc) = fqe :: rest ->
       upqueue_room K (upqueue (rc_at dm rc))
         [RLITE_KER_FLOW_FETCH_RESP (set_ffr_event_id fqe ev)] ->
       let res := rl_flow_fetch K dm rc {| ff_event_id := ev; ff_ipcp_id := id |} [] true in
       fst res = 0 /\
       upqueue (rc_at (snd res) rc)
       = upqueue (rc_at dm rc)
         ++ [upqueue_entry_of K (RLITE_KER_FLOW_FETCH_RESP (set_ffr_event_id fqe ev))] /\
       flows_fetch_q (rc_at (snd res) rc) = rest) /\
   (forall ev fqe rest,
       regs_fetch_q (rc_at dm rc) = fqe :: rest ->
       upqueue_room K (upqueue (rc_at dm rc))
         [RLITE_KER_REG_FETCH_RESP (set_rfr_event_id fqe ev)] ->
       let res := rl_reg_fetch K dm rc {| rf_event_id := ev; rf_ipcp_id := id |} [] true in
       fst res = 0 /\
       upqueue (rc_at (snd res) rc)
       = upqueue (rc_at dm rc)
         ++ [upqueue_entry_of K (RLITE_KER_REG_FETCH_RESP (set_rfr_event_id fqe ev))] /\
       regs_fetch_q (rc_at (snd res) rc) = rest)) /\
  (exists l, flow_fetch_entries K dm id = l ++ [flow_fetch_end] /\
             Forall (fun r => ffr_end r = 0) l /\ ffr_end flow_fetch_end = 1) /\
  (exists l, reg_fetch_entries dm id = l ++ [reg_fetch_end] /\
             Forall (fun r => rfr_end r = 0) l /\ rfr_end reg_fetch_end = 1).
Proof.
  intros Hsz Hrc Hinv. splits.
  - intros Hid Hlk ev allocs alloc_ok.
    unfold rl_flow_fetch, rl_reg_fetch. cbn [ff_ipcp_id rf_ipcp_id].
    rewrite (fetch_validate_fails K dm id Hid Hlk). split; reflexivity.
  - intros Hok. splits.
    + intros evs Hq Hlen Hroom.
      assert (Hc : flow_fetch_msgs evs (flow_fetch_entries K dm id)
                   = flow_fetch_msgs evs (firstn (length evs) (flow_fetch_entries K dm id))).
      { unfold flow_fetch_msgs. now rewrite <- combine_firstn_l. }
      rewrite Hc in *.
      apply (flow_fetch_run_pops K Hsz rc id evs
               (firstn (length evs) (flow_fetch_entries K dm id))
               (skipn (length evs) (flow_fetch_entries K dm id)) dm); auto.
      * rewrite length_firstn. lia.
      * intros _. rewrite Hq. now rewrite firstn_skipn.
    + intros evs Hq Hlen Hroom.
      assert (Hc : reg_fetch_msgs evs (reg_fetch_entries dm id)
                   = reg_fetch_msgs evs (firstn (length evs) (reg_fetch_entries dm id))).
      { unfold reg_fetch_msgs. now rewrite <- combine_firstn_l. }
      rewrite Hc in *.
      apply (reg_fetch_run_pops K Hsz rc id evs
               (firstn (length evs) (reg_fetch_entries dm id))
               (skipn (length evs) (reg_fetch_entries dm id)) dm); auto.
      * rewrite length_firstn. lia.
      * intros _. rewrite Hq. now rewrite firstn_skipn.
    + intros ev fqe rest Hq Hroom res. subst res.
      destruct (upqueue_room_cons K Hsz _ _ _ Hroom) as (Hfit & Hroom1 & _).
      rewrite (rl_flow_fetch_step K Hsz dm rc ev id fqe rest Hok); auto.
      * cbn [fst snd]. rewrite rc_at_store_same by exact Hrc. splits; reflexivity.
      * now rewrite Hq.
    + intros ev fqe rest Hq Hroom res. subst res.
      destruct (upqueue_room_cons K Hsz _ _ _ Hroom) as (Hfit & Hroom1 & _).
      rewrite (rl_reg_fetch_step K Hsz dm rc ev id fqe rest Hok); auto.
      * cbn [fst snd]. rewrite rc_at_store_same by exact Hrc. splits; reflexivity.
      * now rewrite Hq.
  - eexists. unfold flow_fetch_entries. split; [reflexivity|]. split; [|reflexivity].
    apply Forall_forall. intros r Hr. apply in_map_iff in Hr.
    destruct Hr as (e & <- & _). reflexivity.
  - eexists. unfold reg_fetch_entries. split; [reflexivity|]. split; [|reflexivity].
    apply Forall_forall. intros r Hr. apply in_flat_map in Hr.
    destruct Hr as (p & _ & Hr). apply in_map_iff in Hr.
    destruct Hr as (e & <- & _). reflexivity.
Qed.

(** Two [FLOW_FETCH] requests for the flows of IPCP 2 of the example:
    both return 0, and the second leaves the fetch queue empty. *)
Lemma C9_fetch_cursors_witness :
  fst (flow_fetch_run Example.K0 FetchExample.dm_regs 0 2 [1; 2]) = [0; 0] /\
  flows_fetch_q
    (rc_at (snd (flow_fetch_run Example.K0 FetchExample.dm_regs 0 2 [1; 2])) 0) = [].
Proof.
  assert (Hrc0 : rc_at FetchExample.dm_regs 0 = rl_ctrl_zero) by (vm_compute; reflexivity).
  assert (Hlk : ipcp_lookup Example.K0 FetchExample.dm_regs 2 = Some 2%nat)
    by (vm_compute; reflexivity).
  assert (Hr : ipcp_refcnt (ipcp_at FetchExample.dm_regs 2) = 2) by (vm_compute; reflexivity).
  assert (Hlen : length (flow_fetch_entries Example.K0 FetchExample.dm_regs 2) = 2%nat)
    by (vm_compute; reflexivity).
  assert (Hsk : skipn 2 (flow_fetch_entries Example.K0 FetchExample.dm_regs 2) = [])
    by (vm_compute; reflexivity).
  refine ((fun X => conj (proj1 X) (eq_trans (proj2 (proj2 X) _) Hsk))
            (proj1 (proj1 (proj2 (C9_fetch_cursors Example.K0 FetchExample.dm_regs 0 2 _ _ _))
                      _) [1; 2] _ _ _)).
  - discriminate.
  - vm_compute. discriminate.
  - vm_compute. lia.
  - rewrite Hrc0. unfold upqueue_inv. simpl. splits; [constructor|reflexivity|].
    vm_compute. discriminate.
  - right. exists 2%nat. split; [exact Hlk|]. split; [vm_compute; lia|].
    rewrite Hr. lia.
  - rewrite Hrc0. reflexivity.
  - rewrite Hlen. simpl. lia.
  - rewrite Hrc0. unfold upqueue_room.
    set (l := flow_fetch_msgs [1; 2] (flow_fetch_entries Example.K0 FetchExample.dm_regs 2)).
    vm_compute in l. subst l. split.
    + repeat constructor; vm_compute; reflexivity.
    + vm_compute. discriminate.
Defined.

(* ===================================================================== *)
(** ** The registry of IPCP factories *)
(* ===================================================================== *)

Section FactoryFacts.

Lemma factory_has_type_iff (ty : string) (f : ipcp_factory) :
  factory_has_type ty f = true <-> fac_dif_type f = Some ty.
Proof.
  unfold factory_has_type. destruct (fac_dif_type f) as [t|].
  - rewrite String.eqb_eq. split; congruence.
  - split; discriminate.
Qed.

Lemma ipcp_factories_find_none (factories : list ipcp_factory) (ty : string) :
  ipcp_factories_find factories (Some ty) = None <->
  ~ In (Some ty) (map fac_dif_type factories).
Proof.
  unfold ipcp_factories_find. induction factories as [|g l IH]; simpl.
  - tauto.
  - destruct (factory_has_type ty g) eqn:E.
    + apply factory_has_type_iff in E. split; [discriminate|]. intros H. destruct H. auto.
    + assert (fac_dif_type g <> Some ty).
      { intros H. apply factory_has_type_iff in H. congruence. }
      rewrite IH. tauto.
Qed.

Lemma ipcp_factories_find_some (factories : list ipcp_factory) (dif_type : option string)
    (f : ipcp_factory) :
  ipcp_factories_find factories dif_type = Some f ->
  In f factories /\ fac_dif_type f = dif_type.
Proof.
  unfold ipcp_factories_find. destruct dif_type as [ty|]; [|discriminate].
  intros H. apply find_some in H. destruct H as [Hin Ht].
  apply factory_has_type_iff in Ht. auto.
Qed.

(** In a well-formed registry a type names at most one factory, which
    is the one the search returns. *)
Lemma ipcp_factories_find_in (factories : list ipcp_factory) (f : ipcp_factory) :
  NoDup (map fac_dif_type factories) ->
  In f factories -> fac_dif_type f <> None ->
  ipcp_factories_find factories (fac_dif_type f) = Some f.
Proof.
  intros Hnd Hin Hty. destruct (fac_dif_type f) as [ty|] eqn:Ef; [|congruence]. clear Hty.
  unfold ipcp_factories_find. induction factories as [|g l IH]; simpl in *; [tauto|].
  inversion Hnd as [|? ? Hni Hnd']; subst.
  destruct Hin as [->|Hin].
  - assert (E : factory_has_type ty f = true) by now apply factory_has_type_iff.
    now rewrite E.
  - destruct (factory_has_type ty g) eqn:E.
    + apply factory_has_type_iff in E. exfalso. apply Hni. rewrite E, <- Ef.
      now apply in_map.
    + auto.
Qed.

Lemma factories_del_not_in (factories : list ipcp_factory) (ty : string) :
  ~ In (Some ty) (map fac_dif_type factories) -> factories_del factories ty = factories.
Proof.
  induction factories as [|g l IH]; simpl; auto. intros H.
  destruct (factory_has_type ty g) eqn:E.
  - apply factory_has_type_iff in E. exfalso. auto.
  - f_equal. auto.
Qed.

Lemma factories_del_app (l : list ipcp_factory) (f : ipcp_factory) (ty : string) :
  ~ In (Some ty) (map fac_dif_type l) -> fac_dif_type f = Some ty ->
  factories_del (l ++ [f]) ty = l.
Proof.
  induction l as [|g l IH]; simpl; intros Hni Hf.
  - apply factory_has_type_iff in Hf. now rewrite Hf.
  - destruct (factory_has_type ty g) eqn:E.
    + apply factory_has_type_iff in E. exfalso. auto.
    + f_equal. auto.
Qed.

Lemma factories_del_types (l : list ipcp_factory) (ty : string) :
  NoDup (map fac_dif_type l) ->
  forall t, In t (map fac_dif_type (factories_del l ty)) <->
            In t (map fac_dif_type l) /\ t <> Some ty.
Proof.
  induction l as [|g l IH]; simpl; intros Hnd t; [tauto|].
  inversion Hnd as [|? ? Hni Hnd']; subst.
  destruct (factory_has_type ty g) eqn:E.
  - apply factory_has_type_iff in E. split.
    + intros H. split; auto. intros ->. rewrite E in Hni. auto.
    + intros [[H|H] Hne]; auto. congruence.
  - assert (Hg : fac_dif_type g <> Some ty).
    { intros H. apply factory_has_type_iff in H. congruence. }
    simpl. rewrite (IH Hnd' t). split.
    + intros [H|[H1 H2]]; [|tauto]. subst. tauto.
    + tauto.
Qed.

Lemma factories_del_incl (l : list ipcp_factory) (ty : string) (f : ipcp_factory) :
  In f (factories_del l ty) -> In f l.
Proof.
  induction l as [|g l IH]; simpl; auto.
  destruct (factory_has_type ty g); simpl; tauto.
Qed.

Lemma factories_del_nodup (l : list ipcp_factory) (ty : string) :
  NoDup (map fac_dif_type l) -> NoDup (map fac_dif_type (factories_del l ty)).
Proof.
  induction l as [|g l IH]; simpl; intros Hnd; auto.
  inversion Hnd as [|? ? Hni Hnd']; subst.
  destruct (factory_has_type ty g); auto.
  simpl. constructor; auto.
  intros H. apply (factories_del_types l ty Hnd') in H. tauto.
Qed.

Lemma factories_del_find_other (l : list ipcp_factory) (ty ty' : string) :
  ty' <> ty ->
  ipcp_factories_find (factories_del l ty) (Some ty') = ipcp_factories_find l (Some ty').
Proof.
  intros Hne. unfold ipcp_factories_find. induction l as [|g l IH]; simpl; auto.
  destruct (factory_has_type ty g) eqn:E.
  - apply factory_has_type_iff in E.
    destruct (factory_has_type ty' g) eqn:E'; auto.
    apply factory_has_type_iff in E'. congruence.
  - simpl. destruct (factory_has_type ty' g); auto.
Qed.

End FactoryFacts.

(** X1 — Registration of an IPCP factory.  On a well-formed registry,
    [rl_ipcp_factory_register] returns 0 exactly when the factory passes
    the checks (constructor, owner, type, [destroy] and [sdu_write], and
    the four other PDUFT hooks if it has [pduft_set]) and no factory of
    its type is registered; a complete factory of a registered type gets
    [-EBUSY].  A success links the factory at the tail, where the search
    by type finds it; a failure leaves the registry as it was; the
    registry stays well formed. *)
Theorem X1_factory_register (factories : list ipcp_factory) (f : ipcp_factory) :
  factories_inv factories ->
  let res := rl_ipcp_factory_register factories (Some f) in
  (fst res = 0 <->
   factory_ok f = true /\ ~ In (fac_dif_type f) (map fac_dif_type factories)) /\
  (fst res = 0 ->
   snd res = factories ++ [f] /\
   ipcp_factories_find (snd res) (fac_dif_type f) = Some f) /\
  (fst res <> 0 -> snd res = factories) /\
  (fac_create f <> None -> fac_owner f = true ->
   In (fac_dif_type f) (map fac_dif_type factories) ->
   fac_dif_type f <> None -> fst res = - EBUSY) /\
  factories_inv (snd res).
Proof.
  intros [Hall Hnd] res.
  assert (Hcases :
            (res = (0, factories ++ [f]) /\ factory_ok f = true /\
             ~ In (fac_dif_type f) (map fac_dif_type factories)) \/
            (res = (- EINVAL, factories) /\
             (factory_ok f = false \/ fac_dif_type f = None) /\
             (fac_create f = None \/ fac_owner f = false \/ fac_dif_type f = None \/
              ~ In (fac_dif_type f) (map fac_dif_type factories))) \/
            (res = (- EBUSY, factories) /\
             In (fac_dif_type f) (map fac_dif_type factories))).
  { subst res. unfold rl_ipcp_factory_register, factory_ok.
    destruct (fac_create f) as [c|]; [|right; left; repeat split; auto].
    destruct (fac_owner f); [|right; left; repeat split; auto].
    destruct (fac_dif_type f) as [ty|] eqn:Ety; [|right; left; repeat split; auto].
    destruct (ipcp_factories_find factories (Some ty)) as [g|] eqn:Ef.
    - right; right. split; auto.
      apply ipcp_factories_find_some in Ef. destruct Ef as [Hin Hg].
      rewrite <- Hg. now apply in_map.
    - apply ipcp_factories_find_none in Ef.
      destruct (fac_ops_destroy f), (fac_ops_sdu_write f); simpl;
        try (right; left; repeat split; auto; fail).
      destruct (fac_ops_pduft_set f); simpl; [|left; auto].
      destruct (fac_ops_pduft_del f), (fac_ops_pduft_del_addr f),
        (ops_pduft_flush (fac_ops f)), (fac_ops_pduft_flush_by_flow f); simpl;
        try (right; left; repeat split; auto; fail); left; auto. }
  assert (Hnz : - EINVAL <> 0 /\ - EBUSY <> 0) by (split; discriminate).
  destruct Hcases as [(-> & Hok & Hni)|[(-> & Hbad & Hwhy)|(-> & Hin)]]; cbn [fst snd].
  - splits.
    + tauto.
    + intros _. split; auto.
      apply ipcp_factories_find_in.
      * rewrite map_app. simpl. apply NoDup_app; auto.
        -- repeat constructor. simpl. tauto.
        -- intros x Hx [<-|[]]. auto.
      * apply in_or_app. right. now left.
      * unfold factory_ok in Hok. destruct (fac_create f), (fac_owner f), (fac_dif_type f);
          congruence.
    + congruence.
    + intros _ _ Hin. contradiction.
    + split.
      * apply Forall_app. split; auto.
      * rewrite map_app. simpl. apply NoDup_app; auto.
        -- repeat constructor. simpl. tauto.
        -- intros x Hx [<-|[]]. auto.
  - splits.
    + split; [intros H; now destruct (proj1 Hnz)|].
      intros [Hok Hni]. destruct Hbad as [Hb|Hb]; [congruence|].
      unfold factory_ok in Hok. rewrite Hb in Hok.
      destruct (fac_create f), (fac_owner f); discriminate.
    + intros H. now destruct (proj1 Hnz).
    + auto.
    + intros Hc Ho Hin Hty. exfalso. destruct Hwhy as [H|[H|[H|H]]]; congruence || auto.
    + split; auto.
  - splits.
    + split; [intros H; now destruct (proj2 Hnz)|]. intros [_ Hni]. contradiction.
    + intros H. now destruct (proj2 Hnz).
    + auto.
    + auto.
    + split; auto.
Qed.

Lemma X1_factory_register_witness :
  fst (rl_ipcp_factory_register [FactoryExample.shim_eth] (Some FactoryExample.normal)) = 0 /\
  fst (rl_ipcp_factory_register FactoryExample.registry (Some FactoryExample.normal))
  = - EBUSY.
Proof.
  assert (H1 : factories_inv [FactoryExample.shim_eth]).
  { split; [repeat constructor|]. repeat constructor. simpl. tauto. }
  assert (H2 : factories_inv FactoryExample.registry).
  { split; [repeat constructor|]. repeat constructor; simpl; intuition discriminate. }
  split.
  - apply (proj1 (X1_factory_register [FactoryExample.shim_eth] FactoryExample.normal H1)).
    split; [reflexivity|]. simpl. intuition discriminate.
  - apply (proj1 (proj2 (proj2 (proj2 (X1_factory_register FactoryExample.registry
                                        FactoryExample.normal H2))))).
    + discriminate.
    + reflexivity.
    + simpl. auto.
    + discriminate.
Defined.

(** X2 — Unregistration of an IPCP factory.  On a well-formed registry,
    [rl_ipcp_factory_unregister] fails with [-EINVAL], the registry
    unchanged, when no factory of that type is registered (or the type
    is NULL); otherwise it returns 0 and unlinks that factory and no
    other: the type is not found any more, every other type is found as
    before, and the registry stays well formed.  Unregistering a factory
    right after its registration gives back the registry. *)
Theorem X2_factory_unregister (factories : list ipcp_factory) (dif_type : option string) :
  factories_inv factories ->
  let res := rl_ipcp_factory_unregister factories dif_type in
  (ipcp_factories_find factories dif_type = None -> res = (- EINVAL, factories)) /\
  (forall f,
      ipcp_factories_find factories dif_type = Some f ->
      fst res = 0 /\
      ipcp_factories_find (snd res) dif_type = None /\
      ~ In f (snd res) /\
      (forall g, In g factories -> g <> f -> In g (snd res)) /\
      (forall ty', Some ty' <> dif_type ->
                   ipcp_factories_find (snd res) (Some ty')
                   = ipcp_factories_find factories (Some ty'))) /\
  factories_inv (snd res) /\
  (forall f,
      fst (rl_ipcp_factory_register factories (Some f)) = 0 ->
      rl_ipcp_factory_unregister (snd (rl_ipcp_factory_register factories (Some f)))
        (fac_dif_type f)
      = (0, factories)).
Proof.
  intros [Hall Hnd] res. subst res. unfold rl_ipcp_factory_unregister. splits.
  - intros ->. reflexivity.
  - intros f Hf. rewrite Hf.
    destruct (ipcp_factories_find_some _ _ _ Hf) as [Hin Hty].
    destruct dif_type as [ty|]; [|discriminate]. cbn [fst snd].
    assert (Hgone : ~ In (Some ty) (map fac_dif_type (factories_del factories ty))).
    { intros H. apply (factories_del_types factories ty Hnd) in H. tauto. }
    splits; auto.
    + now apply ipcp_factories_find_none.
    + intros H. apply Hgone. rewrite <- Hty. now apply in_map.
    + intros g Hg Hne. clear Hf Hgone.
      induction factories as [|h l IH]; simpl in *; [tauto|].
      inversion Hnd as [|? ? Hni Hnd']; subst.
      inversion Hall as [|? ? Hh Hall']; subst.
      destruct (factory_has_type ty h) eqn:E.
      * apply factory_has_type_iff in E.
        destruct Hg as [->|Hg]; auto.
        destruct Hin as [->|Hin]; [congruence|].
        exfalso. apply Hni. rewrite E, <- Hty. now apply in_map.
      * destruct Hg as [->|Hg]; [now left|]. right.
        destruct Hin as [->|Hin].
        -- apply factory_has_type_iff in Hty. congruence.
        -- auto.
    + intros ty' Hne. apply factories_del_find_other. congruence.
  - destruct (ipcp_factories_find factories dif_type) as [f|] eqn:Hf;
      [|split; auto].
    destruct dif_type as [ty|]; [|split; auto]. cbn [snd]. split.
    + apply Forall_forall. intros g Hg. apply factories_del_incl in Hg.
      rewrite Forall_forall in Hall. auto.
    + now apply factories_del_nodup.
  - intros f Hreg.
    destruct (X1_factory_register factories f (conj Hall Hnd)) as (H1 & H2 & _).
    destruct (H2 Hreg) as [Hsnd Hfind]. destruct (proj1 H1 Hreg) as [Hok Hni].
    rewrite Hfind, Hsnd.
    destruct (fac_dif_type f) as [ty|] eqn:Ety.
    + now rewrite factories_del_app.
    + unfold ipcp_factories_find in Hfind. discriminate.
Qed.

Lemma X2_factory_unregister_witness :
  fst (rl_ipcp_factory_unregister FactoryExample.registry (Some "normal"%string)) = 0 /\
  ipcp_factories_find
    (snd (rl_ipcp_factory_unregister FactoryExample.registry (Some "normal"%string)))
    (Some "normal"%string) = None.
Proof.
  assert (H2 : factories_inv FactoryExample.registry).
  { split; [repeat constructor|]. repeat constructor; simpl; intuition discriminate. }
  assert (Hf : ipcp_factories_find FactoryExample.registry (Some "normal"%string)
               = Some FactoryExample.normal) by reflexivity.
  refine ((fun X => conj (proj1 X) (proj1 (proj2 X)))
            (proj1 (proj2 (X2_factory_unregister FactoryExample.registry
                             (Some "normal"%string) H2)) FactoryExample.normal Hf)).
Defined.

(* ===================================================================== *)
(** ** The upstream queue as a FIFO; poll, write and ioctl *)
(* ===================================================================== *)

Section FifoFacts.

Variable K : kernel.
Hypothesis sizeof_nonneg : 0 <= sizeof_upqueue_entry K.

Lemma rl_ctrl_eq (a b : rl_ctrl) :
  upqueue a = upqueue b -> upqueue_size a = upqueue_size b ->
  flows_fetch_q a = flows_fetch_q b -> regs_fetch_q a = regs_fetch_q b ->
  rc_flags a = rc_flags b -> a = b.
Proof. destruct a, b; simpl; intros; subst; reflexivity. Qed.

Lemma upqueue_append_run_fits (msgs : list rl_msg) :
  forall rc,
    upqueue_inv K rc -> upqueue_room K (upqueue rc) msgs ->
    fst (upqueue_append_run K rc msgs) = map (fun _ => 0) msgs /\
    upqueue (snd (upqueue_append_run K rc msgs))
    = upqueue rc ++ map (upqueue_entry_of K) msgs /\
    upqueue_inv K (snd (upqueue_append_run K rc msgs)) /\
    same_cursors (snd (upqueue_append_run K rc msgs)) rc.
Proof.
  induction msgs as [|m msgs IH]; intros rc Hinv Hroom; cbn [upqueue_append_run map].
  - cbn. rewrite app_nil_r. unfold same_cursors. splits; auto.
  - destruct (upqueue_room_cons K sizeof_nonneg _ _ _ Hroom) as (Hfit & Hroom1 & Hroom').
    rewrite (rl_upqueue_append_atomic_fits K sizeof_nonneg rc m Hinv Hfit Hroom1).
    set (rc1 := set_upqueue rc _ _).
    destruct (IH rc1) as (H1 & H2 & H3 & H4 & H5 & H6).
    + now apply upqueue_inv_after_fit.
    + exact Hroom'.
    + destruct (upqueue_append_run K rc1 msgs) as [rets rc2]. cbn [fst snd] in *.
      unfold same_cursors. splits; auto.
      * now rewrite H1.
      * rewrite H2. unfold rc1. cbn [upqueue set_upqueue]. now rewrite <- app_assoc.
Qed.

Lemma rl_ctrl_read_head (rc : rl_ctrl) (e : upqueue_entry) (rest : list upqueue_entry)
    (ppos len : Z) (blocking : bool) (env : list read_wait) :
  upqueue_inv K rc -> upqueue rc = e :: rest -> 0 < len -> serlen e <= len ->
  exists r,
    rl_ctrl_read K rc ppos len blocking true env = Some r /\
    rd_buf r = Some (sermsg e) /\ rd_ret r = serlen e /\
    upqueue (rd_rc r) = rest /\ upqueue_inv K (rd_rc r) /\ same_cursors (rd_rc r) rc.
Proof.
  intros Hinv Hq Hlen Hfit. unfold rl_ctrl_read.
  assert (E0 : (len =? 0) = false) by (apply Z.eqb_neq; lia).
  assert (E1 : (len <? serlen e) = false) by (apply Z.ltb_ge; lia).
  rewrite E0.
  assert (Hloop : rl_ctrl_read_loop K rc ppos len blocking true env
                  = Some {| rd_ret := to_int (serlen e);
                            rd_rc := set_upqueue rc rest
                                       (u32 (upqueue_size rc - upqentry_size K e));
                            rd_buf := Some (sermsg e);
                            rd_ppos := ppos + to_int (serlen e);
                            rd_wake_writers := 0 <? to_int (serlen e) |}).
  { destruct env; cbn [rl_ctrl_read_loop]; rewrite Hq, E1; reflexivity. }
  eexists. split; [exact Hloop|]. cbn [rd_buf rd_ret rd_rc].
  assert (Hloop0 : rl_ctrl_read_loop K rc ppos len blocking true []
                   = Some {| rd_ret := to_int (serlen e);
                             rd_rc := set_upqueue rc rest
                                        (u32 (upqueue_size rc - upqentry_size K e));
                             rd_buf := Some (sermsg e);
                             rd_ppos := ppos + to_int (serlen e);
                             rd_wake_writers := 0 <? to_int (serlen e) |}).
  { cbn [rl_ctrl_read_loop]. rewrite Hq, E1. reflexivity. }
  assert (Hinv' := rl_ctrl_read_loop_inv K sizeof_nonneg ppos len blocking true [] rc _
                     (Forall_nil _) Hinv Hloop0).
  cbn [rd_rc] in Hinv'.
  destruct Hinv as (Hall & Hsz & Hmax). rewrite Hq in Hall.
  inversion Hall as [|? ? [He0 He1] Hrest]; subst.
  unfold same_cursors. splits; auto.
  unfold to_int. rewrite u32_small by lia.
  destruct (serlen e <? 2 ^ 31) eqn:C; auto. apply Z.ltb_ge in C. lia.
Qed.

Lemma rl_ctrl_read_run_pops (len : Z) (q : list upqueue_entry) :
  forall rc rest,
    upqueue_inv K rc -> upqueue rc = q ++ rest -> 0 < len ->
    Forall (fun e => serlen e <= len) q ->
    fst (rl_ctrl_read_run K rc (length q) len) = map (fun e => Some (sermsg e)) q /\
    upqueue (snd (rl_ctrl_read_run K rc (length q) len)) = rest /\
    upqueue_inv K (snd (rl_ctrl_read_run K rc (length q) len)) /\
    same_cursors (snd (rl_ctrl_read_run K rc (length q) len)) rc.
Proof.
  induction q as [|e q IH]; intros rc rest Hinv Hq Hlen Hfits;
    cbn [length rl_ctrl_read_run map].
  - cbn. unfold same_cursors. splits; auto.
  - inversion Hfits as [|? ? Hfit Hfits']; subst.
    destruct (rl_ctrl_read_head rc e (q ++ rest) 0 len false [] Hinv Hq Hlen Hfit)
      as (r & Hr & Hbuf & _ & Hq' & Hinv' & Hc1 & Hc2 & Hc3).
    rewrite Hr.
    destruct (IH (rd_rc r) rest Hinv' Hq' Hlen Hfits') as (H1 & H2 & H3 & H4 & H5 & H6).
    destruct (rl_ctrl_read_run K (rd_rc r) (length q) len) as [bufs rc2].
    cbn [fst snd] in *. unfold same_cursors. splits; auto; try congruence.
Qed.

End FifoFacts.

(** X3 — The upstream queue is a FIFO.  On a device with an empty,
    well-accounted queue and room for the messages [msgs], appending
    them in turn succeeds each time, and as many reads with a buffer
    that holds each of them return their serializations one per read in
    the order of the appends; after the last read the device is exactly
    as it was before the first append. *)
Theorem X3_upqueue_fifo (K : kernel) (rc : rl_ctrl) (msgs : list rl_msg) (len : Z) :
  0 <= sizeof_upqueue_entry K ->
  upqueue_inv K rc ->
  upqueue rc = [] ->
  upqueue_room K [] msgs ->
  0 < len ->
  Forall (fun m => Z.of_nat (length (serialize_rlite_msg K m)) <= len) msgs ->
  let appended := upqueue_append_run K rc msgs in
  let read := rl_ctrl_read_run K (snd appended) (length msgs) len in
  fst appended = map (fun _ => 0) msgs /\
  fst read = map (fun m => Some (serialize_rlite_msg K m)) msgs /\
  snd read = rc.
Proof.
  intros Hsz Hinv Hq Hroom Hlen Hfits appended read.
  assert (Hroom' : upqueue_room K (upqueue rc) msgs) by now rewrite Hq.
  destruct (upqueue_append_run_fits K Hsz msgs rc Hinv Hroom')
    as (H1 & H2 & H3 & H4 & H5 & H6).
  fold appended in H1, H2, H3, H4, H5, H6. rewrite Hq in H2. cbn [app] in H2.
  assert (Hlens : Forall (fun e => serlen e <= len) (map (upqueue_entry_of K) msgs)).
  { apply Forall_forall. intros e He. apply in_map_iff in He. destruct He as (m & <- & Hm).
    rewrite Forall_forall in Hfits. specialize (Hfits m Hm).
    destruct Hroom as [Hf _]. rewrite Forall_forall in Hf. specialize (Hf m Hm).
    unfold msg_fits in Hf. unfold upqueue_entry_of. cbn [serlen].
    rewrite u32_small by lia. exact Hfits. }
  destruct (rl_ctrl_read_run_pops K Hsz len (map (upqueue_entry_of K) msgs)
              (snd appended) [] H3 (eq_trans H2 (eq_sym (app_nil_r _))) Hlen Hlens)
    as (R1 & R2 & R3 & R4 & R5 & R6).
  rewrite length_map in R1, R2, R3, R4, R5, R6. fold read in R1, R2, R3, R4, R5, R6.
  splits; auto.
  - rewrite R1, map_map. reflexivity.
  - destruct Hinv as (_ & Hs & _). destruct R3 as (_ & Rs & _).
    apply rl_ctrl_eq; congruence || (rewrite Rs, R2, Hs, Hq; reflexivity).
Qed.

Lemma X3_upqueue_fifo_witness :
  fst (rl_ctrl_read_run Example.K0
         (snd (upqueue_append_run Example.K0 rl_ctrl_zero
                 [Example.sample_msg; RLITE_KER_FLOW_FETCH_RESP flow_fetch_end]))
         2 4096)
  = [Some (Example.serialize Example.sample_msg);
     Some (Example.serialize (RLITE_KER_FLOW_FETCH_RESP flow_fetch_end))] /\
  snd (rl_ctrl_read_run Example.K0
         (snd (upqueue_append_run Example.K0 rl_ctrl_zero
                 [Example.sample_msg; RLITE_KER_FLOW_FETCH_RESP flow_fetch_end]))
         2 4096)
  = rl_ctrl_zero.
Proof.
  refine (proj2 (X3_upqueue_fifo Example.K0 rl_ctrl_zero
                   [Example.sample_msg; RLITE_KER_FLOW_FETCH_RESP flow_fetch_end] 4096
                   _ _ _ _ _ _)).
  - discriminate.
  - unfold upqueue_inv. simpl. splits; [constructor|reflexivity|]. vm_compute. discriminate.
  - reflexivity.
  - split.
    + repeat constructor; vm_compute; reflexivity.
    + vm_compute. discriminate.
  - reflexivity.
  - repeat constructor; vm_compute; discriminate.
Defined.

(** X4 — [poll] and [read] agree.  [rl_ctrl_poll] always reports the
    device writable, and reports it readable exactly when the queue is
    not empty.  On an empty queue a non-blocking read of a non-empty
    buffer returns [-EAGAIN], or [-ERESTARTSYS] if a signal is pending,
    and leaves the device untouched.  On a non-empty queue a read never
    sleeps, whatever the mode: it fails with [-ENOBUFS] or [-EFAULT],
    the device untouched, or it hands out the head message and unlinks
    it. *)
Theorem X4_poll_read (K : kernel) (rc : rl_ctrl) (ppos len : Z) (copy_ok : bool) :
  0 < len ->
  snd (rl_ctrl_poll rc) = true /\
  (fst (rl_ctrl_poll rc) = true <-> upqueue rc <> []) /\
  (fst (rl_ctrl_poll rc) = false ->
   forall w env,
     rl_ctrl_read K rc ppos len false copy_ok (w :: env)
     = Some {| rd_ret := if rw_signal_pending w then - ERESTARTSYS else - EAGAIN;
               rd_rc := rc; rd_buf := None; rd_ppos := ppos;
               rd_wake_writers := false |}) /\
  (forall e q blocking env,
      upqueue rc = e :: q ->
      fst (rl_ctrl_poll rc) = true /\
      exists r,
        rl_ctrl_read K rc ppos len blocking copy_ok env = Some r /\
        ((rd_ret r = - ENOBUFS /\ len < serlen e /\ rd_rc r = rc /\ rd_buf r = None) \/
         (rd_ret r = - EFAULT /\ copy_ok = false /\ rd_rc r = rc /\ rd_buf r = None) \/
         (rd_ret r = to_int (serlen e) /\ serlen e <= len /\ copy_ok = true /\
          rd_buf r = Some (sermsg e) /\ upqueue (rd_rc r) = q))).
Proof.
  intros Hlen.
  assert (E0 : (len =? 0) = false) by (apply Z.eqb_neq; lia).
  unfold rl_ctrl_poll, rl_ctrl_read. rewrite E0. cbn [fst snd]. splits.
  - reflexivity.
  - destruct (upqueue rc); split; congruence.
  - destruct (upqueue rc) as [|e q] eqn:Hq; [|discriminate]. intros _ w env.
    cbn [rl_ctrl_read_loop]. rewrite Hq. destruct (rw_signal_pending w); reflexivity.
  - intros e q blocking env Hq. rewrite Hq. split; [reflexivity|].
    assert (Hloop : rl_ctrl_read_loop K rc ppos len blocking copy_ok env
                    = rl_ctrl_read_loop K rc ppos len blocking copy_ok []).
    { destruct env; cbn [rl_ctrl_read_loop]; rewrite Hq; reflexivity. }
    rewrite Hloop. cbn [rl_ctrl_read_loop]. rewrite Hq.
    destruct (len <? serlen e) eqn:El.
    + apply Z.ltb_lt in El. eexists. split; [reflexivity|]. left. cbn. auto.
    + apply Z.ltb_ge in El. destruct copy_ok; cbn [negb].
      * eexists. split; [reflexivity|]. right; right. cbn. auto.
      * eexists. split; [reflexivity|]. right; left. cbn. auto.
Qed.

Lemma X4_poll_read_witness :
  rl_ctrl_poll Example.rc_one = (true, true) /\
  rl_ctrl_poll rl_ctrl_zero = (false, true).
Proof.
  pose proof (X4_poll_read Example.K0 Example.rc_one 0 64 true ltac:(reflexivity))
    as (H1 & H2 & _).
  pose proof (X4_poll_read Example.K0 rl_ctrl_zero 0 64 true ltac:(reflexivity))
    as (H3 & H4 & _).
  split.
  - rewrite (surjective_pairing (rl_ctrl_poll Example.rc_one)), H1.
    rewrite (proj2 H2) by discriminate. reflexivity.
  - rewrite (surjective_pairing (rl_ctrl_poll rl_ctrl_zero)), H3.
    destruct (fst (rl_ctrl_poll rl_ctrl_zero)) eqn:E; [|reflexivity].
    exfalso. apply (proj1 H4); reflexivity.
Defined.

Ltac x5_close :=
  splits;
  first [ solve [auto 6]
        | solve [intros; lia]
        | solve [intros; discriminate]
        | solve [intros; congruence]
        | solve [left; cbn; auto]
        | solve [right; cbn; splits; auto; discriminate] ].

(** X5 — A [write] that is not dispatched changes nothing.  A request
    shorter than the message header fails with [-EINVAL] before any
    allocation; then a failed allocation gives [-ENOMEM], a failed copy
    from user space [-EFAULT], and a request that does not deserialize
    [-EINVAL], in this order.  Whatever the request, when no handler is
    invoked the state and the file position are as before and the
    result is one of [-EINVAL], [-ENOMEM], [-EFAULT], [-EPERM]; and the
    file position moves, by the length of the request, only when the
    call returns that length. *)
Theorem X5_write_not_dispatched (N : rl_ker_msg_types) (St msg : Type) (msg_type : msg -> Z)
    (deserialize_rlite_msg : list byte -> option msg) (sizeof_rl_msg_base : Z)
    (handlers : Z -> option (rl_msg_handler_t St msg)) (st : St) (ubuf : list byte)
    (ppos : Z) (env : write_env) :
  let len := Z.of_nat (length ubuf) in
  let res := rl_ctrl_write N St msg msg_type deserialize_rlite_msg sizeof_rl_msg_base
               handlers st ubuf ppos env in
  let failed (e : Z) :=
    res = {| wr_ret := - e; wr_state := st; wr_ppos := ppos; wr_dispatched := None |} in
  (len < sizeof_rl_msg_base -> failed EINVAL) /\
  (sizeof_rl_msg_base <= len -> kbuf_alloc_ok env = false -> failed ENOMEM) /\
  (sizeof_rl_msg_base <= len -> kbuf_alloc_ok env = true ->
   copy_from_user_ok env = false -> failed EFAULT) /\
  (sizeof_rl_msg_base <= len -> kbuf_alloc_ok env = true ->
   copy_from_user_ok env = true -> deserialize_rlite_msg ubuf = None -> failed EINVAL) /\
  (wr_dispatched res = None ->
   failed EINVAL \/ failed ENOMEM \/ failed EFAULT \/ failed EPERM) /\
  ((wr_ppos res = ppos /\ (wr_dispatched res = None \/ wr_ret res <> 0)) \/
   (wr_ppos res = ppos + len /\ wr_ret res = len /\ wr_dispatched res <> None)).
Proof.
  intros len res failed. subst res failed. unfold rl_ctrl_write. fold len. cbv zeta.
  assert (Hne : forall x : Z, x <> x -> False) by (intros x H; now apply H).
  destruct (len <? sizeof_rl_msg_base) eqn:E1.
  { apply Z.ltb_lt in E1. x5_close. }
  apply Z.ltb_ge in E1.
  destruct (kbuf_alloc_ok env) eqn:E2; cbn [negb]; [|x5_close].
  destruct (copy_from_user_ok env) eqn:E3; cbn [negb]; [|x5_close].
  destruct (deserialize_rlite_msg ubuf) as [bmsg|] eqn:E4; [|x5_close].
  destruct (RLITE_KER_MSG_MAX N <? msg_type bmsg); [x5_close|].
  destruct (handlers (msg_type bmsg)) as [handler|]; [|x5_close].
  destruct (privileged N (msg_type bmsg) && negb (capable_sys_admin env)); [x5_close|].
  destruct (handler st bmsg) as [ret st'].
  destruct (ret =? 0) eqn:Er; cbn [negb].
  - x5_close.
  - apply Z.eqb_neq in Er. x5_close.
Qed.

(** X6 — [ioctl] on a control device.  A command other than
    [RLITE_IOCTL_CHFLAGS], or flags with a bit outside [RL_F_ALL], fail
    with [-EINVAL] and change nothing.  Any other call returns 0 and
    stores the flags; unless it turns the subscription to the IPCP
    updates on (the bit is given and was not set), it changes nothing
    else: no message is queued on any device. *)
Theorem X6_ioctl_flags (K : kernel) (dm : rl_dm) (rc : nat) (cmd flags : Z) :
  (cmd <> RLITE_IOCTL_CHFLAGS K \/ Z.land flags (Z.lnot RL_F_ALL) <> 0 ->
   rl_ctrl_ioctl K dm rc cmd flags = (- EINVAL, dm)) /\
  (cmd = RLITE_IOCTL_CHFLAGS K -> Z.land flags (Z.lnot RL_F_ALL) = 0 ->
   fst (rl_ctrl_ioctl K dm rc cmd flags) = 0 /\
   ((rc < length (rc_mem dm))%nat ->
    rc_flags (rc_at (snd (rl_ctrl_ioctl K dm rc cmd flags)) rc) = u32 flags) /\
   (has_flag flags RL_F_IPCPS = false \/
    has_flag (rc_flags (rc_at dm rc)) RL_F_IPCPS = true ->
    snd (rl_ctrl_ioctl K dm rc cmd flags)
    = rc_store dm rc (set_rc_flags (rc_at dm rc) (u32 flags)))).
Proof.
  unfold rl_ctrl_ioctl. split.
  - intros [H|H].
    + apply Z.eqb_neq in H. now rewrite H.
    + apply Z.eqb_neq in H. rewrite H. now destruct (cmd =? RLITE_IOCTL_CHFLAGS K).
  - intros -> Hf. rewrite Z.eqb_refl, Hf. cbn [negb Z.eqb]. cbv zeta. cbn [fst snd]. splits.
    + reflexivity.
    + intros Hrc.
      assert (Hlen : forall d, length (rc_mem d) = length (rc_mem dm) ->
                rc_flags (rc_at (rc_store d rc (set_rc_flags (rc_at d rc) (u32 flags))) rc)
                = u32 flags).
      { intros d Hd. rewrite rc_at_store_same by lia. reflexivity. }
      destruct (negb (Z.land (Z.land (u32 (Z.lxor flags (rc_flags (rc_at dm rc)))) flags)
                        RL_F_IPCPS =? 0)); apply Hlen; auto.
      unfold initial_ipcp_update. cbn [snd].
      generalize (Hash.for_each (ipcp_table dm)). intros l.
      assert (G : forall l d, length (rc_mem d) = length (rc_mem dm) ->
                length (rc_mem
                  (fold_left
                     (fun d entry =>
                        rc_store d rc
                          (snd (rl_upqueue_append_atomic K (rc_at d rc)
                                  (initial_update_of d entry)))) l d))
                = length (rc_mem dm)).
      { clear. induction l as [|p l IH]; intros d Hd; cbn [fold_left]; auto.
        apply IH. unfold rc_store. cbn. now rewrite store_length. }
      now apply G.
    + intros Hoff.
      assert (E : Z.land (Z.land (u32 (Z.lxor flags (rc_flags (rc_at dm rc)))) flags)
                    RL_F_IPCPS = 0).
      { apply Z.bits_inj'. intros n Hn. rewrite Z.bits_0, !Z.land_spec.
        unfold RL_F_IPCPS. destruct (Z.eq_dec n 0) as [->|Hn0].
        - unfold u32. rewrite Z.mod_pow2_bits_low by lia. rewrite Z.lxor_spec.
          unfold has_flag, RL_F_IPCPS in Hoff.
          assert (Hb : forall f, negb (Z.land f 1 =? 0) = Z.testbit f 0).
          { intros f. rewrite (Z.bit0_odd f).
            replace (Z.land f 1) with (f mod 2).
            - rewrite Zmod_odd. destruct (Z.odd f); reflexivity.
            - change 1 with (Z.ones 1). rewrite Z.land_ones by lia. reflexivity. }
          rewrite !Hb in Hoff. destruct Hoff as [-> | ->].
          + now rewrite andb_false_r.
          + destruct (Z.testbit flags 0); reflexivity.
        - replace (Z.testbit 1 n) with false; [now rewrite andb_false_r|].
          symmetry. change 1 with (2 ^ 0). apply Z.pow2_bits_false. lia. }
      rewrite E. reflexivity.
Qed.

(* ===================================================================== *)
(** ** References to IPCPs, destruction and broadcast *)
(* ===================================================================== *)

Section IpcpRefFacts.

Variable K : kernel.

Lemma ipcp_lookup_id (dm : rl_dm) (id : Z) (p : nat) :
  ipcp_lookup K dm id = Some p ->
  ipcp_id (ipcp_at dm p) = id /\
  In p (Hash.bucket (ipcp_table dm) (hash_min K id IPCP_HASHTABLE_BITS)).
Proof.
  unfold ipcp_lookup. intros H. apply find_some in H. destruct H as [Hin Hid].
  apply Z.eqb_eq in Hid. auto.
Qed.

(** Taking a reference and dropping it gives back the data model. *)
Lemma ipcp_get_put_id (dm : rl_dm) (id : Z) (p : nat) :
  ipcp_lookup K dm id = Some p ->
  (p < length (ipcp_mem dm))%nat ->
  0 < ipcp_refcnt (ipcp_at dm p) < 2 ^ 32 - 1 ->
  fst (__ipcp_get K dm id) = Some p /\
  ipcp_at (snd (__ipcp_get K dm id)) p
  = set_ipcp_refcnt (ipcp_at dm p) (ipcp_refcnt (ipcp_at dm p) + 1) /\
  __ipcp_put K (snd (__ipcp_get K dm id)) (Some p) = (0, dm).
Proof.
  intros Hlk Hp Hr. rewrite (ipcp_get_live K dm id p Hlk) by lia. cbn [fst snd].
  set (eA := set_ipcp_refcnt (ipcp_at dm p) (ipcp_refcnt (ipcp_at dm p) + 1)).
  assert (Hat : ipcp_at (ipcp_store dm p eA) p = eA) by now apply ipcp_at_store_same.
  splits; auto.
  rewrite ipcp_put_not_last by (rewrite Hat; simpl; lia).
  rewrite Hat, ipcp_store_store. f_equal.
  replace (set_ipcp_refcnt eA (ipcp_refcnt eA - 1)) with (ipcp_at dm p).
  - apply ipcp_store_self.
  - unfold eA. simpl.
    replace (ipcp_refcnt (ipcp_at dm p) + 1 - 1) with (ipcp_refcnt (ipcp_at dm p)) by lia.
    now destruct (ipcp_at dm p).
Qed.

End IpcpRefFacts.

(** X7 — A reference to an IPCP, taken and dropped.  [__ipcp_get] of an
    id that the table does not hold returns NULL and changes nothing, and
    so does [__ipcp_put] of NULL.  For an id that the table holds, it
    returns the entry with that id, its reference counter raised by one
    and nothing else changed; dropping that reference returns 0 and
    gives back the data model as it was. *)
Theorem X7_ipcp_get_put (K : kernel) (dm : rl_dm) (id : Z) :
  (ipcp_lookup K dm id = None -> __ipcp_get K dm id = (None, dm)) /\
  __ipcp_put K dm None = (0, dm) /\
  (forall p,
      ipcp_lookup K dm id = Some p ->
      (p < length (ipcp_mem dm))%nat ->
      0 < ipcp_refcnt (ipcp_at dm p) < 2 ^ 32 - 1 ->
      fst (__ipcp_get K dm id) = Some p /\
      ipcp_id (ipcp_at dm p) = id /\
      snd (__ipcp_get K dm id)
      = ipcp_store dm p
          (set_ipcp_refcnt (ipcp_at dm p) (ipcp_refcnt (ipcp_at dm p) + 1)) /\
      __ipcp_put K (snd (__ipcp_get K dm id)) (Some p) = (0, dm)).
Proof.
  splits.
  - intros H. unfold __ipcp_get. now rewrite H.
  - reflexivity.
  - intros p Hlk Hp Hr.
    destruct (ipcp_get_put_id K dm id p Hlk Hp Hr) as (H1 & H2 & H3).
    destruct (ipcp_lookup_id K dm id p Hlk) as [Hid _].
    splits; auto.
    rewrite (ipcp_get_live K dm id p Hlk) by lia. reflexivity.
Qed.

Lemma X7_ipcp_get_put_witness :
  __ipcp_put Example.K0 (snd (__ipcp_get Example.K0 IpcpExample.dm3 1)) (Some 1%nat)
  = (0, IpcpExample.dm3) /\
  __ipcp_get Example.K0 IpcpExample.dm3 9 = (None, IpcpExample.dm3).
Proof.
  assert (Hlk : ipcp_lookup Example.K0 IpcpExample.dm3 1 = Some 1%nat)
    by (vm_compute; reflexivity).
  assert (Hr : ipcp_refcnt (ipcp_at IpcpExample.dm3 1) = 1) by (vm_compute; reflexivity).
  split.
  - refine (proj2 (proj2 (proj2 (proj2 (proj2 (X7_ipcp_get_put Example.K0 IpcpExample.dm3 1))
                                   1%nat Hlk _ _)))).
    + vm_compute. lia.
    + rewrite Hr. lia.
  - refine (proj1 (X7_ipcp_get_put Example.K0 IpcpExample.dm3 9) _).
    vm_compute. reflexivity.
Defined.

Section BroadcastFacts.

Variable K : kernel.

Lemma rc_at_store_other (dm : rl_dm) (p q : nat) (x : rl_ctrl) :
  p <> q -> rc_at (rc_store dm p x) q = rc_at dm q.
Proof. intros H. unfold rc_at, rc_store. simpl. now apply deref_store_other. Qed.

(** The walk of [ctrl_devs]: a device outside the list is untouched, a
    device of the list gets one append if it subscribed. *)
Lemma upqueue_broadcast_fold (m : rl_msg) :
  forall l dm,
    NoDup l -> (forall rc, In rc l -> (rc < length (rc_mem dm))%nat) ->
    let dm' := fold_left
                 (fun d rcur =>
                    if has_flag (rc_flags (rc_at d rcur)) RL_F_IPCPS
                    then rc_store d rcur (snd (rl_upqueue_append_atomic K (rc_at d rcur) m))
                    else d) l dm in
    dm' = set_rc_mem dm (rc_mem dm') /\
    length (rc_mem dm') = length (rc_mem dm) /\
    (forall rc, ~ In rc l -> rc_at dm' rc = rc_at dm rc) /\
    (forall rc, In rc l ->
                rc_at dm' rc
                = if has_flag (rc_flags (rc_at dm rc)) RL_F_IPCPS
                  then snd (rl_upqueue_append_atomic K (rc_at dm rc) m)
                  else rc_at dm rc).
Proof.
  induction l as [|rcur l IH]; intros dm Hnd Hval; cbn [fold_left].
  - cbv zeta. splits; auto; [now destruct dm | intros rc []].
  - inversion Hnd as [|? ? Hni Hnd']; subst.
    set (d1 := if has_flag (rc_flags (rc_at dm rcur)) RL_F_IPCPS
               then rc_store dm rcur (snd (rl_upqueue_append_atomic K (rc_at dm rcur) m))
               else dm).
    assert (Hd1 : d1 = set_rc_mem dm (rc_mem d1) /\
                  length (rc_mem d1) = length (rc_mem dm) /\
                  (forall rc, rc <> rcur -> rc_at d1 rc = rc_at dm rc) /\
                  rc_at d1 rcur
                  = if has_flag (rc_flags (rc_at dm rcur)) RL_F_IPCPS
                    then snd (rl_upqueue_append_atomic K (rc_at dm rcur) m)
                    else rc_at dm rcur).
    { unfold d1. destruct (has_flag (rc_flags (rc_at dm rcur)) RL_F_IPCPS).
      - splits.
        + unfold rc_store. now destruct dm.
        + unfold rc_store. cbn. apply store_length.
        + intros rc Hne. apply rc_at_store_other. congruence.
        + apply rc_at_store_same. apply Hval. now left.
      - splits; auto. now destruct dm. }
    destruct Hd1 as (E1 & L1 & O1 & S1).
    specialize (IH d1 Hnd').
    destruct IH as (E2 & L2 & O2 & S2).
    { intros rc Hin. rewrite L1. apply Hval. now right. }
    cbv zeta. splits.
    + rewrite E2 at 1. rewrite E1 at 1. now destruct dm.
    + congruence.
    + intros rc Hn. rewrite O2 by (intros H; apply Hn; now right).
      apply O1. intros ->. apply Hn. now left.
    + intros rc [<-|Hin].
      * rewrite O2 by exact Hni. exact S1.
      * rewrite S2 by exact Hin.
        assert (Hne : rc <> rcur) by (intros ->; contradiction).
        now rewrite (O1 rc Hne).
Qed.

(** A broadcast reaches the subscribed devices of [ctrl_devs], once
    each, and changes nothing but their queues. *)
Lemma upqueue_broadcast_at (dm : rl_dm) (m : rl_msg) :
  NoDup (ctrl_devs dm) ->
  (forall rc, In rc (ctrl_devs dm) -> (rc < length (rc_mem dm))%nat) ->
  upqueue_broadcast K dm m = set_rc_mem dm (rc_mem (upqueue_broadcast K dm m)) /\
  length (rc_mem (upqueue_broadcast K dm m)) = length (rc_mem dm) /\
  (forall rc,
      rc_at (upqueue_broadcast K dm m) rc
      = if existsb (Nat.eqb rc) (ctrl_devs dm)
           && has_flag (rc_flags (rc_at dm rc)) RL_F_IPCPS
        then snd (rl_upqueue_append_atomic K (rc_at dm rc) m)
        else rc_at dm rc).
Proof.
  intros Hnd Hval.
  destruct (upqueue_broadcast_fold m (ctrl_devs dm) dm Hnd Hval) as (E & L & O & S).
  unfold upqueue_broadcast. splits; auto.
  intros rc. destruct (existsb (Nat.eqb rc) (ctrl_devs dm)) eqn:Ex; cbn [andb].
  - apply existsb_exists in Ex. destruct Ex as (x & Hx & Hxe).
    apply Nat.eqb_eq in Hxe. subst x. now apply S.
  - apply O. intros Hin.
    assert (existsb (Nat.eqb rc) (ctrl_devs dm) = true).
    { apply existsb_exists. exists rc. split; auto. apply Nat.eqb_refl. }
    congruence.
Qed.

End BroadcastFacts.

Section DestroyFacts.

Variable K : kernel.

(** [ipcp_del] refuses an id out of range, an id that the table does
    not hold and an IPCP that is already a zombie, and changes nothing. *)
Lemma ipcp_del_refused (dm : rl_dm) (id : Z) :
  (IPCP_ID_BITMAP_SIZE <= id \/ ipcp_lookup K dm id = None ->
   ipcp_del K dm id = (- ENXIO, dm)) /\
  (forall p,
      ipcp_lookup K dm id = Some p ->
      (p < length (ipcp_mem dm))%nat ->
      0 < ipcp_refcnt (ipcp_at dm p) < 2 ^ 32 - 1 ->
      ipcp_is_zombie dm p = true ->
      ipcp_del K dm id = (- ENXIO, dm)).
Proof.
  unfold ipcp_del. split.
  - intros [H|H].
    + apply Z.leb_le in H. now rewrite H.
    + destruct (IPCP_ID_BITMAP_SIZE <=? id); auto.
      unfold __ipcp_get. now rewrite H.
  - intros p Hlk Hp Hr Hz.
    destruct (IPCP_ID_BITMAP_SIZE <=? id); auto.
    destruct (ipcp_get_put_id K dm id p Hlk Hp Hr) as (H1 & _ & H3).
    destruct (__ipcp_get K dm id) as [o dm1]. cbn [fst snd] in H1, H3. subst o.
    rewrite H3. cbn [snd]. unfold ipcp_is_zombie in Hz. now rewrite Hz.
Qed.

(** [ipcp_del] of a live IPCP that has no registered application and is
    referenced by something else than the table: the IPCP is marked and
    loses the reference of the table, its flows are shut down, and
    nothing else changes. *)
Lemma ipcp_del_referenced (dm : rl_dm) (id : Z) (p : nat) :
  ipcp_lookup K dm id = Some p ->
  (p < length (ipcp_mem dm))%nat ->
  id < IPCP_ID_BITMAP_SIZE ->
  1 < ipcp_refcnt (ipcp_at dm p) < 2 ^ 32 - 1 ->
  ipcp_is_zombie dm p = false ->
  registered_appls (ipcp_at dm p) = [] ->
  ipcp_del K dm id
  = (0, ipcp_store
          (set_flow_mem dm (rl_iodevs_shutdown_by_ipcp K (flow_mem dm) p)) p
          (set_ipcp_refcnt
             (set_ipcp_flags (ipcp_at dm p)
                (set_flag (ipcp_flags (ipcp_at dm p)) RL_K_IPCP_ZOMBIE))
             (ipcp_refcnt (ipcp_at dm p) - 1))).
Proof.
  intros Hlk Hp Hid Hr Hz Happs. unfold ipcp_del.
  assert (E : (IPCP_ID_BITMAP_SIZE <=? id) = false) by (apply Z.leb_gt; lia).
  rewrite E.
  destruct (ipcp_get_put_id K dm id p Hlk Hp ltac:(lia)) as (H1 & _ & H3).
  destruct (__ipcp_get K dm id) as [o dm1]. cbn [fst snd] in H1, H3. subst o.
  rewrite H3. cbn [snd]. unfold ipcp_is_zombie in Hz. rewrite Hz.
  set (e := ipcp_at dm p) in *.
  set (eZ := set_ipcp_flags e (set_flag (ipcp_flags e) RL_K_IPCP_ZOMBIE)).
  assert (Hat3 : ipcp_at (ipcp_store dm p eZ) p = eZ) by now apply ipcp_at_store_same.
  rewrite Hat3. change (registered_appls eZ) with (registered_appls e). rewrite Happs.
  cbn [fold_left].
  set (dm6 := set_flow_mem (ipcp_store dm p eZ) _).
  assert (Hat6 : ipcp_at dm6 p = eZ) by exact Hat3.
  rewrite ipcp_put_not_last by (rewrite Hat6; simpl; fold e; lia).
  rewrite Hat6. unfold dm6, ipcp_store. cbn. rewrite store_store. reflexivity.
Qed.

End DestroyFacts.

(** X8 — [IPCP_DESTROY].  The request fails with [-ENXIO], the data
    model unchanged and nothing broadcast, for an id of 256 or more, an
    id that the table does not hold, and an IPCP that was destroyed
    before and is still referenced.  On a live IPCP without registered
    applications that something else still references, it returns 0:
    the IPCP stays linked under its id, marked as a zombie, with one
    reference less; its flows are shut down; every open device that
    subscribed to the IPCP updates gets one [UIPCP_DEL] update appended
    (dropped if its queue is full) and no other device is touched.  A
    second request for the same id then fails with [-ENXIO] and changes
    nothing. *)
Theorem X8_ipcp_destroy (K : kernel) (dm : rl_dm) (id : Z) :
  (IPCP_ID_BITMAP_SIZE <= id \/ ipcp_lookup K dm id = None ->
   rl_ipcp_destroy K dm id = (- ENXIO, dm)) /\
  (forall p,
      ipcp_lookup K dm id = Some p ->
      (p < length (ipcp_mem dm))%nat ->
      0 < ipcp_refcnt (ipcp_at dm p) < 2 ^ 32 - 1 ->
      ipcp_is_zombie dm p = true ->
      rl_ipcp_destroy K dm id = (- ENXIO, dm)) /\
  (forall p,
      ipcp_lookup K dm id = Some p ->
      (p < length (ipcp_mem dm))%nat ->
      id < IPCP_ID_BITMAP_SIZE ->
      1 < ipcp_refcnt (ipcp_at dm p) < 2 ^ 32 - 1 ->
      ipcp_is_zombie dm p = false ->
      registered_appls (ipcp_at dm p) = [] ->
      NoDup (ctrl_devs dm) ->
      (forall rc, In rc (ctrl_devs dm) -> (rc < length (rc_mem dm))%nat) ->
      let res := rl_ipcp_destroy K dm id in
      fst res = 0 /\
      ipcp_lookup K (snd res) id = Some p /\
      ipcp_at (snd res) p
      = set_ipcp_refcnt
          (set_ipcp_flags (ipcp_at dm p)
             (set_flag (ipcp_flags (ipcp_at dm p)) RL_K_IPCP_ZOMBIE))
          (ipcp_refcnt (ipcp_at dm p) - 1) /\
      ipcp_is_zombie (snd res) p = true /\
      flow_mem (snd res) = rl_iodevs_shutdown_by_ipcp K (flow_mem dm) p /\
      (forall rc,
          rc_at (snd res) rc
          = if existsb (Nat.eqb rc) (ctrl_devs dm)
               && has_flag (rc_flags (rc_at dm rc)) RL_F_IPCPS
            then snd (rl_upqueue_append_atomic K (rc_at dm rc)
                        (ipcp_del_update RL_IPCP_UPDATE_UIPCP_DEL id))
            else rc_at dm rc) /\
      rl_ipcp_destroy K (snd res) id = (- ENXIO, snd res)).
Proof.
  destruct (ipcp_del_refused K dm id) as [Ha Hb].
  assert (Hrefused : forall d, ipcp_del K d id = (- ENXIO, d) ->
                               rl_ipcp_destroy K d id = (- ENXIO, d)).
  { intros d H. unfold rl_ipcp_destroy. now rewrite H. }
  splits.
  - intros H. apply Hrefused. now apply Ha.
  - intros p Hlk Hp Hr Hz. apply Hrefused. now apply (Hb p).
  - intros p Hlk Hp Hid Hr Hz Happs Hnd Hval res.
    pose proof (ipcp_del_referenced K dm id p Hlk Hp Hid Hr Hz Happs) as Hdel.
    set (eF := set_ipcp_refcnt _ _) in Hdel.
    set (dmF := ipcp_store _ p eF) in Hdel.
    assert (Hres : res = (0, upqueue_broadcast K dmF
                               (ipcp_del_update RL_IPCP_UPDATE_UIPCP_DEL id))).
    { unfold res, rl_ipcp_destroy. rewrite Hdel. reflexivity. }
    destruct (upqueue_broadcast_at K dmF (ipcp_del_update RL_IPCP_UPDATE_UIPCP_DEL id)
                Hnd Hval) as (E & L & B).
    set (dmR := upqueue_broadcast K dmF _) in *.
    rewrite Hres. cbn [fst snd].
    assert (HatF : ipcp_at dmF p = eF) by (unfold dmF; now apply ipcp_at_store_same).
    assert (HatR : ipcp_at dmR p = eF) by (rewrite E; exact HatF).
    assert (HlkR : ipcp_lookup K dmR id = Some p).
    { rewrite (ipcp_lookup_frame K dm dmR); auto.
      - rewrite E. reflexivity.
      - rewrite E. unfold dmF, ipcp_store. cbn.
        apply (map_store_preserved ipcp_id
                 (fun x => set_ipcp_refcnt
                             (set_ipcp_flags x (set_flag (ipcp_flags x) RL_K_IPCP_ZOMBIE))
                             (ipcp_refcnt x - 1))).
        reflexivity. }
    assert (HzR : ipcp_is_zombie dmR p = true).
    { unfold ipcp_is_zombie. rewrite HatR. unfold eF. cbn. apply has_flag_set_flag. }
    splits; auto.
    + rewrite E. reflexivity.
    + unfold rl_ipcp_destroy.
      destruct (ipcp_del_refused K dmR id) as [_ HbR].
      rewrite (HbR p HlkR); auto.
      * rewrite E. cbn. unfold dmF, ipcp_store. cbn. now rewrite store_length.
      * rewrite HatR. unfold eF. cbn. lia.
Qed.

Lemma X8_ipcp_destroy_witness :
  fst (rl_ipcp_destroy Example.K0 IpcpExample.dm3_held 2) = 0 /\
  rl_ipcp_destroy Example.K0 (snd (rl_ipcp_destroy Example.K0 IpcpExample.dm3_held 2)) 2
  = (- ENXIO, snd (rl_ipcp_destroy Example.K0 IpcpExample.dm3_held 2)).
Proof.
  assert (Hlk : ipcp_lookup Example.K0 IpcpExample.dm3_held 2 = Some 2%nat)
    by (vm_compute; reflexivity).
  assert (Hr : ipcp_refcnt (ipcp_at IpcpExample.dm3_held 2) = 2) by (vm_compute; reflexivity).
  assert (Hd : ctrl_devs IpcpExample.dm3_held = []) by (vm_compute; reflexivity).
  refine ((fun X => conj (proj1 X) (proj2 (proj2 (proj2 (proj2 (proj2 (proj2 X)))))))
            (proj2 (proj2 (X8_ipcp_destroy Example.K0 IpcpExample.dm3_held 2))
               2%nat Hlk _ _ _ _ _ _ _)).
  - vm_compute. lia.
  - reflexivity.
  - rewrite Hr. lia.
  - vm_compute. reflexivity.
  - vm_compute. reflexivity.
  - rewrite Hd. constructor.
  - rewrite Hd. intros rc [].
Defined.

(* ===================================================================== *)
(** ** Attaching a uipcp; configuring an IPCP *)
(* ===================================================================== *)

Section UipcpFacts.

Variable K : kernel.

Lemma ipcp_store_get_put (dm : rl_dm) (p : nat) (x : ipcp_entry) :
  (p < length (ipcp_mem dm))%nat ->
  1 < ipcp_refcnt x < 2 ^ 32 ->
  __ipcp_put K (ipcp_store dm p x) (Some p)
  = (0, ipcp_store dm p (set_ipcp_refcnt x (ipcp_refcnt x - 1))).
Proof.
  intros Hp Hr.
  assert (Hat : ipcp_at (ipcp_store dm p x) p = x) by now apply ipcp_at_store_same.
  rewrite ipcp_put_not_last by (rewrite Hat; lia).
  now rewrite Hat, ipcp_store_store.
Qed.

End UipcpFacts.

(** X9 — Attaching a uipcp.  [IPCP_UIPCP_SET] fails with [-EINVAL] for
    an id that the table does not hold and with [-EBUSY] for an IPCP
    that already has a uipcp, and changes nothing.  On an IPCP without
    uipcp it returns 0 and records the device, nothing else changed;
    from then on any further [IPCP_UIPCP_SET] for that IPCP fails with
    [-EBUSY], whatever the device, and [IPCP_UIPCP_WAIT] returns 0 at
    once.  On an IPCP without uipcp, [IPCP_UIPCP_WAIT] interrupted by a
    signal returns [-ERESTARTSYS] and changes nothing. *)
Theorem X9_uipcp_set (K : kernel) (dm : rl_dm) (rc : nat) (id : Z) :
  (ipcp_lookup K dm id = None ->
   rl_ipcp_uipcp_set K dm rc id = (- EINVAL, dm) /\
   forall env, rl_ipcp_uipcp_wait K dm id env = Some (- EINVAL, dm)) /\
  (forall p,
      ipcp_lookup K dm id = Some p ->
      (p < length (ipcp_mem dm))%nat ->
      0 < ipcp_refcnt (ipcp_at dm p) < 2 ^ 32 - 1 ->
      (uipcp (ipcp_at dm p) <> None ->
       rl_ipcp_uipcp_set K dm rc id = (- EBUSY, dm) /\
       forall env, rl_ipcp_uipcp_wait K dm id env = Some (0, dm)) /\
      (uipcp (ipcp_at dm p) = None ->
       rl_ipcp_uipcp_set K dm rc id
       = (0, ipcp_store dm p (set_uipcp (ipcp_at dm p) (Some rc))) /\
       (forall rc',
           rl_ipcp_uipcp_set K (snd (rl_ipcp_uipcp_set K dm rc id)) rc' id
           = (- EBUSY, snd (rl_ipcp_uipcp_set K dm rc id))) /\
       (forall env,
           rl_ipcp_uipcp_wait K (snd (rl_ipcp_uipcp_set K dm rc id)) id env
           = Some (0, snd (rl_ipcp_uipcp_set K dm rc id))) /\
       (forall w env,
           uw_signal_pending w = true ->
           rl_ipcp_uipcp_wait K dm id (w :: env) = Some (- ERESTARTSYS, dm)))).
Proof.
  assert (Hbusy : forall d r p,
             ipcp_lookup K d id = Some p ->
             (p < length (ipcp_mem d))%nat ->
             0 < ipcp_refcnt (ipcp_at d p) < 2 ^ 32 - 1 ->
             uipcp (ipcp_at d p) <> None ->
             rl_ipcp_uipcp_set K d r id = (- EBUSY, d) /\
             forall env, rl_ipcp_uipcp_wait K d id env = Some (0, d)).
  { intros d r p Hlk Hp Hr Hu.
    destruct (ipcp_get_put_id K d id p Hlk Hp Hr) as (H1 & H2 & H3).
    unfold rl_ipcp_uipcp_set, rl_ipcp_uipcp_wait.
    destruct (__ipcp_get K d id) as [o d1]. cbn [fst snd] in H1, H2, H3. subst o.
    rewrite H2. cbn [uipcp set_ipcp_refcnt].
    destruct (uipcp (ipcp_at d p)) as [u|] eqn:Eu; [|congruence].
    rewrite H3. split; [reflexivity|]. intros env.
    assert (Hl : uipcp_wait_loop d1 p env = Some (0, d1)).
    { destruct env; cbn [uipcp_wait_loop]; rewrite H2; cbn [uipcp set_ipcp_refcnt];
        rewrite Eu; reflexivity. }
    rewrite Hl, H3. reflexivity. }
  split.
  - intros Hlk. unfold rl_ipcp_uipcp_set, rl_ipcp_uipcp_wait, __ipcp_get.
    rewrite Hlk. split; reflexivity.
  - intros p Hlk Hp Hr. split; [now apply Hbusy|]. intros Hu.
    destruct (ipcp_get_put_id K dm id p Hlk Hp Hr) as (H1 & H2 & H3).
    assert (Hset : rl_ipcp_uipcp_set K dm rc id
                   = (0, ipcp_store dm p (set_uipcp (ipcp_at dm p) (Some rc)))).
    { unfold rl_ipcp_uipcp_set.
      rewrite (ipcp_get_live K dm id p Hlk) by lia.
      rewrite ipcp_at_store_same by exact Hp. cbn [uipcp set_ipcp_refcnt]. rewrite Hu.
      rewrite ipcp_store_store, ipcp_store_get_put by (auto; cbn; lia).
      cbn [snd]. do 2 f_equal. cbn.
      replace (ipcp_refcnt (ipcp_at dm p) + 1 - 1) with (ipcp_refcnt (ipcp_at dm p)) by lia.
      now destruct (ipcp_at dm p). }
    rewrite Hset. cbn [snd].
    set (dm' := ipcp_store dm p _).
    assert (Hat' : ipcp_at dm' p = set_uipcp (ipcp_at dm p) (Some rc))
      by (unfold dm'; now apply ipcp_at_store_same).
    assert (Hlk' : ipcp_lookup K dm' id = Some p).
    { rewrite (ipcp_lookup_frame K dm dm'); auto.
      unfold dm', ipcp_store. cbn.
      apply (map_store_preserved ipcp_id (fun x => set_uipcp x (Some rc))). reflexivity. }
    assert (Hp' : (p < length (ipcp_mem dm'))%nat).
    { unfold dm', ipcp_store. cbn. now rewrite store_length. }
    splits; auto.
    + intros rc'. apply (Hbusy dm' rc' p); auto; rewrite Hat'; cbn; [lia|discriminate].
    + intros env. apply (Hbusy dm' rc p); auto; rewrite Hat'; cbn; [lia|discriminate].
    + intros w env Hw. unfold rl_ipcp_uipcp_wait.
      destruct (__ipcp_get K dm id) as [o d1]. cbn [fst snd] in H1, H2, H3. subst o.
      cbn [uipcp_wait_loop]. rewrite H2. cbn [uipcp set_ipcp_refcnt]. rewrite Hu, Hw, H3.
      reflexivity.
Qed.

Lemma X9_uipcp_set_witness :
  fst (rl_ipcp_uipcp_set Example.K0 ConfigExample.dm_dev 0 1) = 0 /\
  fst (rl_ipcp_uipcp_set Example.K0
         (snd (rl_ipcp_uipcp_set Example.K0 ConfigExample.dm_dev 0 1)) 0 1) = - EBUSY.
Proof.
  assert (Hlk : ipcp_lookup Example.K0 ConfigExample.dm_dev 1 = Some 1%nat)
    by (vm_compute; reflexivity).
  assert (Hr : ipcp_refcnt (ipcp_at ConfigExample.dm_dev 1) = 1) by (vm_compute; reflexivity).
  assert (Hu : uipcp (ipcp_at ConfigExample.dm_dev 1) = None) by (vm_compute; reflexivity).
  assert (Hp : (1 < length (ipcp_mem ConfigExample.dm_dev))%nat) by (vm_compute; lia).
  assert (Hr' : 0 < ipcp_refcnt (ipcp_at ConfigExample.dm_dev 1) < 2 ^ 32 - 1)
    by (rewrite Hr; lia).
  pose proof (proj2 (proj2 (X9_uipcp_set Example.K0 ConfigExample.dm_dev 0 1) 1%nat
                       Hlk Hp Hr') Hu) as (H1 & H2 & _).
  split.
  - now rewrite H1.
  - now rewrite (H2 0%nat).
Defined.

Section ConfigErrFacts.

Variable K : kernel.

(** The parameters that the control device manages are fields of the
    entry other than the reference counter. *)
Lemma ipcp_config_core_refcnt (e : ipcp_entry) (name value : string) (n x : Z) :
  ipcp_config_core (set_ipcp_refcnt e x) name value n
  = (fst (fst (ipcp_config_core e name value n)),
     set_ipcp_refcnt (snd (fst (ipcp_config_core e name value n))) x,
     snd (ipcp_config_core e name value n)).
Proof.
  unfold ipcp_config_core, rl_configstr_to_u16, rl_configstr_to_u32.
  cbn [txhdroom rxhdroom max_sdu_size flow_del_wait_ms set_ipcp_refcnt].
  destruct (String.eqb name "txhdroom").
  { destruct (Kstrtox.kstrtou16 value) as [r v]. now destruct (r =? 0). }
  destruct (String.eqb name "rxhdroom").
  { destruct (Kstrtox.kstrtou16 value) as [r v]. now destruct (r =? 0). }
  destruct (String.eqb name "mss").
  { destruct (Kstrtox.kstrtou32 value) as [r v]. now destruct (r =? 0). }
  destruct (String.eqb name "flow-del-wait-ms").
  { destruct (Kstrtox.kstrtou32 value) as [r v]. now destruct (r =? 0). }
  reflexivity.
Qed.

Lemma ipcp_config_core_keeps (e : ipcp_entry) (name value : string) (n : Z) :
  ipcp_refcnt (snd (fst (ipcp_config_core e name value n))) = ipcp_refcnt e /\
  ipcp_id (snd (fst (ipcp_config_core e name value n))) = ipcp_id e /\
  (fst (fst (ipcp_config_core e name value n)) <> 0 ->
   snd (fst (ipcp_config_core e name value n)) = e).
Proof.
  unfold ipcp_config_core, rl_configstr_to_u16, rl_configstr_to_u32.
  destruct (String.eqb name "txhdroom").
  { destruct (Kstrtox.kstrtou16 value) as [r v]. destruct (r =? 0) eqn:E; cbn; splits; auto.
    - apply Z.eqb_eq in E. congruence.
    - intros _. now destruct e. }
  destruct (String.eqb name "rxhdroom").
  { destruct (Kstrtox.kstrtou16 value) as [r v]. destruct (r =? 0) eqn:E; cbn; splits; auto.
    - apply Z.eqb_eq in E. congruence.
    - intros _. now destruct e. }
  destruct (String.eqb name "mss").
  { destruct (Kstrtox.kstrtou32 value) as [r v]. destruct (r =? 0) eqn:E; cbn; splits; auto.
    - apply Z.eqb_eq in E. congruence.
    - intros _. now destruct e. }
  destruct (String.eqb name "flow-del-wait-ms").
  { destruct (Kstrtox.kstrtou32 value) as [r v]. destruct (r =? 0) eqn:E; cbn; splits; auto.
    - apply Z.eqb_eq in E. congruence.
    - intros _. now destruct e. }
  cbn. auto.
Qed.

(** [rl_ipcp_config] on an IPCP of the table, seen from the outcome
    [(ret, entry', notify)] of the hook and of the parameters managed
    here: without notification the call stores [entry'] and nothing
    else. *)
Lemma rl_ipcp_config_found (dm : rl_dm) (ev id : Z) (name value : string) (p : nat) :
  ipcp_lookup K dm id = Some p ->
  (p < length (ipcp_mem dm))%nat ->
  0 < ipcp_refcnt (ipcp_at dm p) < 2 ^ 32 - 1 ->
  let e := ipcp_at dm p in
  let out :=
    match ops_config (ops e) with
    | Some hook =>
        if fst (hook name value) =? - ENOSYS
        then ipcp_config_core e name value (snd (hook name value))
        else (fst (hook name value), e, snd (hook name value))
    | None => ipcp_config_core e name value 0
    end in
  fst (rl_ipcp_config K dm {| icf_event_id := ev; icf_ipcp_id := id;
                              icf_name := Some name; icf_value := Some value |})
  = fst (fst out) /\
  ((fst (fst out) =? 0) && negb (snd out =? 0) = false ->
   snd (rl_ipcp_config K dm {| icf_event_id := ev; icf_ipcp_id := id;
                               icf_name := Some name; icf_value := Some value |})
   = ipcp_store dm p (snd (fst out))).
Proof.
  intros Hlk Hp Hr e out.
  unfold rl_ipcp_config. cbn [icf_name icf_value icf_ipcp_id].
  rewrite (ipcp_get_live K dm id p Hlk) by lia. fold e.
  set (eA := set_ipcp_refcnt e (ipcp_refcnt e + 1)).
  rewrite (ipcp_at_store_same dm p eA Hp).
  assert (Hout : (let '(ret0, notify0) :=
                    match ops_config (ops eA) with
                    | Some hook => hook name value
                    | None => (- ENOSYS, 0)
                    end in
                  if ret0 =? - ENOSYS then ipcp_config_core eA name value notify0
                  else (ret0, eA, notify0))
                 = (fst (fst out), set_ipcp_refcnt (snd (fst out)) (ipcp_refcnt e + 1),
                    snd out)).
  { change (ops eA) with (ops e). unfold out.
    destruct (ops_config (ops e)) as [hook|].
    - destruct (hook name value) as [r0 n0]. cbn [fst snd].
      destruct (r0 =? - ENOSYS).
      + unfold eA. apply ipcp_config_core_refcnt.
      + reflexivity.
    - rewrite Z.eqb_refl. unfold eA. apply ipcp_config_core_refcnt. }
  set (pre := let '(ret0, notify0) := _ in _) in *.
  assert (Hshape : forall (k : Z * ipcp_entry * Z -> Z * rl_dm),
             (let '(ret0, notify0) :=
                match ops_config (ops eA) with
                | Some hook => hook name value
                | None => (- ENOSYS, 0)
                end in
              let '(ret, entry', notify) :=
                if ret0 =? - ENOSYS then ipcp_config_core eA name value notify0
                else (ret0, eA, notify0) in
              k (ret, entry', notify))
             = k pre).
  { intros k. subst pre.
    destruct (match ops_config (ops eA) with
              | Some hook => hook name value
              | None => (- ENOSYS, 0)
              end) as [r0 n0].
    destruct (if r0 =? - ENOSYS then ipcp_config_core eA name value n0 else (r0, eA, n0))
      as [[r1 e1] n1]. reflexivity. }
  rewrite (Hshape (fun x =>
             let '(ret, entry', notify) := x in
             (ret,
              snd (__ipcp_put K
                     (if (ret =? 0) && negb (notify =? 0)
                      then snd (ipcp_update_all K
                                  (ipcp_store (ipcp_store dm p eA) p entry') id
                                  RL_IPCP_UPDATE_UPD)
                      else ipcp_store (ipcp_store dm p eA) p entry')
                     (Some p))))).
  rewrite Hout. cbn [fst snd]. split; [reflexivity|]. intros Hq. rewrite Hq.
  rewrite ipcp_store_store.
  assert (Hkeep : ipcp_refcnt (snd (fst out)) = ipcp_refcnt e).
  { unfold out. destruct (ops_config (ops e)) as [hook|].
    - destruct (fst (hook name value) =? - ENOSYS); [|reflexivity].
      apply ipcp_config_core_keeps.
    - apply ipcp_config_core_keeps. }
  assert (Hr2 : 0 < ipcp_refcnt e < 2 ^ 32 - 1) by exact Hr.
  rewrite ipcp_store_get_put
    by (auto; cbn [ipcp_refcnt set_ipcp_refcnt]; lia).
  cbn [snd]. f_equal.
  cbn [ipcp_refcnt set_ipcp_refcnt].
  replace (ipcp_refcnt e + 1 - 1) with (ipcp_refcnt (snd (fst out))) by lia.
  now destruct (snd (fst out)).
Qed.

End ConfigErrFacts.

(** X10 — A failed [IPCP_CONFIG] changes nothing.  The request fails
    with [-EINVAL] when the name or the value is NULL and when the table
    does not hold the id.  On an IPCP of the table, it returns what the
    hook of the factory returns, unless the hook is absent or answers
    [-ENOSYS]; then a name other than "txhdroom", "rxhdroom", "mss" and
    "flow-del-wait-ms" fails with [-EINVAL], and for these four a value
    that does not parse fails with the error of the parser.  Whenever
    the result is not 0 the data model is as before. *)
Theorem X10_config_failure (K : kernel) (dm : rl_dm) (req : rl_kmsg_ipcp_config) :
  (icf_name req = None \/ icf_value req = None \/ ipcp_lookup K dm (icf_ipcp_id req) = None ->
   rl_ipcp_config K dm req = (- EINVAL, dm)) /\
  (forall name value p,
      icf_name req = Some name -> icf_value req = Some value ->
      ipcp_lookup K dm (icf_ipcp_id req) = Some p ->
      (p < length (ipcp_mem dm))%nat ->
      0 < ipcp_refcnt (ipcp_at dm p) < 2 ^ 32 - 1 ->
      (fst (rl_ipcp_config K dm req) <> 0 -> snd (rl_ipcp_config K dm req) = dm) /\
      (forall hook,
          ops_config (ops (ipcp_at dm p)) = Some hook ->
          fst (hook name value) <> - ENOSYS ->
          fst (rl_ipcp_config K dm req) = fst (hook name value)) /\
      (config_unhandled (ipcp_at dm p) name value ->
       (name <> "txhdroom"%string -> name <> "rxhdroom"%string -> name <> "mss"%string ->
        name <> "flow-del-wait-ms"%string ->
        rl_ipcp_config K dm req = (- EINVAL, dm)) /\
       (name = "txhdroom"%string \/ name = "rxhdroom"%string ->
        fst (Kstrtox.kstrtou16 value) <> 0 ->
        rl_ipcp_config K dm req = (fst (Kstrtox.kstrtou16 value), dm)) /\
       (name = "mss"%string \/ name = "flow-del-wait-ms"%string ->
        fst (Kstrtox.kstrtou32 value) <> 0 ->
        rl_ipcp_config K dm req = (fst (Kstrtox.kstrtou32 value), dm)))).
Proof.
  split.
  - unfold rl_ipcp_config. intros [H|[H|H]].
    + now rewrite H.
    + rewrite H. now destruct (icf_name req).
    + destruct (icf_name req); auto. destruct (icf_value req); auto.
      unfold __ipcp_get. now rewrite H.
  - intros name value p Hn Hv Hlk Hp Hr.
    assert (Hreq : req = {| icf_event_id := icf_event_id req; icf_ipcp_id := icf_ipcp_id req;
                            icf_name := Some name; icf_value := Some value |}).
    { destruct req. cbn in *. congruence. }
    destruct (rl_ipcp_config_found K dm (icf_event_id req) (icf_ipcp_id req) name value p
                Hlk Hp Hr) as [Hret Hst].
    rewrite <- Hreq in Hret, Hst. cbv zeta in Hret, Hst.
    set (e := ipcp_at dm p) in *.
    set (out := match ops_config (ops e) with
                | Some hook => _
                | None => _
                end) in *.
    assert (Hfail : fst (fst out) <> 0 -> snd (rl_ipcp_config K dm req) = dm).
    { intros Hne. rewrite Hst.
      - replace (snd (fst out)) with e; [apply ipcp_store_self|].
        unfold out in *. destruct (ops_config (ops e)) as [hook|].
        + destruct (fst (hook name value) =? - ENOSYS); [|reflexivity].
          symmetry. now apply ipcp_config_core_keeps.
        + symmetry. now apply ipcp_config_core_keeps.
      - apply Z.eqb_neq in Hne. now rewrite Hne. }
    assert (Hpair : forall r, fst out = (r, snd (fst out)) -> fst (fst out) = r).
    { intros r H. now rewrite H. }
    splits.
    + rewrite Hret. exact Hfail.
    + intros hook Hh Hne. rewrite Hret. unfold out. rewrite Hh.
      apply Z.eqb_neq in Hne. now rewrite Hne.
    + intros Hun.
      assert (Hcore : exists n0, out = ipcp_config_core e name value n0).
      { unfold out, config_unhandled in *. fold e in Hun.
        destruct (ops_config (ops e)) as [hook|]; [|now exists 0].
        rewrite Hun, Z.eqb_refl. eauto. }
      destruct Hcore as [n0 Hcore].
      assert (Hall : forall r, fst (fst out) = r -> r <> 0 ->
                               rl_ipcp_config K dm req = (r, dm)).
      { intros r Hr0 Hne. rewrite (surjective_pairing (rl_ipcp_config K dm req)).
        rewrite Hret, Hfail; congruence. }
      splits.
      * intros N1 N2 N3 N4. apply Hall; [|discriminate].
        rewrite Hcore. unfold ipcp_config_core.
        apply String.eqb_neq in N1, N2, N3, N4. now rewrite N1, N2, N3, N4.
      * intros Hname Hbad. apply Hall; auto. rewrite Hcore.
        unfold ipcp_config_core, rl_configstr_to_u16.
        destruct (Kstrtox.kstrtou16 value) as [r v]. cbn [fst] in *.
        apply Z.eqb_neq in Hbad. rewrite Hbad.
        destruct Hname as [-> | ->]; reflexivity.
      * intros Hname Hbad. apply Hall; auto. rewrite Hcore.
        unfold ipcp_config_core, rl_configstr_to_u32.
        destruct (Kstrtox.kstrtou32 value) as [r v]. cbn [fst] in *.
        apply Z.eqb_neq in Hbad. rewrite Hbad.
        destruct Hname as [-> | ->]; reflexivity.
Qed.

Lemma X10_config_failure_witness :
  rl_ipcp_config Example.K0 ConfigExample.dm_dev
    {| icf_event_id := 1; icf_ipcp_id := 1; icf_name := Some "mtu"%string;
       icf_value := Some "1500"%string |}
  = (- EINVAL, ConfigExample.dm_dev) /\
  rl_ipcp_config Example.K0 ConfigExample.dm_dev
    {| icf_event_id := 1; icf_ipcp_id := 1; icf_name := Some "txhdroom"%string;
       icf_value := Some "70000"%string |}
  = (- Kstrtox.ERANGE, ConfigExample.dm_dev).
Proof.
  assert (Hlk : ipcp_lookup Example.K0 ConfigExample.dm_dev 1 = Some 1%nat)
    by (vm_compute; reflexivity).
  assert (Hr : ipcp_refcnt (ipcp_at ConfigExample.dm_dev 1) = 1) by (vm_compute; reflexivity).
  assert (Hp : (1 < length (ipcp_mem ConfigExample.dm_dev))%nat) by (vm_compute; lia).
  assert (Hr' : 0 < ipcp_refcnt (ipcp_at ConfigExample.dm_dev 1) < 2 ^ 32 - 1)
    by (rewrite Hr; lia).
  assert (Hun : forall n v, config_unhandled (ipcp_at ConfigExample.dm_dev 1) n v).
  { intros n v. vm_compute. exact I. }
  split.
  - refine (proj1 (proj2 (proj2 (proj2 (X10_config_failure Example.K0 ConfigExample.dm_dev
                                            {| icf_event_id := 1; icf_ipcp_id := 1;
                                               icf_name := Some "mtu"%string;
                                               icf_value := Some "1500"%string |})
                                   "mtu"%string "1500"%string 1%nat eq_refl eq_refl Hlk Hp Hr'))
                     (Hun _ _)) _ _ _ _); discriminate.
  - refine (proj1 (proj2 (proj2 (proj2 (proj2 (X10_config_failure Example.K0
                                                  ConfigExample.dm_dev
                                                  {| icf_event_id := 1; icf_ipcp_id := 1;
                                                     icf_name := Some "txhdroom"%string;
                                                     icf_value := Some "70000"%string |})
                                   "txhdroom"%string "70000"%string 1%nat eq_refl eq_refl
                                   Hlk Hp Hr'))
                     (Hun _ _))) _ _).
    + now left.
    + vm_compute. discriminate.
Defined.

(** X11 — Of the parameters managed by the control device only a change
    of "mss" is announced.  On an IPCP of the table without [config]
    hook, "txhdroom" and "rxhdroom" with a value that [kstrtou16] reads,
    and "flow-del-wait-ms" with a value that [kstrtou32] reads, return 0
    and store the number in the field of the IPCP; "mss" written with
    the value that the IPCP already has returns 0 and changes nothing.
    In all these cases no message is queued on any control device. *)
Theorem X11_config_silent (K : kernel) (dm : rl_dm) (ev id : Z) (p : nat)
    (value : string) (v : Z) :
  ipcp_lookup K dm id = Some p ->
  (p < length (ipcp_mem dm))%nat ->
  0 < ipcp_refcnt (ipcp_at dm p) < 2 ^ 32 - 1 ->
  ops_config (ops (ipcp_at dm p)) = None ->
  let config name :=
    rl_ipcp_config K dm {| icf_event_id := ev; icf_ipcp_id := id;
                           icf_name := Some name; icf_value := Some value |} in
  (Kstrtox.kstrtou16 value = (0, v) ->
   config "txhdroom"%string = (0, ipcp_store dm p (set_txhdroom (ipcp_at dm p) v)) /\
   config "rxhdroom"%string = (0, ipcp_store dm p (set_rxhdroom (ipcp_at dm p) v))) /\
  (Kstrtox.kstrtou32 value = (0, v) ->
   config "flow-del-wait-ms"%string
   = (0, ipcp_store dm p (set_flow_del_wait_ms (ipcp_at dm p) v)) /\
   (v = max_sdu_size (ipcp_at dm p) -> config "mss"%string = (0, dm))) /\
  (forall name,
      In name ["txhdroom"; "rxhdroom"; "flow-del-wait-ms"]%string ->
      rc_mem (snd (config name)) = rc_mem dm).
Proof.
  intros Hlk Hp Hr Hops config.
  assert (Hgen : forall name,
             let out := ipcp_config_core (ipcp_at dm p) name value 0 in
             fst (config name) = fst (fst out) /\
             ((fst (fst out) =? 0) && negb (snd out =? 0) = false ->
              snd (config name) = ipcp_store dm p (snd (fst out)))).
  { intros name.
    pose proof (rl_ipcp_config_found K dm ev id name value p Hlk Hp Hr) as H.
    cbv zeta in H. rewrite Hops in H. exact H. }
  assert (Hpair : forall name r dm', fst (config name) = r -> snd (config name) = dm' ->
                                     config name = (r, dm')).
  { intros name r dm' <- <-. apply surjective_pairing. }
  clearbody config.
  splits.
  - intros Hparse. split.
    + destruct (Hgen "txhdroom"%string) as [H1 H2].
      unfold ipcp_config_core, rl_configstr_to_u16 in H1, H2. rewrite Hparse in H1, H2.
      cbn in H1, H2. apply Hpair; auto.
    + destruct (Hgen "rxhdroom"%string) as [H1 H2].
      unfold ipcp_config_core, rl_configstr_to_u16 in H1, H2. rewrite Hparse in H1, H2.
      cbn in H1, H2. apply Hpair; auto.
  - intros Hparse. split.
    + destruct (Hgen "flow-del-wait-ms"%string) as [H1 H2].
      unfold ipcp_config_core, rl_configstr_to_u32 in H1, H2. rewrite Hparse in H1, H2.
      cbn in H1, H2. apply Hpair; auto.
    + intros ->. destruct (Hgen "mss"%string) as [H1 H2].
      unfold ipcp_config_core, rl_configstr_to_u32 in H1, H2. rewrite Hparse in H1, H2.
      cbn in H1, H2. rewrite Z.eqb_refl in H2. cbn in H2.
      apply Hpair; auto. rewrite H2 by reflexivity.
      replace (set_max_sdu_size _ _) with (ipcp_at dm p) by now destruct (ipcp_at dm p).
      apply ipcp_store_self.
  - intros name Hin. destruct (Hgen name) as [_ H2]. rewrite H2; [reflexivity|].
    replace (snd (ipcp_config_core (ipcp_at dm p) name value 0)) with 0;
      [apply andb_false_r|].
    unfold ipcp_config_core, rl_configstr_to_u16, rl_configstr_to_u32.
    destruct Hin as [<-|[<-|[<-|[]]]]; cbn.
    + destruct (Kstrtox.kstrtou16 value) as [r x]. now destruct (r =? 0).
    + destruct (Kstrtox.kstrtou16 value) as [r x]. now destruct (r =? 0).
    + destruct (Kstrtox.kstrtou32 value) as [r x]. now destruct (r =? 0).
Qed.

Lemma X11_config_silent_witness :
  rl_ipcp_config Example.K0 ConfigExample.dm_dev
    {| icf_event_id := 1; icf_ipcp_id := 1; icf_name := Some "txhdroom"%string;
       icf_value := Some "64"%string |}
  = (0, ipcp_store ConfigExample.dm_dev 1
          (set_txhdroom (ipcp_at ConfigExample.dm_dev 1) 64)).
Proof.
  assert (Hlk : ipcp_lookup Example.K0 ConfigExample.dm_dev 1 = Some 1%nat)
    by (vm_compute; reflexivity).
  assert (Hr : ipcp_refcnt (ipcp_at ConfigExample.dm_dev 1) = 1) by (vm_compute; reflexivity).
  assert (Hp : (1 < length (ipcp_mem ConfigExample.dm_dev))%nat) by (vm_compute; lia).
  assert (Hr' : 0 < ipcp_refcnt (ipcp_at ConfigExample.dm_dev 1) < 2 ^ 32 - 1)
    by (rewrite Hr; lia).
  assert (Hops : ops_config (ops (ipcp_at ConfigExample.dm_dev 1)) = None)
    by (vm_compute; reflexivity).
  assert (Hparse : Kstrtox.kstrtou16 "64" = (0, 64)) by (vm_compute; reflexivity).
  exact (proj1 (proj1 (X11_config_silent Example.K0 ConfigExample.dm_dev 1 1 1%nat
                         "64"%string 64 Hlk Hp Hr' Hops) Hparse)).
Defined.

Section DifFacts.

Lemma dif_at_store_same (dm : rl_dm) (p : nat) (x : dif) :
  (p < length (dif_mem dm))%nat -> dif_at (dif_store dm p x) p = x.
Proof. intros H. unfold dif_at, dif_store. cbn. now apply deref_store_same. Qed.

Lemma dif_at_store_other (dm : rl_dm) (p q : nat) (x : dif) :
  p <> q -> dif_at (dif_store dm p x) q = dif_at dm q.
Proof. intros H. unfold dif_at, dif_store. cbn. now apply deref_store_other. Qed.

Lemma dif_store_back (dm : rl_dm) (p : nat) (x : dif) :
  dif_store (dif_store dm p x) p (dif_at dm p) = dm.
Proof.
  unfold dif_store, dif_at. cbn. rewrite store_store, store_deref_id. now destruct dm.
Qed.

Lemma find_name_none (dm : rl_dm) (name : string) (l : list nat) :
  find (fun cur => String.eqb (dif_name (dif_at dm cur)) name) l = None <->
  (forall d, In d l -> dif_name (dif_at dm d) <> name).
Proof.
  split.
  - intros H d Hin. apply (find_none _ _ H) in Hin. now apply String.eqb_neq.
  - intros H. destruct (find _ l) as [d|] eqn:E; [|reflexivity].
    apply find_some in E. destruct E as [Hin E]. apply String.eqb_eq in E.
    now apply H in Hin.
Qed.

Lemma find_name_unique (dm : rl_dm) (name : string) (l : list nat) (d : nat) :
  NoDup (map (fun d => dif_name (dif_at dm d)) l) ->
  In d l -> dif_name (dif_at dm d) = name ->
  find (fun cur => String.eqb (dif_name (dif_at dm cur)) name) l = Some d.
Proof.
  induction l as [|a l IH]; intros Hnd Hin Hname; [contradiction|].
  cbn in *. inversion Hnd as [|? ? Hna Hnd']; subst.
  destruct Hin as [->|Hin].
  - now rewrite String.eqb_refl.
  - destruct (String.eqb_spec (dif_name (dif_at dm a)) (dif_name (dif_at dm d))) as [E|E].
    + exfalso. apply Hna. rewrite E. now apply (in_map (fun d => dif_name (dif_at dm d))).
    + now apply IH.
Qed.

Lemma list_del_app_last (l : list nat) (p : nat) :
  ~ In p l -> list_del (l ++ [p]) p = l.
Proof.
  intros H. unfold list_del. rewrite filter_app. cbn. rewrite Nat.eqb_refl. cbn.
  rewrite app_nil_r. induction l as [|a l IH]; [reflexivity|].
  cbn. destruct (Nat.eqb_spec a p) as [->|Hne].
  - exfalso. apply H. now left.
  - cbn. f_equal. apply IH. intros Hin. apply H. now right.
Qed.

Lemma deref_app_old {A} (d : A) (mem : list A) (x : A) (p : nat) :
  (p < length mem)%nat -> deref d (mem ++ [x]) p = deref d mem p.
Proof. intros H. unfold deref. now apply app_nth1. Qed.

Lemma deref_app_new {A} (d : A) (mem : list A) (x : A) :
  deref d (mem ++ [x]) (length mem) = x.
Proof. unfold deref. rewrite app_nth2, Nat.sub_diag; [reflexivity|lia]. Qed.

End DifFacts.

(** X12 — References to DIFs.  On a well-formed list of DIFs, [dif_get]
    of a name that exists with another type fails with [-EINVAL], and of
    a new name fails with [-ENOMEM] when one of its three allocations
    fails; a failure changes nothing.  A success returns a DIF of the
    list with that name and type: the existing one with one more
    reference, or a new one with one reference linked at the tail; the
    other DIFs are untouched and the list stays well formed.  [dif_put]
    of the reference just taken gives back the data model when the DIF
    existed, and unlinks the DIF again when it was created. *)
Theorem X12_dif_get_put (allocs : list bool) (dm : rl_dm) (name ty : string) :
  difs_inv dm ->
  let res := Gfp.dif_get allocs dm name ty in
  (forall d, In d (difs dm) -> dif_name (dif_at dm d) = name -> dif_ty (dif_at dm d) <> ty ->
             res = (None, - EINVAL, dm)) /\
  ((forall d, In d (difs dm) -> dif_name (dif_at dm d) <> name) ->
   In false (firstn 3 allocs) -> res = (None, - ENOMEM, dm)) /\
  (fst (fst res) = None -> snd (fst res) <> 0 /\ snd res = dm) /\
  (forall d,
      fst (fst res) = Some d ->
      snd (fst res) = 0 /\
      In d (difs (snd res)) /\
      dif_name (dif_at (snd res) d) = name /\
      dif_ty (dif_at (snd res) d) = ty /\
      (forall d', d' <> d -> In d' (difs dm) -> dif_at (snd res) d' = dif_at dm d') /\
      (In d (difs dm) ->
       difs (snd res) = difs dm /\
       dif_refcnt (dif_at (snd res) d) = u32 (dif_refcnt (dif_at dm d) + 1) /\
       (dif_refcnt (dif_at dm d) < 2 ^ 32 - 1 -> dif_put (snd res) (Some d) = dm)) /\
      (~ In d (difs dm) ->
       difs (snd res) = difs dm ++ [d] /\
       dif_refcnt (dif_at (snd res) d) = 1 /\
       difs (dif_put (snd res) (Some d)) = difs dm /\
       (forall d', In d' (difs dm) ->
                   dif_at (dif_put (snd res) (Some d)) d' = dif_at dm d')) /\
      ((In d (difs dm) -> dif_refcnt (dif_at dm d) < 2 ^ 32 - 1) -> difs_inv (snd res))).
Proof.
  intros (Hnd & Hnames & Hall) res.
  rewrite Forall_forall in Hall.
  unfold Gfp.dif_get in res.
  destruct (find (fun cur => String.eqb (dif_name (dif_at dm cur)) name) (difs dm))
    as [cur|] eqn:Hfind.
  - (* A DIF called [name] exists. *)
    pose proof (find_some _ _ Hfind) as [Hin Hname]. apply String.eqb_eq in Hname.
    destruct (Hall cur Hin) as [Hlt Href].
    assert (Huniq : forall d, In d (difs dm) -> dif_name (dif_at dm d) = name -> d = cur).
    { intros d Hd Hn. pose proof (find_name_unique dm name (difs dm) d Hnames Hd Hn).
      congruence. }
    destruct (String.eqb_spec (dif_ty (dif_at dm cur)) ty) as [Hty|Hty]; subst res.
    + cbn [fst snd]. splits.
      * intros d Hd Hn Hne. apply Huniq in Hd; auto. subst d. contradiction.
      * intros Hno. exfalso. now apply (Hno cur).
      * discriminate.
      * intros d [= <-].
        set (dm' := dif_store dm cur _).
        assert (Hat : dif_at dm' cur
                      = set_dif_refcnt (dif_at dm cur) (u32 (dif_refcnt (dif_at dm cur) + 1)))
          by (unfold dm'; now apply dif_at_store_same).
        assert (Hother : forall d', d' <> cur -> dif_at dm' d' = dif_at dm d').
        { intros d' Hne. unfold dm'. apply dif_at_store_other. congruence. }
        splits; auto.
        -- now rewrite Hat.
        -- now rewrite Hat.
        -- intros _. splits; auto.
           ++ now rewrite Hat.
           ++ intros Hmax. unfold dif_put. cbv zeta. rewrite Hat.
              cbn [dif_refcnt set_dif_refcnt].
              rewrite u32_inc_dec by lia.
              replace (negb (dif_refcnt (dif_at dm cur) =? 0)) with true
                by (symmetry; apply negb_true_iff, Z.eqb_neq; lia).
              replace (set_dif_refcnt (set_dif_refcnt _ _) _) with (dif_at dm cur)
                by now destruct (dif_at dm cur).
              apply dif_store_back.
        -- intros Hn. contradiction.
        -- intros Hmax. specialize (Hmax Hin).
           assert (Hname' : forall d', dif_name (dif_at dm' d') = dif_name (dif_at dm d')).
           { intros d'. destruct (Nat.eq_dec d' cur) as [->|Hne].
             - now rewrite Hat.
             - now rewrite Hother. }
           unfold difs_inv. splits.
           ++ exact Hnd.
           ++ change (difs dm') with (difs dm).
              erewrite map_ext; [exact Hnames|]. intros a. apply Hname'.
           ++ change (difs dm') with (difs dm). apply Forall_forall. intros d' Hd'.
              destruct (Hall d' Hd') as [Hlt' Href']. split.
              ** unfold dm', dif_store. cbn. now rewrite store_length.
              ** destruct (Nat.eq_dec d' cur) as [->|Hne].
                 --- rewrite Hat. cbn [dif_refcnt set_dif_refcnt].
                     rewrite u32_small by lia. lia.
                 --- now rewrite Hother.
    + cbn [fst snd]. splits.
      * reflexivity.
      * intros Hno. exfalso. now apply (Hno cur).
      * intros _. split; [discriminate|reflexivity].
      * discriminate.
  - (* A DIF called [name] does not exist yet. *)
    pose proof (proj1 (find_name_none dm name (difs dm)) Hfind) as Hno.
    assert (Hfail : In false (firstn 3 allocs) -> res = (None, - ENOMEM, dm)).
    { subst res. unfold rl_alloc.
      destruct allocs as [|[|] [|[|] [|[|] l]]]; cbn; intros H; auto;
        repeat (destruct H as [H|H]; try discriminate H); contradiction. }
    assert (Hcases : res = (None, - ENOMEM, dm) \/
                     res = (Some (length (dif_mem dm)), 0,
                            set_difs
                              (set_dif_mem dm
                                 (dif_mem dm ++
                                  [{| dif_name := name; dif_ty := ty;
                                      dif_max_pdu_size := 8000; dif_refcnt := 1 |}]))
                              (difs dm ++ [length (dif_mem dm)]))).
    { subst res. unfold rl_alloc.
      destruct allocs as [|[|] [|[|] [|[|] l]]]; cbn; auto. }
    clearbody res.
    assert (Hfresh : ~ In (length (dif_mem dm)) (difs dm)).
    { intros Hin. apply Hall in Hin. lia. }
    splits.
    + intros d Hd Hn. exfalso. now apply (Hno d).
    + intros _. exact Hfail.
    + intros Hnone. destruct Hcases as [->| ->]; [|discriminate].
      split; [discriminate|reflexivity].
    + intros d Hd. destruct Hcases as [->| ->]; [discriminate|].
      cbn [fst snd] in *. injection Hd as <-.
      set (new := {| dif_name := name; dif_ty := ty; dif_max_pdu_size := 8000;
                     dif_refcnt := 1 |}).
      set (dm' := set_difs _ _).
      assert (Hat : dif_at dm' (length (dif_mem dm)) = new).
      { unfold dm', dif_at. cbn. apply deref_app_new. }
      assert (Hold : forall d', In d' (difs dm) -> dif_at dm' d' = dif_at dm d').
      { intros d' Hd'. unfold dm', dif_at. cbn. apply deref_app_old. now apply Hall. }
      splits; auto.
      * unfold dm'. cbn. apply in_or_app. right. now left.
      * now rewrite Hat.
      * now rewrite Hat.
      * intros Hin. contradiction.
      * intros _. splits; auto.
        -- now rewrite Hat.
        -- unfold dif_put. cbv zeta. rewrite Hat. cbn.
           now apply list_del_app_last.
        -- intros d' Hd'. unfold dif_put. cbv zeta. rewrite Hat. cbn [dif_refcnt new].
           change (negb (u32 (1 - 1) =? 0)) with false. cbv iota.
           transitivity (dif_at dm' d'); [|now apply Hold].
           unfold dif_at. cbn. apply deref_store_other.
           intros E. apply Hfresh. now rewrite E.
      * intros _. unfold difs_inv. splits.
        -- unfold dm'. cbn. apply NoDup_app; auto.
           ++ constructor; [intros []|constructor].
           ++ intros x Hx [<-|[]]. contradiction.
        -- change (difs dm') with (difs dm ++ [length (dif_mem dm)]). rewrite map_app. cbn [map].
           rewrite Hat. cbn [dif_name new].
           rewrite (map_ext_in _ (fun d => dif_name (dif_at dm d)))
             by (intros a Ha; now rewrite Hold).
           apply NoDup_app; auto.
           ++ constructor; [intros []|constructor].
           ++ intros x Hx [<-|[]]. apply in_map_iff in Hx. destruct Hx as (d' & Hn & Hd').
              now apply (Hno d').
        -- change (difs dm') with (difs dm ++ [length (dif_mem dm)]).
           apply Forall_app. split.
           ++ apply Forall_forall. intros d' Hd'. rewrite Hold by auto.
              destruct (Hall d' Hd').
              split; [unfold dm'; cbn; rewrite length_app; lia | assumption].
           ++ constructor; [|constructor]. rewrite Hat. cbn [dif_refcnt new]. split; [|lia].
              unfold dm'. cbn. rewrite length_app. cbn. lia.
Qed.

Lemma example_dm3_difs_inv : difs_inv IpcpExample.dm3.
Proof.
  assert (Hd : difs IpcpExample.dm3 = [0; 1; 2]%nat) by (vm_compute; reflexivity).
  assert (Hn : map (fun d => dif_name (dif_at IpcpExample.dm3 d)) (difs IpcpExample.dm3)
               = ["eth.DIF"; "n1.DIF"; "n2.DIF"]%string) by (vm_compute; reflexivity).
  assert (Hl : length (dif_mem IpcpExample.dm3) = 3%nat) by (vm_compute; reflexivity).
  assert (R0 : dif_refcnt (dif_at IpcpExample.dm3 0) = 1) by (vm_compute; reflexivity).
  assert (R1 : dif_refcnt (dif_at IpcpExample.dm3 1) = 1) by (vm_compute; reflexivity).
  assert (R2 : dif_refcnt (dif_at IpcpExample.dm3 2) = 1) by (vm_compute; reflexivity).
  unfold difs_inv. rewrite Hn, Hd, Hl. splits.
  - repeat constructor; cbn; intuition lia.
  - repeat constructor; cbn; intuition discriminate.
  - repeat constructor; try lia; rewrite ?R0, ?R1, ?R2; lia.
Qed.

Lemma X12_dif_get_put_witness :
  Gfp.dif_get [] IpcpExample.dm3 "n1.DIF" "shim-eth" = (None, - EINVAL, IpcpExample.dm3).
Proof.
  assert (Hd : difs IpcpExample.dm3 = [0; 1; 2]%nat) by (vm_compute; reflexivity).
  assert (Hn : dif_name (dif_at IpcpExample.dm3 1) = "n1.DIF"%string)
    by (vm_compute; reflexivity).
  assert (Ht : dif_ty (dif_at IpcpExample.dm3 1) = "normal"%string)
    by (vm_compute; reflexivity).
  refine (proj1 (X12_dif_get_put [] IpcpExample.dm3 "n1.DIF" "shim-eth"
                   example_dm3_difs_inv) 1%nat _ Hn _).
  - rewrite Hd. cbn. auto.
  - rewrite Ht. discriminate.
Defined.

Section HashFacts.

Lemma hash_bucket_in_for_each (t : list (list nat)) (h p : nat) :
  In p (Hash.bucket t h) -> In p (Hash.for_each t).
Proof.
  unfold Hash.bucket, Hash.for_each. revert h.
  induction t as [|b t IH]; intros h H.
  - now destruct h.
  - cbn. apply in_or_app. destruct h as [|h]; cbn in H; [now left|right; eauto].
Qed.

Lemma hash_for_each_in_bucket (t : list (list nat)) (p : nat) :
  In p (Hash.for_each t) -> exists h, In p (Hash.bucket t h).
Proof.
  unfold Hash.bucket, Hash.for_each.
  induction t as [|b t IH]; cbn; intros H; [contradiction|].
  apply in_app_or in H. destruct H as [H|H].
  - now exists 0%nat.
  - destruct (IH H) as [h Hh]. now exists (S h).
Qed.

Lemma hash_bucket_add_same (t : list (list nat)) (h p : nat) :
  (h < length t)%nat -> Hash.bucket (Hash.add t h p) h = p :: Hash.bucket t h.
Proof.
  intros H. unfold Hash.add, Hash.bucket.
  now apply (deref_store_same (A := list nat) []).
Qed.

Lemma hash_bucket_add_other (t : list (list nat)) (h h' p : nat) :
  h <> h' -> Hash.bucket (Hash.add t h p) h' = Hash.bucket t h'.
Proof.
  intros H. unfold Hash.add, Hash.bucket.
  now apply (deref_store_other (A := list nat) []).
Qed.

Lemma hash_add_length (t : list (list nat)) (h p : nat) :
  length (Hash.add t h p) = length t.
Proof. apply store_length. Qed.

Lemma hash_for_each_add (t : list (list nat)) (h p : nat) :
  (h < length t)%nat ->
  Permutation (p :: Hash.for_each t) (Hash.for_each (Hash.add t h p)).
Proof.
  unfold Hash.add, Hash.bucket, Hash.for_each. revert h.
  induction t as [|b t IH]; intros h H; cbn in H; [lia|].
  destruct h as [|h]; cbn.
  - apply Permutation_refl.
  - apply Permutation_trans with (b ++ p :: concat t).
    + apply Permutation_middle.
    + apply Permutation_app_head. apply IH. lia.
Qed.

Lemma hash_del_add (t : list (list nat)) (h p : nat) :
  (h < length t)%nat -> ~ In p (Hash.for_each t) -> Hash.del (Hash.add t h p) p = t.
Proof.
  unfold Hash.add, Hash.bucket, Hash.for_each, Hash.del. revert h.
  induction t as [|b t IH]; intros h H Hn; cbn in H; [lia|].
  assert (Hb : filter (fun q => negb (Nat.eqb q p)) b = b).
  { assert (Hnb : ~ In p b) by (intros Hin; apply Hn; cbn; apply in_or_app; now left).
    clear - Hnb. induction b as [|a b IHb]; [reflexivity|].
    cbn. destruct (Nat.eqb_spec a p) as [->|Hne].
    - exfalso. apply Hnb. now left.
    - cbn. f_equal. apply IHb. intros Hin. apply Hnb. now right. }
  assert (Ht : ~ In p (concat t)) by (intros Hin; apply Hn; cbn; apply in_or_app; now right).
  destruct h as [|h]; cbn.
  - rewrite Nat.eqb_refl. cbn. rewrite Hb. f_equal.
    clear - Ht. induction t as [|c t IHt]; [reflexivity|].
    cbn in *. f_equal.
    + assert (Hnc : ~ In p c) by (intros Hin; apply Ht; apply in_or_app; now left).
      clear - Hnc. induction c as [|a c IHc]; [reflexivity|].
      cbn. destruct (Nat.eqb_spec a p) as [->|Hne].
      * exfalso. apply Hnc. now left.
      * cbn. f_equal. apply IHc. intros Hin. apply Hnc. now right.
    + apply IHt. intros Hin. apply Ht. apply in_or_app. now right.
  - rewrite Hb. f_equal. apply IH; [lia|exact Ht].
Qed.

End HashFacts.

Section BitmapFacts.

Lemma bitmap_scan_spec (b : Z) (n : nat) (i : Z) :
  let r := Bitmap.scan b i n in
  i <= r <= i + Z.of_nat n /\
  (forall j, i <= j < r -> Z.testbit b j = true) /\
  (r < i + Z.of_nat n -> Z.testbit b r = false).
Proof.
  revert i. induction n as [|n IH]; intros i; cbn [Bitmap.scan].
  - cbv zeta. splits; try lia.
  - destruct (Z.testbit b i) eqn:E.
    + specialize (IH (i + 1)). cbv zeta in IH. destruct IH as (H1 & H2 & H3). cbv zeta.
      splits; try lia.
      * intros j Hj. destruct (Z.eq_dec j i) as [->|Hne]; [exact E|]. apply H2. lia.
      * intros Hr. apply H3. lia.
    + cbv zeta. splits; try lia. intros _. exact E.
Qed.

(** The search returns the lowest clear bit among the first [size], and
    [size + 1] when they are all set. *)
Lemma bitmap_find_first_zero_spec (b size : Z) :
  0 <= size ->
  let r := Bitmap.find_first_zero b size in
  0 <= r <= size + 1 /\
  (forall j, 0 <= j < r -> j < size -> Z.testbit b j = true) /\
  (r < size -> Z.testbit b r = false).
Proof.
  intros Hs. unfold Bitmap.find_first_zero.
  pose proof (bitmap_scan_spec b (Z.to_nat size) 0) as H. cbv zeta in *.
  rewrite Z2Nat.id in H by lia. destruct H as (H1 & H2 & H3).
  destruct (size <? Bitmap.scan b 0 (Z.to_nat size) + 1) eqn:E.
  - apply Z.ltb_lt in E. splits; try lia. intros j Hj Hlt. apply H2. lia.
  - apply Z.ltb_ge in E. splits; try lia.
    + intros j Hj _. now apply H2.
    + intros Hr. apply H3. lia.
Qed.

(** When the search finds a bit, it is the lowest clear one. *)
Lemma bitmap_find_first_zero_found (b size : Z) :
  0 <= size ->
  let r := Bitmap.find_first_zero b size in
  r < size ->
  0 <= r <= size /\
  (forall j, 0 <= j < r -> Z.testbit b j = true) /\
  (r < size -> Z.testbit b r = false).
Proof.
  intros Hs r Hr. destruct (bitmap_find_first_zero_spec b size Hs) as (B1 & B2 & B3).
  fold r in B1, B2, B3. splits; auto; try lia. intros j Hj. apply B2; lia.
Qed.

Lemma bitmap_find_first_zero_full (b size : Z) :
  0 <= size ->
  (forall j, 0 <= j < size -> Z.testbit b j = true) <->
  Bitmap.find_first_zero b size = size + 1.
Proof.
  intros Hs. unfold Bitmap.find_first_zero.
  pose proof (bitmap_scan_spec b (Z.to_nat size) 0) as H. cbv zeta in *.
  rewrite Z2Nat.id in H by lia. destruct H as (H1 & H2 & H3).
  destruct (size <? Bitmap.scan b 0 (Z.to_nat size) + 1) eqn:E.
  - apply Z.ltb_lt in E. split.
    + intros _. lia.
    + intros _ j Hj. apply H2. lia.
  - apply Z.ltb_ge in E. split.
    + intros Hall. assert (Hr : Bitmap.scan b 0 (Z.to_nat size) < 0 + size) by lia.
      specialize (H3 Hr). rewrite Hall in H3 by lia. discriminate.
    + intros Heq. lia.
Qed.

Lemma bitmap_set_same (b i : Z) : 0 <= i -> Z.testbit (Bitmap.set b i) i = true.
Proof. intros H. unfold Bitmap.set. now apply Z.setbit_eq. Qed.

Lemma bitmap_set_other (b i j : Z) :
  0 <= i -> i <> j -> Z.testbit (Bitmap.set b i) j = Z.testbit b j.
Proof. intros H Hne. unfold Bitmap.set. now apply Z.setbit_neq. Qed.

Lemma bitmap_clear_set (b i : Z) :
  0 <= i -> Z.testbit b i = false -> Bitmap.clear (Bitmap.set b i) i = b.
Proof.
  intros Hi Hb. unfold Bitmap.clear, Bitmap.set. apply Z.bits_inj'. intros n Hn.
  destruct (Z.eq_dec i n) as [<-|Hne].
  - rewrite Z.clearbit_eq by lia. now rewrite Hb.
  - rewrite Z.clearbit_neq, Z.setbit_neq by lia. reflexivity.
Qed.

End BitmapFacts.

Section IpcpTableFacts.

Variable K : kernel.

(** [dif_get] and [dif_put] work on the DIFs only. *)
Lemma dif_get_frame (allocs : list bool) (dm : rl_dm) (name ty : string) :
  let res := Gfp.dif_get allocs dm name ty in
  ipcp_mem (snd res) = ipcp_mem dm /\
  ipcp_table (snd res) = ipcp_table dm /\
  ipcp_id_bitmap (snd res) = ipcp_id_bitmap dm /\
  rc_mem (snd res) = rc_mem dm /\
  ctrl_devs (snd res) = ctrl_devs dm /\
  (fst (fst res) = None -> snd (fst res) <> 0 /\ snd res = dm).
Proof.
  unfold Gfp.dif_get, rl_alloc.
  destruct (find _ (difs dm)) as [cur|].
  - destruct (String.eqb _ ty); cbn; splits; auto; try discriminate;
      (intros _; split; [discriminate|reflexivity]).
  - destruct allocs as [|[|] [|[|] [|[|] l]]]; cbn; splits; auto; try discriminate;
      (intros _; split; [discriminate|reflexivity]).
Qed.

Lemma dif_put_frame (dm : rl_dm) (d : option nat) :
  ipcp_mem (dif_put dm d) = ipcp_mem dm /\
  ipcp_table (dif_put dm d) = ipcp_table dm /\
  ipcp_id_bitmap (dif_put dm d) = ipcp_id_bitmap dm /\
  rc_mem (dif_put dm d) = rc_mem dm /\
  ctrl_devs (dif_put dm d) = ctrl_devs dm.
Proof.
  unfold dif_put. destruct d as [d|]; [|auto].
  cbv zeta. now destruct (negb _).
Qed.

Lemma ipcp_table_inv_linked (dm : rl_dm) (p : nat) :
  ipcp_table_inv K dm ->
  In p (Hash.for_each (ipcp_table dm)) ->
  (p < length (ipcp_mem dm))%nat /\
  In p (Hash.bucket (ipcp_table dm) (hash_min K (ipcp_id (ipcp_at dm p)) IPCP_HASHTABLE_BITS)) /\
  0 <= ipcp_id (ipcp_at dm p) < IPCP_ID_BITMAP_SIZE /\
  Z.testbit (ipcp_id_bitmap dm) (ipcp_id (ipcp_at dm p)) = true.
Proof.
  intros (_ & _ & _ & Hb) Hin.
  destruct (hash_for_each_in_bucket _ _ Hin) as [h Hh].
  destruct (Hb h p Hh) as (H1 & H2 & H3 & H4).
  split; [exact H1|]. split; [now rewrite H2|]. split; [exact H3|exact H4].
Qed.

Lemma ipcp_lookup_spec (dm : rl_dm) (id : Z) :
  ipcp_table_inv K dm ->
  match ipcp_lookup K dm id with
  | Some p => In p (Hash.for_each (ipcp_table dm)) /\ ipcp_id (ipcp_at dm p) = id
  | None => forall p, In p (Hash.for_each (ipcp_table dm)) -> ipcp_id (ipcp_at dm p) <> id
  end.
Proof.
  intros Hinv. unfold ipcp_lookup.
  destruct (find _ _) as [p|] eqn:E.
  - apply find_some in E. destruct E as [Hin E]. apply Z.eqb_eq in E.
    split; [now apply hash_bucket_in_for_each in Hin|exact E].
  - intros p Hin Hid.
    destruct (ipcp_table_inv_linked dm p Hinv Hin) as (_ & Hb & _).
    rewrite Hid in Hb. apply (find_none _ _ E) in Hb. apply Z.eqb_neq in Hb. contradiction.
Qed.

End IpcpTableFacts.

Section IpcpAddEntryFacts.

Variable K : kernel.

Lemma find_ext_in {A} (f g : A -> bool) (l : list A) :
  (forall x, In x l -> f x = g x) -> find f l = find g l.
Proof.
  induction l as [|a l IH]; intros H; [reflexivity|].
  cbn. rewrite (H a) by now left. destruct (g a); [reflexivity|].
  apply IH. intros x Hx. apply H. now right.
Qed.

(** The entry that [ipcp_add_entry] links. *)
Lemma ipcp_add_entry_cases (allocs : list bool) (dm : rl_dm) (req : rl_kmsg_ipcp_create) :
  let res := Gfp.ipcp_add_entry K allocs dm req in
  let id := Bitmap.find_first_zero (ipcp_id_bitmap dm) IPCP_ID_BITMAP_SIZE in
  (snd (fst res) = None /\ fst (fst res) <> 0 /\
   ipcp_mem (snd res) = ipcp_mem dm /\ ipcp_table (snd res) = ipcp_table dm /\
   ipcp_id_bitmap (snd res) = ipcp_id_bitmap dm /\
   (fst (fst res) <> - ENOSPC -> snd res = dm)) \/
  (id < IPCP_ID_BITMAP_SIZE /\
   fst res = (0, Some (length (ipcp_mem dm))) /\
   ipcp_table (snd res)
   = Hash.add (ipcp_table dm) (hash_min K id IPCP_HASHTABLE_BITS) (length (ipcp_mem dm)) /\
   ipcp_id_bitmap (snd res) = Bitmap.set (ipcp_id_bitmap dm) id /\
   existsb (fun cur => match ipcp_name (ipcp_at dm cur) with
                       | Some n => String.eqb n (icr_name req)
                       | None => false
                       end) (Hash.for_each (ipcp_table dm)) = false /\
   exists e,
     ipcp_mem (snd res) = ipcp_mem dm ++ [e] /\ ipcp_id e = id /\
     ipcp_name e = Some (icr_name req) /\ ipcp_refcnt e = 1 /\ ipcp_flags e = 0 /\
     registered_appls e = [] /\ uipcp e = None).
Proof.
  unfold Gfp.ipcp_add_entry, rl_alloc.
  destruct allocs as [|[|] [|[|] allocs2]]; cbv zeta; cbn [negb];
    try (left; cbn; splits; auto; discriminate).
  all: destruct (existsb _ _) eqn:Hex; [left; cbn; splits; auto; discriminate|].
  all: match goal with
       | |- context [Gfp.dif_get ?a ?m ?n ?t] =>
           pose proof (dif_get_frame a m n t) as Hf; cbv zeta in Hf;
           destruct (Gfp.dif_get a m n t) as [[[d|] ret] dm1]; cbn [fst snd] in Hf;
           destruct Hf as (Hm & Ht & Hb & _ & _ & Hnone)
       end.
  all: try (left; cbn [fst snd]; destruct (Hnone eq_refl) as [Hr ->]; splits; auto).
  all: rewrite Hb; destruct (_ <? IPCP_ID_BITMAP_SIZE) eqn:Hlt.
  all: try (left; cbn [fst snd]; destruct (dif_put_frame dm1 (Some d)) as (P1 & P2 & P3 & _);
            splits; try congruence; try discriminate; intros H; now contradiction H).
  all: right; apply Z.ltb_lt in Hlt; cbn [fst snd].
  all: split; [exact Hlt|].
  all: split; [now rewrite Hm|].
  all: split; [cbn -[Hash.add Bitmap.set]; now rewrite Ht, Hm|].
  all: split; [cbn -[Hash.add Bitmap.set]; now rewrite Hb|].
  all: split; [reflexivity|].
  all: eexists; cbn -[Hash.add Bitmap.set]; rewrite Hm; splits; reflexivity.
Qed.


Lemma ipcp_at_app_old (dm dm' : rl_dm) (e : ipcp_entry) (q : nat) :
  ipcp_mem dm' = ipcp_mem dm ++ [e] -> (q < length (ipcp_mem dm))%nat ->
  ipcp_at dm' q = ipcp_at dm q.
Proof. intros H Hq. unfold ipcp_at. rewrite H. now apply deref_app_old. Qed.

Lemma ipcp_at_app_new (dm dm' : rl_dm) (e : ipcp_entry) :
  ipcp_mem dm' = ipcp_mem dm ++ [e] -> ipcp_at dm' (length (ipcp_mem dm)) = e.
Proof. intros H. unfold ipcp_at. rewrite H. apply deref_app_new. Qed.

(** Linking a new object whose id is free keeps the table well formed
    and makes the object the answer of the look-up of its id. *)
Lemma ipcp_table_link (dm dm' : rl_dm) (e : ipcp_entry) :
  hash_in_range K ->
  ipcp_table_inv K dm ->
  ipcp_mem dm' = ipcp_mem dm ++ [e] ->
  ipcp_table dm'
  = Hash.add (ipcp_table dm) (hash_min K (ipcp_id e) IPCP_HASHTABLE_BITS)
      (length (ipcp_mem dm)) ->
  ipcp_id_bitmap dm' = Bitmap.set (ipcp_id_bitmap dm) (ipcp_id e) ->
  0 <= ipcp_id e < IPCP_ID_BITMAP_SIZE ->
  Z.testbit (ipcp_id_bitmap dm) (ipcp_id e) = false ->
  ipcp_lookup K dm (ipcp_id e) = None /\
  ipcp_lookup K dm' (ipcp_id e) = Some (length (ipcp_mem dm)) /\
  (forall id', id' <> ipcp_id e -> ipcp_lookup K dm' id' = ipcp_lookup K dm id') /\
  ipcp_table_inv K dm'.
Proof.
  intros Hrange Hinv Hmem Htab Hbit Hid Hfree.
  set (p := length (ipcp_mem dm)) in *.
  set (h := hash_min K (ipcp_id e) IPCP_HASHTABLE_BITS) in *.
  pose proof Hinv as (Hlen & Hnd & Hids & Hbk).
  assert (Hh : (h < length (ipcp_table dm))%nat)
    by (rewrite Hlen; apply Hrange; discriminate).
  assert (Hnew : ipcp_at dm' p = e) by now apply (ipcp_at_app_new dm).
  assert (Hold : forall q, In q (Hash.for_each (ipcp_table dm)) ->
                           ipcp_at dm' q = ipcp_at dm q).
  { intros q Hq. apply (ipcp_at_app_old dm dm' e); auto.
    now apply (ipcp_table_inv_linked K dm q Hinv). }
  assert (Hfresh : ~ In p (Hash.for_each (ipcp_table dm))).
  { intros Hin. apply (ipcp_table_inv_linked K dm p Hinv) in Hin. unfold p in Hin. lia. }
  assert (Hunused : forall q, In q (Hash.for_each (ipcp_table dm)) ->
                              ipcp_id (ipcp_at dm q) <> ipcp_id e).
  { intros q Hq E. apply (ipcp_table_inv_linked K dm q Hinv) in Hq.
    destruct Hq as (_ & _ & _ & Hset). rewrite E in Hset. congruence. }
  assert (Hnone : ipcp_lookup K dm (ipcp_id e) = None).
  { pose proof (ipcp_lookup_spec K dm (ipcp_id e) Hinv) as Hs.
    destruct (ipcp_lookup K dm (ipcp_id e)) as [q|]; [|reflexivity].
    destruct Hs as [Hq E]. now apply Hunused in Hq. }
  assert (Hchain : forall id' l,
             (forall q, In q l -> In q (Hash.for_each (ipcp_table dm))) ->
             find (fun q => ipcp_id (ipcp_at dm' q) =? id') l
             = find (fun q => ipcp_id (ipcp_at dm q) =? id') l).
  { intros id' l Hl. apply find_ext_in. intros q Hq. now rewrite Hold by auto. }
  splits.
  - exact Hnone.
  - unfold ipcp_lookup. rewrite Htab. fold h. rewrite hash_bucket_add_same by exact Hh.
    cbn [find]. now rewrite Hnew, Z.eqb_refl.
  - intros id' Hne. unfold ipcp_lookup. rewrite Htab.
    destruct (Nat.eq_dec h (hash_min K id' IPCP_HASHTABLE_BITS)) as [E|E].
    + rewrite <- E, hash_bucket_add_same by exact Hh. cbn [find]. rewrite Hnew.
      replace (ipcp_id e =? id') with false by (symmetry; apply Z.eqb_neq; congruence).
      apply Hchain. intros q Hq. now apply hash_bucket_in_for_each in Hq.
    + rewrite hash_bucket_add_other by exact E.
      apply Hchain. intros q Hq. now apply hash_bucket_in_for_each in Hq.
  - unfold ipcp_table_inv. rewrite Htab. splits.
    + now rewrite hash_add_length.
    + apply (Permutation_NoDup (hash_for_each_add _ h p Hh)). now constructor.
    + apply (Permutation_NoDup
               (Permutation_map (fun q => ipcp_id (ipcp_at dm' q))
                  (hash_for_each_add _ h p Hh))).
      cbn [map]. rewrite Hnew.
      rewrite (map_ext_in _ (fun q => ipcp_id (ipcp_at dm q)))
        by (intros q Hq; now rewrite Hold).
      constructor; [|exact Hids].
      intros Hin. apply in_map_iff in Hin. destruct Hin as (q & E & Hq).
      now apply (Hunused q).
    + intros h' q Hq.
      assert (Hq' : q = p /\ h' = h \/ In q (Hash.bucket (ipcp_table dm) h')).
      { destruct (Nat.eq_dec h h') as [<-|E].
        - rewrite hash_bucket_add_same in Hq by exact Hh. destruct Hq as [<-|Hq]; auto.
        - rewrite hash_bucket_add_other in Hq by exact E. auto. }
      destruct Hq' as [[-> ->]|Hq'].
      * rewrite Hnew, Hmem, length_app, Hbit. cbn [length]. fold p.
        splits; try lia; auto. apply bitmap_set_same. lia.
      * destruct (Hbk h' q Hq') as (H1 & H2 & H3 & H4).
        rewrite Hold by now apply hash_bucket_in_for_each in Hq'.
        rewrite Hmem, length_app, Hbit. splits; try lia; auto.
        destruct (Z.eq_dec (ipcp_id e) (ipcp_id (ipcp_at dm q))) as [E|E].
        -- rewrite <- E. apply bitmap_set_same. lia.
        -- rewrite bitmap_set_other by (auto; lia). exact H4.
Qed.

End IpcpAddEntryFacts.

(** X13 — Linking a new IPCP.  On a well-formed table, [ipcp_add_entry]
    fails with [-ENOMEM] when the allocation of the entry or of its
    statistics fails, and with [-EINVAL] when a linked IPCP has the
    name of the request; a call that fails leaves the table, the bitmap
    and the IPCPs as they were.  A call that returns 0 gives the new
    IPCP the lowest id that is free in the bitmap: the look-up of this
    id, which found nothing before, now finds the new entry, which has
    the name of the request and one reference; every other look-up
    answers as before, the linked IPCPs are untouched, none of them has
    that name, and the table stays well formed. *)
Theorem X13_ipcp_add_entry (K : kernel) (allocs : list bool) (dm : rl_dm)
    (req : rl_kmsg_ipcp_create) :
  hash_in_range K ->
  ipcp_table_inv K dm ->
  let res := Gfp.ipcp_add_entry K allocs dm req in
  (In false (firstn 2 allocs) -> res = (- ENOMEM, None, dm)) /\
  (~ In false (firstn 2 allocs) ->
   (exists q, In q (Hash.for_each (ipcp_table dm)) /\
              ipcp_name (ipcp_at dm q) = Some (icr_name req)) ->
   res = (- EINVAL, None, dm)) /\
  (fst (fst res) <> 0 ->
   snd (fst res) = None /\ ipcp_mem (snd res) = ipcp_mem dm /\
   ipcp_table (snd res) = ipcp_table dm /\
   ipcp_id_bitmap (snd res) = ipcp_id_bitmap dm) /\
  (fst (fst res) = 0 ->
   exists p,
     snd (fst res) = Some p /\
     let id := ipcp_id (ipcp_at (snd res) p) in
     0 <= id < IPCP_ID_BITMAP_SIZE /\
     Z.testbit (ipcp_id_bitmap dm) id = false /\
     (forall j, 0 <= j < id -> Z.testbit (ipcp_id_bitmap dm) j = true) /\
     ipcp_lookup K dm id = None /\
     ipcp_lookup K (snd res) id = Some p /\
     (forall id', id' <> id -> ipcp_lookup K (snd res) id' = ipcp_lookup K dm id') /\
     (forall q, In q (Hash.for_each (ipcp_table dm)) ->
                ipcp_at (snd res) q = ipcp_at dm q /\
                ipcp_name (ipcp_at dm q) <> Some (icr_name req)) /\
     ipcp_name (ipcp_at (snd res) p) = Some (icr_name req) /\
     ipcp_refcnt (ipcp_at (snd res) p) = 1 /\
     ipcp_table_inv K (snd res)).
Proof.
  intros Hrange Hinv res.
  pose proof (ipcp_add_entry_cases K allocs dm req) as Hcases. cbv zeta in Hcases.
  fold res in Hcases.
  splits.
  - subst res. unfold Gfp.ipcp_add_entry, rl_alloc.
    destruct allocs as [|[|] [|[|] l]]; cbn; intros H; auto;
      repeat (destruct H as [H|H]; try discriminate H); contradiction.
  - intros Hok [q [Hq Hname]]. subst res. unfold Gfp.ipcp_add_entry, rl_alloc.
    assert (Hex : existsb (fun cur => match ipcp_name (ipcp_at dm cur) with
                                      | Some n => String.eqb n (icr_name req)
                                      | None => false
                                      end) (Hash.for_each (ipcp_table dm)) = true).
    { apply existsb_exists. exists q. split; [exact Hq|].
      rewrite Hname. apply String.eqb_refl. }
    destruct allocs as [|[|] [|[|] l]]; cbn [negb]; cbv iota; cbv zeta; rewrite ?Hex; auto;
      exfalso; apply Hok; cbn; auto.
  - intros Hne. destruct Hcases as [(H1 & _ & H3 & H4 & H5 & _)|(_ & H2 & _)].
    + auto.
    + rewrite H2 in Hne. now contradiction Hne.
  - intros Hz. destruct Hcases as [(_ & H2 & _)|(Hlt & Hres & Htab & Hbit & Hex & e & He)].
    + contradiction.
    + destruct He as (Hmem & Hid & Hname & Href & _).
      exists (length (ipcp_mem dm)). split; [now rewrite Hres|].
      assert (Hnew : ipcp_at (snd res) (length (ipcp_mem dm)) = e)
        by now apply (ipcp_at_app_new dm).
      cbv zeta. rewrite Hnew, Hid.
      destruct (bitmap_find_first_zero_found (ipcp_id_bitmap dm) IPCP_ID_BITMAP_SIZE)
        as (B1 & B2 & B3); [discriminate|exact Hlt|].
      rewrite <- Hid in Htab, Hbit.
      destruct (ipcp_table_link K dm (snd res) e Hrange Hinv Hmem Htab Hbit)
        as (L1 & L2 & L3 & L4).
      { rewrite Hid. lia. }
      { rewrite Hid. auto. }
      rewrite Hid in L1, L2, L3.
      splits; auto; try lia.
      intros q Hin. split.
      * apply (ipcp_at_app_old dm (snd res) e); auto.
        now apply (ipcp_table_inv_linked K dm q Hinv).
      * intros Hq.
        assert (Hn : ~ exists x, In x (Hash.for_each (ipcp_table dm)) /\
                                 match ipcp_name (ipcp_at dm x) with
                                 | Some n => String.eqb n (icr_name req)
                                 | None => false
                                 end = true).
        { intros Hx. apply existsb_exists in Hx. congruence. }
        apply Hn. exists q. split; auto. rewrite Hq. apply String.eqb_refl.
Qed.

Lemma example_hash_in_range : hash_in_range Example.K0.
Proof.
  intros val bits Hb. cbn [hash_min Example.K0].
  assert (0 < 2 ^ bits) by (apply Z.pow_pos_nonneg; lia).
  pose proof (Z.mod_pos_bound val (2 ^ bits)). lia.
Qed.

Lemma example_dm3_table_inv : ipcp_table_inv Example.K0 IpcpExample.dm3.
Proof.
  assert (Hf : Hash.for_each (ipcp_table IpcpExample.dm3) = [0; 1; 2]%nat)
    by (vm_compute; reflexivity).
  assert (Hi : map (fun p => ipcp_id (ipcp_at IpcpExample.dm3 p)) [0; 1; 2]%nat = [0; 1; 2])
    by (vm_compute; reflexivity).
  assert (Hb : forall h,
             Hash.bucket (ipcp_table IpcpExample.dm3) h
             = match h with
               | 0 => [0] | 1 => [1] | 2 => [2] | _ => []
               end%nat).
  { intros h. do 64 (destruct h as [|h]; [vm_compute; reflexivity|]).
    unfold Hash.bucket. apply nth_overflow.
    assert (Hl : length (ipcp_table IpcpExample.dm3) = 64%nat) by (vm_compute; reflexivity).
    rewrite Hl. lia. }
  assert (Hall : forallb (fun p =>
                   (p <? length (ipcp_mem IpcpExample.dm3))%nat
                   && Nat.eqb (hash_min Example.K0 (ipcp_id (ipcp_at IpcpExample.dm3 p))
                                 IPCP_HASHTABLE_BITS) p
                   && (0 <=? ipcp_id (ipcp_at IpcpExample.dm3 p))
                   && (ipcp_id (ipcp_at IpcpExample.dm3 p) <? IPCP_ID_BITMAP_SIZE)
                   && Z.testbit (ipcp_id_bitmap IpcpExample.dm3)
                        (ipcp_id (ipcp_at IpcpExample.dm3 p))) [0; 1; 2]%nat = true)
    by (vm_compute; reflexivity).
  rewrite forallb_forall in Hall.
  unfold ipcp_table_inv. rewrite Hf, Hi. splits.
  - vm_compute; reflexivity.
  - repeat constructor; cbn; intuition lia.
  - repeat constructor; cbn; intuition lia.
  - intros h p Hin. rewrite Hb in Hin.
    assert (Hp : In p [0; 1; 2]%nat /\ p = h).
    { destruct h as [|[|[|h]]]; cbn in Hin; intuition (subst; cbn; auto). }
    destruct Hp as [Hp <-]. specialize (Hall p Hp).
    rewrite !andb_true_iff in Hall. destruct Hall as ((((H1 & H2) & H3) & H4) & H5).
    apply Nat.ltb_lt in H1. apply Nat.eqb_eq in H2. apply Z.leb_le in H3.
    apply Z.ltb_lt in H4. splits; auto.
Qed.

Lemma X13_ipcp_add_entry_witness :
  Gfp.ipcp_add_entry Example.K0 [] IpcpExample.dm3
    {| icr_event_id := 0; icr_name := "n1.IPCP"; icr_dif_name := "n3.DIF";
       icr_dif_type := "normal" |}
  = (- EINVAL, None, IpcpExample.dm3).
Proof.
  assert (Hf : Hash.for_each (ipcp_table IpcpExample.dm3) = [0; 1; 2]%nat)
    by (vm_compute; reflexivity).
  assert (Hn : ipcp_name (ipcp_at IpcpExample.dm3 1) = Some "n1.IPCP"%string)
    by (vm_compute; reflexivity).
  refine (proj1 (proj2 (X13_ipcp_add_entry Example.K0 [] IpcpExample.dm3 _
                          example_hash_in_range example_dm3_table_inv)) _ _).
  - cbn. tauto.
  - exists 1%nat. rewrite Hf. split; [cbn; auto|exact Hn].
Defined.

Section IpcpAddFacts2.

Variable K : kernel.

Lemma ipcp_lookup_ext (dm dm' : rl_dm) (id : Z) :
  ipcp_table dm' = ipcp_table dm ->
  (forall q, In q (Hash.for_each (ipcp_table dm)) ->
             ipcp_id (ipcp_at dm' q) = ipcp_id (ipcp_at dm q)) ->
  ipcp_lookup K dm' id = ipcp_lookup K dm id.
Proof.
  intros Ht Hq. unfold ipcp_lookup. rewrite Ht. apply find_ext_in.
  intros q Hin. rewrite Hq; [reflexivity|]. now apply hash_bucket_in_for_each in Hin.
Qed.

(** A broadcast changes the queues of the devices and nothing else. *)
Lemma upqueue_broadcast_only_rc (dm : rl_dm) (m : rl_msg) :
  upqueue_broadcast K dm m = set_rc_mem dm (rc_mem (upqueue_broadcast K dm m)).
Proof.
  unfold upqueue_broadcast. generalize (ctrl_devs dm) at 1 2 as l. intros l.
  assert (H : forall l d, (exists r, d = set_rc_mem dm r) ->
                          exists r,
                            fold_left
                              (fun d rcur =>
                                 if has_flag (rc_flags (rc_at d rcur)) RL_F_IPCPS
                                 then rc_store d rcur
                                        (snd (rl_upqueue_append_atomic K (rc_at d rcur) m))
                                 else d) l d
                            = set_rc_mem dm r).
  { clear l. induction l as [|rcur l IH]; intros d Hd; cbn [fold_left]; [exact Hd|].
    apply IH. destruct (has_flag _ _); [|exact Hd].
    destruct Hd as [r ->]. unfold rc_store. eexists. reflexivity. }
  destruct (H l dm) as [r Hr]; [exists (rc_mem dm); now destruct dm|].
  rewrite Hr. reflexivity.
Qed.

(** The last [__ipcp_put] of an IPCP undoes the link of
    [ipcp_add_entry]. *)
Lemma ipcp_put_last (dm : rl_dm) (p : nat) :
  ipcp_refcnt (ipcp_at dm p) = 1 ->
  let dm' := snd (__ipcp_put K dm (Some p)) in
  ipcp_table dm' = Hash.del (ipcp_table dm) p /\
  ipcp_id_bitmap dm' = Bitmap.clear (ipcp_id_bitmap dm) (ipcp_id (ipcp_at dm p)) /\
  ipcp_mem dm' = store (ipcp_mem dm) p (set_ipcp_refcnt (ipcp_at dm p) 0).
Proof.
  intros Hr. unfold __ipcp_put. cbv zeta. rewrite Hr.
  change (negb (u32 (1 - 1) =? 0)) with false. cbv iota. cbn [snd].
  rewrite upqueue_broadcast_only_rc.
  set (d := ipcp_dif _).
  destruct (dif_put_frame
              (set_ipcp_id_bitmap
                 (set_ipcp_table (ipcp_store dm p (set_ipcp_refcnt (ipcp_at dm p) (u32 (1 - 1))))
                    (Hash.del
                       (ipcp_table
                          (ipcp_store dm p (set_ipcp_refcnt (ipcp_at dm p) (u32 (1 - 1)))))
                       p))
                 (Bitmap.clear
                    (ipcp_id_bitmap
                       (set_ipcp_table
                          (ipcp_store dm p (set_ipcp_refcnt (ipcp_at dm p) (u32 (1 - 1))))
                          (Hash.del
                             (ipcp_table
                                (ipcp_store dm p
                                   (set_ipcp_refcnt (ipcp_at dm p) (u32 (1 - 1)))))
                             p)))
                    (ipcp_id (ipcp_at dm p)))) d) as (P1 & P2 & P3 & _).
  cbn [ipcp_table ipcp_id_bitmap ipcp_mem set_rc_mem]. rewrite P1, P2, P3.
  splits; reflexivity.
Qed.


Lemma ipcp_at_store_other (dm : rl_dm) (p q : nat) (x : ipcp_entry) :
  p <> q -> ipcp_at (ipcp_store dm p x) q = ipcp_at dm q.
Proof. intros H. unfold ipcp_at, ipcp_store. cbn. now apply deref_store_other. Qed.

(** Writing fields other than the id of an allocated IPCP keeps the
    table well formed and the look-ups as they are. *)
Lemma ipcp_table_inv_store (dm : rl_dm) (p : nat) (x : ipcp_entry) :
  ipcp_id x = ipcp_id (ipcp_at dm p) ->
  (forall id, ipcp_lookup K (ipcp_store dm p x) id = ipcp_lookup K dm id) /\
  (ipcp_table_inv K dm -> ipcp_table_inv K (ipcp_store dm p x)).
Proof.
  intros Hid.
  assert (Hids : forall q, ipcp_id (ipcp_at (ipcp_store dm p x) q) = ipcp_id (ipcp_at dm q)).
  { intros q. destruct (Nat.eq_dec p q) as [<-|Hne].
    - destruct (Nat.lt_ge_cases p (length (ipcp_mem dm))) as [Hlt|Hge].
      + now rewrite ipcp_at_store_same.
      + unfold ipcp_at, ipcp_store, deref. cbn.
        rewrite !nth_overflow; auto. now rewrite store_length.
    - now rewrite ipcp_at_store_other. }
  split.
  - intros id. apply ipcp_lookup_ext; auto.
  - intros (H1 & H2 & H3 & H4). unfold ipcp_table_inv.
    change (ipcp_table (ipcp_store dm p x)) with (ipcp_table dm).
    change (ipcp_id_bitmap (ipcp_store dm p x)) with (ipcp_id_bitmap dm).
    splits; auto.
    + rewrite (map_ext _ (fun q => ipcp_id (ipcp_at dm q))) by apply Hids. exact H3.
    + intros h q Hq. rewrite Hids. destruct (H4 h q Hq) as (A & B & C & D).
      unfold ipcp_store. cbn [ipcp_mem set_ipcp_mem]. rewrite store_length. auto.
Qed.

End IpcpAddFacts2.

(** X14 — [ipcp_add].  A failure of [ipcp_add_entry] is passed on as it
    is.  Once the entry is linked, a type without registered factory or
    a module that cannot be pinned give [-ENXIO], and [-EINVAL] comes
    only from a constructor that returns no private state.  Whatever
    the failure, no IPCP is left behind: the table and the bitmap are
    those before the call and every look-up answers as before.  On
    success the call returns an id that was free; its look-up finds the
    new IPCP, named as requested, holding one reference, with the
    hooks of the factory, its private state and the CEP flag of the
    factory; every other look-up answers as before and the table is well
    formed. *)
Theorem X14_ipcp_add (K : kernel) (factories : list ipcp_factory) (module_ok : bool)
    (allocs : list bool) (dm : rl_dm) (req : rl_kmsg_ipcp_create) :
  hash_in_range K ->
  ipcp_table_inv K dm ->
  factories_inv factories ->
  let added := Gfp.ipcp_add_entry K allocs dm req in
  let res := ipcp_add K factories module_ok allocs dm req in
  (fst (fst added) <> 0 -> res = (fst (fst added), None, snd added)) /\
  (fst (fst added) = 0 ->
   (ipcp_factories_find factories (Some (icr_dif_type req)) = None \/ module_ok = false ->
    fst (fst res) = - ENXIO) /\
   (fst (fst res) = - EINVAL ->
    exists f create p,
      ipcp_factories_find factories (Some (icr_dif_type req)) = Some f /\
      fac_create f = Some create /\ snd (fst added) = Some p /\
      create (ipcp_at (snd added) p) = false)) /\
  (fst (fst res) <> 0 ->
   snd (fst res) = None /\
   ipcp_table (snd res) = ipcp_table dm /\
   ipcp_id_bitmap (snd res) = ipcp_id_bitmap dm /\
   forall id, ipcp_lookup K (snd res) id = ipcp_lookup K dm id) /\
  (fst (fst res) = 0 ->
   exists id p f,
     snd (fst res) = Some id /\
     ipcp_factories_find factories (Some (icr_dif_type req)) = Some f /\
     ipcp_lookup K dm id = None /\
     ipcp_lookup K (snd res) id = Some p /\
     (forall id', id' <> id -> ipcp_lookup K (snd res) id' = ipcp_lookup K dm id') /\
     ipcp_name (ipcp_at (snd res) p) = Some (icr_name req) /\
     ipcp_refcnt (ipcp_at (snd res) p) = 1 /\
     ops (ipcp_at (snd res) p) = fac_ops f /\
     ipcp_priv (ipcp_at (snd res) p) = true /\
     has_flag (ipcp_flags (ipcp_at (snd res) p)) RL_K_IPCP_USE_CEP_IDS = fac_use_cep_ids f /\
     ipcp_table_inv K (snd res)).
Proof.
  intros Hrange Hinv Hfac added res.
  pose proof (ipcp_add_entry_cases K allocs dm req) as Hcases. cbv zeta in Hcases.
  fold added in Hcases.
  destruct Hcases as [(A1 & A2 & A3 & A4 & A5 & _)|(Hlt & Hres & Htab & Hbit & _ & e & He)].
  - (* [ipcp_add_entry] failed. *)
    assert (Hr : res = (fst (fst added), None, snd added)).
    { subst res. unfold ipcp_add. fold added.
      destruct added as [[ret o] dm1]. cbn [fst snd] in *. now rewrite A1. }
    rewrite Hr. cbn [fst snd].
    split; [auto|]. split; [intros Hz; contradiction|]. split.
    + intros _. splits; auto. intros id. apply ipcp_lookup_ext; auto. intros q _.
      unfold ipcp_at. now rewrite A3.
    + intros Hz. contradiction.
  - destruct He as (Hmem & Hid & Hname & Href & Hflags & _).
    set (p := length (ipcp_mem dm)) in *.
    assert (Hnew : ipcp_at (snd added) p = e) by now apply (ipcp_at_app_new dm).
    destruct (bitmap_find_first_zero_found (ipcp_id_bitmap dm) IPCP_ID_BITMAP_SIZE)
      as (B1 & B2 & B3); [discriminate|exact Hlt|].
    rewrite <- Hid in Htab, Hbit.
    destruct (ipcp_table_link K dm (snd added) e Hrange Hinv Hmem Htab Hbit)
      as (L1 & L2 & L3 & L4).
    { rewrite Hid. lia. }
    { rewrite Hid. auto. }
    (* What is left after the reference of the caller is dropped. *)
    set (dmf := snd (__ipcp_put K (snd added) (Some p))).
    assert (Hfail : ipcp_table dmf = ipcp_table dm /\
                    ipcp_id_bitmap dmf = ipcp_id_bitmap dm /\
                    forall id, ipcp_lookup K dmf id = ipcp_lookup K dm id).
    { destruct (ipcp_put_last K (snd added) p) as (P1 & P2 & P3); [now rewrite Hnew|].
      fold dmf in P1, P2, P3.
      assert (Hfresh : ~ In p (Hash.for_each (ipcp_table dm))).
      { intros Hin. apply (ipcp_table_inv_linked K dm p Hinv) in Hin. unfold p in Hin. lia. }
      assert (Hh : (hash_min K (ipcp_id e) IPCP_HASHTABLE_BITS < length (ipcp_table dm))%nat).
      { destruct Hinv as (Hlen & _). rewrite Hlen. apply Hrange. discriminate. }
      assert (T : ipcp_table dmf = ipcp_table dm).
      { rewrite P1, Htab. now apply hash_del_add. }
      splits.
      - exact T.
      - rewrite P2, Hbit, Hnew. apply bitmap_clear_set; rewrite Hid; [lia|auto].
      - intros id. apply ipcp_lookup_ext; [exact T|].
        intros q Hq. apply (ipcp_table_inv_linked K dm q Hinv) in Hq.
        destruct Hq as (Hq & _). unfold ipcp_at at 1. rewrite P3.
        rewrite deref_store_other by (unfold p; lia).
        f_equal. now apply (ipcp_at_app_old dm (snd added) e). }
    assert (Hshape :
              res
              = match ipcp_factories_find factories (Some (icr_dif_type req)) with
                | None => (- ENXIO, None, dmf)
                | Some f =>
                    if negb module_ok then (- ENXIO, None, dmf)
                    else
                      match fac_create f with
                      | Some create =>
                          if create e then
                            (0, Some (ipcp_id e),
                             ipcp_store (snd added) p (ipcp_attach_factory e f))
                          else (- EINVAL, None, dmf)
                      | None => (- EINVAL, None, dmf)
                      end
                end).
    { subst res dmf. unfold ipcp_add. fold added.
      destruct added as [[ret o] dm1]. cbn [fst snd] in *.
      injection Hres as -> ->. cbn [negb Z.eqb]. now rewrite Hnew. }
    clearbody res. subst res.
    split; [rewrite Hres; intros H; now contradiction H|].
    split; [intros _; split|split].
    + intros [Hnone|Hmod].
      * now rewrite Hnone.
      * rewrite Hmod. now destruct (ipcp_factories_find _ _).
    + destruct (ipcp_factories_find _ _) as [f|] eqn:Hfind; [|discriminate].
      destruct (negb module_ok); [discriminate|].
      destruct (fac_create f) as [create|] eqn:Hcreate.
      * destruct (create e) eqn:Hrun; [discriminate|]. intros _.
        exists f, create, p. rewrite Hres, Hnew. auto.
      * exfalso. destruct Hfac as [Hall _]. rewrite Forall_forall in Hall.
        apply find_some in Hfind. destruct Hfind as [Hin _].
        apply Hall in Hin. unfold factory_ok in Hin. now rewrite Hcreate in Hin.
    + intros Hne.
      assert (Hor : forall r, r <> 0 -> fst (fst (r, @None Z, dmf)) <> 0 ->
                      snd (fst (r, @None Z, dmf)) = None /\
                      ipcp_table (snd (r, @None Z, dmf)) = ipcp_table dm /\
                      ipcp_id_bitmap (snd (r, @None Z, dmf)) = ipcp_id_bitmap dm /\
                      forall id, ipcp_lookup K (snd (r, @None Z, dmf)) id
                                 = ipcp_lookup K dm id).
      { intros r _ _. cbn [fst snd]. destruct Hfail as (F1 & F2 & F3). auto. }
      destruct (ipcp_factories_find _ _) as [f|]; [|apply Hor; [discriminate|exact Hne]].
      destruct (negb module_ok); [apply Hor; [discriminate|exact Hne]|].
      destruct (fac_create f) as [create|]; [|apply Hor; [discriminate|exact Hne]].
      destruct (create e); [|apply Hor; [discriminate|exact Hne]].
      now contradiction Hne.
    + intros Hz.
      destruct (ipcp_factories_find _ _) as [f|]; [|discriminate].
      destruct (negb module_ok); [discriminate|].
      destruct (fac_create f) as [create|]; [|discriminate].
      destruct (create e); [|discriminate].
      cbn [fst snd].
      assert (Hp : (p < length (ipcp_mem (snd added)))%nat)
        by (rewrite Hmem, length_app; cbn; lia).
      assert (Hat : ipcp_at (ipcp_store (snd added) p (ipcp_attach_factory e f)) p
                    = ipcp_attach_factory e f) by now apply ipcp_at_store_same.
      destruct (ipcp_table_inv_store K (snd added) p (ipcp_attach_factory e f))
        as [S1 S2]; [now rewrite Hnew|].
      exists (ipcp_id e), p, f. rewrite Hat, !S1.
      splits; auto.
      * intros id' Hne. rewrite S1. now apply L3.
      * cbn [ipcp_flags ipcp_attach_factory]. rewrite Hflags.
        now destruct (fac_use_cep_ids f).
Qed.

Lemma example_registry_inv : factories_inv FactoryExample.registry.
Proof. split; [repeat constructor|]. repeat constructor; simpl; intuition discriminate. Qed.

Lemma X14_ipcp_add_witness :
  fst (fst (ipcp_add Example.K0 FactoryExample.registry true [] IpcpExample.dm3
              {| icr_event_id := 0; icr_name := "udp.IPCP"; icr_dif_name := "udp.DIF";
                 icr_dif_type := "shim-udp4" |}))
  = - ENXIO.
Proof.
  assert (Hadd : fst (fst (Gfp.ipcp_add_entry Example.K0 [] IpcpExample.dm3
                             {| icr_event_id := 0; icr_name := "udp.IPCP";
                                icr_dif_name := "udp.DIF"; icr_dif_type := "shim-udp4" |}))
                 = 0) by (vm_compute; reflexivity).
  refine (proj1 (proj1 (proj2 (X14_ipcp_add Example.K0 FactoryExample.registry true []
                                 IpcpExample.dm3 _ example_hash_in_range
                                 example_dm3_table_inv example_registry_inv)) Hadd) _).
  left. reflexivity.
Defined.

Section RegistrationFacts.

Variable K : kernel.

Lemma find_app_none (dm : rl_dm) (name : string) (l : list nat) :
  (forall a, In a l -> app_name (app_at dm a) <> name) ->
  find (fun a => String.eqb (app_name (app_at dm a)) name) l = None.
Proof.
  intros H. destruct (find _ l) as [a|] eqn:E; [|reflexivity].
  apply find_some in E. destruct E as [Hin E]. apply String.eqb_eq in E.
  now apply H in Hin.
Qed.

Lemma find_app_last (dm : rl_dm) (name : string) (l : list nat) (n : nat) :
  (forall a, In a l -> app_name (app_at dm a) <> name) ->
  app_name (app_at dm n) = name ->
  find (fun a => String.eqb (app_name (app_at dm a)) name) (l ++ [n]) = Some n.
Proof.
  intros H Hn. induction l as [|a l IH]; cbn.
  - now rewrite Hn, String.eqb_refl.
  - destruct (String.eqb_spec (app_name (app_at dm a)) name) as [E|E].
    + exfalso. apply (H a); [now left|exact E].
    + apply IH. intros b Hb. apply H. now right.
Qed.

(** An unregistered name: nothing to delete.  A name registered on an
    IPCP without kernel-side hook, and deleted again. *)
Lemma application_add_del (dm : rl_dm) (ipcp : nat) (name : string) (rc : nat)
    (event_id : Z) (uipcp : bool) :
  (ipcp < length (ipcp_mem dm))%nat ->
  ops_appl_register (ops (ipcp_at dm ipcp)) = None ->
  0 < ipcp_refcnt (ipcp_at dm ipcp) < 2 ^ 32 - 1 ->
  (forall a, In a (registered_appls (ipcp_at dm ipcp)) ->
             (a < length (app_mem dm))%nat /\ app_name (app_at dm a) <> name) ->
  let o := {| app_name := name; app_rc := rc; app_event_id := event_id; app_ipcp := ipcp;
              app_state := if uipcp then APPL_REG_PENDING else APPL_REG_COMPLETE;
              app_refcnt := 1 |} in
  let e := ipcp_at dm ipcp in
  let n := length (app_mem dm) in
  let dm3 :=
    ipcp_store (set_app_mem dm (app_mem dm ++ [o])) ipcp
      (set_ipcp_refcnt (set_registered_appls e (registered_appls e ++ [n]))
         (ipcp_refcnt e + 1)) in
  ipcp_application_add K dm ipcp name rc event_id uipcp true = (0, dm3) /\
  ipcp_application_del K dm3 ipcp name
  = (0, set_app_mem dm (app_mem dm ++ [set_app_refcnt o 0])).
Proof.
  intros Hp Hops Href Hregs o e n dm3.
  assert (Hnone : find (fun a => String.eqb (app_name (app_at dm a)) name)
                       (registered_appls (ipcp_at dm ipcp)) = None).
  { apply find_app_none. intros a Ha. now apply Hregs. }
  assert (Hat3 : ipcp_at dm3 ipcp
                 = set_ipcp_refcnt (set_registered_appls e (registered_appls e ++ [n]))
                     (ipcp_refcnt e + 1)).
  { unfold dm3. now apply ipcp_at_store_same. }
  assert (Happ3 : forall a, app_at dm3 a = deref registered_appl_zero (app_mem dm ++ [o]) a)
    by reflexivity.
  assert (Hn3 : app_at dm3 n = o) by (rewrite Happ3; apply deref_app_new).
  split.
  - unfold ipcp_application_add, __ipcp_application_get. rewrite Hnone. cbn [negb].
    cbv zeta. fold o. fold n.
    set (dm1 := set_app_mem dm (app_mem dm ++ [o])).
    change (ipcp_at dm1 ipcp) with e.
    set (dm2 := ipcp_store dm1 ipcp _).
    assert (Hat2 : ipcp_at dm2 ipcp = set_registered_appls e (registered_appls e ++ [n]))
      by (unfold dm2; now apply ipcp_at_store_same).
    rewrite Hat2. cbn [ops set_registered_appls]. fold e in Hops. rewrite Hops.
    f_equal. unfold dm2, dm3. rewrite ipcp_store_store.
    cbn [ipcp_refcnt set_registered_appls]. rewrite u32_small by (fold e in Href; lia).
    reflexivity.
  - unfold ipcp_application_del, ipcp_application_get.
    assert (Hfind : find (fun a => String.eqb (app_name (app_at dm3 a)) name)
                         (registered_appls (ipcp_at dm3 ipcp)) = Some n).
    { rewrite Hat3. cbn [registered_appls set_ipcp_refcnt set_registered_appls].
      apply find_app_last; [|now rewrite Hn3].
      intros a Ha. destruct (Hregs a Ha) as [Hlt Hne].
      rewrite Happ3, deref_app_old by exact Hlt. exact Hne. }
    destruct (application_get_put K dm3 ipcp name n Hfind) as (dmg & Hget & _ & Hput).
    { unfold dm3. cbn. rewrite length_app. cbn. lia. }
    { rewrite Hn3. cbn. lia. }
    rewrite Hget, Hput.
    (* The last reference. *)
    unfold ipcp_application_put. rewrite Hn3. cbv zeta. cbn [app_refcnt app_ipcp o].
    change (negb (u32 (1 - 1) =? 0)) with false. cbv iota.
    set (dm4 := app_store dm3 n _).
    change (ipcp_at dm4 ipcp) with (ipcp_at dm3 ipcp). rewrite Hat3.
    cbn [ops set_ipcp_refcnt set_registered_appls registered_appls].
    fold e in Hops. rewrite Hops.
    rewrite list_del_app_last.
    2:{ intros Hin. apply Hregs in Hin. unfold n in Hin. lia. }
    unfold appl_del.
    set (dm5 := ipcp_store dm4 ipcp _).
    assert (Hn5 : app_at dm5 n = set_app_refcnt o (u32 (1 - 1))).
    { unfold dm5, dm4, app_at, app_store, ipcp_store. cbn.
      apply deref_store_same. rewrite length_app. cbn. lia. }
    rewrite Hn5. cbn [app_ipcp set_app_refcnt o].
    assert (Hat5 : ipcp_at dm5 ipcp
                   = set_ipcp_refcnt (set_registered_appls e (registered_appls e))
                       (ipcp_refcnt e + 1)).
    { unfold dm5. rewrite ipcp_at_store_same; [reflexivity|].
      unfold dm4, dm3. cbn. now rewrite store_length. }
    rewrite ipcp_put_not_last by (rewrite Hat5; cbn; fold e in Href; lia).
    cbn [snd]. rewrite Hat5. cbn [ipcp_refcnt set_ipcp_refcnt set_registered_appls].
    replace (ipcp_refcnt e + 1 - 1) with (ipcp_refcnt e) by lia.
    unfold dm5, dm4, dm3, ipcp_store, app_store, set_app_mem, set_ipcp_mem.
    cbn -[store deref]. rewrite !store_store.
    replace (store (ipcp_mem dm) ipcp _) with (ipcp_mem dm).
    2:{ symmetry. transitivity (store (ipcp_mem dm) ipcp (ipcp_at dm ipcp)).
        - f_equal. fold e. now destruct e.
        - apply store_deref_id. }
    replace (store (app_mem dm ++ [o]) n _) with (app_mem dm ++ [set_app_refcnt o 0]).
    2:{ unfold n. clear. induction (app_mem dm) as [|x l IH]; cbn; [reflexivity|].
        now rewrite <- IH. }
    reflexivity.
Qed.

End RegistrationFacts.

(** X15 — An application registered and unregistered.  On an allocated
    IPCP without kernel-side registration hook, [ipcp_application_del]
    of a name that is not registered fails with [-EINVAL] and changes
    nothing.  Registering the name succeeds, links the registration at
    the tail and takes a reference on the IPCP; [ipcp_application_del]
    of the name then returns 0 and undoes both: the IPCPs, the
    registrations of the IPCP and the other applications are as before
    the registration, and a second deletion fails with [-EINVAL]. *)
Theorem X15_application_add_del (K : kernel) (dm : rl_dm) (ipcp : nat) (name : string)
    (rc : nat) (event_id : Z) (uipcp : bool) :
  (ipcp < length (ipcp_mem dm))%nat ->
  ops_appl_register (ops (ipcp_at dm ipcp)) = None ->
  0 < ipcp_refcnt (ipcp_at dm ipcp) < 2 ^ 32 - 1 ->
  (forall a, In a (registered_appls (ipcp_at dm ipcp)) ->
             (a < length (app_mem dm))%nat /\ app_name (app_at dm a) <> name) ->
  let added := ipcp_application_add K dm ipcp name rc event_id uipcp true in
  let deleted := ipcp_application_del K (snd added) ipcp name in
  ipcp_application_del K dm ipcp name = (- EINVAL, dm) /\
  fst added = 0 /\
  registered_appls (ipcp_at (snd added) ipcp)
  = registered_appls (ipcp_at dm ipcp) ++ [length (app_mem dm)] /\
  app_name (app_at (snd added) (length (app_mem dm))) = name /\
  ipcp_refcnt (ipcp_at (snd added) ipcp) = ipcp_refcnt (ipcp_at dm ipcp) + 1 /\
  fst deleted = 0 /\
  ipcp_mem (snd deleted) = ipcp_mem dm /\
  snd deleted = set_app_mem dm (app_mem (snd deleted)) /\
  (forall a, (a < length (app_mem dm))%nat -> app_at (snd deleted) a = app_at dm a) /\
  ipcp_application_del K (snd deleted) ipcp name = (- EINVAL, snd deleted).
Proof.
  intros Hp Hops Href Hregs added deleted.
  destruct (application_add_del K dm ipcp name rc event_id uipcp Hp Hops Href Hregs)
    as [Hadd Hdel].
  cbv zeta in Hadd, Hdel. subst deleted added. rewrite Hadd. cbn [fst snd].
  rewrite Hdel. cbn [fst snd].
  assert (Hno : forall d : rl_dm,
             ipcp_mem d = ipcp_mem dm ->
             (forall a, (a < length (app_mem dm))%nat -> app_at d a = app_at dm a) ->
             ipcp_application_del K d ipcp name = (- EINVAL, d)).
  { intros d Hm Ha. unfold ipcp_application_del, ipcp_application_get,
      __ipcp_application_get.
    replace (ipcp_at d ipcp) with (ipcp_at dm ipcp) by (unfold ipcp_at; now rewrite Hm).
    rewrite (find_ext_in _ (fun a => String.eqb (app_name (app_at dm a)) name)).
    - rewrite find_app_none; [reflexivity|]. intros a Hin. now apply Hregs.
    - intros a Hin. rewrite Ha; [reflexivity|]. now apply Hregs. }
  assert (Hold : forall a, (a < length (app_mem dm))%nat ->
                           app_at (set_app_mem dm (app_mem dm ++
                                     [set_app_refcnt
                                        {| app_name := name; app_rc := rc;
                                           app_event_id := event_id; app_ipcp := ipcp;
                                           app_state := if uipcp then APPL_REG_PENDING
                                                        else APPL_REG_COMPLETE;
                                           app_refcnt := 1 |} 0])) a
                           = app_at dm a).
  { intros a Ha. unfold app_at. cbn [app_mem set_app_mem]. now apply deref_app_old. }
  splits; auto.
  all: try (rewrite ipcp_at_store_same by exact Hp; reflexivity).
  unfold app_at, ipcp_store. cbn [app_mem set_ipcp_mem set_app_mem].
  now rewrite deref_app_new.
Qed.

Lemma X15_application_add_del_witness :
  ipcp_application_del Example.K0 IpcpExample.dm3 1 "srv" = (- EINVAL, IpcpExample.dm3) /\
  fst (ipcp_application_del Example.K0 ApplExample.dm_srv 1 "srv") = 0.
Proof.
  assert (Hp : (1 < length (ipcp_mem IpcpExample.dm3))%nat) by (vm_compute; lia).
  assert (Hops : ops_appl_register (ops (ipcp_at IpcpExample.dm3 1)) = None)
    by (vm_compute; reflexivity).
  assert (Hr : ipcp_refcnt (ipcp_at IpcpExample.dm3 1) = 1) by (vm_compute; reflexivity).
  assert (Hregs : registered_appls (ipcp_at IpcpExample.dm3 1) = [])
    by (vm_compute; reflexivity).
  assert (H : forall a, In a (registered_appls (ipcp_at IpcpExample.dm3 1)) ->
                        (a < length (app_mem IpcpExample.dm3))%nat /\
                        app_name (app_at IpcpExample.dm3 a) <> "srv"%string).
  { rewrite Hregs. intros a []. }
  assert (Href : 0 < ipcp_refcnt (ipcp_at IpcpExample.dm3 1) < 2 ^ 32 - 1)
    by (rewrite Hr; lia).
  pose proof (X15_application_add_del Example.K0 IpcpExample.dm3 1 "srv" 0 42 true
                Hp Hops Href H) as X.
  cbv zeta in X. destruct X as (X1 & _ & _ & _ & _ & X2 & _).
  exact (conj X1 X2).
Defined.

Section FlowRefFacts.

Variable K : kernel.

Lemma flow_store_self (dm : rl_dm) (p : nat) : flow_store dm p (flow_at dm p) = dm.
Proof. unfold flow_store, flow_at. rewrite store_deref_id. now destruct dm. Qed.

Lemma set_flow_refcnt_back (f : flow_entry) (x : Z) :
  set_flow_refcnt (set_flow_refcnt f x) (flow_refcnt f) = f.
Proof. now destruct f. Qed.

Lemma atomic_inc_dec (r : Z) : 0 < r < 2 ^ 31 - 1 -> atomic_dec (atomic_inc r) = r.
Proof.
  intros H. unfold atomic_dec, atomic_inc.
  rewrite (to_int_small (r + 1)) by lia.
  replace (r + 1 - 1) with r by lia. apply to_int_small. lia.
Qed.

(** A reference taken on an allocated, referenced flow and dropped
    again. *)
Lemma flow_ref_put (jiffies : Z) (dm : rl_dm) (p : nat) :
  (p < length (flow_mem dm))%nat ->
  0 < flow_refcnt (flow_at dm p) < 2 ^ 31 - 1 ->
  flow_put K jiffies
    (flow_store dm p (set_flow_refcnt (flow_at dm p) (atomic_inc (flow_refcnt (flow_at dm p)))))
    (Some p)
  = dm.
Proof.
  intros Hp Hr. unfold flow_put.
  set (dm1 := flow_store dm p _).
  assert (Hat : flow_at dm1 p
                = set_flow_refcnt (flow_at dm p) (atomic_inc (flow_refcnt (flow_at dm p))))
    by (unfold dm1; now apply flow_at_store_same).
  rewrite flow_put_not_last; rewrite Hat; cbn [flow_refcnt set_flow_refcnt];
    rewrite atomic_inc_dec by exact Hr; [|lia].
  unfold dm1. rewrite flow_store_store, set_flow_refcnt_back. apply flow_store_self.
Qed.

End FlowRefFacts.

(** X16 — References to flows, taken and dropped.  [flow_get] of a port
    id and [flow_get_by_cep] of a CEP id that their table does not hold
    return NULL and change nothing, and so do [flow_get_ref] and
    [flow_put] of NULL.  When the table holds the id, they return a
    flow with that id and raise its reference counter by one, nothing
    else changed; [flow_put] of that reference gives back the data
    model as it was.  [FLOW_DEALLOC] for a port id that is not in the
    table, or with a uid that is not the uid of the flow, fails with
    [-ENXIO] and changes nothing. *)
Theorem X16_flow_get_put (K : kernel) (jiffies : Z) (dm : rl_dm) (id : Z) :
  (flow_lookup K dm id = None -> flow_get K dm id = (None, dm)) /\
  (fst (flow_get_by_cep K dm id) = None -> flow_get_by_cep K dm id = (None, dm)) /\
  flow_get_ref dm None = dm /\
  flow_put K jiffies dm None = dm /\
  (forall flow,
      (flow < length (flow_mem dm))%nat ->
      0 < flow_refcnt (flow_at dm flow) < 2 ^ 31 - 1 ->
      let got := flow_store dm flow
                   (set_flow_refcnt (flow_at dm flow) (flow_refcnt (flow_at dm flow) + 1)) in
      flow_put K jiffies got (Some flow) = dm /\
      flow_get_ref dm (Some flow) = got /\
      (flow_lookup K dm id = Some flow ->
       local_port (flow_at dm flow) = id /\ flow_get K dm id = (Some flow, got)) /\
      (fst (flow_get_by_cep K dm id) = Some flow ->
       local_cep (flow_at dm flow) = id /\ flow_get_by_cep K dm id = (Some flow, got))) /\
  (forall u,
      flow_lookup K dm id = None \/
      (exists flow, flow_lookup K dm id = Some flow /\
                    (flow < length (flow_mem dm))%nat /\
                    0 < flow_refcnt (flow_at dm flow) < 2 ^ 31 - 1 /\
                    uid (flow_at dm flow) <> u) ->
      rl_flow_dealloc K jiffies dm {| fd_event_id := 0; fd_port_id := id; fd_uid := u |}
      = (- ENXIO, dm)).
Proof.
  splits; try reflexivity.
  - intros H. unfold flow_get. now rewrite H.
  - unfold flow_get_by_cep. now destruct (find _ _).
  - intros flow Hp Hr got.
    assert (Hinc : atomic_inc (flow_refcnt (flow_at dm flow)) = flow_refcnt (flow_at dm flow) + 1)
      by (unfold atomic_inc; apply to_int_small; lia).
    assert (Hgot : got = flow_store dm flow
                           (set_flow_refcnt (flow_at dm flow)
                              (atomic_inc (flow_refcnt (flow_at dm flow)))))
      by (unfold got; now rewrite Hinc).
    splits.
    + rewrite Hgot. now apply flow_ref_put.
    + now rewrite Hgot.
    + intros Hlk. pose proof Hlk as Hl. unfold flow_lookup in Hl.
      apply find_some in Hl. destruct Hl as [_ Hl]. apply Z.eqb_eq in Hl.
      split; [exact Hl|]. unfold flow_get. now rewrite Hlk, Hgot.
    + unfold flow_get_by_cep.
      destruct (find _ _) as [q|] eqn:E; [|discriminate]. cbn [fst]. intros [= ->].
      apply find_some in E. destruct E as [_ E]. apply Z.eqb_eq in E.
      split; [exact E|]. now rewrite Hgot.
  - intros u [Hnone|(flow & Hlk & Hp & Hr & Hu)]; unfold rl_flow_dealloc, flow_get;
      cbn [fd_uid fd_port_id].
    + now rewrite Hnone.
    + rewrite Hlk.
      rewrite flow_at_store_same by exact Hp. cbn [uid set_flow_refcnt].
      apply Z.eqb_neq in Hu. rewrite Hu. f_equal. now apply flow_ref_put.
Qed.

Lemma X16_flow_get_put_witness :
  flow_put Example.K0 3000 (snd (flow_get Example.K0 FlowExample.dm_bound 0)) (Some 0%nat)
  = FlowExample.dm_bound /\
  rl_flow_dealloc Example.K0 3000 FlowExample.dm_bound (FlowExample.dealloc 0 7)
  = (- ENXIO, FlowExample.dm_bound).
Proof.
  assert (Hlk : flow_lookup Example.K0 FlowExample.dm_bound 0 = Some 0%nat)
    by (vm_compute; reflexivity).
  assert (Hp : (0 < length (flow_mem FlowExample.dm_bound))%nat) by (vm_compute; lia).
  assert (Hr : flow_refcnt (flow_at FlowExample.dm_bound 0) = 1) by (vm_compute; reflexivity).
  assert (Hu : uid (flow_at FlowExample.dm_bound 0) = 0) by (vm_compute; reflexivity).
  assert (Hr' : 0 < flow_refcnt (flow_at FlowExample.dm_bound 0) < 2 ^ 31 - 1)
    by (rewrite Hr; lia).
  pose proof (X16_flow_get_put Example.K0 3000 FlowExample.dm_bound 0)
    as (_ & _ & _ & _ & X1 & X2).
  split.
  - destruct (X1 0%nat Hp Hr') as (P & _ & G & _). cbv zeta in P, G.
    destruct (G Hlk) as [_ ->]. exact P.
  - apply X2. right.
    refine (ex_intro _ 0%nat (conj Hlk (conj Hp (conj Hr' _)))). rewrite Hu. discriminate.
Defined.

Section ShutdownFacts.

Variable K : kernel.

Lemma has_flag_lor_other (f m1 m2 : Z) :
  Z.land m1 m2 = 0 -> has_flag (Z.lor f m1) m2 = has_flag f m2.
Proof.
  intros H. unfold has_flag. rewrite Z.land_lor_distr_l, H, Z.lor_0_r. reflexivity.
Qed.

Lemma lor_twice (f m : Z) : Z.lor (Z.lor f m) m = Z.lor f m.
Proof. now rewrite <- Z.lor_assoc, Z.lor_diag. Qed.

(** [rl_flow_shutdown] in closed form. *)
Lemma rl_flow_shutdown_eq (dm : rl_dm) (flow : nat) :
  rl_flow_shutdown dm flow
  = if has_flag (flow_flags (flow_at dm flow)) RL_FLOW_ALLOCATED
    then flow_store dm flow
           (set_flow_flags
              (set_txrx_flags (flow_at dm flow)
                 (set_flag (txrx_flags (flow_at dm flow)) RL_TXRX_EOF))
              (set_flag (flow_flags (flow_at dm flow)) RL_FLOW_DEALLOCATED))
    else dm.
Proof.
  unfold rl_flow_shutdown.
  destruct (has_flag _ _) eqn:E; [|reflexivity].
  destruct (Nat.lt_ge_cases flow (length (flow_mem dm))) as [Hlt|Hge].
  - rewrite flow_at_store_same by exact Hlt. now rewrite flow_store_store.
  - exfalso. unfold flow_at, deref in E. rewrite nth_overflow in E by exact Hge.
    discriminate E.
Qed.

End ShutdownFacts.

(** X17 — [rl_flow_shutdown].  A flow that is not ALLOCATED is left
    alone.  On an ALLOCATED flow the call sets the end-of-file bit of
    the datapath and the DEALLOCATED flag and changes nothing else: the
    flow keeps its ids, its references and its place in the tables, and
    the other flows are untouched.  Shutting a flow down twice is the
    same as once.  A [FLOW_DEALLOC] that succeeds on a flow that
    something else references leaves exactly the data model that
    [rl_flow_shutdown] gives, so that repeating it changes nothing
    more. *)
Theorem X17_flow_shutdown (K : kernel) (jiffies : Z) (dm : rl_dm) (flow : nat) :
  let dm' := rl_flow_shutdown dm flow in
  (has_flag (flow_flags (flow_at dm flow)) RL_FLOW_ALLOCATED = false -> dm' = dm) /\
  (has_flag (flow_flags (flow_at dm flow)) RL_FLOW_ALLOCATED = true ->
   dm' = flow_store dm flow (flow_at dm' flow) /\
   has_flag (txrx_flags (flow_at dm' flow)) RL_TXRX_EOF = true /\
   has_flag (flow_flags (flow_at dm' flow)) RL_FLOW_DEALLOCATED = true /\
   has_flag (flow_flags (flow_at dm' flow)) RL_FLOW_ALLOCATED = true /\
   flow_at dm' flow
   = set_flow_flags
       (set_txrx_flags (flow_at dm flow) (Z.lor (txrx_flags (flow_at dm flow)) RL_TXRX_EOF))
       (Z.lor (flow_flags (flow_at dm flow)) RL_FLOW_DEALLOCATED)) /\
  rl_flow_shutdown dm' flow = dm' /\
  (forall req,
      flow_lookup K dm (fd_port_id req) = Some flow ->
      uid (flow_at dm flow) = fd_uid req ->
      (flow < length (flow_mem dm))%nat ->
      0 < flow_refcnt (flow_at dm flow) < 2 ^ 31 - 1 ->
      rl_flow_dealloc K jiffies dm req = (0, dm') /\
      rl_flow_dealloc K jiffies dm' req = (0, dm')).
Proof.
  intros dm'.
  assert (Hin : has_flag (flow_flags (flow_at dm flow)) RL_FLOW_ALLOCATED = true ->
                (flow < length (flow_mem dm))%nat).
  { intros E. destruct (Nat.lt_ge_cases flow (length (flow_mem dm))) as [Hlt|Hge]; auto.
    unfold flow_at, deref in E. rewrite nth_overflow in E by exact Hge. discriminate E. }
  assert (Hat : has_flag (flow_flags (flow_at dm flow)) RL_FLOW_ALLOCATED = true ->
                flow_at dm' flow
                = set_flow_flags
                    (set_txrx_flags (flow_at dm flow)
                       (Z.lor (txrx_flags (flow_at dm flow)) RL_TXRX_EOF))
                    (Z.lor (flow_flags (flow_at dm flow)) RL_FLOW_DEALLOCATED)).
  { intros E. unfold dm'. rewrite rl_flow_shutdown_eq, E.
    rewrite flow_at_store_same by auto. reflexivity. }
  assert (Hidem : rl_flow_shutdown dm' flow = dm').
  { rewrite (rl_flow_shutdown_eq dm').
    destruct (has_flag (flow_flags (flow_at dm flow)) RL_FLOW_ALLOCATED) eqn:E.
    - rewrite (Hat eq_refl). cbn [flow_flags txrx_flags set_flow_flags set_txrx_flags].
      unfold set_flag. rewrite has_flag_lor_other by reflexivity. rewrite E.
      rewrite !lor_twice. unfold dm' at 1. rewrite rl_flow_shutdown_eq, E.
      rewrite flow_store_store. unfold dm'. rewrite rl_flow_shutdown_eq, E.
      reflexivity.
    - unfold dm'. rewrite rl_flow_shutdown_eq, E. rewrite E. reflexivity. }
  assert (Hdealloc : forall d req,
             flow_lookup K d (fd_port_id req) = Some flow ->
             uid (flow_at d flow) = fd_uid req ->
             (flow < length (flow_mem d))%nat ->
             0 < flow_refcnt (flow_at d flow) < 2 ^ 31 - 1 ->
             rl_flow_dealloc K jiffies d req = (0, rl_flow_shutdown d flow)).
  { intros d req Hlk Hu Hp Hr. unfold rl_flow_dealloc, flow_get. rewrite Hlk.
    rewrite flow_at_store_same by exact Hp. cbn [uid set_flow_refcnt].
    apply Z.eqb_eq in Hu. rewrite Hu. f_equal.
    rewrite !rl_flow_shutdown_eq. rewrite flow_at_store_same by exact Hp.
    cbn [flow_flags set_flow_refcnt txrx_flags].
    destruct (has_flag (flow_flags (flow_at d flow)) RL_FLOW_ALLOCATED).
    - rewrite flow_store_store.
      set (Y := set_flow_flags
                  (set_txrx_flags (flow_at d flow)
                     (set_flag (txrx_flags (flow_at d flow)) RL_TXRX_EOF))
                  (set_flag (flow_flags (flow_at d flow)) RL_FLOW_DEALLOCATED)).
      change (flow_put K jiffies
                (flow_store d flow (set_flow_refcnt Y (atomic_inc (flow_refcnt Y))))
                (Some flow)
              = flow_store d flow Y).
      pose proof (flow_ref_put K jiffies (flow_store d flow Y) flow) as H.
      rewrite flow_store_length, flow_at_store_same, flow_store_store in H by exact Hp.
      apply H; [exact Hp|exact Hr].
    - now apply flow_ref_put. }
  splits.
  - intros E. unfold dm'. now rewrite rl_flow_shutdown_eq, E.
  - intros E. rewrite (Hat E). cbn [flow_flags txrx_flags set_flow_flags set_txrx_flags].
    splits.
    + unfold dm'. now rewrite rl_flow_shutdown_eq, E.
    + unfold has_flag. rewrite Z.land_lor_distr_l, Z.land_diag.
      apply negb_true_iff, Z.eqb_neq. intros H. apply Z.lor_eq_0_iff in H.
      destruct H as [_ H]. discriminate H.
    + unfold has_flag. rewrite Z.land_lor_distr_l, Z.land_diag.
      apply negb_true_iff, Z.eqb_neq. intros H. apply Z.lor_eq_0_iff in H.
      destruct H as [_ H]. discriminate H.
    + now rewrite has_flag_lor_other by reflexivity.
    + reflexivity.
  - exact Hidem.
  - intros req Hlk Hu Hp Hr. split; [now apply Hdealloc|].
    destruct (rl_flow_shutdown_frame dm flow) as (F1 & F2 & F3 & F4 & F5). fold dm' in F1, F2, F3, F4, F5.
    rewrite Hdealloc.
    + now rewrite Hidem.
    + rewrite (flow_lookup_frame K dm dm'); auto.
    + rewrite (flow_field_at uid dm dm' flow F3). exact Hu.
    + now rewrite F5.
    + rewrite (flow_field_at flow_refcnt dm dm' flow F4). exact Hr.
Qed.

Lemma X17_flow_shutdown_witness :
  rl_flow_dealloc Example.K0 3000 FlowExample.dm_bound (FlowExample.dealloc 0 0)
  = (0, rl_flow_shutdown FlowExample.dm_bound 0).
Proof.
  assert (Hlk : flow_lookup Example.K0 FlowExample.dm_bound 0 = Some 0%nat)
    by (vm_compute; reflexivity).
  assert (Hp : (0 < length (flow_mem FlowExample.dm_bound))%nat) by (vm_compute; lia).
  assert (Hr : flow_refcnt (flow_at FlowExample.dm_bound 0) = 1) by (vm_compute; reflexivity).
  assert (Hu : uid (flow_at FlowExample.dm_bound 0) = 0) by (vm_compute; reflexivity).
  assert (Hr' : 0 < flow_refcnt (flow_at FlowExample.dm_bound 0) < 2 ^ 31 - 1)
    by (rewrite Hr; lia).
  exact (proj1 (proj2 (proj2 (proj2 (X17_flow_shutdown Example.K0 3000
                                       FlowExample.dm_bound 0)))
                  (FlowExample.dealloc 0 0) Hlk Hu Hp Hr')).
Defined.

Section FlowTableFacts.

Variable K : kernel.

Lemma flow_table_inv_linked (dm : rl_dm) (p : nat) :
  flow_table_inv K dm ->
  In p (Hash.for_each (flow_table dm)) ->
  (p < length (flow_mem dm))%nat /\
  In p (Hash.bucket (flow_table dm) (hash_min K (local_port (flow_at dm p)) PORT_ID_HASHTABLE_BITS)) /\
  0 <= local_port (flow_at dm p) < PORT_ID_BITMAP_SIZE /\
  Z.testbit (port_id_bitmap dm) (local_port (flow_at dm p)) = true.
Proof.
  intros (_ & _ & _ & Hb) Hin.
  destruct (hash_for_each_in_bucket _ _ Hin) as [h Hh].
  destruct (Hb h p Hh) as (H1 & H2 & H3 & H4).
  split; [exact H1|]. split; [now rewrite H2|]. split; [exact H3|exact H4].
Qed.

Lemma flow_lookup_spec (dm : rl_dm) (id : Z) :
  flow_table_inv K dm ->
  match flow_lookup K dm id with
  | Some p => In p (Hash.for_each (flow_table dm)) /\ local_port (flow_at dm p) = id
  | None => forall p, In p (Hash.for_each (flow_table dm)) -> local_port (flow_at dm p) <> id
  end.
Proof.
  intros Hinv. unfold flow_lookup.
  destruct (find _ _) as [p|] eqn:E.
  - apply find_some in E. destruct E as [Hin E]. apply Z.eqb_eq in E.
    split; [now apply hash_bucket_in_for_each in Hin|exact E].
  - intros p Hin Hid.
    destruct (flow_table_inv_linked dm p Hinv Hin) as (_ & Hb & _).
    rewrite Hid in Hb. apply (find_none _ _ E) in Hb. apply Z.eqb_neq in Hb. contradiction.
Qed.

End FlowTableFacts.

Section FlowLinkFacts.

Variable K : kernel.

Lemma flow_at_app_old (dm dm' : rl_dm) (e : flow_entry) (q : nat) :
  flow_mem dm' = flow_mem dm ++ [e] -> (q < length (flow_mem dm))%nat ->
  flow_at dm' q = flow_at dm q.
Proof. intros H Hq. unfold flow_at. rewrite H. now apply deref_app_old. Qed.

Lemma flow_at_app_new (dm dm' : rl_dm) (e : flow_entry) :
  flow_mem dm' = flow_mem dm ++ [e] -> flow_at dm' (length (flow_mem dm)) = e.
Proof. intros H. unfold flow_at. rewrite H. apply deref_app_new. Qed.

(** Linking a new object whose id is free keeps the table well formed
    and makes the object the answer of the look-up of its id. *)
Lemma flow_table_link (dm dm' : rl_dm) (e : flow_entry) :
  hash_in_range K ->
  flow_table_inv K dm ->
  flow_mem dm' = flow_mem dm ++ [e] ->
  flow_table dm'
  = Hash.add (flow_table dm) (hash_min K (local_port e) PORT_ID_HASHTABLE_BITS)
      (length (flow_mem dm)) ->
  port_id_bitmap dm' = Bitmap.set (port_id_bitmap dm) (local_port e) ->
  0 <= local_port e < PORT_ID_BITMAP_SIZE ->
  Z.testbit (port_id_bitmap dm) (local_port e) = false ->
  flow_lookup K dm (local_port e) = None /\
  flow_lookup K dm' (local_port e) = Some (length (flow_mem dm)) /\
  (forall id', id' <> local_port e -> flow_lookup K dm' id' = flow_lookup K dm id') /\
  flow_table_inv K dm'.
Proof.
  intros Hrange Hinv Hmem Htab Hbit Hid Hfree.
  set (p := length (flow_mem dm)) in *.
  set (h := hash_min K (local_port e) PORT_ID_HASHTABLE_BITS) in *.
  pose proof Hinv as (Hlen & Hnd & Hids & Hbk).
  assert (Hh : (h < length (flow_table dm))%nat)
    by (rewrite Hlen; apply Hrange; discriminate).
  assert (Hnew : flow_at dm' p = e) by now apply (flow_at_app_new dm).
  assert (Hold : forall q, In q (Hash.for_each (flow_table dm)) ->
                           flow_at dm' q = flow_at dm q).
  { intros q Hq. apply (flow_at_app_old dm dm' e); auto.
    now apply (flow_table_inv_linked K dm q Hinv). }
  assert (Hfresh : ~ In p (Hash.for_each (flow_table dm))).
  { intros Hin. apply (flow_table_inv_linked K dm p Hinv) in Hin. unfold p in Hin. lia. }
  assert (Hunused : forall q, In q (Hash.for_each (flow_table dm)) ->
                              local_port (flow_at dm q) <> local_port e).
  { intros q Hq E. apply (flow_table_inv_linked K dm q Hinv) in Hq.
    destruct Hq as (_ & _ & _ & Hset). rewrite E in Hset. congruence. }
  assert (Hnone : flow_lookup K dm (local_port e) = None).
  { pose proof (flow_lookup_spec K dm (local_port e) Hinv) as Hs.
    destruct (flow_lookup K dm (local_port e)) as [q|]; [|reflexivity].
    destruct Hs as [Hq E]. now apply Hunused in Hq. }
  assert (Hchain : forall id' l,
             (forall q, In q l -> In q (Hash.for_each (flow_table dm))) ->
             find (fun q => local_port (flow_at dm' q) =? id') l
             = find (fun q => local_port (flow_at dm q) =? id') l).
  { intros id' l Hl. apply find_ext_in. intros q Hq. now rewrite Hold by auto. }
  splits.
  - exact Hnone.
  - unfold flow_lookup. rewrite Htab. fold h. rewrite hash_bucket_add_same by exact Hh.
    cbn [find]. now rewrite Hnew, Z.eqb_refl.
  - intros id' Hne. unfold flow_lookup. rewrite Htab.
    destruct (Nat.eq_dec h (hash_min K id' PORT_ID_HASHTABLE_BITS)) as [E|E].
    + rewrite <- E, hash_bucket_add_same by exact Hh. cbn [find]. rewrite Hnew.
      replace (local_port e =? id') with false by (symmetry; apply Z.eqb_neq; congruence).
      apply Hchain. intros q Hq. now apply hash_bucket_in_for_each in Hq.
    + rewrite hash_bucket_add_other by exact E.
      apply Hchain. intros q Hq. now apply hash_bucket_in_for_each in Hq.
  - unfold flow_table_inv. rewrite Htab. splits.
    + now rewrite hash_add_length.
    + apply (Permutation_NoDup (hash_for_each_add _ h p Hh)). now constructor.
    + apply (Permutation_NoDup
               (Permutation_map (fun q => local_port (flow_at dm' q))
                  (hash_for_each_add _ h p Hh))).
      cbn [map]. rewrite Hnew.
      rewrite (map_ext_in _ (fun q => local_port (flow_at dm q)))
        by (intros q Hq; now rewrite Hold).
      constructor; [|exact Hids].
      intros Hin. apply in_map_iff in Hin. destruct Hin as (q & E & Hq).
      now apply (Hunused q).
    + intros h' q Hq.
      assert (Hq' : q = p /\ h' = h \/ In q (Hash.bucket (flow_table dm) h')).
      { destruct (Nat.eq_dec h h') as [<-|E].
        - rewrite hash_bucket_add_same in Hq by exact Hh. destruct Hq as [<-|Hq]; auto.
        - rewrite hash_bucket_add_other in Hq by exact E. auto. }
      destruct Hq' as [[-> ->]|Hq'].
      * rewrite Hnew, Hmem, length_app, Hbit. cbn [length]. fold p.
        splits; try lia; auto. apply bitmap_set_same. lia.
      * destruct (Hbk h' q Hq') as (H1 & H2 & H3 & H4).
        rewrite Hold by now apply hash_bucket_in_for_each in Hq'.
        rewrite Hmem, length_app, Hbit. splits; try lia; auto.
        destruct (Z.eq_dec (local_port e) (local_port (flow_at dm q))) as [E|E].
        -- rewrite <- E. apply bitmap_set_same. lia.
        -- rewrite bitmap_set_other by (auto; lia). exact H4.
Qed.

End FlowLinkFacts.

Section FlowAddFacts.

Variable K : kernel.

Lemma store_app_last {A} (m : list A) (x y : A) : store (m ++ [x]) (length m) y = m ++ [y].
Proof. induction m as [|a m IH]; cbn; [reflexivity|]. now rewrite IH. Qed.

(** [flows_putq_add] on the flow that was allocated last and is not
    queued yet. *)
Lemma flows_putq_add_fresh (jiffies : Z) (d : rl_dm) (m : list flow_entry) (f : flow_entry)
    (jdelta : Z) :
  flow_mem d = m ++ [f] ->
  expires f = EXPIRES_NONE ->
  - 2 ^ 31 <= flow_refcnt f + 1 < 2 ^ 31 ->
  let d' := flows_putq_add jiffies d (length m) jdelta in
  flow_mem d'
  = m ++ [set_expires (set_flow_refcnt f (flow_refcnt f + 1)) (ulong (jiffies + jdelta))] /\
  In (length m) (flows_putq d') /\
  flow_table d' = flow_table d /\
  port_id_bitmap d' = port_id_bitmap d /\
  uid_cnt d' = uid_cnt d /\
  ipcp_mem d' = ipcp_mem d.
Proof.
  intros Hm He Hr d'.
  assert (Hat : flow_at d (length m) = f).
  { unfold flow_at. rewrite Hm. apply deref_app_new. }
  assert (Hp : (length m < length (flow_mem d))%nat).
  { rewrite Hm, length_app. cbn. lia. }
  pose proof (flows_putq_add_new jiffies d (length m) jdelta Hp) as H.
  rewrite Hat in H. specialize (H He Hr). cbv zeta in H. subst d'. rewrite H.
  cbn [flow_mem flows_putq flow_table port_id_bitmap uid_cnt ipcp_mem set_flows_putq_tmr
       set_flows_putq].
  unfold flow_store at 1. cbn [flow_mem set_flow_mem]. rewrite Hm, store_app_last.
  splits; try reflexivity.
  destruct (putq_insert_split
              (flow_store d (length m)
                 (set_expires (set_flow_refcnt f (flow_refcnt f + 1))
                    (ulong (jiffies + jdelta))))
              (length m) (flows_putq d)) as (l1 & l2 & _ & ->).
  apply in_or_app. right. now left.
Qed.

Lemma u16_range (x : Z) : 0 <= u16 x < 2 ^ 16.
Proof. unfold u16. apply Z.mod_pos_bound. lia. Qed.

Lemma bitmap_set_again (b i : Z) : 0 <= i -> Z.testbit b i = true -> Bitmap.set b i = b.
Proof.
  intros Hi Hb. unfold Bitmap.set. apply Z.bits_inj'. intros n Hn.
  destruct (Z.eq_dec i n) as [<-|Hne].
  - rewrite Z.setbit_eq by lia. now rewrite Hb.
  - now rewrite Z.setbit_neq by lia.
Qed.

(** The outcomes of [flow_add] for a request without flow
    configuration: it fails, changing nothing, on a zombie IPCP, when
    the entry cannot be allocated and when the IPCP uses CEP ids and
    none is free; in every other case it links a new flow, on the port
    id that the 16-bit field keeps of the result of the search. *)
Lemma flow_add_cases (alloc_ok : bool) (jiffies : Z) (dm : rl_dm) (ipcp : nat)
    (upper_rc_ upper_ipcp_ : option nat) (flowspec : Z) :
  let res := Gfp.flow_add K alloc_ok jiffies dm ipcp upper_rc_ upper_ipcp_ None flowspec in
  let port := u16 (Bitmap.find_first_zero (port_id_bitmap dm) PORT_ID_BITMAP_SIZE) in
  let use_cep := has_flag (ipcp_flags (ipcp_at dm ipcp)) RL_K_IPCP_USE_CEP_IDS in
  ((has_flag (ipcp_flags (ipcp_at dm ipcp)) RL_K_IPCP_ZOMBIE = true \/
    alloc_ok = false \/
    (use_cep = true /\
     CEP_ID_BITMAP_SIZE
     <= u32 (Bitmap.find_first_zero (cep_id_bitmap dm) CEP_ID_BITMAP_SIZE))) /\
   fst (fst res) <> 0 /\ snd (fst res) = None /\ snd res = dm) \/
  (has_flag (ipcp_flags (ipcp_at dm ipcp)) RL_K_IPCP_ZOMBIE = false /\
   alloc_ok = true /\
   0 <= port < PORT_ID_BITMAP_SIZE /\
   fst res = (0, Some (length (flow_mem dm))) /\
   flow_table (snd res)
   = Hash.add (flow_table dm) (hash_min K port PORT_ID_HASHTABLE_BITS) (length (flow_mem dm)) /\
   port_id_bitmap (snd res) = Bitmap.set (port_id_bitmap dm) port /\
   uid_cnt (snd res) = u32 (uid_cnt dm + 1) /\
   ipcp_mem (snd res)
   = store (ipcp_mem dm) ipcp
       (set_ipcp_refcnt (ipcp_at dm ipcp) (u32 (ipcp_refcnt (ipcp_at dm ipcp) + 1))) /\
   In (length (flow_mem dm)) (flows_putq (snd res)) /\
   exists e,
     flow_mem (snd res) = flow_mem dm ++ [e] /\ local_port e = port /\
     uid e = uid_cnt dm /\ flow_refcnt e = 3 /\
     flow_flags e = Z.lor RL_FLOW_PENDING RL_FLOW_NEVER_BOUND /\
     expires e = ulong (jiffies + RL_UNBOUND_FLOW_TO K) /\
     txrx_ipcp e = ipcp /\ upper_rc e = upper_rc_ /\ upper_ipcp e = upper_ipcp_).
Proof.
  unfold Gfp.flow_add.
  destruct (has_flag (ipcp_flags (ipcp_at dm ipcp)) RL_K_IPCP_ZOMBIE) eqn:Hz;
    [left; cbn; splits; auto; discriminate|].
  destruct alloc_ok; cbn [negb]; [|left; cbn; splits; auto; discriminate].
  set (use_cep := has_flag _ RL_K_IPCP_USE_CEP_IDS).
  set (port := u16 (Bitmap.find_first_zero (port_id_bitmap dm) PORT_ID_BITMAP_SIZE)).
  set (cep := if use_cep then _ else 0).
  assert (Hport : 0 <= port < PORT_ID_BITMAP_SIZE) by apply u16_range.
  assert (Hpt : (port <? PORT_ID_BITMAP_SIZE) = true) by (apply Z.ltb_lt; lia).
  rewrite Hpt. cbn [andb].
  destruct (cep <? CEP_ID_BITMAP_SIZE) eqn:Hc.
  2:{ left. cbn [fst snd]. splits; auto; try discriminate.
      right. right. apply Z.ltb_ge in Hc. unfold cep in Hc.
      destruct use_cep; [auto|]. exfalso. apply Hc. reflexivity. }
  right. cbv zeta.
  set (f := {| local_port := port; local_cep := cep; remote_port := RL_PORT_ID_NONE K;
               remote_addr := RL_ADDR_NULL K; uid := uid_cnt dm;
               flow_flags := Z.lor RL_FLOW_PENDING RL_FLOW_NEVER_BOUND;
               flow_refcnt := atomic_inc 1; expires := EXPIRES_NONE; txrx_ipcp := ipcp;
               txrx_flags := 0; upper_rc := upper_rc_; upper_ipcp := upper_ipcp_;
               flow_spec := flowspec; cfg_dtcp_flags := 0 |}).
  match goal with
  | |- context [flows_putq_add jiffies ?d (length (flow_mem dm)) (RL_UNBOUND_FLOW_TO K)] =>
      set (dm6 := d)
  end.
  assert (H6 : flow_mem dm6 = flow_mem dm ++ [f] /\
               flow_table dm6
               = Hash.add (flow_table dm) (hash_min K port PORT_ID_HASHTABLE_BITS)
                   (length (flow_mem dm)) /\
               port_id_bitmap dm6 = Bitmap.set (port_id_bitmap dm) port /\
               uid_cnt dm6 = u32 (uid_cnt dm + 1) /\
               ipcp_mem dm6 = ipcp_mem dm).
  { unfold dm6. destruct use_cep; cbn -[Hash.add Bitmap.set u32]; splits; reflexivity. }
  destruct H6 as (M6 & T6 & B6 & U6 & I6).
  destruct (flows_putq_add_fresh jiffies dm6 (flow_mem dm) f (RL_UNBOUND_FLOW_TO K) M6)
    as (M7 & Q7 & T7 & B7 & U7 & I7); [reflexivity|cbn; lia|].
  set (dm7 := flows_putq_add jiffies dm6 (length (flow_mem dm)) (RL_UNBOUND_FLOW_TO K)) in *.
  cbn [fst snd].
  assert (Hi : ipcp_at dm7 ipcp = ipcp_at dm ipcp) by (unfold ipcp_at; now rewrite I7, I6).
  rewrite Hi. unfold ipcp_store.
  cbn [flow_table port_id_bitmap uid_cnt ipcp_mem flows_putq flow_mem set_ipcp_mem].
  rewrite T7, T6, B7, B6, U7, U6, I7, I6, M7.
  splits; auto; try lia.
  eexists. split; [reflexivity|]. cbn. splits; reflexivity.
Qed.

End FlowAddFacts.

(** X18 — Allocation of a flow.  [flow_add] fails with [-ENXIO] on a
    zombie IPCP, before it allocates, and with [-ENOMEM] when the
    allocation of the entry fails; a call that fails changes nothing.
    A call without flow configuration that returns 0 gives the new flow
    the port id that the 16-bit [local_port] keeps of the result of the
    search in the bitmap, and the current value of the uid counter,
    which it increments; the new flow is PENDING and NEVER_BOUND, holds
    three references (its own, the caller's and the put-queue's) and
    waits in the put-queue for the unbound timeout; the IPCP gets one
    more reference.  When a port id is free and the table is well
    formed, the port id is the lowest free one: its look-up, which found
    nothing before, now finds the new flow; every other look-up answers
    as before, the linked flows are untouched and the table stays well
    formed.  On an IPCP that does not use CEP ids the call never fails
    for want of a port id: with all the 65536 port ids taken the search
    gives 65537, the new flow gets port id 1, which is in use, and the
    call returns 0 with the bitmap as it was. *)
Theorem X18_flow_add (K : kernel) (alloc_ok : bool) (jiffies : Z) (dm : rl_dm) (ipcp : nat)
    (upper_rc_ upper_ipcp_ : option nat) (flowspec : Z) :
  hash_in_range K ->
  flow_table_inv K dm ->
  let res := Gfp.flow_add K alloc_ok jiffies dm ipcp upper_rc_ upper_ipcp_ None flowspec in
  let found := Bitmap.find_first_zero (port_id_bitmap dm) PORT_ID_BITMAP_SIZE in
  (ipcp_is_zombie dm ipcp = true -> res = (- ENXIO, None, dm)) /\
  (ipcp_is_zombie dm ipcp = false -> alloc_ok = false -> res = (- ENOMEM, None, dm)) /\
  (fst (fst res) <> 0 -> snd (fst res) = None /\ snd res = dm) /\
  (fst (fst res) = 0 ->
   exists p,
     snd (fst res) = Some p /\
     let port := local_port (flow_at (snd res) p) in
     port = u16 found /\
     uid (flow_at (snd res) p) = uid_cnt dm /\
     uid_cnt (snd res) = u32 (uid_cnt dm + 1) /\
     flow_flags (flow_at (snd res) p) = Z.lor RL_FLOW_PENDING RL_FLOW_NEVER_BOUND /\
     flow_refcnt (flow_at (snd res) p) = 3 /\
     expires (flow_at (snd res) p) = ulong (jiffies + RL_UNBOUND_FLOW_TO K) /\
     In p (flows_putq (snd res)) /\
     txrx_ipcp (flow_at (snd res) p) = ipcp /\
     ((ipcp < length (ipcp_mem dm))%nat ->
      ipcp_refcnt (ipcp_at (snd res) ipcp) = u32 (ipcp_refcnt (ipcp_at dm ipcp) + 1)) /\
     (found < PORT_ID_BITMAP_SIZE ->
      port = found /\
      0 <= port < PORT_ID_BITMAP_SIZE /\
      Z.testbit (port_id_bitmap dm) port = false /\
      (forall j, 0 <= j < port -> Z.testbit (port_id_bitmap dm) j = true) /\
      flow_lookup K dm port = None /\
      flow_lookup K (snd res) port = Some p /\
      (forall port', port' <> port ->
                     flow_lookup K (snd res) port' = flow_lookup K dm port') /\
      (forall q, In q (Hash.for_each (flow_table dm)) ->
                 flow_at (snd res) q = flow_at dm q) /\
      flow_table_inv K (snd res))) /\
  (ipcp_is_zombie dm ipcp = false ->
   alloc_ok = true ->
   has_flag (ipcp_flags (ipcp_at dm ipcp)) RL_K_IPCP_USE_CEP_IDS = false ->
   fst (fst res) = 0 /\
   ((forall j, 0 <= j < PORT_ID_BITMAP_SIZE -> Z.testbit (port_id_bitmap dm) j = true) ->
    exists p,
      snd (fst res) = Some p /\
      local_port (flow_at (snd res) p) = 1 /\
      Z.testbit (port_id_bitmap dm) 1 = true /\
      port_id_bitmap (snd res) = port_id_bitmap dm /\
      In p (Hash.for_each (flow_table (snd res))))).
Proof.
  intros Hrange Hinv res found.
  pose proof (flow_add_cases K alloc_ok jiffies dm ipcp upper_rc_ upper_ipcp_ flowspec)
    as Hcases. cbv zeta in Hcases. fold res in Hcases. fold found in Hcases.
  split; [|split; [|split; [|split]]].
  - unfold ipcp_is_zombie. intros Hz. subst res. unfold Gfp.flow_add. now rewrite Hz.
  - unfold ipcp_is_zombie. intros Hz ->. subst res. unfold Gfp.flow_add. now rewrite Hz.
  - intros Hne. destruct Hcases as [(_ & _ & H2 & H3)|(_ & _ & _ & H & _)]; [auto|].
    rewrite H in Hne. now contradiction Hne.
  - intros Hz.
    destruct Hcases
      as [(_ & H1 & _)|(_ & _ & Hlt & Hres & Htab & Hbit & Huid & Hipcp & Hq & e & He)];
      [contradiction|].
    destruct He as (Hmem & Hport & Hu & Href & Hfl & Hexp & Hti & _).
    exists (length (flow_mem dm)). split; [now rewrite Hres|].
    assert (Hnew : flow_at (snd res) (length (flow_mem dm)) = e)
      by now apply (flow_at_app_new dm).
    cbv zeta. rewrite Hnew, Hport.
    splits; auto.
    + intros Hp. unfold ipcp_at at 1. rewrite Hipcp.
      now rewrite deref_store_same by exact Hp.
    + intros Hfound.
      destruct (bitmap_find_first_zero_found (port_id_bitmap dm) PORT_ID_BITMAP_SIZE)
        as (B1 & B2 & B3); [discriminate|exact Hfound|]. fold found in B1, B2, B3.
      assert (Hu16 : u16 found = found).
      { unfold u16. apply Z.mod_small. change (2 ^ 16) with PORT_ID_BITMAP_SIZE. lia. }
      rewrite Hu16 in *.
      rewrite <- Hport in Htab, Hbit.
      destruct (flow_table_link K dm (snd res) e Hrange Hinv Hmem Htab Hbit)
        as (L1 & L2 & L3 & L4).
      { rewrite Hport. lia. }
      { rewrite Hport. auto. }
      rewrite Hport in L1, L2, L3.
      splits; auto; try lia.
      intros q Hin. apply (flow_at_app_old dm (snd res) e); auto.
      now apply (flow_table_inv_linked K dm q Hinv).
  - unfold ipcp_is_zombie. intros Hz Ha Hcep.
    destruct Hcases
      as [([Hz'|[Ha'|[Hc' _]]] & _)|
          (_ & _ & Hlt & Hres & Htab & Hbit & Huid & Hipcp & Hq & e & He)];
      try congruence.
    split; [now rewrite Hres|].
    intros Hfull.
    destruct He as (Hmem & Hport & _).
    assert (Hf : found = PORT_ID_BITMAP_SIZE + 1).
    { apply bitmap_find_first_zero_full; [discriminate|exact Hfull]. }
    assert (Hone : u16 found = 1) by (rewrite Hf; reflexivity).
    rewrite Hone in *.
    assert (Hnew : flow_at (snd res) (length (flow_mem dm)) = e)
      by now apply (flow_at_app_new dm).
    assert (Hbit1 : Z.testbit (port_id_bitmap dm) 1 = true) by (apply Hfull; split; discriminate || reflexivity).
    exists (length (flow_mem dm)). rewrite Hres, Hnew. splits; auto.
    + rewrite Hbit. apply bitmap_set_again; [lia|exact Hbit1].
    + rewrite Htab. apply (hash_bucket_in_for_each _ (hash_min K 1 PORT_ID_HASHTABLE_BITS)).
      rewrite hash_bucket_add_same; [now left|].
      destruct Hinv as (Hlen & _). rewrite Hlen. apply Hrange. discriminate.
Qed.

Lemma example_dm3_zombie_flow_table_inv : flow_table_inv Example.K0 IpcpExample.dm3_zombie.
Proof.
  assert (Hf : Hash.for_each (flow_table IpcpExample.dm3_zombie) = [])
    by (vm_compute; reflexivity).
  unfold flow_table_inv. rewrite Hf. splits.
  - vm_compute; reflexivity.
  - constructor.
  - constructor.
  - intros h p Hin. apply hash_bucket_in_for_each in Hin. rewrite Hf in Hin. contradiction.
Qed.

Lemma example_dm3_flow_table_inv : flow_table_inv Example.K0 IpcpExample.dm3.
Proof.
  assert (Hf : Hash.for_each (flow_table IpcpExample.dm3) = []) by (vm_compute; reflexivity).
  unfold flow_table_inv. rewrite Hf. splits.
  - vm_compute; reflexivity.
  - constructor.
  - constructor.
  - intros h p Hin. apply hash_bucket_in_for_each in Hin. rewrite Hf in Hin. contradiction.
Qed.

Lemma X18_flow_add_witness :
  Gfp.flow_add Example.K0 true 1000 IpcpExample.dm3_zombie 2 (Some 0%nat) None None 0
  = (- ENXIO, None, IpcpExample.dm3_zombie) /\
  exists p,
    snd (fst (Gfp.flow_add Example.K0 true 1000 IpcpExample.dm3 1 (Some 0%nat) None None 0))
    = Some p /\
    flow_lookup Example.K0
      (snd (Gfp.flow_add Example.K0 true 1000 IpcpExample.dm3 1 (Some 0%nat) None None 0)) 0
    = Some p.
Proof.
  assert (Hz : ipcp_is_zombie IpcpExample.dm3_zombie 2 = true) by (vm_compute; reflexivity).
  assert (H0 : fst (fst (Gfp.flow_add Example.K0 true 1000 IpcpExample.dm3 1 (Some 0%nat)
                           None None 0)) = 0) by (vm_compute; reflexivity).
  assert (Hfound : Bitmap.find_first_zero (port_id_bitmap IpcpExample.dm3)
                     PORT_ID_BITMAP_SIZE = 0) by (vm_compute; reflexivity).
  split.
  - exact (proj1 (X18_flow_add Example.K0 true 1000 IpcpExample.dm3_zombie 2 (Some 0%nat)
                    None 0 example_hash_in_range example_dm3_zombie_flow_table_inv) Hz).
  - destruct (proj1 (proj2 (proj2 (proj2
               (X18_flow_add Example.K0 true 1000 IpcpExample.dm3 1 (Some 0%nat) None 0
                  example_hash_in_range example_dm3_flow_table_inv)))) H0)
      as (p & Hp & X).
    cbv zeta in X. destruct X as (_ & _ & _ & _ & _ & _ & _ & _ & _ & Hfree).
    rewrite Hfound in Hfree.
    destruct (Hfree ltac:(reflexivity)) as (Hport & _ & _ & _ & _ & Hlk & _).
    exists p. split; [exact Hp|]. rewrite Hport in Hlk. exact Hlk.
Defined.

Section MortalFacts.

Variable K : kernel.

Lemma has_flag_clear_flag (f m : Z) : has_flag (clear_flag f m) m = false.
Proof.
  unfold has_flag, clear_flag.
  rewrite <- Z.land_assoc, (Z.land_comm (Z.lnot m) m), Z.land_lnot_diag, Z.land_0_r.
  reflexivity.
Qed.

Lemma flow_store_putq (dm : rl_dm) (p : nat) (x : flow_entry) (q : list nat) :
  flow_store (set_flows_putq dm q) p x = set_flows_putq (flow_store dm p x) q.
Proof. reflexivity. Qed.

(** [flow_make_mortal] on a never-bound flow that keeps a reference
    afterwards. *)
Lemma flow_make_mortal_eq (jiffies : Z) (dm : rl_dm) (p : nat) :
  has_flag (flow_flags (flow_at dm p)) RL_FLOW_NEVER_BOUND = true ->
  (p < length (flow_mem dm))%nat ->
  2 < flow_refcnt (flow_at dm p) < 2 ^ 31 ->
  flow_make_mortal K jiffies dm (Some p)
  = set_flows_putq
      (flow_store dm p
         (set_expires
            (set_flow_refcnt
               (set_flow_flags (flow_at dm p)
                  (clear_flag (flow_flags (flow_at dm p)) RL_FLOW_NEVER_BOUND))
               (flow_refcnt (flow_at dm p) - 2))
            EXPIRES_NONE))
      (list_del (flows_putq dm) p).
Proof.
  intros Hnb Hp Hr. unfold flow_make_mortal. rewrite Hnb. cbv zeta.
  rewrite flow_at_store_same by exact Hp. rewrite flow_store_store.
  cbn [flow_refcnt set_flow_flags].
  assert (D1 : atomic_dec (flow_refcnt (flow_at dm p)) = flow_refcnt (flow_at dm p) - 1)
    by (unfold atomic_dec; apply to_int_small; lia).
  assert (D2 : atomic_dec (flow_refcnt (flow_at dm p) - 1) = flow_refcnt (flow_at dm p) - 2).
  { unfold atomic_dec. rewrite to_int_small by lia. lia. }
  rewrite D1. unfold flows_putq_del. cbv zeta.
  rewrite flow_at_store_same by exact Hp. rewrite flow_store_store.
  unfold flow_put. rewrite <- flow_store_putq.
  set (dmq := set_flows_putq dm _).
  assert (Hpq : (p < length (flow_mem dmq))%nat) by exact Hp.
  rewrite flow_put_not_last;
    rewrite flow_at_store_same by exact Hpq; cbn [flow_refcnt set_expires set_flow_refcnt];
    rewrite D2; [|lia].
  rewrite flow_store_store. reflexivity.
Qed.

End MortalFacts.

(** X19 — [flow_make_mortal].  The call does nothing for NULL and for
    a flow that is not NEVER_BOUND.  On an allocated NEVER_BOUND flow
    with at least three references it clears the flag, stops the
    unbound timer of the flow (the expiration is reset and the flow
    leaves the put-queue) and drops two references, the flow's own and
    the put-queue's; nothing else changes, the flow stays linked.  A
    second call then changes nothing. *)
Theorem X19_flow_make_mortal (K : kernel) (jiffies : Z) (dm : rl_dm) (p : nat) :
  flow_make_mortal K jiffies dm None = dm /\
  (has_flag (flow_flags (flow_at dm p)) RL_FLOW_NEVER_BOUND = false ->
   flow_make_mortal K jiffies dm (Some p) = dm) /\
  (has_flag (flow_flags (flow_at dm p)) RL_FLOW_NEVER_BOUND = true ->
   (p < length (flow_mem dm))%nat ->
   2 < flow_refcnt (flow_at dm p) < 2 ^ 31 ->
   let dm' := flow_make_mortal K jiffies dm (Some p) in
   has_flag (flow_flags (flow_at dm' p)) RL_FLOW_NEVER_BOUND = false /\
   flow_flags (flow_at dm' p) = clear_flag (flow_flags (flow_at dm p)) RL_FLOW_NEVER_BOUND /\
   flow_refcnt (flow_at dm' p) = flow_refcnt (flow_at dm p) - 2 /\
   expires (flow_at dm' p) = EXPIRES_NONE /\
   flows_putq dm' = list_del (flows_putq dm) p /\
   ~ In p (flows_putq dm') /\
   flow_table dm' = flow_table dm /\
   port_id_bitmap dm' = port_id_bitmap dm /\
   flows_removeq dm' = flows_removeq dm /\
   (forall q, q <> p -> flow_at dm' q = flow_at dm q) /\
   (forall jiffies', flow_make_mortal K jiffies' dm' (Some p) = dm')).
Proof.
  splits; try reflexivity.
  - intros H. unfold flow_make_mortal. now rewrite H.
  - intros Hnb Hp Hr dm'. unfold dm'. rewrite (flow_make_mortal_eq K jiffies dm p Hnb Hp Hr).
    set (F := set_expires _ _).
    assert (Hat : flow_at (set_flows_putq (flow_store dm p F) (list_del (flows_putq dm) p)) p
                  = F).
    { change (flow_at (set_flows_putq (flow_store dm p F) (list_del (flows_putq dm) p)) p)
        with (flow_at (flow_store dm p F) p). now apply flow_at_store_same. }
    rewrite Hat.
    assert (Hclr : has_flag (flow_flags F) RL_FLOW_NEVER_BOUND = false)
      by apply has_flag_clear_flag.
    splits; try reflexivity; auto.
    + cbn [flows_putq set_flows_putq]. unfold list_del. intros Hin.
      apply filter_In in Hin. destruct Hin as [_ Hin]. now rewrite Nat.eqb_refl in Hin.
    + intros q Hq.
      change (flow_at (set_flows_putq (flow_store dm p F) (list_del (flows_putq dm) p)) q)
        with (flow_at (flow_store dm p F) q). apply flow_at_store_other. congruence.
    + intros j'. unfold flow_make_mortal. now rewrite Hat, Hclr.
Qed.

Lemma X19_flow_make_mortal_witness :
  flow_refcnt (flow_at (flow_make_mortal Example.K0 2000 FlowExample.dm_added (Some 0%nat)) 0)
  = 1 /\
  flows_putq (flow_make_mortal Example.K0 2000 FlowExample.dm_added (Some 0%nat)) = [].
Proof.
  assert (Hnb : has_flag (flow_flags (flow_at FlowExample.dm_added 0)) RL_FLOW_NEVER_BOUND
                = true) by (vm_compute; reflexivity).
  assert (Hp : (0 < length (flow_mem FlowExample.dm_added))%nat) by (vm_compute; lia).
  assert (Hr : flow_refcnt (flow_at FlowExample.dm_added 0) = 3) by (vm_compute; reflexivity).
  assert (Hq : flows_putq FlowExample.dm_added = [0%nat]) by (vm_compute; reflexivity).
  assert (Hr' : 2 < flow_refcnt (flow_at FlowExample.dm_added 0) < 2 ^ 31)
    by (rewrite Hr; lia).
  pose proof (proj2 (proj2 (X19_flow_make_mortal Example.K0 2000 FlowExample.dm_added 0))
                Hnb Hp Hr') as X.
  cbv zeta in X. destruct X as (_ & _ & X3 & _ & X5 & _).
  split.
  - rewrite X3, Hr. reflexivity.
  - rewrite X5, Hq. reflexivity.
Defined.

Section UnboundFacts.

Variable K : kernel.

(** What the last [__flow_put] of a flow that is not postponed leaves. *)
Lemma flow_put_last_fields (jiffies : Z) (dm : rl_dm) (p : nat) (lock : bool) :
  (p < length (flow_mem dm))%nat ->
  flow_refcnt (flow_at dm p) = 1 ->
  flow_postponable (flow_at dm p) = false ->
  let dm' := __flow_put K jiffies dm (Some p) lock in
  flow_mem dm' = store (flow_mem dm) p (unlinked_flow (flow_at dm p)) /\
  flow_table dm' = Hash.del (flow_table dm) p /\
  port_id_bitmap dm' = Bitmap.clear (port_id_bitmap dm) (local_port (flow_at dm p)) /\
  flows_removeq dm' = flows_removeq dm ++ [p] /\
  flows_removew dm' = true /\
  flows_putq dm' = flows_putq dm /\
  flows_putq_tmr dm' = flows_putq_tmr dm.
Proof.
  intros Hp Hr Hpost dm'. subst dm'.
  rewrite (flow_put_last_unlinked K jiffies dm p lock Hp Hr Hpost). cbv zeta.
  destruct (has_flag _ RL_K_IPCP_USE_CEP_IDS); cbn; splits; reflexivity.
Qed.

Lemma find_filter_other {A} (f g : A -> bool) (l : list A) :
  (forall x, In x l -> g x = false -> f x = false) ->
  find f (filter g l) = find f l.
Proof.
  induction l as [|a l IH]; intros H; [reflexivity|].
  cbn. destruct (g a) eqn:G.
  - cbn. destruct (f a); [reflexivity|]. apply IH. intros x Hx. apply H. now right.
  - rewrite (H a) by (auto; now left). apply IH. intros x Hx. apply H. now right.
Qed.

Lemma hash_bucket_del (t : list (list nat)) (p h : nat) :
  Hash.bucket (Hash.del t p) h = filter (fun q => negb (Nat.eqb q p)) (Hash.bucket t h).
Proof.
  unfold Hash.bucket, Hash.del.
  change (@nil nat) with (filter (fun q => negb (Nat.eqb q p)) []) at 1.
  apply map_nth.
Qed.

Lemma bitmap_clear_same (b i : Z) : 0 <= i -> Z.testbit (Bitmap.clear b i) i = false.
Proof. intros H. unfold Bitmap.clear. now apply Z.clearbit_eq. Qed.

(** Unlinking a flow frees its port id; the other port ids answer as
    before. *)
Lemma flow_table_unlink (dm dm' : rl_dm) (p : nat) :
  flow_table_inv K dm ->
  In p (Hash.for_each (flow_table dm)) ->
  flow_table dm' = Hash.del (flow_table dm) p ->
  (forall q, q <> p -> flow_at dm' q = flow_at dm q) ->
  flow_lookup K dm' (local_port (flow_at dm p)) = None /\
  (forall port', port' <> local_port (flow_at dm p) ->
                 flow_lookup K dm' port' = flow_lookup K dm port').
Proof.
  intros Hinv Hin Htab Hother.
  pose proof Hinv as (_ & Hnd & Hids & _).
  assert (Huniq : forall q, In q (Hash.for_each (flow_table dm)) -> q <> p ->
                            local_port (flow_at dm q) <> local_port (flow_at dm p)).
  { intros q Hq Hne E.
    apply in_split in Hin. destruct Hin as (l1 & l2 & Hl).
    rewrite Hl in Hq, Hids, Hnd. rewrite map_app in Hids. cbn [map] in Hids.
    apply NoDup_remove_2 in Hids. apply Hids. rewrite <- E, <- map_app.
    apply (in_map (fun x => local_port (flow_at dm x))).
    apply in_app_or in Hq. apply in_or_app.
    destruct Hq as [Hq|[Hq|Hq]]; auto. congruence. }
  split.
  - unfold flow_lookup. rewrite Htab, hash_bucket_del.
    destruct (find _ _) as [q|] eqn:E; [|reflexivity].
    apply find_some in E. destruct E as [Hq E]. apply filter_In in Hq.
    destruct Hq as [Hq Hne]. apply negb_true_iff, Nat.eqb_neq in Hne.
    apply Z.eqb_eq in E. rewrite Hother in E by exact Hne.
    apply hash_bucket_in_for_each in Hq. now apply Huniq in E.
  - intros port' Hne. unfold flow_lookup. rewrite Htab, hash_bucket_del.
    rewrite (find_ext_in _ (fun q => local_port (flow_at dm q) =? port')).
    + apply find_filter_other. intros q Hq Hg.
      apply negb_false_iff, Nat.eqb_eq in Hg. subst q. apply Z.eqb_neq. congruence.
    + intros q Hq. apply filter_In in Hq. destruct Hq as [_ Hq].
      apply negb_true_iff, Nat.eqb_neq in Hq. now rewrite Hother.
Qed.

End UnboundFacts.

(** The drain of the put-queue when its head is a NEVER_BOUND flow with
    the two references of its creation, past its expiration. *)
Lemma flows_putq_drain_unbound (K : kernel) (jiffies : Z) (dm : rl_dm) (p : nat)
    (rest : list nat) :
  flow_table_inv K dm ->
  In p (Hash.for_each (flow_table dm)) ->
  flows_putq dm = p :: rest ->
  ~ In p rest ->
  flow_refcnt (flow_at dm p) = 2 ->
  has_flag (flow_flags (flow_at dm p)) RL_FLOW_NEVER_BOUND = true ->
  time_before jiffies (expires (flow_at dm p)) = false ->
  (forall q, hd_error rest = Some q -> time_before jiffies (expires (flow_at dm q)) = true) ->
  let dm' := flows_putq_drain K jiffies dm in
  let port := local_port (flow_at dm p) in
  flows_putq dm' = rest /\
  flows_putq_tmr dm' = option_map (fun q => expires (flow_at dm q)) (hd_error rest) /\
  flow_lookup K dm' port = None /\
  (forall port', port' <> port -> flow_lookup K dm' port' = flow_lookup K dm port') /\
  Z.testbit (port_id_bitmap dm') port = false /\
  ~ In p (Hash.for_each (flow_table dm')) /\
  flows_removeq dm' = flows_removeq dm ++ [p] /\
  flows_removew dm' = true /\
  flow_refcnt (flow_at dm' p) = 0 /\
  has_flag (flow_flags (flow_at dm' p)) RL_FLOW_DEALLOCATED = true /\
  (forall q, q <> p -> flow_at dm' q = flow_at dm q) /\
  flow_table dm' = Hash.del (flow_table dm) p /\
  port_id_bitmap dm' = Bitmap.clear (port_id_bitmap dm) port.
Proof.
  intros Hinv Hin Hq Hnin Hr Hnb Hexp Hrest dm' port.
  destruct (flow_table_inv_linked K dm p Hinv Hin) as (Hp & _ & Hport & _).
  set (f := flow_at dm p) in *.
  set (F1 := set_flow_refcnt (set_expires f EXPIRES_NONE) 1).
  set (D3 := flow_store (set_flows_putq dm rest) p F1).
  assert (Hdel : list_del (p :: rest) p = rest).
  { unfold list_del. cbn. rewrite Nat.eqb_refl. cbn.
    clear - Hnin. induction rest as [|a l IH]; [reflexivity|].
    cbn. destruct (Nat.eqb_spec a p) as [->|Hne].
    - exfalso. apply Hnin. now left.
    - cbn. f_equal. apply IH. intros H. apply Hnin. now right. }
  assert (Hat3 : flow_at D3 p = F1) by (unfold D3; now apply flow_at_store_same).
  assert (Hpost : flow_postponable (flow_at D3 p) = false).
  { rewrite Hat3. unfold flow_postponable. cbn [flow_flags F1 set_flow_refcnt set_expires].
    rewrite Hnb. cbn. apply andb_false_r. }
  assert (Hp3 : (p < length (flow_mem D3))%nat)
    by (unfold D3; rewrite flow_store_length; exact Hp).
  assert (Hr3 : flow_refcnt (flow_at D3 p) = 1) by now rewrite Hat3.
  destruct (flow_put_last_fields K jiffies D3 p false Hp3 Hr3 Hpost)
    as (M & T & B & RQ & RW & PQ & PT).
  set (D4 := __flow_put K jiffies D3 (Some p) false) in *.
  assert (Hat4 : flow_at D4 p = unlinked_flow F1).
  { unfold flow_at. rewrite M, Hat3. now apply deref_store_same. }
  assert (Hother : forall q, q <> p -> flow_at D4 q = flow_at dm q).
  { intros q Hne. unfold flow_at at 1. rewrite M.
    rewrite deref_store_other by congruence.
    change (deref flow_zero (flow_mem D3) q) with (flow_at D3 q).
    unfold D3. rewrite flow_at_store_other by congruence. reflexivity. }
  assert (Hloop : flows_putq_drain_loop K jiffies dm (flows_putq dm) = D4).
  { rewrite Hq. cbn [flows_putq_drain_loop]. fold f. rewrite Hexp. cbn [negb].
    rewrite Hq, Hdel.
    change (flow_at (set_flows_putq dm rest) p) with f.
    set (D2 := flow_store (set_flows_putq dm rest) p (set_expires f EXPIRES_NONE)).
    assert (Hat2 : flow_at D2 p = set_expires f EXPIRES_NONE)
      by (unfold D2; now apply flow_at_store_same).
    rewrite (flow_put_not_last K jiffies D2 p false)
      by (rewrite Hat2; cbn [flow_refcnt set_expires]; rewrite Hr; discriminate).
    rewrite Hat2. cbn [flow_refcnt set_expires]. rewrite Hr.
    change (atomic_dec 2) with 1. unfold D2. rewrite flow_store_store.
    fold F1. fold D3. fold D4.
    destruct rest as [|q r]; [reflexivity|].
    cbn [flows_putq_drain_loop].
    rewrite Hother by (intros ->; apply Hnin; now left).
    rewrite (Hrest q eq_refl). reflexivity. }
  assert (Hdm' : dm' = set_flows_putq_tmr D4
                         (option_map (fun q => expires (flow_at dm q)) (hd_error rest)) /\
                 flows_putq D4 = rest).
  { unfold dm', flows_putq_drain. rewrite Hloop, PQ.
    change (flows_putq D3) with rest. split; [|reflexivity].
    destruct rest as [|q r]; [reflexivity|].
    cbn [hd_error option_map].
    rewrite Hother by (intros ->; apply Hnin; now left). reflexivity. }
  destruct Hdm' as [Hdm' PQ']. rewrite Hdm'.
  destruct (flow_table_unlink K dm D4 p Hinv Hin) as [L1 L2]; [exact T|exact Hother|].
  assert (Hat' : forall v q, flow_at (set_flows_putq_tmr D4 v) q = flow_at D4 q) by reflexivity.
  assert (Hlk' : forall v x, flow_lookup K (set_flows_putq_tmr D4 v) x = flow_lookup K D4 x)
    by reflexivity.
  rewrite !Hat', !Hlk'.
  cbn [flows_putq flows_putq_tmr port_id_bitmap flow_table flows_removeq flows_removew
       set_flows_putq_tmr].
  splits; auto.
  - rewrite B, Hat3. apply bitmap_clear_same. cbn. fold f in Hport. lia.
  - rewrite T. apply hash_del_not_in.
  - now rewrite Hat4.
  - rewrite Hat4. cbn [flow_flags unlinked_flow set_flow_flags].
    unfold has_flag, set_flag. rewrite Z.land_lor_distr_l, Z.land_diag.
    apply negb_true_iff, Z.eqb_neq. intros H. apply Z.lor_eq_0_iff in H.
    destruct H as [_ H]. discriminate H.
  - rewrite B, Hat3. reflexivity.
Qed.

(** X20 — The unbound timeout.  A NEVER_BOUND flow at the head of the
    put-queue, left with the two references of its creation, is
    collected by [flows_putq_drain] once its expiration has passed: it
    leaves the put-queue, its port id is free again and is not found any
    more, the other port ids answer as before, and the flow, marked
    DEALLOCATED and without references, is handed to the removal worker.
    The entries behind it that have not expired stay queued, the timer
    is re-armed for the first of them, and the other flows are
    untouched. *)
Theorem X20_unbound_flow_collected (K : kernel) (jiffies : Z) (dm : rl_dm) (p : nat)
    (rest : list nat) :
  flow_table_inv K dm ->
  In p (Hash.for_each (flow_table dm)) ->
  flows_putq dm = p :: rest ->
  ~ In p rest ->
  flow_refcnt (flow_at dm p) = 2 ->
  has_flag (flow_flags (flow_at dm p)) RL_FLOW_NEVER_BOUND = true ->
  time_before jiffies (expires (flow_at dm p)) = false ->
  (forall q, hd_error rest = Some q -> time_before jiffies (expires (flow_at dm q)) = true) ->
  let dm' := flows_putq_drain K jiffies dm in
  let port := local_port (flow_at dm p) in
  flows_putq dm' = rest /\
  flows_putq_tmr dm' = option_map (fun q => expires (flow_at dm q)) (hd_error rest) /\
  flow_lookup K dm' port = None /\
  (forall port', port' <> port -> flow_lookup K dm' port' = flow_lookup K dm port') /\
  Z.testbit (port_id_bitmap dm') port = false /\
  ~ In p (Hash.for_each (flow_table dm')) /\
  flows_removeq dm' = flows_removeq dm ++ [p] /\
  flows_removew dm' = true /\
  flow_refcnt (flow_at dm' p) = 0 /\
  has_flag (flow_flags (flow_at dm' p)) RL_FLOW_DEALLOCATED = true /\
  (forall q, q <> p -> flow_at dm' q = flow_at dm q).
Proof.
  intros Hinv Hin Hq Hnin Hr Hnb Hexp Hrest dm' port.
  pose proof (flows_putq_drain_unbound K jiffies dm p rest Hinv Hin Hq Hnin Hr Hnb Hexp Hrest)
    as H.
  cbv zeta in H. fold dm' in H. fold port in H.
  destruct H as (H1 & H2 & H3 & H4 & H5 & H6 & H7 & H8 & H9 & H10 & H11 & _).
  splits; assumption.
Qed.

(** A table can be checked bucket by bucket. *)
Lemma hash_buckets_check (cond : nat -> nat -> bool) (t : list (list nat)) :
  forallb (fun hb => forallb (cond (fst hb)) (snd hb)) (combine (seq 0 (length t)) t) = true ->
  forall h p, In p (Hash.bucket t h) -> cond h p = true.
Proof.
  intros Hc h p Hin. rewrite forallb_forall in Hc.
  assert (Hcomb : forall (t : list (list nat)) k h,
             In p (nth h t []) -> In (k + h, nth h t [])%nat (combine (seq k (length t)) t)).
  { clear. induction t as [|b t IH]; intros k h Hin.
    - now destruct h.
    - cbn [length seq combine]. destruct h as [|h].
      + left. now rewrite Nat.add_0_r.
      + right. cbn [nth] in *. replace (k + S h)%nat with (S k + h)%nat by lia.
        now apply IH. }
  specialize (Hc _ (Hcomb t 0%nat h Hin)). cbn [fst snd] in Hc.
  rewrite forallb_forall in Hc. now apply Hc.
Qed.

Lemma example_dm_pending_flow_table_inv : flow_table_inv Example.K0 FlowExample.dm_pending.
Proof.
  assert (Hf : Hash.for_each (flow_table FlowExample.dm_pending) = [0%nat])
    by (vm_compute; reflexivity).
  assert (Hi : map (fun p => local_port (flow_at FlowExample.dm_pending p)) [0%nat] = [0])
    by (vm_compute; reflexivity).
  unfold flow_table_inv. rewrite Hf, Hi. splits.
  - vm_compute; reflexivity.
  - repeat constructor. intros [].
  - repeat constructor. intros [].
  - intros h p Hin.
    pose proof (hash_buckets_check
                  (fun h p =>
                     (p <? length (flow_mem FlowExample.dm_pending))%nat
                     && Nat.eqb (hash_min Example.K0
                                   (local_port (flow_at FlowExample.dm_pending p))
                                   PORT_ID_HASHTABLE_BITS) h
                     && (0 <=? local_port (flow_at FlowExample.dm_pending p))
                     && (local_port (flow_at FlowExample.dm_pending p) <? PORT_ID_BITMAP_SIZE)
                     && Z.testbit (port_id_bitmap FlowExample.dm_pending)
                          (local_port (flow_at FlowExample.dm_pending p)))
                  (flow_table FlowExample.dm_pending)) as Hc.
    cbv beta in Hc. specialize (Hc ltac:(vm_compute; reflexivity) h p Hin).
    rewrite !andb_true_iff in Hc. destruct Hc as ((((H1 & H2) & H3) & H4) & H5).
    apply Nat.ltb_lt in H1. apply Nat.eqb_eq in H2. apply Z.leb_le in H3.
    apply Z.ltb_lt in H4. splits; auto.
Qed.

Lemma X20_unbound_flow_collected_witness :
  flow_lookup Example.K0 (flows_putq_drain Example.K0 5000 FlowExample.dm_pending) 0 = None /\
  flows_removeq (flows_putq_drain Example.K0 5000 FlowExample.dm_pending) = [0%nat].
Proof.
  assert (Hf : Hash.for_each (flow_table FlowExample.dm_pending) = [0%nat])
    by (vm_compute; reflexivity).
  assert (Hq : flows_putq FlowExample.dm_pending = [0%nat]) by (vm_compute; reflexivity).
  assert (Hr : flow_refcnt (flow_at FlowExample.dm_pending 0) = 2) by (vm_compute; reflexivity).
  assert (Hnb : has_flag (flow_flags (flow_at FlowExample.dm_pending 0)) RL_FLOW_NEVER_BOUND
                = true) by (vm_compute; reflexivity).
  assert (Hexp : time_before 5000 (expires (flow_at FlowExample.dm_pending 0)) = false)
    by (vm_compute; reflexivity).
  assert (Hport : local_port (flow_at FlowExample.dm_pending 0) = 0)
    by (vm_compute; reflexivity).
  assert (Hrq : flows_removeq FlowExample.dm_pending = []) by (vm_compute; reflexivity).
  assert (Hin : In 0%nat (Hash.for_each (flow_table FlowExample.dm_pending)))
    by (rewrite Hf; now left).
  pose proof (X20_unbound_flow_collected Example.K0 5000 FlowExample.dm_pending 0 []
                example_dm_pending_flow_table_inv Hin Hq (fun H => H) Hr Hnb Hexp
                (fun q (H : hd_error [] = Some q) =>
                   False_ind _ (eq_ind None (fun o => match o with
                                                      | None => True
                                                      | Some _ => False
                                                      end) I _ H))) as X.
  cbv zeta in X. destruct X as (_ & _ & X3 & _ & _ & _ & X7 & _).
  rewrite Hport in X3. rewrite Hrq in X7. exact (conj X3 X7).
Defined.

Section ApplMoveFacts.

Variable K : kernel.

Lemma app_at_store_same (dm : rl_dm) (p : nat) (x : registered_appl) :
  (p < length (app_mem dm))%nat -> app_at (app_store dm p x) p = x.
Proof. intros H. unfold app_at, app_store. cbn. now apply deref_store_same. Qed.

Lemma app_at_store_other (dm : rl_dm) (p q : nat) (x : registered_appl) :
  p <> q -> app_at (app_store dm p x) q = app_at dm q.
Proof. intros H. unfold app_at, app_store. cbn. now apply deref_store_other. Qed.

(** The loop of [rl_appl_move] over distinct, allocated registrations. *)
Lemma appl_move_fold (rc dst : nat) :
  forall l d,
    NoDup l -> (forall a, In a l -> (a < length (app_mem d))%nat) ->
    let d' := fold_left
                (fun d app =>
                   if Nat.eqb (app_rc (app_at d app)) rc
                   then app_store d app (set_app_rc (app_at d app) dst)
                   else d) l d in
    d' = set_app_mem d (app_mem d') /\
    length (app_mem d') = length (app_mem d) /\
    (forall a, app_at d' a
               = if existsb (Nat.eqb a) l && Nat.eqb (app_rc (app_at d a)) rc
                 then set_app_rc (app_at d a) dst else app_at d a).
Proof.
  induction l as [|x l IH]; intros d Hnd Hval; cbn [fold_left].
  - cbv zeta. splits; auto. now destruct d.
  - inversion Hnd as [|? ? Hx Hnd']; subst.
    set (d1 := if Nat.eqb (app_rc (app_at d x)) rc
               then app_store d x (set_app_rc (app_at d x) dst) else d).
    assert (H1 : d1 = set_app_mem d (app_mem d1) /\ length (app_mem d1) = length (app_mem d)).
    { unfold d1. destruct (Nat.eqb _ rc).
      - unfold app_store. cbn. rewrite store_length. auto.
      - split; [now destruct d|reflexivity]. }
    destruct H1 as [E1 L1].
    assert (A1 : forall a, app_at d1 a
                           = if Nat.eqb a x && Nat.eqb (app_rc (app_at d a)) rc
                             then set_app_rc (app_at d a) dst else app_at d a).
    { intros a. unfold d1. destruct (Nat.eqb_spec a x) as [->|Hne]; cbn [andb].
      - destruct (Nat.eqb _ rc); [|reflexivity].
        apply app_at_store_same. apply Hval. now left.
      - destruct (Nat.eqb (app_rc (app_at d x)) rc); [|reflexivity].
        apply app_at_store_other. congruence. }
    destruct (IH d1 Hnd') as (E & L & A).
    { intros a Ha. rewrite L1. apply Hval. now right. }
    cbv zeta in *. splits.
    + rewrite E at 1. rewrite E1. reflexivity.
    + now rewrite L, L1.
    + intros a. rewrite A, A1. cbn [existsb].
      destruct (Nat.eqb_spec a x) as [->|Hne]; cbn [andb orb].
      * assert (Hex : existsb (Nat.eqb x) l = false).
        { destruct (existsb (Nat.eqb x) l) eqn:Ex; [|reflexivity].
          apply existsb_exists in Ex. destruct Ex as (y & Hy & Hxy).
          apply Nat.eqb_eq in Hxy. subst y. contradiction. }
        rewrite Hex. cbn [andb]. reflexivity.
      * reflexivity.
Qed.

End ApplMoveFacts.

(** X22 — [APPL_MOVE].  The request fails with [-EBADF] when the file
    descriptor is not a control device and with [-ENXIO] when the table
    does not hold the IPCP, and changes nothing.  Otherwise it returns
    0 and hands every registration of the IPCP that the requesting
    device owns over to the destination device; the registrations of
    other devices and of other IPCPs, and everything but the owner of
    the moved ones, are untouched.  Afterwards the requesting device
    owns no registration of the IPCP, unless it is the destination
    itself. *)
Theorem X22_appl_move (K : kernel) (dm : rl_dm) (rc : nat) (dst_rc : option nat) (id : Z) :
  (dst_rc = None -> rl_appl_move K dm rc dst_rc id = (- EBADF, dm)) /\
  (dst_rc <> None -> ipcp_lookup K dm id = None ->
   rl_appl_move K dm rc dst_rc id = (- ENXIO, dm)) /\
  (forall dst p,
      dst_rc = Some dst ->
      ipcp_lookup K dm id = Some p ->
      (p < length (ipcp_mem dm))%nat ->
      0 < ipcp_refcnt (ipcp_at dm p) < 2 ^ 32 - 1 ->
      NoDup (registered_appls (ipcp_at dm p)) ->
      (forall a, In a (registered_appls (ipcp_at dm p)) -> (a < length (app_mem dm))%nat) ->
      let res := rl_appl_move K dm rc dst_rc id in
      fst res = 0 /\
      snd res = set_app_mem dm (app_mem (snd res)) /\
      (forall a,
          app_at (snd res) a
          = if existsb (Nat.eqb a) (registered_appls (ipcp_at dm p))
               && Nat.eqb (app_rc (app_at dm a)) rc
            then set_app_rc (app_at dm a) dst else app_at dm a) /\
      (dst <> rc ->
       forall a, In a (registered_appls (ipcp_at dm p)) -> app_rc (app_at (snd res) a) <> rc)).
Proof.
  splits.
  - intros ->. reflexivity.
  - intros Hd Hlk. unfold rl_appl_move, __ipcp_get. rewrite Hlk.
    destruct dst_rc; [reflexivity|contradiction].
  - intros dst p -> Hlk Hp Hr Hnd Hval. cbv zeta.
    set (e1 := set_ipcp_refcnt (ipcp_at dm p) (ipcp_refcnt (ipcp_at dm p) + 1)).
    set (dm1 := ipcp_store dm p e1).
    assert (Hat1 : ipcp_at dm1 p = e1) by (unfold dm1; now apply ipcp_at_store_same).
    destruct (appl_move_fold rc dst (registered_appls (ipcp_at dm p)) dm1 Hnd Hval)
      as (E & L & A).
    cbv zeta in E, L, A.
    set (dm2 := fold_left _ (registered_appls (ipcp_at dm p)) dm1) in *.
    assert (Hat2 : ipcp_at dm2 p = e1) by (rewrite E; exact Hat1).
    assert (Hres : rl_appl_move K dm rc (Some dst) id = (0, set_app_mem dm (app_mem dm2))).
    { unfold rl_appl_move. rewrite (ipcp_get_live K dm id p Hlk) by lia.
      fold e1. fold dm1. rewrite Hat1.
      change (registered_appls e1) with (registered_appls (ipcp_at dm p)). fold dm2.
      f_equal.
      rewrite ipcp_put_not_last by (rewrite Hat2; cbn; lia).
      cbn [snd]. rewrite Hat2. cbn [ipcp_refcnt e1 set_ipcp_refcnt].
      replace (ipcp_refcnt (ipcp_at dm p) + 1 - 1) with (ipcp_refcnt (ipcp_at dm p)) by lia.
      rewrite E. unfold dm1, ipcp_store, set_app_mem. cbn -[store deref].
      rewrite store_store.
      assert (Hback : store (ipcp_mem dm) p
                        (set_ipcp_refcnt e1 (ipcp_refcnt (ipcp_at dm p)))
                      = ipcp_mem dm).
      { transitivity (store (ipcp_mem dm) p (ipcp_at dm p)).
        - f_equal. unfold e1. now destruct (ipcp_at dm p).
        - apply store_deref_id. }
      rewrite Hback. reflexivity. }
    rewrite Hres. cbn [fst snd].
    assert (A' : forall a, app_at (set_app_mem dm (app_mem dm2)) a
                           = if existsb (Nat.eqb a) (registered_appls (ipcp_at dm p))
                                && Nat.eqb (app_rc (app_at dm a)) rc
                             then set_app_rc (app_at dm a) dst else app_at dm a).
    { intros a. exact (A a). }
    splits; auto.
    intros Hne a Ha. rewrite A'.
    assert (Hex : existsb (Nat.eqb a) (registered_appls (ipcp_at dm p)) = true).
    { apply existsb_exists. exists a. split; [exact Ha|apply Nat.eqb_refl]. }
    rewrite Hex. cbn [andb].
    destruct (Nat.eqb_spec (app_rc (app_at dm a)) rc) as [Heq|Hneq]; cbn; congruence.
Qed.

Lemma X22_appl_move_witness :
  app_rc (app_at (snd (rl_appl_move Example.K0 ApplExample.dm_srv 0 (Some 5%nat) 1)) 0) = 5%nat.
Proof.
  assert (Hlk : ipcp_lookup Example.K0 ApplExample.dm_srv 1 = Some 1%nat)
    by (vm_compute; reflexivity).
  assert (Hp : (1 < length (ipcp_mem ApplExample.dm_srv))%nat) by (vm_compute; lia).
  assert (Hr : ipcp_refcnt (ipcp_at ApplExample.dm_srv 1) = 2) by (vm_compute; reflexivity).
  assert (Hregs : registered_appls (ipcp_at ApplExample.dm_srv 1) = [0%nat])
    by (vm_compute; reflexivity).
  assert (Hl : length (app_mem ApplExample.dm_srv) = 1%nat) by (vm_compute; reflexivity).
  assert (Hrc : app_rc (app_at ApplExample.dm_srv 0) = 0%nat) by (vm_compute; reflexivity).
  assert (Hr' : 0 < ipcp_refcnt (ipcp_at ApplExample.dm_srv 1) < 2 ^ 32 - 1)
    by (rewrite Hr; lia).
  assert (Hnd : NoDup (registered_appls (ipcp_at ApplExample.dm_srv 1))).
  { rewrite Hregs. repeat constructor. intros []. }
  assert (Hval : forall a, In a (registered_appls (ipcp_at ApplExample.dm_srv 1)) ->
                           (a < length (app_mem ApplExample.dm_srv))%nat).
  { rewrite Hregs, Hl. intros a [<-|[]]. lia. }
  pose proof (proj2 (proj2 (X22_appl_move Example.K0 ApplExample.dm_srv 0 (Some 5%nat) 1))
                5%nat 1%nat eq_refl Hlk Hp Hr' Hnd Hval) as X.
  cbv zeta in X. destruct X as (_ & _ & X3 & _).
  rewrite X3, Hregs, Hrc. reflexivity.
Defined.

Section HasFlowsFacts.

(** The scan of [rl_ipcp_has_flows], with or without the early exit. *)
Lemma has_flows_scan_eq (dm : rl_dm) (ipcp : nat) (report_all : bool) :
  forall l acc,
    has_flows_scan dm ipcp report_all acc l
    = acc || existsb (fun flow =>
                        Nat.eqb (txrx_ipcp (flow_at dm flow)) ipcp
                        || match upper_ipcp (flow_at dm flow) with
                           | Some u => Nat.eqb u ipcp
                           | None => false
                           end) l.
Proof.
  induction l as [|flow l IH]; intros acc; cbn [has_flows_scan existsb].
  - now rewrite orb_false_r.
  - cbv zeta.
    destruct (Nat.eqb (txrx_ipcp (flow_at dm flow)) ipcp);
      destruct (upper_ipcp (flow_at dm flow)) as [u|]; try destruct (Nat.eqb u ipcp);
      destruct report_all; destruct acc; cbn; rewrite ?IH; cbn;
      rewrite ?orb_true_r; reflexivity.
Qed.

End HasFlowsFacts.

(** X23 — [rl_ipcp_has_flows].  The answer is true exactly when some
    flow linked in the flow table uses the IPCP, as the IPCP that
    carries it or as the IPCP above it; flows that are not linked do not
    count, and the answer does not depend on [report_all]. *)
Theorem X23_ipcp_has_flows (dm : rl_dm) (ipcp : nat) (report_all : bool) :
  (rl_ipcp_has_flows dm ipcp report_all = true <->
   exists flow,
     In flow (Hash.for_each (flow_table dm)) /\
     (txrx_ipcp (flow_at dm flow) = ipcp \/ upper_ipcp (flow_at dm flow) = Some ipcp)) /\
  rl_ipcp_has_flows dm ipcp report_all = rl_ipcp_has_flows dm ipcp (negb report_all) /\
  (Hash.for_each (flow_table dm) = [] -> rl_ipcp_has_flows dm ipcp report_all = false).
Proof.
  unfold rl_ipcp_has_flows. rewrite !has_flows_scan_eq. cbn [orb]. splits.
  - rewrite existsb_exists. split.
    + intros (flow & Hin & H). exists flow. split; [exact Hin|].
      apply orb_true_iff in H. destruct H as [H|H].
      * left. now apply Nat.eqb_eq.
      * right. destruct (upper_ipcp (flow_at dm flow)) as [u|]; [|discriminate].
        apply Nat.eqb_eq in H. now subst.
    + intros (flow & Hin & [H|H]); exists flow; (split; [exact Hin|]).
      * rewrite H, Nat.eqb_refl. reflexivity.
      * rewrite H, Nat.eqb_refl. apply orb_true_r.
  - reflexivity.
  - intros ->. reflexivity.
Qed.

(** X24 — [IPCP_PDUFT_FLUSH].  The request fails with [-EINVAL] when
    the table does not hold the IPCP; otherwise it returns what the
    [pduft_flush] hook of the IPCP returns, and 0 when the IPCP has no
    such hook.  In no case does it change the data model. *)
Theorem X24_pduft_flush (K : kernel) (dm : rl_dm) (id : Z) :
  (ipcp_lookup K dm id = None -> rl_ipcp_pduft_flush K dm id = (- EINVAL, dm)) /\
  (forall p,
      ipcp_lookup K dm id = Some p ->
      (p < length (ipcp_mem dm))%nat ->
      0 < ipcp_refcnt (ipcp_at dm p) < 2 ^ 32 - 1 ->
      rl_ipcp_pduft_flush K dm id
      = (match ops_pduft_flush (ops (ipcp_at dm p)) with
         | Some ret => ret
         | None => 0
         end, dm)).
Proof.
  split.
  - intros H. unfold rl_ipcp_pduft_flush, __ipcp_get. now rewrite H.
  - intros p Hlk Hp Hr. unfold rl_ipcp_pduft_flush.
    rewrite (ipcp_get_live K dm id p Hlk) by lia.
    unfold ipcp_pduft_flush. rewrite ipcp_at_store_same by exact Hp.
    cbn [ops set_ipcp_refcnt]. f_equal.
    rewrite ipcp_store_get_put by (auto; cbn; lia). cbn [snd ipcp_refcnt set_ipcp_refcnt].
    replace (ipcp_refcnt (ipcp_at dm p) + 1 - 1) with (ipcp_refcnt (ipcp_at dm p)) by lia.
    replace (set_ipcp_refcnt _ _) with (ipcp_at dm p) by now destruct (ipcp_at dm p).
    apply ipcp_store_self.
Qed.

Lemma X24_pduft_flush_witness :
  rl_ipcp_pduft_flush Example.K0 IpcpExample.dm3 1 = (0, IpcpExample.dm3).
Proof.
  assert (Hlk : ipcp_lookup Example.K0 IpcpExample.dm3 1 = Some 1%nat)
    by (vm_compute; reflexivity).
  assert (Hp : (1 < length (ipcp_mem IpcpExample.dm3))%nat) by (vm_compute; lia).
  assert (Hr : ipcp_refcnt (ipcp_at IpcpExample.dm3 1) = 1) by (vm_compute; reflexivity).
  assert (Hops : ops_pduft_flush (ops (ipcp_at IpcpExample.dm3 1)) = None)
    by (vm_compute; reflexivity).
  assert (Hr' : 0 < ipcp_refcnt (ipcp_at IpcpExample.dm3 1) < 2 ^ 32 - 1)
    by (rewrite Hr; lia).
  pose proof (proj2 (X24_pduft_flush Example.K0 IpcpExample.dm3 1) 1%nat Hlk Hp Hr') as X.
  rewrite Hops in X. exact X.
Defined.

Section FetchFailFacts.

Variable K : kernel.
Hypothesis sizeof_nonneg : 0 <= sizeof_upqueue_entry K.

(** An append that does not fit fails at once and leaves the device. *)
Lemma rl_upqueue_append_atomic_full (rc : rl_ctrl) (m : rl_msg) :
  upqueue_inv K rc -> msg_fits K m ->
  RL_UPQUEUE_SIZE_MAX
  < upqueue_bytes K (upqueue rc) + (serlen (upqueue_entry_of K m) + sizeof_upqueue_entry K) ->
  rl_upqueue_append_atomic K rc m = (- ENOSPC, rc).
Proof.
  intros Hinv Hfit Hfull.
  pose proof (upqueue_entry_of_ok K sizeof_nonneg m Hfit) as He.
  unfold rl_upqueue_append_atomic, rl_upqueue_append. simpl.
  rewrite (upqueue_full_test K sizeof_nonneg rc _ Hinv He).
  apply Z.ltb_lt in Hfull. now rewrite Hfull.
Qed.

(** Without memory the snapshot stays empty, and so does the queue when
    the terminator cannot be allocated either. *)
Lemma flow_fetch_snapshot_nomem (dm : rl_dm) (id : Z) (allocs : list bool) :
  forall entries,
    let r := flow_fetch_snapshot K dm id entries [] (false :: false :: allocs) in
    fst r = [] /\ fst (rl_alloc (snd r)) = false.
Proof.
  induction entries as [|entry rest IH]; cbn [flow_fetch_snapshot].
  - cbv zeta. split; reflexivity.
  - destruct (negb (id =? 65535) && _).
    + exact IH.
    + cbv zeta. cbn. split; reflexivity.
Qed.

End FetchFailFacts.

(** X25 — A fetch that cannot deliver.  With a valid filter: when the
    fetch queue of the device is empty and neither a snapshot entry nor
    the terminator can be allocated, [FLOW_FETCH] fails with [-ENOMEM]
    and changes nothing.  When an enumeration is in progress, the head
    of the fetch queue is popped before the append: if the append fails,
    with [-ENOMEM] for its allocations or with [-ENOSPC] for a full
    upstream queue, the entry is lost; the upstream queue is unchanged
    and the fetch queue is left with the remaining entries. *)
Theorem X25_fetch_entry_lost (K : kernel) (dm : rl_dm) (rc : nat) (ev id : Z)
    (allocs : list bool) (alloc_ok : bool) :
  0 <= sizeof_upqueue_entry K ->
  fetch_filter_ok K dm id ->
  upqueue_inv K (rc_at dm rc) ->
  let req := {| ff_event_id := ev; ff_ipcp_id := id |} in
  (flows_fetch_q (rc_at dm rc) = [] ->
   rl_flow_fetch K dm rc req (false :: false :: allocs) alloc_ok = (- ENOMEM, dm)) /\
  (forall fqe rest,
      flows_fetch_q (rc_at dm rc) = fqe :: rest ->
      let resp := RLITE_KER_FLOW_FETCH_RESP (set_ffr_event_id fqe ev) in
      let lost := rc_store dm rc (set_flows_fetch_q (rc_at dm rc) rest) in
      msg_fits K resp ->
      (alloc_ok = false -> rl_flow_fetch K dm rc req allocs alloc_ok = (- ENOMEM, lost)) /\
      (alloc_ok = true ->
       RL_UPQUEUE_SIZE_MAX
       < upqueue_bytes K (upqueue (rc_at dm rc))
         + (serlen (upqueue_entry_of K resp) + sizeof_upqueue_entry K) ->
       rl_flow_fetch K dm rc req allocs alloc_ok = (- ENOSPC, lost)) /\
      ((rc < length (rc_mem dm))%nat ->
       flows_fetch_q (rc_at lost rc) = rest /\
       upqueue (rc_at lost rc) = upqueue (rc_at dm rc) /\
       upqueue_size (rc_at lost rc) = upqueue_size (rc_at dm rc))).
Proof.
  intros Hsz Hok Hinv req. split.
  - intros Hq. unfold rl_flow_fetch. cbn [ff_ipcp_id ff_event_id req].
    rewrite (fetch_validate K dm id Hok). cbv zeta. rewrite Hq.
    destruct (flow_fetch_snapshot_nomem K dm id allocs (Hash.for_each (flow_table dm)))
      as [H1 H2].
    destruct (flow_fetch_snapshot K dm id (Hash.for_each (flow_table dm)) []
                (false :: false :: allocs)) as [q1 allocs1].
    cbn [fst snd] in H1, H2. rewrite H2, H1. reflexivity.
  - intros fqe rest Hq resp lost Hfit.
    assert (Hgen : forall r,
               (if alloc_ok
                then rl_upqueue_append_atomic K (set_flows_fetch_q (rc_at dm rc) rest) resp
                else (- ENOMEM, set_flows_fetch_q (rc_at dm rc) rest))
               = (r, set_flows_fetch_q (rc_at dm rc) rest) ->
               rl_flow_fetch K dm rc req allocs alloc_ok = (r, lost)).
    { intros r Hr. unfold rl_flow_fetch. cbn [ff_ipcp_id ff_event_id req].
      rewrite (fetch_validate K dm id Hok). cbv zeta.
      refine ((fun Hg : forall q : list rl_kmsg_flow_fetch_resp, q = fqe :: rest ->
                         match
                           match q with
                           | [] =>
                               let (q1, allocs1) :=
                                 flow_fetch_snapshot K dm id (Hash.for_each (flow_table dm))
                                   [] allocs in
                               if fst (rl_alloc allocs1) then q1 ++ [flow_fetch_end] else q1
                           | _ :: _ => q
                           end
                         with
                         | [] => (- ENOMEM, dm)
                         | fqe0 :: rest0 =>
                             let (ret, rc2) :=
                               if alloc_ok
                               then rl_upqueue_append_atomic K
                                      (set_flows_fetch_q (rc_at dm rc) rest0)
                                      (RLITE_KER_FLOW_FETCH_RESP (set_ffr_event_id fqe0 ev))
                               else (- ENOMEM, set_flows_fetch_q (rc_at dm rc) rest0) in
                             (ret, rc_store dm rc rc2)
                         end = _ => Hg _ Hq) _).
      intros q ->. fold resp. rewrite Hr. reflexivity. }
    splits.
    + intros ->. apply Hgen. reflexivity.
    + intros -> Hfull. apply Hgen.
      apply (rl_upqueue_append_atomic_full K Hsz); auto.
    + intros Hrc. unfold lost. rewrite rc_at_store_same by exact Hrc. splits; reflexivity.
Qed.

Lemma X25_fetch_entry_lost_witness :
  rl_flow_fetch Example.K0 FetchExample.dm_regs 0 (FetchExample.flow_fetch 1 65535)
    [false; false] true
  = (- ENOMEM, FetchExample.dm_regs).
Proof.
  assert (Hq : flows_fetch_q (rc_at FetchExample.dm_regs 0) = []) by (vm_compute; reflexivity).
  assert (Hinv : upqueue_inv Example.K0 (rc_at FetchExample.dm_regs 0)).
  { assert (Hu : upqueue (rc_at FetchExample.dm_regs 0) = []) by (vm_compute; reflexivity).
    assert (Hs : upqueue_size (rc_at FetchExample.dm_regs 0) = 0) by (vm_compute; reflexivity).
    unfold upqueue_inv. rewrite Hu, Hs. splits; [constructor|reflexivity|discriminate]. }
  refine (proj1 (X25_fetch_entry_lost Example.K0 FetchExample.dm_regs 0 1 65535 [] true
                   _ (or_introl eq_refl) Hinv) Hq).
  discriminate.
Defined.

(** X26 — A failed [IPCP_CONFIG_GET_REQ] changes nothing.  The request
    fails with [-EINVAL] when the parameter name is NULL and when the
    table does not hold the IPCP.  On an IPCP of the table, a hook of
    the factory that answers an error other than [-ENOSYS] has this
    error returned; when the hook is absent or answers [-ENOSYS], a
    name other than "txhdroom", "rxhdroom", "mss" and
    "flow-del-wait-ms" fails with [-EINVAL].  In all these cases the
    call returns without sleeping, queues no response and leaves the
    data model as it was. *)
Theorem X26_config_get_failure (K : kernel) (jiffies : Z) (env : list upq_wait) (dm : rl_dm)
    (rc : nat) (req : rl_kmsg_ipcp_config_get_req) :
  (icg_param_name req = None \/ ipcp_lookup K dm (icg_ipcp_id req) = None ->
   rl_ipcp_config_get K jiffies env dm rc req = Some (- EINVAL, dm)) /\
  (forall name p,
      icg_param_name req = Some name ->
      ipcp_lookup K dm (icg_ipcp_id req) = Some p ->
      (p < length (ipcp_mem dm))%nat ->
      0 < ipcp_refcnt (ipcp_at dm p) < 2 ^ 32 - 1 ->
      (forall hook,
          ops_config_get (ops (ipcp_at dm p)) = Some hook ->
          fst (hook name) <> - ENOSYS -> fst (hook name) <> 0 ->
          rl_ipcp_config_get K jiffies env dm rc req = Some (fst (hook name), dm)) /\
      (config_get_unhandled (ipcp_at dm p) name ->
       name <> "txhdroom"%string -> name <> "rxhdroom"%string -> name <> "mss"%string ->
       name <> "flow-del-wait-ms"%string ->
       rl_ipcp_config_get K jiffies env dm rc req = Some (- EINVAL, dm))).
Proof.
  split.
  - unfold rl_ipcp_config_get. intros [H|H].
    + now rewrite H.
    + destruct (icg_param_name req); auto. unfold __ipcp_get. now rewrite H.
  - intros name p Hn Hlk Hp Hr.
    assert (Hback : snd (__ipcp_put K
                           (ipcp_store dm p
                              (set_ipcp_refcnt (ipcp_at dm p) (ipcp_refcnt (ipcp_at dm p) + 1)))
                           (Some p)) = dm).
    { rewrite ipcp_store_get_put by (auto; cbn; lia).
      cbn [snd ipcp_refcnt set_ipcp_refcnt].
      replace (ipcp_refcnt (ipcp_at dm p) + 1 - 1) with (ipcp_refcnt (ipcp_at dm p)) by lia.
      replace (set_ipcp_refcnt _ _) with (ipcp_at dm p) by now destruct (ipcp_at dm p).
      apply ipcp_store_self. }
    assert (Hfail : forall r v,
               r <> 0 ->
               (let '(ret0, valbuf0) :=
                  match ops_config_get (ops (ipcp_at dm p)) with
                  | Some hook => hook name
                  | None => (- ENOSYS, EmptyString)
                  end in
                if ret0 =? - ENOSYS
                then ipcp_config_get_core (ipcp_at dm p) name
                else (ret0, valbuf0)) = (r, v) ->
               rl_ipcp_config_get K jiffies env dm rc req = Some (r, dm)).
    { intros r v Hr0 Hout. unfold rl_ipcp_config_get. rewrite Hn.
      rewrite (ipcp_get_live K dm (icg_ipcp_id req) p Hlk) by lia.
      rewrite ipcp_at_store_same by exact Hp.
      change (ops (set_ipcp_refcnt (ipcp_at dm p) (ipcp_refcnt (ipcp_at dm p) + 1)))
        with (ops (ipcp_at dm p)).
      assert (Hcore : ipcp_config_get_core
                        (set_ipcp_refcnt (ipcp_at dm p) (ipcp_refcnt (ipcp_at dm p) + 1)) name
                      = ipcp_config_get_core (ipcp_at dm p) name) by reflexivity.
      rewrite Hcore.
      destruct (match ops_config_get (ops (ipcp_at dm p)) with
                | Some hook => hook name
                | None => (- ENOSYS, EmptyString)
                end) as [ret0 valbuf0].
      rewrite Hout. apply Z.eqb_neq in Hr0. rewrite Hr0. now rewrite Hback. }
    split.
    + intros hook Hh Hne Hnz. apply (Hfail _ (snd (hook name))); [exact Hnz|].
      rewrite Hh. destruct (hook name) as [r0 v0]. cbn [fst snd] in *.
      apply Z.eqb_neq in Hne. now rewrite Hne.
    + intros Hun N1 N2 N3 N4. apply (Hfail _ EmptyString); [discriminate|].
      assert (Hcore : ipcp_config_get_core (ipcp_at dm p) name = (- EINVAL, EmptyString)).
      { unfold ipcp_config_get_core.
        apply String.eqb_neq in N1, N2, N3, N4. now rewrite N1, N2, N3, N4. }
      unfold config_get_unhandled in Hun.
      destruct (ops_config_get (ops (ipcp_at dm p))) as [hook|].
      * destruct (hook name) as [r0 v0]. cbn [fst] in Hun. subst r0.
        now rewrite Z.eqb_refl.
      * now rewrite Z.eqb_refl.
Qed.

Lemma X26_config_get_failure_witness :
  rl_ipcp_config_get Example.K0 0 [] ConfigExample.dm_dev 0
    {| icg_event_id := 2; icg_ipcp_id := 1; icg_param_name := Some "mtu"%string |}
  = Some (- EINVAL, ConfigExample.dm_dev).
Proof.
  assert (Hlk : ipcp_lookup Example.K0 ConfigExample.dm_dev 1 = Some 1%nat)
    by (vm_compute; reflexivity).
  assert (Hr : ipcp_refcnt (ipcp_at ConfigExample.dm_dev 1) = 1) by (vm_compute; reflexivity).
  assert (Hp : (1 < length (ipcp_mem ConfigExample.dm_dev))%nat) by (vm_compute; lia).
  assert (Hr' : 0 < ipcp_refcnt (ipcp_at ConfigExample.dm_dev 1) < 2 ^ 32 - 1)
    by (rewrite Hr; lia).
  assert (Hun : config_get_unhandled (ipcp_at ConfigExample.dm_dev 1) "mtu").
  { vm_compute. exact I. }
  refine (proj2 (proj2 (X26_config_get_failure Example.K0 0 [] ConfigExample.dm_dev 0
                          {| icg_event_id := 2; icg_ipcp_id := 1;
                             icg_param_name := Some "mtu"%string |})
                   "mtu"%string 1%nat eq_refl Hlk Hp Hr') Hun _ _ _ _); discriminate.
Defined.

Section IpcpUnlinkFacts.

Variable K : kernel.

(** Unlinking an IPCP frees its id; the other ids answer as before. *)
Lemma ipcp_table_unlink (dm dm' : rl_dm) (p : nat) :
  ipcp_table_inv K dm ->
  In p (Hash.for_each (ipcp_table dm)) ->
  ipcp_table dm' = Hash.del (ipcp_table dm) p ->
  (forall q, q <> p -> ipcp_at dm' q = ipcp_at dm q) ->
  ipcp_lookup K dm' (ipcp_id (ipcp_at dm p)) = None /\
  (forall id', id' <> ipcp_id (ipcp_at dm p) ->
                 ipcp_lookup K dm' id' = ipcp_lookup K dm id').
Proof.
  intros Hinv Hin Htab Hother.
  pose proof Hinv as (_ & Hnd & Hids & _).
  assert (Huniq : forall q, In q (Hash.for_each (ipcp_table dm)) -> q <> p ->
                            ipcp_id (ipcp_at dm q) <> ipcp_id (ipcp_at dm p)).
  { intros q Hq Hne E.
    apply in_split in Hin. destruct Hin as (l1 & l2 & Hl).
    rewrite Hl in Hq, Hids, Hnd. rewrite map_app in Hids. cbn [map] in Hids.
    apply NoDup_remove_2 in Hids. apply Hids. rewrite <- E, <- map_app.
    apply (in_map (fun x => ipcp_id (ipcp_at dm x))).
    apply in_app_or in Hq. apply in_or_app.
    destruct Hq as [Hq|[Hq|Hq]]; auto. congruence. }
  split.
  - unfold ipcp_lookup. rewrite Htab, hash_bucket_del.
    destruct (find _ _) as [q|] eqn:E; [|reflexivity].
    apply find_some in E. destruct E as [Hq E]. apply filter_In in Hq.
    destruct Hq as [Hq Hne]. apply negb_true_iff, Nat.eqb_neq in Hne.
    apply Z.eqb_eq in E. rewrite Hother in E by exact Hne.
    apply hash_bucket_in_for_each in Hq. now apply Huniq in E.
  - intros id' Hne. unfold ipcp_lookup. rewrite Htab, hash_bucket_del.
    rewrite (find_ext_in _ (fun q => ipcp_id (ipcp_at dm q) =? id')).
    + apply find_filter_other. intros q Hq Hg.
      apply negb_false_iff, Nat.eqb_eq in Hg. subst q. apply Z.eqb_neq. congruence.
    + intros q Hq. apply filter_In in Hq. destruct Hq as [_ Hq].
      apply negb_true_iff, Nat.eqb_neq in Hq. now rewrite Hother.
Qed.

End IpcpUnlinkFacts.

Section DestroyLastFacts.

Variable K : kernel.

Lemma rl_upqueue_append_atomic_flags (rc : rl_ctrl) (m : rl_msg) :
  rc_flags (snd (rl_upqueue_append_atomic K rc m)) = rc_flags rc.
Proof.
  unfold rl_upqueue_append_atomic, rl_upqueue_append. cbn [negb].
  rewrite upqueue_append_loop_atomic. now destruct (_ <? _).
Qed.

Lemma dif_put_ext (d d0 : rl_dm) (x : option nat) :
  dif_mem d = dif_mem d0 -> difs d = difs d0 ->
  dif_mem (dif_put d x) = dif_mem (dif_put d0 x) /\ difs (dif_put d x) = difs (dif_put d0 x).
Proof.
  intros Hm Hd. unfold dif_put. destruct x as [x|]; [|auto].
  cbv zeta. unfold dif_at. rewrite Hm.
  destruct (negb _); unfold dif_store; cbn; rewrite ?Hm, ?Hd; auto.
Qed.

Lemma dif_put_other_fields (d : rl_dm) (x : option nat) :
  flow_mem (dif_put d x) = flow_mem d /\ app_mem (dif_put d x) = app_mem d.
Proof.
  unfold dif_put. destruct x as [x|]; [|auto]. cbv zeta. now destruct (negb _).
Qed.

(** [ipcp_del] of a live IPCP that has no registered application and
    that only the table references: the last reference goes. *)
Lemma ipcp_del_last (dm : rl_dm) (id : Z) (p : nat) :
  ipcp_lookup K dm id = Some p ->
  (p < length (ipcp_mem dm))%nat ->
  id < IPCP_ID_BITMAP_SIZE ->
  ipcp_refcnt (ipcp_at dm p) = 1 ->
  ipcp_is_zombie dm p = false ->
  registered_appls (ipcp_at dm p) = [] ->
  let e := ipcp_at dm p in
  let gone := set_ipcp_refcnt
                (set_ipcp_flags e (set_flag (ipcp_flags e) RL_K_IPCP_ZOMBIE)) 0 in
  let dm1 := ipcp_store (set_flow_mem dm (rl_iodevs_shutdown_by_ipcp K (flow_mem dm) p))
               p gone in
  let dm2 := set_ipcp_id_bitmap (set_ipcp_table dm1 (Hash.del (ipcp_table dm) p))
               (Bitmap.clear (ipcp_id_bitmap dm) (ipcp_id e)) in
  ipcp_del K dm id
  = (0, upqueue_broadcast K (dif_put dm2 (ipcp_dif e))
          (ipcp_del_update RL_IPCP_UPDATE_DEL (ipcp_id e))).
Proof.
  intros Hlk Hp Hid Hr Hz Happs e gone dm1 dm2. unfold ipcp_del.
  assert (E : (IPCP_ID_BITMAP_SIZE <=? id) = false) by (apply Z.leb_gt; lia).
  rewrite E.
  destruct (ipcp_get_put_id K dm id p Hlk Hp ltac:(lia)) as (H1 & _ & H3).
  destruct (__ipcp_get K dm id) as [o dmg]. cbn [fst snd] in H1, H3. subst o.
  rewrite H3. cbn [snd]. unfold ipcp_is_zombie in Hz. rewrite Hz.
  fold e.
  set (eZ := set_ipcp_flags e (set_flag (ipcp_flags e) RL_K_IPCP_ZOMBIE)).
  assert (Hat3 : ipcp_at (ipcp_store dm p eZ) p = eZ) by now apply ipcp_at_store_same.
  rewrite Hat3. change (registered_appls eZ) with (registered_appls e).
  unfold e at 1. rewrite Happs. cbn [fold_left].
  set (dm6 := set_flow_mem (ipcp_store dm p eZ) _).
  assert (Hat6 : ipcp_at dm6 p = eZ) by exact Hat3.
  unfold __ipcp_put. rewrite Hat6. cbv zeta.
  assert (Hr' : ipcp_refcnt e = 1) by exact Hr.
  change (ipcp_refcnt eZ) with (ipcp_refcnt e). rewrite Hr'.
  change (negb (u32 (1 - 1) =? 0)) with false. cbv iota.
  change (u32 (1 - 1)) with 0.
  f_equal. f_equal. f_equal.
  unfold dm2, dm1, dm6, ipcp_store. cbn -[store Hash.del Bitmap.clear].
  rewrite store_store. reflexivity.
Qed.

End DestroyLastFacts.

(** X27 — [IPCP_DESTROY] of an IPCP that nothing else references.  On
    a well-formed table, for a live IPCP without registered
    applications whose only reference is the one of the table, the
    request returns 0 and removes the IPCP: its id is free in the bitmap
    and is not found any more, every other id answers as before and the
    other IPCPs are untouched; its flows are shut down and its DIF
    loses a reference.  Every open device that subscribed to the IPCP
    updates gets the [DEL] update of the last release and then the
    [UIPCP_DEL] update of the request, each dropped if the queue is
    full; no other device is touched.  A second request for the id fails
    with [-ENXIO] and changes nothing. *)
Theorem X27_ipcp_destroy_last (K : kernel) (dm : rl_dm) (id : Z) (p : nat) :
  ipcp_table_inv K dm ->
  ipcp_lookup K dm id = Some p ->
  ipcp_refcnt (ipcp_at dm p) = 1 ->
  ipcp_is_zombie dm p = false ->
  registered_appls (ipcp_at dm p) = [] ->
  NoDup (ctrl_devs dm) ->
  (forall rc, In rc (ctrl_devs dm) -> (rc < length (rc_mem dm))%nat) ->
  let res := rl_ipcp_destroy K dm id in
  fst res = 0 /\
  ipcp_lookup K (snd res) id = None /\
  (forall id', id' <> id -> ipcp_lookup K (snd res) id' = ipcp_lookup K dm id') /\
  Z.testbit (ipcp_id_bitmap (snd res)) id = false /\
  ~ In p (Hash.for_each (ipcp_table (snd res))) /\
  (forall q, q <> p -> ipcp_at (snd res) q = ipcp_at dm q) /\
  flow_mem (snd res) = rl_iodevs_shutdown_by_ipcp K (flow_mem dm) p /\
  dif_mem (snd res) = dif_mem (dif_put dm (ipcp_dif (ipcp_at dm p))) /\
  difs (snd res) = difs (dif_put dm (ipcp_dif (ipcp_at dm p))) /\
  (forall rc,
      rc_at (snd res) rc
      = if existsb (Nat.eqb rc) (ctrl_devs dm) && has_flag (rc_flags (rc_at dm rc)) RL_F_IPCPS
        then snd (rl_upqueue_append_atomic K
                    (snd (rl_upqueue_append_atomic K (rc_at dm rc)
                            (ipcp_del_update RL_IPCP_UPDATE_DEL id)))
                    (ipcp_del_update RL_IPCP_UPDATE_UIPCP_DEL id))
        else rc_at dm rc) /\
  rl_ipcp_destroy K (snd res) id = (- ENXIO, snd res).
Proof.
  intros Hinv Hlk Hr Hz Happs Hnd Hval res.
  destruct (ipcp_lookup_id K dm id p Hlk) as [Hidp Hin0].
  pose proof (hash_bucket_in_for_each _ _ _ Hin0) as Hin.
  destruct (ipcp_table_inv_linked K dm p Hinv Hin) as (Hp & _ & Hrange & _).
  rewrite Hidp in Hrange.
  pose proof (ipcp_del_last K dm id p Hlk Hp ltac:(lia) Hr Hz Happs) as Hdel.
  cbv zeta in Hdel. rewrite Hidp in Hdel.
  set (gone := set_ipcp_refcnt _ 0) in Hdel.
  set (dm2 := set_ipcp_id_bitmap _ _) in Hdel.
  set (X := dif_put dm2 (ipcp_dif (ipcp_at dm p))) in Hdel.
  destruct (dif_put_frame dm2 (ipcp_dif (ipcp_at dm p))) as (F1 & F2 & F3 & F4 & F5).
  destruct (dif_put_other_fields dm2 (ipcp_dif (ipcp_at dm p))) as (F6 & _).
  destruct (dif_put_ext dm2 dm (ipcp_dif (ipcp_at dm p)) eq_refl eq_refl) as (F7 & F8).
  fold X in F1, F2, F3, F4, F5, F6, F7, F8.
  destruct (upqueue_broadcast_at K X (ipcp_del_update RL_IPCP_UPDATE_DEL id))
    as (E1 & L1 & A1).
  { now rewrite F5. }
  { rewrite F5, F4. exact Hval. }
  set (B1 := upqueue_broadcast K X _) in *.
  destruct (upqueue_broadcast_at K B1 (ipcp_del_update RL_IPCP_UPDATE_UIPCP_DEL id))
    as (E2 & L2 & A2).
  { rewrite E1. cbn [ctrl_devs set_rc_mem]. now rewrite F5. }
  { intros rc' Hrc'. rewrite L1, F4. apply Hval.
    change (ctrl_devs dm) with (ctrl_devs dm2). rewrite <- F5.
    rewrite E1 in Hrc'. exact Hrc'. }
  set (B2 := upqueue_broadcast K B1 _) in *.
  assert (Hres : res = (0, B2)).
  { unfold res, rl_ipcp_destroy. rewrite Hdel. reflexivity. }
  rewrite Hres. cbn [fst snd].
  assert (EB : B2 = set_rc_mem X (rc_mem B2)) by (rewrite E2, E1; reflexivity).
  assert (Hmem : ipcp_mem B2 = store (ipcp_mem dm) p gone) by (rewrite EB; exact F1).
  assert (Htab : ipcp_table B2 = Hash.del (ipcp_table dm) p) by (rewrite EB; exact F2).
  assert (Hbit : ipcp_id_bitmap B2 = Bitmap.clear (ipcp_id_bitmap dm) id)
    by (rewrite EB; exact F3).
  assert (Hother : forall q, q <> p -> ipcp_at B2 q = ipcp_at dm q).
  { intros q Hq. unfold ipcp_at at 1. rewrite Hmem.
    apply deref_store_other. congruence. }
  destruct (ipcp_table_unlink K dm B2 p Hinv Hin Htab Hother) as [U1 U2].
  rewrite Hidp in U1, U2.
  destruct (ipcp_del_refused K B2 id) as [Ha _].
  splits; auto.
  - rewrite Hbit. apply bitmap_clear_same. lia.
  - rewrite Htab. apply hash_del_not_in.
  - rewrite EB. exact F6.
  - rewrite EB. exact F7.
  - rewrite EB. exact F8.
  - intros rc. rewrite A2.
    assert (Hd : ctrl_devs B1 = ctrl_devs dm) by (rewrite E1; exact F5).
    rewrite Hd, A1, F5.
    assert (HX : rc_at X rc = rc_at dm rc) by (unfold rc_at; now rewrite F4).
    rewrite HX. change (ctrl_devs dm2) with (ctrl_devs dm).
    destruct (existsb (Nat.eqb rc) (ctrl_devs dm)); cbn [andb]; [|reflexivity].
    destruct (has_flag (rc_flags (rc_at dm rc)) RL_F_IPCPS) eqn:Hs.
    + now rewrite rl_upqueue_append_atomic_flags, Hs.
    + now rewrite Hs.
  - unfold rl_ipcp_destroy. rewrite Ha by (right; exact U1). reflexivity.
Qed.

Lemma X27_ipcp_destroy_last_witness :
  fst (rl_ipcp_destroy Example.K0 IpcpExample.dm3 2) = 0 /\
  ipcp_lookup Example.K0 (snd (rl_ipcp_destroy Example.K0 IpcpExample.dm3 2)) 2 = None.
Proof.
  assert (Hlk : ipcp_lookup Example.K0 IpcpExample.dm3 2 = Some 2%nat)
    by (vm_compute; reflexivity).
  assert (Hr : ipcp_refcnt (ipcp_at IpcpExample.dm3 2) = 1) by (vm_compute; reflexivity).
  assert (Hz : ipcp_is_zombie IpcpExample.dm3 2 = false) by (vm_compute; reflexivity).
  assert (Ha : registered_appls (ipcp_at IpcpExample.dm3 2) = [])
    by (vm_compute; reflexivity).
  assert (Hd : ctrl_devs IpcpExample.dm3 = []) by (vm_compute; reflexivity).
  assert (Hnd : NoDup (ctrl_devs IpcpExample.dm3)) by (rewrite Hd; constructor).
  assert (Hval : forall rc, In rc (ctrl_devs IpcpExample.dm3) ->
                            (rc < length (rc_mem IpcpExample.dm3))%nat).
  { rewrite Hd. intros rc []. }
  pose proof (X27_ipcp_destroy_last Example.K0 IpcpExample.dm3 2 2
                example_dm3_table_inv Hlk Hr Hz Ha Hnd Hval) as X.
  cbv zeta in X. destruct X as (X1 & X2 & _). exact (conj X1 X2).
Defined.

Section ConfigstrFacts.

Import Kstrtox.

Lemma kstrtoull_codes (s : string) :
  (fst (kstrtoull s) = 0 /\ 0 <= snd (kstrtoull s) < 2 ^ 64 \/
   fst (kstrtoull s) = - EINVAL \/ fst (kstrtoull s) = - ERANGE) /\
  (fst (kstrtoull s) <> 0 -> snd (kstrtoull s) = 0).
Proof.
  assert (Hnn : forall s acc cnt, 0 <= acc -> 0 <= fst (fst (_parse_integer s acc cnt))).
  { induction s0 as [|c s0 IH]; intros acc cnt Hacc; cbn; auto.
    unfold digit_val. destruct ((48 <=? _) && (_ <=? 57)) eqn:E; cbn; auto.
    apply IH. apply andb_true_iff in E. destruct E as [E1 E2].
    apply Z.leb_le in E1. lia. }
  unfold kstrtoull.
  set (s1 := match s with String "+"%char s' => s' | _ => s end).
  pose proof (Hnn s1 0 0%nat ltac:(lia)) as H0.
  destruct (_parse_integer s1 0 0) as [[v cnt] rest]. cbn [fst] in H0.
  destruct (2 ^ 64 <=? v) eqn:E; [cbn; split; auto|].
  apply Z.leb_gt in E.
  destruct (Nat.eqb cnt 0); [cbn; split; auto|].
  destruct (match rest with String "010"%char r => r | _ => rest end);
    cbn; split; auto; try (left; split; [reflexivity|lia]); intros H; now contradiction H.
Qed.

Lemma kstrtou16_spec (s : string) :
  kstrtou16 s
  = if fst (kstrtoull s) =? 0
    then if snd (kstrtoull s) <? 2 ^ 16 then (0, snd (kstrtoull s)) else (- ERANGE, 0)
    else (fst (kstrtoull s), 0).
Proof.
  destruct (kstrtoull_codes s) as [Hc _]. unfold kstrtou16.
  destruct (kstrtoull s) as [rv tmp]. cbn [fst snd] in *.
  destruct Hc as [[-> Hr]|[-> | ->]]; [|reflexivity|reflexivity].
  cbn [Z.ltb Z.eqb Z.compare]. unfold u16.
  destruct (tmp <? 2 ^ 16) eqn:E.
  - apply Z.ltb_lt in E. rewrite Z.mod_small by lia. now rewrite Z.eqb_refl.
  - apply Z.ltb_ge in E.
    assert (Hne : (tmp =? tmp mod 2 ^ 16) = false).
    { apply Z.eqb_neq. pose proof (Z.mod_pos_bound tmp (2 ^ 16)). lia. }
    now rewrite Hne.
Qed.

Lemma kstrtou32_spec (s : string) :
  kstrtou32 s
  = if fst (kstrtoull s) =? 0
    then if snd (kstrtoull s) <? 2 ^ 32 then (0, snd (kstrtoull s)) else (- ERANGE, 0)
    else (fst (kstrtoull s), 0).
Proof.
  destruct (kstrtoull_codes s) as [Hc _]. unfold kstrtou32.
  destruct (kstrtoull s) as [rv tmp]. cbn [fst snd] in *.
  destruct Hc as [[-> Hr]|[-> | ->]]; [|reflexivity|reflexivity].
  cbn [Z.ltb Z.eqb Z.compare]. unfold u32.
  destruct (tmp <? 2 ^ 32) eqn:E.
  - apply Z.ltb_lt in E. rewrite Z.mod_small by lia. now rewrite Z.eqb_refl.
  - apply Z.ltb_ge in E.
    assert (Hne : (tmp =? tmp mod 2 ^ 32) = false).
    { apply Z.eqb_neq. pose proof (Z.mod_pos_bound tmp (2 ^ 32)). lia. }
    now rewrite Hne.
Qed.

End ConfigstrFacts.

(** X21 — [rl_configstr_to_u16] and [rl_configstr_to_u32].  A call
    returns 0, [-EINVAL] or [-ERANGE].  When it returns 0 the value
    written to [*dst] fits the type (below 2^16, respectively 2^32) and
    [*changed], if asked for, tells whether the value differs from the
    former one; when it fails, [*dst] and [*changed] are left as they
    were.  The decimal text of a number below 2^64, as ["%u"] prints
    it, is accepted exactly when the number fits the type, and is
    refused with [-ERANGE] otherwise. *)
Theorem X21_configstr (src : string) (dst : Z) (changed : option Z) (bits : Z) :
  bits = 16 \/ bits = 32 ->
  let conv := if bits =? 16 then rl_configstr_to_u16 else rl_configstr_to_u32 in
  let ret := fst (fst (conv src dst changed)) in
  let v := snd (fst (conv src dst changed)) in
  let ch := snd (conv src dst changed) in
  (ret = 0 \/ ret = - EINVAL \/ ret = - Kstrtox.ERANGE) /\
  (ret = 0 ->
   0 <= v < 2 ^ bits /\ ch = option_map (fun _ => if dst =? v then 0 else 1) changed) /\
  (ret <> 0 -> v = dst /\ ch = changed) /\
  (forall n,
      0 <= n < 2 ^ 64 ->
      conv (Kstrtox.fmt_u n) dst changed
      = if n <? 2 ^ bits
        then (0, n, option_map (fun _ => if dst =? n then 0 else 1) changed)
        else (- Kstrtox.ERANGE, dst, changed)).
Proof.
  intros Hbits conv ret v ch.
  assert (Hgen : forall (parse : string -> Z * Z) (f : string -> Z -> option Z -> Z * Z * option Z),
             (forall s d c, f s d c
                            = let (r, x) := parse s in
                              if r =? 0
                              then (r, x, option_map (fun _ => if negb (d =? x) then 1 else 0) c)
                              else (r, d, c)) ->
             (forall s, parse s
                        = if fst (Kstrtox.kstrtoull s) =? 0
                          then if snd (Kstrtox.kstrtoull s) <? 2 ^ bits
                               then (0, snd (Kstrtox.kstrtoull s))
                               else (- Kstrtox.ERANGE, 0)
                          else (fst (Kstrtox.kstrtoull s), 0)) ->
             let r := fst (fst (f src dst changed)) in
             let x := snd (fst (f src dst changed)) in
             let c := snd (f src dst changed) in
             (r = 0 \/ r = - EINVAL \/ r = - Kstrtox.ERANGE) /\
             (r = 0 ->
              0 <= x < 2 ^ bits /\ c = option_map (fun _ => if dst =? x then 0 else 1) changed) /\
             (r <> 0 -> x = dst /\ c = changed) /\
             (forall n,
                 0 <= n < 2 ^ 64 ->
                 f (Kstrtox.fmt_u n) dst changed
                 = if n <? 2 ^ bits
                   then (0, n, option_map (fun _ => if dst =? n then 0 else 1) changed)
                   else (- Kstrtox.ERANGE, dst, changed))).
  { intros parse f Hf Hparse. cbv zeta. rewrite !Hf.
    assert (Hmap : forall x, option_map (fun _ : Z => if negb (dst =? x) then 1 else 0) changed
                             = option_map (fun _ : Z => if dst =? x then 0 else 1) changed).
    { intros x. destruct changed; cbn; [|reflexivity]. now destruct (dst =? x). }
    splits.
    - rewrite Hparse. destruct (kstrtoull_codes src) as [[[H _]|[H|H]] _]; rewrite H; cbn.
      + destruct (_ <? _); cbn; auto.
      + auto.
      + auto.
    - rewrite Hparse. destruct (kstrtoull_codes src) as [[[H Hr]|[H|H]] _]; rewrite H;
        cbn [Z.eqb EINVAL Kstrtox.ERANGE Z.opp]; try discriminate.
      destruct (snd (Kstrtox.kstrtoull src) <? 2 ^ bits) eqn:E; cbn; [|discriminate].
      intros _. apply Z.ltb_lt in E. rewrite Hmap. split; [lia|reflexivity].
    - rewrite Hparse. destruct (kstrtoull_codes src) as [[[H Hr]|[H|H]] _]; rewrite H;
        cbn [Z.eqb EINVAL Kstrtox.ERANGE Z.opp]; cbn; auto.
      destruct (snd (Kstrtox.kstrtoull src) <? 2 ^ bits) eqn:E; cbn; auto.
      intros Hne. now contradiction Hne.
    - intros n Hn. rewrite Hf, Hparse, (KstrtoxFacts.kstrtoull_fmt_u n Hn). cbn [fst snd Z.eqb].
      destruct (n <? 2 ^ bits); cbn; [now rewrite Hmap|reflexivity]. }
  destruct Hbits as [-> | ->]; subst conv ret v ch; cbn [Z.eqb Pos.eqb].
  - apply (Hgen Kstrtox.kstrtou16 rl_configstr_to_u16); [reflexivity|apply kstrtou16_spec].
  - apply (Hgen Kstrtox.kstrtou32 rl_configstr_to_u32); [reflexivity|apply kstrtou32_spec].
Qed.

Lemma X21_configstr_witness :
  rl_configstr_to_u16 "65536" 7 (Some 0) = (- Kstrtox.ERANGE, 7, Some 0) /\
  rl_configstr_to_u16 "65535" 7 (Some 0) = (0, 65535, Some 1).
Proof.
  assert (H1 : Kstrtox.fmt_u 65536 = "65536"%string) by (vm_compute; reflexivity).
  assert (H2 : Kstrtox.fmt_u 65535 = "65535"%string) by (vm_compute; reflexivity).
  pose proof (X21_configstr EmptyString 7 (Some 0) 16 (or_introl eq_refl)) as X.
  cbv zeta in X. destruct X as (_ & _ & _ & X). cbn [Z.eqb Pos.eqb] in X. split.
  - rewrite <- H1. rewrite X by lia. reflexivity.
  - rewrite <- H2. rewrite X by lia. reflexivity.
Defined.

Section CreateDestroyFacts.

Variable K : kernel.

(** A successful [ipcp_add_entry], step by step: the reference to the
    DIF, then the entry. *)
Lemma ipcp_add_entry_success (allocs : list bool) (dm : rl_dm) (req : rl_kmsg_ipcp_create) :
  fst (fst (Gfp.ipcp_add_entry K allocs dm req)) = 0 ->
  exists allocs2 d ret dmd,
    Gfp.dif_get allocs2 dm (icr_dif_name req) (icr_dif_type req) = (Some d, ret, dmd) /\
    let id := Bitmap.find_first_zero (ipcp_id_bitmap dm) IPCP_ID_BITMAP_SIZE in
    let e := {| ipcp_id := id; ipcp_name := Some (icr_name req); ipcp_dif := Some d;
                ipcp_addr := RL_ADDR_NULL K; ipcp_flags := 0; txhdroom := 0;
                rxhdroom := 0; tailroom := 0; max_sdu_size := Z.shiftl 1 16 - 1;
                pcisizes := 0; flow_del_wait_ms := 4000; ipcp_refcnt := 1;
                registered_appls := []; uipcp := None; ipcp_priv := false;
                ops := ipcp_ops_zero |} in
    id < IPCP_ID_BITMAP_SIZE /\
    Gfp.ipcp_add_entry K allocs dm req
    = (0, Some (length (ipcp_mem dm)),
       set_ipcp_table
         (set_ipcp_id_bitmap (set_ipcp_mem dmd (ipcp_mem dm ++ [e]))
            (Bitmap.set (ipcp_id_bitmap dm) id))
         (Hash.add (ipcp_table dm) (hash_min K id IPCP_HASHTABLE_BITS)
            (length (ipcp_mem dm)))).
Proof.
  unfold Gfp.ipcp_add_entry, rl_alloc.
  destruct allocs as [|[|] [|[|] allocs2]]; cbv zeta; cbn [negb]; try discriminate.
  all: destruct (existsb _ _); [discriminate|].
  all: match goal with
       | |- context [Gfp.dif_get ?a ?m ?n ?t] =>
           pose proof (dif_get_frame a m n t) as Hf; cbv zeta in Hf;
           destruct (Gfp.dif_get a m n t) as [[[d|] ret] dmd] eqn:Hget; cbn [fst snd] in Hf;
           destruct Hf as (Hm & Ht & Hb & _ & _ & Hnone)
       end.
  all: try (destruct (Hnone eq_refl) as [Hr _]; cbn [fst]; intros H; now contradiction Hr).
  all: rewrite Hb; destruct (_ <? IPCP_ID_BITMAP_SIZE) eqn:Hlt; [|discriminate].
  all: intros _; apply Z.ltb_lt in Hlt.
  all: eexists _, d, ret, dmd; split; [exact Hget|]; split; [exact Hlt|].
  all: cbn -[Hash.add Bitmap.set Bitmap.find_first_zero]; rewrite ?Hb, ?Hm, ?Ht;
    reflexivity.
Qed.

(** The reference that [dif_get] took, dropped again: the list of DIFs
    is as before. *)
Lemma dif_get_put_difs (allocs : list bool) (dm : rl_dm) (name ty : string) (d : nat)
    (ret : Z) (dmd : rl_dm) :
  difs_inv dm ->
  Gfp.dif_get allocs dm name ty = (Some d, ret, dmd) ->
  (In d (difs dm) -> dif_refcnt (dif_at dm d) < 2 ^ 32 - 1) ->
  difs (dif_put dmd (Some d)) = difs dm /\
  (forall x, In x (difs dm) -> dif_at (dif_put dmd (Some d)) x = dif_at dm x).
Proof.
  intros (Hnd & Hnames & Hall) Hget Hmax. rewrite Forall_forall in Hall.
  unfold Gfp.dif_get in Hget.
  destruct (find _ (difs dm)) as [cur|] eqn:Hfind.
  - apply find_some in Hfind. destruct Hfind as [Hin _].
    destruct (String.eqb _ ty); [|discriminate].
    injection Hget as <- _ <-. destruct (Hall cur Hin) as [Hlt Href].
    specialize (Hmax Hin).
    assert (E : dif_put
                  (dif_store dm cur
                     (set_dif_refcnt (dif_at dm cur) (u32 (dif_refcnt (dif_at dm cur) + 1))))
                  (Some cur) = dm).
    { unfold dif_put. cbv zeta. rewrite dif_at_store_same by exact Hlt.
      cbn [dif_refcnt set_dif_refcnt]. rewrite u32_inc_dec by lia.
      replace (negb (dif_refcnt (dif_at dm cur) =? 0)) with true
        by (symmetry; apply negb_true_iff, Z.eqb_neq; lia).
      replace (set_dif_refcnt (set_dif_refcnt _ _) _) with (dif_at dm cur)
        by now destruct (dif_at dm cur).
      apply dif_store_back. }
    rewrite E. auto.
  - assert (Hfresh : ~ In (length (dif_mem dm)) (difs dm)).
    { intros Hin. apply Hall in Hin. lia. }
    unfold rl_alloc in Hget.
    destruct allocs as [|[|] [|[|] [|[|] l]]]; cbn in Hget; try discriminate;
      injection Hget as <- _ <-.
    all: set (o := {| dif_name := name; dif_ty := ty; dif_max_pdu_size := 8000;
                      dif_refcnt := 1 |}).
    all: set (dmd := set_difs (set_dif_mem dm (dif_mem dm ++ [o]))
                       (difs dm ++ [length (dif_mem dm)])).
    all: assert (Hat : dif_at dmd (length (dif_mem dm)) = o)
           by (unfold dmd, dif_at; cbn [dif_mem set_difs set_dif_mem]; apply deref_app_new).
    all: unfold dif_put; cbv zeta; rewrite Hat; cbn [dif_refcnt o];
      change (negb (u32 (1 - 1) =? 0)) with false; cbv iota.
    all: split; [cbn [difs set_difs dif_store set_dif_mem dmd];
                 now apply list_del_app_last|].
    all: intros x Hx; unfold dif_at, dif_store, dmd;
      cbn [dif_mem set_difs set_dif_mem];
      rewrite deref_store_other by (intros E; apply Hfresh; now rewrite E);
      apply deref_app_old; now apply Hall.
Qed.

End CreateDestroyFacts.

(** X29 — An IPCP created and destroyed.  On well-formed tables, when
    [ipcp_add_entry] succeeds and [IPCP_DESTROY] is then asked for the
    new id, the destruction returns 0 and undoes the creation: the
    table of IPCPs and the bitmap of ids are those before the creation,
    every look-up answers as before, the list of DIFs and the DIFs on
    it are as before, and the id is again the first free one. *)
Theorem X29_create_destroy (K : kernel) (allocs : list bool) (dm : rl_dm)
    (req : rl_kmsg_ipcp_create) :
  hash_in_range K ->
  ipcp_table_inv K dm ->
  difs_inv dm ->
  (forall d, In d (difs dm) -> dif_refcnt (dif_at dm d) < 2 ^ 32 - 1) ->
  let added := Gfp.ipcp_add_entry K allocs dm req in
  fst (fst added) = 0 ->
  exists p,
    snd (fst added) = Some p /\
    let id := ipcp_id (ipcp_at (snd added) p) in
    let res := rl_ipcp_destroy K (snd added) id in
    ipcp_lookup K (snd added) id = Some p /\
    fst res = 0 /\
    ipcp_table (snd res) = ipcp_table dm /\
    ipcp_id_bitmap (snd res) = ipcp_id_bitmap dm /\
    (forall id', ipcp_lookup K (snd res) id' = ipcp_lookup K dm id') /\
    difs (snd res) = difs dm /\
    (forall x, In x (difs dm) -> dif_at (snd res) x = dif_at dm x) /\
    Bitmap.find_first_zero (ipcp_id_bitmap (snd res)) IPCP_ID_BITMAP_SIZE = id.
Proof.
  intros Hrange Hinv Hdifs Hmax added Hz.
  destruct (ipcp_add_entry_success K allocs dm req Hz)
    as (allocs2 & d & ret & dmd & Hget & Hlt & Hadd).
  cbv zeta in Hlt, Hadd.
  set (id := Bitmap.find_first_zero (ipcp_id_bitmap dm) IPCP_ID_BITMAP_SIZE) in *.
  set (e := {| ipcp_id := id; ipcp_name := Some (icr_name req); ipcp_dif := Some d;
               ipcp_addr := RL_ADDR_NULL K; ipcp_flags := 0; txhdroom := 0; rxhdroom := 0;
               tailroom := 0; max_sdu_size := Z.shiftl 1 16 - 1; pcisizes := 0;
               flow_del_wait_ms := 4000; ipcp_refcnt := 1; registered_appls := [];
               uipcp := None; ipcp_priv := false; ops := ipcp_ops_zero |}) in *.
  set (p := length (ipcp_mem dm)) in *.
  set (dm1 := set_ipcp_table _ _) in Hadd.
  subst added. rewrite Hadd. cbn [fst snd].
  exists p. split; [reflexivity|].
  assert (Hmem1 : ipcp_mem dm1 = ipcp_mem dm ++ [e]) by reflexivity.
  assert (Hnew : ipcp_at dm1 p = e) by now apply (ipcp_at_app_new dm).
  rewrite Hnew. cbn [ipcp_id e].
  destruct (bitmap_find_first_zero_found (ipcp_id_bitmap dm) IPCP_ID_BITMAP_SIZE)
    as (B1 & B2 & B3); [discriminate|exact Hlt|]. fold id in B1, B2, B3.
  destruct (ipcp_table_link K dm dm1 e Hrange Hinv Hmem1 eq_refl eq_refl)
    as (L1 & L2 & L3 & L4).
  { cbn [ipcp_id e]. lia. }
  { cbn [ipcp_id e]. auto. }
  cbn [ipcp_id e] in L1, L2, L3. fold p in L2.
  assert (Hp1 : (p < length (ipcp_mem dm1))%nat)
    by (rewrite Hmem1, length_app; cbn; unfold p; lia).
  assert (Hr1 : ipcp_refcnt (ipcp_at dm1 p) = 1) by now rewrite Hnew.
  assert (Hz1 : ipcp_is_zombie dm1 p = false)
    by (unfold ipcp_is_zombie; now rewrite Hnew).
  assert (Ha1 : registered_appls (ipcp_at dm1 p) = []) by now rewrite Hnew.
  pose proof (ipcp_del_last K dm1 id p L2 Hp1 Hlt Hr1 Hz1 Ha1) as Hdel.
  cbv zeta in Hdel. rewrite Hnew in Hdel. cbn [ipcp_id ipcp_dif ipcp_flags e] in Hdel.
  set (gone := set_ipcp_refcnt _ 0) in Hdel.
  set (dm2 := set_ipcp_id_bitmap _ _) in Hdel.
  set (X := dif_put dm2 (Some d)) in Hdel.
  destruct (dif_put_frame dm2 (Some d)) as (F1 & F2 & F3 & _).
  destruct (dif_put_ext dm2 dmd (Some d) eq_refl eq_refl) as (F7 & F8).
  fold X in F1, F2, F3, F7, F8.
  pose proof (upqueue_broadcast_only_rc K X (ipcp_del_update RL_IPCP_UPDATE_DEL id)) as E1.
  set (Y1 := upqueue_broadcast K X _) in *.
  pose proof (upqueue_broadcast_only_rc K Y1 (ipcp_del_update RL_IPCP_UPDATE_UIPCP_DEL id))
    as E2.
  set (Y2 := upqueue_broadcast K Y1 _) in *.
  assert (Hres : rl_ipcp_destroy K dm1 id = (0, Y2)).
  { unfold rl_ipcp_destroy. rewrite Hdel. reflexivity. }
  rewrite Hres. cbn [fst snd].
  assert (EY : Y2 = set_rc_mem X (rc_mem Y2)) by (rewrite E2, E1; reflexivity).
  assert (Hfresh : ~ In p (Hash.for_each (ipcp_table dm))).
  { intros Hin. apply (ipcp_table_inv_linked K dm p Hinv) in Hin. unfold p in Hin. lia. }
  assert (Hh : (hash_min K id IPCP_HASHTABLE_BITS < length (ipcp_table dm))%nat).
  { destruct Hinv as (Hlen & _). rewrite Hlen. apply Hrange. discriminate. }
  assert (Htab : ipcp_table Y2 = ipcp_table dm).
  { rewrite EY. cbn [ipcp_table set_rc_mem]. rewrite F2.
    cbn [ipcp_table dm2 set_ipcp_id_bitmap set_ipcp_table].
    change (ipcp_table dm1) with (Hash.add (ipcp_table dm) (hash_min K id IPCP_HASHTABLE_BITS) p).
    now apply hash_del_add. }
  assert (Hbit : ipcp_id_bitmap Y2 = ipcp_id_bitmap dm).
  { rewrite EY. cbn [ipcp_id_bitmap set_rc_mem]. rewrite F3.
    cbn [ipcp_id_bitmap dm2 set_ipcp_id_bitmap].
    change (ipcp_id_bitmap dm1) with (Bitmap.set (ipcp_id_bitmap dm) id).
    apply bitmap_clear_set; [lia|auto]. }
  assert (Hmem : ipcp_mem Y2 = store (ipcp_mem dm ++ [e]) p gone).
  { rewrite EY. cbn [ipcp_mem set_rc_mem]. rewrite F1. reflexivity. }
  destruct (dif_get_put_difs allocs2 dm (icr_dif_name req) (icr_dif_type req) d ret dmd
              Hdifs Hget) as (D1 & D2).
  { intros Hin. now apply Hmax. }
  splits; auto.
  - intros id'. apply ipcp_lookup_ext; [exact Htab|].
    intros q Hq. apply (ipcp_table_inv_linked K dm q Hinv) in Hq. destruct Hq as (Hq & _).
    unfold ipcp_at. rewrite Hmem. rewrite deref_store_other by (unfold p; lia).
    now rewrite deref_app_old.
  - rewrite EY. cbn [difs set_rc_mem]. rewrite F8. exact D1.
  - intros x Hx. unfold dif_at. rewrite EY. cbn [dif_mem set_rc_mem]. rewrite F7.
    now apply D2.
  - now rewrite Hbit.
Qed.

Lemma X29_create_destroy_witness :
  ipcp_table
    (snd (rl_ipcp_destroy Example.K0
            (snd (Gfp.ipcp_add_entry Example.K0 [] IpcpExample.dm3
                    {| icr_event_id := 0; icr_name := "n3.IPCP"; icr_dif_name := "n3.DIF";
                       icr_dif_type := "normal" |})) 3))
  = ipcp_table IpcpExample.dm3.
Proof.
  assert (Hz : fst (fst (Gfp.ipcp_add_entry Example.K0 [] IpcpExample.dm3
                           {| icr_event_id := 0; icr_name := "n3.IPCP";
                              icr_dif_name := "n3.DIF"; icr_dif_type := "normal" |})) = 0)
    by (vm_compute; reflexivity).
  assert (Hp : snd (fst (Gfp.ipcp_add_entry Example.K0 [] IpcpExample.dm3
                           {| icr_event_id := 0; icr_name := "n3.IPCP";
                              icr_dif_name := "n3.DIF"; icr_dif_type := "normal" |}))
               = Some 3%nat) by (vm_compute; reflexivity).
  assert (Hid : ipcp_id (ipcp_at (snd (Gfp.ipcp_add_entry Example.K0 [] IpcpExample.dm3
                                         {| icr_event_id := 0; icr_name := "n3.IPCP";
                                            icr_dif_name := "n3.DIF";
                                            icr_dif_type := "normal" |})) 3) = 3)
    by (vm_compute; reflexivity).
  assert (Hmax : forall d, In d (difs IpcpExample.dm3) ->
                           dif_refcnt (dif_at IpcpExample.dm3 d) < 2 ^ 32 - 1).
  { assert (Hd : difs IpcpExample.dm3 = [0; 1; 2]%nat) by (vm_compute; reflexivity).
    assert (R0 : dif_refcnt (dif_at IpcpExample.dm3 0) = 1) by (vm_compute; reflexivity).
    assert (R1 : dif_refcnt (dif_at IpcpExample.dm3 1) = 1) by (vm_compute; reflexivity).
    assert (R2 : dif_refcnt (dif_at IpcpExample.dm3 2) = 1) by (vm_compute; reflexivity).
    rewrite Hd. intros d [<-|[<-|[<-|[]]]]; rewrite ?R0, ?R1, ?R2; lia. }
  destruct (X29_create_destroy Example.K0 [] IpcpExample.dm3
              {| icr_event_id := 0; icr_name := "n3.IPCP"; icr_dif_name := "n3.DIF";
                 icr_dif_type := "normal" |}
              example_hash_in_range example_dm3_table_inv example_dm3_difs_inv Hmax Hz)
    as (p & Hsome & X).
  rewrite Hp in Hsome. injection Hsome as <-.
  cbv zeta in X. rewrite Hid in X. exact (proj1 (proj2 (proj2 X))).
Defined.

(* ===================================================================== *)
(** ** Destroying an IPCP that has registered applications *)
(* ===================================================================== *)

Section DestroyApplFacts.

Variable K : kernel.

Lemma fold_list_del (apps l : list nat) :
  fold_left list_del apps l = filter (fun q => negb (existsb (Nat.eqb q) apps)) l.
Proof.
  revert l. induction apps as [|a apps IH]; intros l; cbn [fold_left].
  - cbn. induction l as [|x l IHl]; cbn; congruence.
  - rewrite IH. unfold list_del. induction l as [|x l IHl]; cbn; [reflexivity|].
    destruct (Nat.eqb x a); cbn; [exact IHl|].
    destruct (existsb (Nat.eqb x) apps); cbn; [exact IHl|]. now rewrite IHl.
Qed.

Lemma fold_list_del_self (apps : list nat) : fold_left list_del apps apps = [].
Proof.
  rewrite fold_list_del.
  assert (H : forall l, incl l apps ->
                        filter (fun q => negb (existsb (Nat.eqb q) apps)) l = []).
  { induction l as [|x l IH]; intros Hi; cbn; [reflexivity|].
    assert (E : existsb (Nat.eqb x) apps = true).
    { apply existsb_exists. exists x. split; [apply Hi; now left|apply Nat.eqb_refl]. }
    rewrite E. cbn. apply IH. intros y Hy. apply Hi. now right. }
  apply H. apply incl_refl.
Qed.

(** [application_steal] over registrations that nothing else references
    moves them all to the list of the caller. *)
Lemma application_steal_all (p : nat) (apps : list nat) :
  forall (d : rl_dm) (l : list nat),
    (p < length (ipcp_mem d))%nat ->
    (forall a, In a apps -> app_refcnt (app_at d a) = 1 /\ app_ipcp (app_at d a) = p) ->
    fold_left (fun st app => application_steal (fst st) app (snd st)) apps (d, l)
    = (ipcp_store d p
         (set_registered_appls (ipcp_at d p)
            (fold_left list_del apps (registered_appls (ipcp_at d p)))),
       l ++ apps).
Proof.
  induction apps as [|a apps IH]; intros d l Hp Ha; cbn [fold_left fst snd].
  - rewrite app_nil_r. f_equal.
    replace (set_registered_appls (ipcp_at d p) (registered_appls (ipcp_at d p)))
      with (ipcp_at d p) by now destruct (ipcp_at d p).
    symmetry. apply ipcp_store_self.
  - destruct (Ha a (or_introl eq_refl)) as [Hr Hi].
    unfold application_steal at 2. cbv zeta. rewrite Hr, Hi. cbn [Z.eqb Pos.eqb fst snd].
    set (e := ipcp_at d p).
    set (d1 := ipcp_store d p (set_registered_appls e (list_del (registered_appls e) a))).
    rewrite (IH d1 (l ++ [a])).
    + assert (Hat : ipcp_at d1 p = set_registered_appls e (list_del (registered_appls e) a))
        by (unfold d1; now apply ipcp_at_store_same).
      rewrite Hat. unfold d1. rewrite ipcp_store_store, <- app_assoc. reflexivity.
    + unfold d1, ipcp_store. cbn. now rewrite store_length.
    + intros a' Ha'. apply (Ha a'). now right.
Qed.

(** The last [ipcp_application_put] of a registration on an IPCP
    without registration hook, when the IPCP is referenced by others
    too. *)
Lemma ipcp_application_put_last (d : rl_dm) (a p : nat) :
  (a < length (app_mem d))%nat ->
  (p < length (ipcp_mem d))%nat ->
  app_refcnt (app_at d a) = 1 ->
  app_ipcp (app_at d a) = p ->
  registered_appls (ipcp_at d p) = [] ->
  ops_appl_register (ops (ipcp_at d p)) = None ->
  1 < ipcp_refcnt (ipcp_at d p) < 2 ^ 32 ->
  ipcp_application_put K d (Some a)
  = set_app_mem
      (ipcp_store d p (set_ipcp_refcnt (ipcp_at d p) (ipcp_refcnt (ipcp_at d p) - 1)))
      (store (app_mem d) a (set_app_refcnt (app_at d a) 0)).
Proof.
  intros Ha Hp Hr Hi Hl Hh Hc. unfold ipcp_application_put. cbv zeta.
  rewrite Hr, Hi. change (negb (u32 (1 - 1) =? 0)) with false. cbv iota.
  change (u32 (1 - 1)) with 0.
  set (o' := set_app_refcnt (app_at d a) 0).
  change (ipcp_at (app_store d a o') p) with (ipcp_at d p).
  rewrite Hl, Hh. cbn [list_del filter].
  replace (set_registered_appls (ipcp_at d p) []) with (ipcp_at d p)
    by (rewrite <- Hl; now destruct (ipcp_at d p)).
  change (ipcp_store (app_store d a o') p (ipcp_at d p))
    with (ipcp_store (app_store d a o') p (ipcp_at (app_store d a o') p)).
  rewrite ipcp_store_self. unfold appl_del.
  rewrite app_at_store_same by exact Ha.
  change (app_ipcp o') with (app_ipcp (app_at d a)). rewrite Hi.
  rewrite ipcp_put_not_last by exact Hc. reflexivity.
Qed.

(** [ipcp_application_put] over the stolen registrations releases them
    all, and one reference to the IPCP with each. *)
Lemma ipcp_application_put_all (p : nat) (apps : list nat) :
  forall d : rl_dm,
    NoDup apps ->
    (p < length (ipcp_mem d))%nat ->
    registered_appls (ipcp_at d p) = [] ->
    ops_appl_register (ops (ipcp_at d p)) = None ->
    (forall a, In a apps ->
               (a < length (app_mem d))%nat /\
               app_refcnt (app_at d a) = 1 /\ app_ipcp (app_at d a) = p) ->
    Z.of_nat (length apps) < ipcp_refcnt (ipcp_at d p) < 2 ^ 32 ->
    exists m,
      length m = length (app_mem d) /\
      (forall a, In a apps ->
                 deref registered_appl_zero m a = set_app_refcnt (app_at d a) 0) /\
      (forall a, ~ In a apps -> deref registered_appl_zero m a = app_at d a) /\
      fold_left (fun d app => ipcp_application_put K d (Some app)) apps d
      = set_app_mem
          (ipcp_store d p
             (set_ipcp_refcnt (ipcp_at d p)
                (ipcp_refcnt (ipcp_at d p) - Z.of_nat (length apps))))
          m.
Proof.
  induction apps as [|a apps IH]; intros d Hnd Hp Hl Hh Ha Hc; cbn [fold_left].
  - exists (app_mem d). splits; auto.
    + intros a [].
    + cbn [length Z.of_nat]. rewrite Z.sub_0_r.
      replace (set_ipcp_refcnt (ipcp_at d p) (ipcp_refcnt (ipcp_at d p)))
        with (ipcp_at d p) by now destruct (ipcp_at d p).
      rewrite ipcp_store_self. now destruct d.
  - inversion Hnd as [|x l Hnin Hnd' E]; subst x l.
    destruct (Ha a (or_introl eq_refl)) as (Halt & Hr & Hi).
    assert (Hlen : Z.of_nat (length (a :: apps)) = Z.of_nat (length apps) + 1)
      by (cbn [length]; lia).
    rewrite Hlen in Hc.
    rewrite (ipcp_application_put_last d a p) by (auto; lia).
    set (e := ipcp_at d p) in *.
    set (o' := set_app_refcnt (app_at d a) 0).
    set (d1 := set_app_mem _ _).
    assert (Hat1 : ipcp_at d1 p = set_ipcp_refcnt e (ipcp_refcnt e - 1)).
    { unfold d1. change (ipcp_at (set_app_mem ?x _) p) with (ipcp_at x p).
      now apply ipcp_at_store_same. }
    assert (Happ1 : forall a', a' <> a -> app_at d1 a' = app_at d a').
    { intros a' Hne. unfold app_at, d1. cbn [app_mem set_app_mem].
      apply deref_store_other. congruence. }
    assert (Happa : app_at d1 a = o').
    { unfold app_at, d1. cbn [app_mem set_app_mem]. now apply deref_store_same. }
    assert (Hlen1 : length (app_mem d1) = length (app_mem d)).
    { unfold d1. cbn [app_mem set_app_mem]. apply store_length. }
    destruct (IH d1) as (m & M1 & M2 & M3 & M4); auto.
    + unfold d1, ipcp_store. cbn. now rewrite store_length.
    + now rewrite Hat1.
    + now rewrite Hat1.
    + intros a' Ha'. assert (Hne : a' <> a) by (intros ->; contradiction).
      rewrite Hlen1, (Happ1 a' Hne). apply Ha. now right.
    + rewrite Hat1. cbn [ipcp_refcnt set_ipcp_refcnt]. lia.
    + exists m. splits.
      * now rewrite M1.
      * intros a' [<-|Ha'].
        -- rewrite (M3 a Hnin). exact Happa.
        -- assert (Hne : a' <> a) by (intros ->; contradiction).
           rewrite (M2 a' Ha'), (Happ1 a' Hne). reflexivity.
      * intros a' Hn. assert (Hne : a' <> a) by (intros ->; apply Hn; now left).
        rewrite M3 by (intros H; apply Hn; now right). now apply Happ1.
      * rewrite M4, Hat1. unfold d1, ipcp_store.
        cbn [ipcp_mem set_app_mem set_ipcp_mem ipcp_refcnt set_ipcp_refcnt].
        rewrite store_store, Hlen.
        replace (ipcp_refcnt e - 1 - Z.of_nat (length apps))
          with (ipcp_refcnt e - (Z.of_nat (length apps) + 1)) by lia.
        reflexivity.
Qed.

(** [__ipcp_put] leaves the flows, the registrations and the queue of
    the deferred removals alone. *)
Lemma ipcp_put_other_fields (d : rl_dm) (p : nat) :
  let d' := snd (__ipcp_put K d (Some p)) in
  flow_mem d' = flow_mem d /\ app_mem d' = app_mem d /\ appl_removeq d' = appl_removeq d.
Proof.
  unfold __ipcp_put. cbv zeta. destruct (negb _); cbn [snd].
  - splits; reflexivity.
  - rewrite upqueue_broadcast_only_rc.
    cbn [flow_mem app_mem appl_removeq set_rc_mem].
    set (x := ipcp_dif _). set (d3 := set_ipcp_id_bitmap _ _).
    assert (H : flow_mem (dif_put d3 x) = flow_mem d3 /\ app_mem (dif_put d3 x) = app_mem d3 /\
                appl_removeq (dif_put d3 x) = appl_removeq d3).
    { unfold dif_put. destruct x as [x|]; [|auto]. cbv zeta. now destruct (negb _). }
    destruct H as (H1 & H2 & H3). rewrite H1, H2, H3. splits; reflexivity.
Qed.

(** [ipcp_del] of a live IPCP without registration hook whose
    registrations nothing else references: up to the last [ipcp_put]. *)
Lemma ipcp_del_apps (dm : rl_dm) (id : Z) (p : nat) :
  ipcp_lookup K dm id = Some p ->
  (p < length (ipcp_mem dm))%nat ->
  id < IPCP_ID_BITMAP_SIZE ->
  ipcp_is_zombie dm p = false ->
  ops_appl_register (ops (ipcp_at dm p)) = None ->
  NoDup (registered_appls (ipcp_at dm p)) ->
  (forall a, In a (registered_appls (ipcp_at dm p)) ->
             (a < length (app_mem dm))%nat /\
             app_refcnt (app_at dm a) = 1 /\ app_ipcp (app_at dm a) = p) ->
  Z.of_nat (length (registered_appls (ipcp_at dm p))) < ipcp_refcnt (ipcp_at dm p)
  < 2 ^ 32 - 1 ->
  let e := ipcp_at dm p in
  let eX := set_ipcp_refcnt
              (set_registered_appls
                 (set_ipcp_flags e (set_flag (ipcp_flags e) RL_K_IPCP_ZOMBIE)) [])
              (ipcp_refcnt e - Z.of_nat (length (registered_appls e))) in
  exists m,
    length m = length (app_mem dm) /\
    (forall a, In a (registered_appls e) ->
               deref registered_appl_zero m a = set_app_refcnt (app_at dm a) 0) /\
    (forall a, ~ In a (registered_appls e) -> deref registered_appl_zero m a = app_at dm a) /\
    ipcp_del K dm id
    = __ipcp_put K
        (set_flow_mem (set_app_mem (ipcp_store dm p eX) m)
           (rl_iodevs_shutdown_by_ipcp K (flow_mem dm) p))
        (Some p).
Proof.
  intros Hlk Hp Hid Hz Hh Hnd Ha Hc e eX. unfold ipcp_del.
  assert (E : (IPCP_ID_BITMAP_SIZE <=? id) = false) by (apply Z.leb_gt; lia).
  rewrite E.
  assert (Hpos : 0 < ipcp_refcnt (ipcp_at dm p) < 2 ^ 32 - 1) by lia.
  destruct (ipcp_get_put_id K dm id p Hlk Hp Hpos) as (H1 & _ & H3).
  destruct (__ipcp_get K dm id) as [o dmg]. cbn [fst snd] in H1, H3. subst o.
  rewrite H3. cbn [snd]. unfold ipcp_is_zombie in Hz. rewrite Hz.
  fold e. fold e in Hh, Hnd, Ha, Hc.
  set (eZ := set_ipcp_flags e (set_flag (ipcp_flags e) RL_K_IPCP_ZOMBIE)).
  set (dm3 := ipcp_store dm p eZ).
  assert (Hat3 : ipcp_at dm3 p = eZ) by now apply ipcp_at_store_same.
  assert (Hp3 : (p < length (ipcp_mem dm3))%nat).
  { unfold dm3, ipcp_store. cbn. now rewrite store_length. }
  rewrite Hat3. change (registered_appls eZ) with (registered_appls e).
  set (apps := registered_appls e) in *.
  rewrite (application_steal_all p apps dm3 [] Hp3) by (intros a Hin; apply (Ha a Hin)).
  rewrite Hat3. change (registered_appls eZ) with apps. rewrite fold_list_del_self.
  cbn [app]. unfold dm3. rewrite ipcp_store_store.
  set (eA := set_registered_appls eZ []).
  set (dm4 := ipcp_store dm p eA).
  assert (Hat4 : ipcp_at dm4 p = eA) by now apply ipcp_at_store_same.
  destruct (ipcp_application_put_all p apps dm4) as (m & M1 & M2 & M3 & M4); auto.
  - unfold dm4, ipcp_store. cbn. now rewrite store_length.
  - now rewrite Hat4.
  - now rewrite Hat4.
  - rewrite Hat4. change (ipcp_refcnt eA) with (ipcp_refcnt e). lia.
  - exists m. splits; auto. fold dm4. rewrite M4, Hat4. unfold dm4.
    rewrite ipcp_store_store. reflexivity.
Qed.

End DestroyApplFacts.

(** X28 — [ipcp_del] with registered applications.  On a well-formed
    table, take a live IPCP without registration hook whose
    registrations hold one reference each, in addition to the reference
    of the table and to those of others.  The request returns 0; the
    IPCP is marked as a zombie and has no registration left; every
    registration has lost its last reference and no other is touched;
    none is deferred to the removal worker; the IPCP has lost one
    reference for each registration and the one of the table; the other
    IPCPs are untouched and the flows of the IPCP are shut down.  If
    others still reference the IPCP it stays linked: every id answers
    as before, and no device is told.  If the registrations and the
    table were the only references the IPCP is unlinked: its id is free
    and is not found any more, the other ids answer as before. *)
Theorem X28_ipcp_del_unregisters (K : kernel) (dm : rl_dm) (id : Z) (p : nat) :
  ipcp_table_inv K dm ->
  ipcp_lookup K dm id = Some p ->
  ipcp_is_zombie dm p = false ->
  ops_appl_register (ops (ipcp_at dm p)) = None ->
  NoDup (registered_appls (ipcp_at dm p)) ->
  (forall a, In a (registered_appls (ipcp_at dm p)) ->
             (a < length (app_mem dm))%nat /\
             app_refcnt (app_at dm a) = 1 /\ app_ipcp (app_at dm a) = p) ->
  Z.of_nat (length (registered_appls (ipcp_at dm p))) < ipcp_refcnt (ipcp_at dm p)
  < 2 ^ 32 - 1 ->
  let e := ipcp_at dm p in
  let n := Z.of_nat (length (registered_appls e)) in
  let res := ipcp_del K dm id in
  fst res = 0 /\
  ipcp_at (snd res) p
  = set_ipcp_refcnt
      (set_registered_appls (set_ipcp_flags e (set_flag (ipcp_flags e) RL_K_IPCP_ZOMBIE)) [])
      (ipcp_refcnt e - n - 1) /\
  (forall q, q <> p -> ipcp_at (snd res) q = ipcp_at dm q) /\
  (forall a, In a (registered_appls e) ->
             app_at (snd res) a = set_app_refcnt (app_at dm a) 0) /\
  (forall a, ~ In a (registered_appls e) -> app_at (snd res) a = app_at dm a) /\
  appl_removeq (snd res) = appl_removeq dm /\
  flow_mem (snd res) = rl_iodevs_shutdown_by_ipcp K (flow_mem dm) p /\
  (n + 1 < ipcp_refcnt e ->
   (forall id', ipcp_lookup K (snd res) id' = ipcp_lookup K dm id') /\
   ipcp_id_bitmap (snd res) = ipcp_id_bitmap dm /\
   rc_mem (snd res) = rc_mem dm) /\
  (ipcp_refcnt e = n + 1 ->
   ipcp_lookup K (snd res) id = None /\
   (forall id', id' <> id -> ipcp_lookup K (snd res) id' = ipcp_lookup K dm id') /\
   Z.testbit (ipcp_id_bitmap (snd res)) id = false).
Proof.
  intros Hinv Hlk Hz Hh Hnd Ha Hc e n res.
  destruct (ipcp_lookup_id K dm id p Hlk) as [Hidp Hin0].
  pose proof (hash_bucket_in_for_each _ _ _ Hin0) as Hin.
  destruct (ipcp_table_inv_linked K dm p Hinv Hin) as (Hp & _ & Hrange & _).
  rewrite Hidp in Hrange.
  destruct (ipcp_del_apps K dm id p Hlk Hp ltac:(lia) Hz Hh Hnd Ha Hc)
    as (m & M1 & M2 & M3 & Hdel).
  fold e in M2, M3, Hdel. fold n in Hdel. fold res in Hdel.
  set (eZ := set_ipcp_flags e (set_flag (ipcp_flags e) RL_K_IPCP_ZOMBIE)) in *.
  set (eX := set_ipcp_refcnt (set_registered_appls eZ []) (ipcp_refcnt e - n)) in *.
  set (dm6 := set_flow_mem _ _) in Hdel.
  assert (Hat6 : ipcp_at dm6 p = eX).
  { unfold dm6. change (ipcp_at (set_flow_mem (set_app_mem ?x _) _) p) with (ipcp_at x p).
    now apply ipcp_at_store_same. }
  assert (Hoth6 : forall q, q <> p -> ipcp_at dm6 q = ipcp_at dm q).
  { intros q Hq. unfold dm6.
    change (ipcp_at (set_flow_mem (set_app_mem ?x _) _) q) with (ipcp_at x q).
    apply ipcp_at_store_other. congruence. }
  assert (Hrx : ipcp_refcnt eX = ipcp_refcnt e - n) by reflexivity.
  destruct (ipcp_put_other_fields K dm6 p) as (O1 & O2 & O3).
  rewrite <- Hdel in O1, O2, O3.
  assert (Hfst : fst res = 0).
  { rewrite Hdel. unfold __ipcp_put. cbv zeta. now destruct (negb _). }
  assert (Happ : forall a, app_at (snd res) a = deref registered_appl_zero m a).
  { intros a. unfold app_at. rewrite O2. reflexivity. }
  fold e in Hc. fold n in Hc.
  assert (Hcases : n + 1 < ipcp_refcnt e \/ ipcp_refcnt e = n + 1) by lia.
  assert (Hmem : ipcp_mem (snd res)
                 = store (ipcp_mem dm6) p (set_ipcp_refcnt eX (ipcp_refcnt e - n - 1))).
  { destruct Hcases as [Hmany|Hlast].
    - rewrite Hdel, ipcp_put_not_last by (rewrite Hat6, Hrx; lia).
      rewrite Hat6, Hrx. reflexivity.
    - destruct (ipcp_put_last K dm6 p) as (_ & _ & P3); [rewrite Hat6, Hrx; lia|].
      rewrite <- Hdel in P3. rewrite P3, Hat6. do 2 f_equal. lia. }
  assert (Hp6 : (p < length (ipcp_mem dm6))%nat).
  { unfold dm6, ipcp_store. cbn. now rewrite store_length. }
  assert (Hatp : ipcp_at (snd res) p = set_ipcp_refcnt eX (ipcp_refcnt e - n - 1)).
  { unfold ipcp_at. rewrite Hmem. now apply deref_store_same. }
  assert (Hother : forall q, q <> p -> ipcp_at (snd res) q = ipcp_at dm q).
  { intros q Hq. unfold ipcp_at at 1. rewrite Hmem.
    rewrite deref_store_other by congruence. now apply Hoth6. }
  splits; auto.
  - intros a Hin'. rewrite Happ. now apply M2.
  - intros a Hin'. rewrite Happ. now apply M3.
  - intros Hmany.
    assert (Hres : snd res = ipcp_store dm6 p (set_ipcp_refcnt eX (ipcp_refcnt e - n - 1))).
    { rewrite Hdel, ipcp_put_not_last by (rewrite Hat6, Hrx; lia).
      rewrite Hat6, Hrx. reflexivity. }
    splits.
    + intros id'. apply ipcp_lookup_ext.
      * rewrite Hres. reflexivity.
      * intros q _. destruct (Nat.eq_dec q p) as [->|Hne].
        -- rewrite Hatp. reflexivity.
        -- now rewrite Hother.
    + rewrite Hres. reflexivity.
    + rewrite Hres. reflexivity.
  - intros Hlast.
    destruct (ipcp_put_last K dm6 p) as (P1 & P2 & _); [rewrite Hat6, Hrx; lia|].
    rewrite <- Hdel in P1, P2. rewrite Hat6 in P2.
    change (ipcp_table dm6) with (ipcp_table dm) in P1.
    change (ipcp_id_bitmap dm6) with (ipcp_id_bitmap dm) in P2.
    change (ipcp_id eX) with (ipcp_id (ipcp_at dm p)) in P2. rewrite Hidp in P2.
    destruct (ipcp_table_unlink K dm (snd res) p Hinv Hin P1 Hother) as [U1 U2].
    rewrite Hidp in U1, U2.
    splits; auto.
    rewrite P2. apply bitmap_clear_same. lia.
Qed.

(** The table stays well formed when the table, the bitmap and the ids
    of the IPCPs are kept. *)
Lemma ipcp_table_inv_same_ids (K : kernel) (dm dm' : rl_dm) :
  ipcp_table dm' = ipcp_table dm ->
  ipcp_id_bitmap dm' = ipcp_id_bitmap dm ->
  map ipcp_id (ipcp_mem dm') = map ipcp_id (ipcp_mem dm) ->
  ipcp_table_inv K dm -> ipcp_table_inv K dm'.
Proof.
  intros Ht Hb Hm (H1 & H2 & H3 & H4).
  assert (Hids : forall q, ipcp_id (ipcp_at dm' q) = ipcp_id (ipcp_at dm q)).
  { intros q. unfold ipcp_at, deref.
    rewrite <- (map_nth ipcp_id (ipcp_mem dm')), <- (map_nth ipcp_id (ipcp_mem dm)).
    now rewrite Hm. }
  assert (Hlen : length (ipcp_mem dm') = length (ipcp_mem dm)).
  { rewrite <- (length_map ipcp_id (ipcp_mem dm')), Hm. apply length_map. }
  unfold ipcp_table_inv. rewrite Ht, Hb, Hlen. splits; auto.
  - rewrite (map_ext _ (fun q => ipcp_id (ipcp_at dm q))) by apply Hids. exact H3.
  - intros h q Hq. rewrite Hids. now apply H4.
Qed.

Lemma X28_ipcp_del_unregisters_witness :
  fst (ipcp_del Example.K0 ApplExample.dm_srv 1) = 0 /\
  registered_appls (ipcp_at (snd (ipcp_del Example.K0 ApplExample.dm_srv 1)) 1) = [] /\
  app_refcnt (app_at (snd (ipcp_del Example.K0 ApplExample.dm_srv 1)) 0) = 0 /\
  ipcp_lookup Example.K0 (snd (ipcp_del Example.K0 ApplExample.dm_srv 1)) 1 = None.
Proof.
  assert (Hinv : ipcp_table_inv Example.K0 ApplExample.dm_srv).
  { apply (ipcp_table_inv_same_ids Example.K0 IpcpExample.dm3);
      [vm_compute; reflexivity ..|exact example_dm3_table_inv]. }
  assert (Hlk : ipcp_lookup Example.K0 ApplExample.dm_srv 1 = Some 1%nat)
    by (vm_compute; reflexivity).
  assert (Hz : ipcp_is_zombie ApplExample.dm_srv 1 = false) by (vm_compute; reflexivity).
  assert (Hh : ops_appl_register (ops (ipcp_at ApplExample.dm_srv 1)) = None)
    by (vm_compute; reflexivity).
  assert (Hl : registered_appls (ipcp_at ApplExample.dm_srv 1) = [0%nat])
    by (vm_compute; reflexivity).
  assert (Hr : ipcp_refcnt (ipcp_at ApplExample.dm_srv 1) = 2) by (vm_compute; reflexivity).
  assert (Hn : (0 < length (app_mem ApplExample.dm_srv))%nat) by (vm_compute; lia).
  assert (Ha1 : app_refcnt (app_at ApplExample.dm_srv 0) = 1) by (vm_compute; reflexivity).
  assert (Ha2 : app_ipcp (app_at ApplExample.dm_srv 0) = 1%nat) by (vm_compute; reflexivity).
  assert (Hnd : NoDup (registered_appls (ipcp_at ApplExample.dm_srv 1))).
  { rewrite Hl. constructor; [intros []|constructor]. }
  assert (Ha : forall a, In a (registered_appls (ipcp_at ApplExample.dm_srv 1)) ->
                         (a < length (app_mem ApplExample.dm_srv))%nat /\
                         app_refcnt (app_at ApplExample.dm_srv a) = 1 /\
                         app_ipcp (app_at ApplExample.dm_srv a) = 1%nat).
  { rewrite Hl. intros a [<-|[]]. auto. }
  assert (Hc : Z.of_nat (length (registered_appls (ipcp_at ApplExample.dm_srv 1)))
               < ipcp_refcnt (ipcp_at ApplExample.dm_srv 1) < 2 ^ 32 - 1).
  { rewrite Hl, Hr. cbn. lia. }
  pose proof (X28_ipcp_del_unregisters Example.K0 ApplExample.dm_srv 1 1
                Hinv Hlk Hz Hh Hnd Ha Hc) as X.
  cbv zeta in X. destruct X as (X1 & X2 & _ & X4 & _ & _ & _ & _ & X9).
  splits.
  - exact X1.
  - rewrite X2. reflexivity.
  - rewrite (X4 0%nat) by (rewrite Hl; now left). reflexivity.
  - apply X9. rewrite Hl, Hr. reflexivity.
Defined.

Section FlowStoreFacts.

Variable K : kernel.

Lemma flow_lookup_ext (dm dm' : rl_dm) (id : Z) :
  flow_table dm' = flow_table dm ->
  (forall q, In q (Hash.for_each (flow_table dm)) ->
             local_port (flow_at dm' q) = local_port (flow_at dm q)) ->
  flow_lookup K dm' id = flow_lookup K dm id.
Proof.
  intros Ht Hq. unfold flow_lookup. rewrite Ht. apply find_ext_in.
  intros q Hin. rewrite Hq; [reflexivity|]. now apply hash_bucket_in_for_each in Hin.
Qed.

(** Writing fields other than the port id of an allocated flow keeps the
    table well formed and the look-ups as they are. *)
Lemma flow_table_inv_store (dm : rl_dm) (p : nat) (x : flow_entry) :
  local_port x = local_port (flow_at dm p) ->
  (forall id, flow_lookup K (flow_store dm p x) id = flow_lookup K dm id) /\
  (flow_table_inv K dm -> flow_table_inv K (flow_store dm p x)).
Proof.
  intros Hid.
  assert (Hids : forall q, local_port (flow_at (flow_store dm p x) q) = local_port (flow_at dm q)).
  { intros q. destruct (Nat.eq_dec p q) as [<-|Hne].
    - destruct (Nat.lt_ge_cases p (length (flow_mem dm))) as [Hlt|Hge].
      + now rewrite flow_at_store_same.
      + unfold flow_at, flow_store, deref. cbn.
        rewrite !nth_overflow; auto. now rewrite store_length.
    - now rewrite flow_at_store_other. }
  split.
  - intros id. apply flow_lookup_ext; auto.
  - intros (H1 & H2 & H3 & H4). unfold flow_table_inv.
    change (flow_table (flow_store dm p x)) with (flow_table dm).
    change (port_id_bitmap (flow_store dm p x)) with (port_id_bitmap dm).
    splits; auto.
    + rewrite (map_ext _ (fun q => local_port (flow_at dm q))) by apply Hids. exact H3.
    + intros h q Hq. rewrite Hids. destruct (H4 h q Hq) as (A & B & C & D).
      unfold flow_store. cbn [flow_mem set_flow_mem]. rewrite store_length. auto.
Qed.

End FlowStoreFacts.

Section ReclaimFacts.

Variable K : kernel.

(** The queues after a successful [flow_add] without configuration. *)
Lemma flow_add_queues (alloc_ok : bool) (jiffies : Z) (dm : rl_dm) (ipcp : nat)
    (upper_rc_ upper_ipcp_ : option nat) (flowspec : Z) :
  let res := Gfp.flow_add K alloc_ok jiffies dm ipcp upper_rc_ upper_ipcp_ None flowspec in
  fst (fst res) = 0 ->
  flows_putq dm = [] ->
  flows_putq (snd res) = [length (flow_mem dm)] /\
  flows_removeq (snd res) = flows_removeq dm.
Proof.
  unfold Gfp.flow_add.
  destruct (has_flag (ipcp_flags (ipcp_at dm ipcp)) RL_K_IPCP_ZOMBIE); [discriminate|].
  destruct alloc_ok; cbn [negb]; [|discriminate].
  set (use_cep := has_flag _ RL_K_IPCP_USE_CEP_IDS).
  set (port := u16 (Bitmap.find_first_zero (port_id_bitmap dm) PORT_ID_BITMAP_SIZE)).
  set (cep := if use_cep then _ else 0).
  destruct ((port <? PORT_ID_BITMAP_SIZE) && (cep <? CEP_ID_BITMAP_SIZE)); [|discriminate].
  cbv zeta. intros _ Hq.
  set (f := {| local_port := port; local_cep := cep; remote_port := RL_PORT_ID_NONE K;
               remote_addr := RL_ADDR_NULL K; uid := uid_cnt dm;
               flow_flags := Z.lor RL_FLOW_PENDING RL_FLOW_NEVER_BOUND;
               flow_refcnt := atomic_inc 1; expires := EXPIRES_NONE; txrx_ipcp := ipcp;
               txrx_flags := 0; upper_rc := upper_rc_; upper_ipcp := upper_ipcp_;
               flow_spec := flowspec; cfg_dtcp_flags := 0 |}).
  match goal with
  | |- context [flows_putq_add jiffies ?d (length (flow_mem dm)) (RL_UNBOUND_FLOW_TO K)] =>
      set (dm6 := d)
  end.
  assert (H6 : flow_mem dm6 = flow_mem dm ++ [f] /\ flows_putq dm6 = flows_putq dm /\
               flows_removeq dm6 = flows_removeq dm).
  { unfold dm6. destruct use_cep; cbn -[Hash.add Bitmap.set u32]; splits; reflexivity. }
  destruct H6 as (M6 & Q6 & R6).
  assert (Hat : flow_at dm6 (length (flow_mem dm)) = f).
  { unfold flow_at. rewrite M6. apply deref_app_new. }
  assert (Hp : (length (flow_mem dm) < length (flow_mem dm6))%nat).
  { rewrite M6, length_app. cbn. lia. }
  pose proof (flows_putq_add_new jiffies dm6 (length (flow_mem dm)) (RL_UNBOUND_FLOW_TO K) Hp)
    as H.
  rewrite Hat in H. specialize (H eq_refl ltac:(cbn; lia)). cbv zeta in H.
  rewrite H. rewrite Q6, Hq. cbn [putq_insert snd].
  unfold ipcp_store. cbn [flows_putq flows_removeq set_ipcp_mem set_flows_putq_tmr
                           set_flows_putq flow_store set_flow_mem].
  split; [reflexivity|exact R6].
Qed.

End ReclaimFacts.

(** X30 — A flow that nobody binds is reclaimed.  On a well-formed flow
    table with an empty put-queue and a free port id, after [flow_add]
    has succeeded (without flow configuration) and its caller has
    dropped the reference it got, the flow is still linked, with two
    references.
    The drain of the put-queue at a time that is not before the unbound
    deadline then undoes the allocation: the flow table and the bitmap
    of port ids are those before [flow_add], every look-up answers as
    before, the put-queue is empty again with its timer stopped, and the
    flow is handed to the removal worker. *)
Theorem X30_unbound_flow_reclaimed (K : kernel) (alloc_ok : bool) (jiffies jiffies' : Z)
    (dm : rl_dm) (ipcp : nat) (upper_rc_ upper_ipcp_ : option nat) (flowspec : Z) :
  hash_in_range K ->
  flow_table_inv K dm ->
  flows_putq dm = [] ->
  Bitmap.find_first_zero (port_id_bitmap dm) PORT_ID_BITMAP_SIZE < PORT_ID_BITMAP_SIZE ->
  let added := Gfp.flow_add K alloc_ok jiffies dm ipcp upper_rc_ upper_ipcp_ None flowspec in
  fst (fst added) = 0 ->
  time_before jiffies' (ulong (jiffies + RL_UNBOUND_FLOW_TO K)) = false ->
  exists p,
    snd (fst added) = Some p /\
    let released := flow_put K jiffies (snd added) (Some p) in
    let dm' := flows_putq_drain K jiffies' released in
    flow_refcnt (flow_at released p) = 2 /\
    flow_lookup K released (local_port (flow_at (snd added) p)) = Some p /\
    flow_table dm' = flow_table dm /\
    port_id_bitmap dm' = port_id_bitmap dm /\
    (forall port, flow_lookup K dm' port = flow_lookup K dm port) /\
    flows_putq dm' = [] /\
    flows_putq_tmr dm' = None /\
    flows_removeq dm' = flows_removeq dm ++ [p] /\
    flows_removew dm' = true.
Proof.
  intros Hrange Hinv Hq0 Hfound added Hz Hexp.
  pose proof (flow_add_cases K alloc_ok jiffies dm ipcp upper_rc_ upper_ipcp_ flowspec)
    as Hcases. cbv zeta in Hcases. fold added in Hcases.
  destruct Hcases as [(_ & H1 & _)|(_ & _ & Hlt & Hres & Htab & Hbit & _ & _ & _ & e & He)];
    [contradiction|].
  assert (Hu16 : u16 (Bitmap.find_first_zero (port_id_bitmap dm) PORT_ID_BITMAP_SIZE)
                 = Bitmap.find_first_zero (port_id_bitmap dm) PORT_ID_BITMAP_SIZE).
  { destruct (bitmap_find_first_zero_spec (port_id_bitmap dm) PORT_ID_BITMAP_SIZE)
      as (B1 & _); [discriminate|].
    unfold u16. apply Z.mod_small. change (2 ^ 16) with PORT_ID_BITMAP_SIZE. lia. }
  rewrite Hu16 in *.
  destruct He as (Hmem & Hport & _ & Href & Hfl & Hexpires & _).
  destruct (flow_add_queues K alloc_ok jiffies dm ipcp upper_rc_ upper_ipcp_ flowspec Hz Hq0)
    as [Hputq Hremq].
  fold added in Hputq, Hremq.
  set (p := length (flow_mem dm)) in *.
  exists p. split; [now rewrite Hres|]. cbv zeta.
  set (dm1 := snd added) in *.
  assert (Hnew : flow_at dm1 p = e) by now apply (flow_at_app_new dm).
  destruct (bitmap_find_first_zero_found (port_id_bitmap dm) PORT_ID_BITMAP_SIZE)
    as (B1 & B2 & B3); [discriminate|exact Hfound|].
  rewrite <- Hport in Htab, Hbit, Hlt, B1, B2, B3.
  destruct (flow_table_link K dm dm1 e Hrange Hinv Hmem Htab Hbit) as (L1 & L2 & L3 & L4);
    [lia|apply B3; lia|]. fold p in L2.
  assert (Hp1 : (p < length (flow_mem dm1))%nat)
    by (rewrite Hmem, length_app; cbn; unfold p; lia).
  (* The caller drops its reference. *)
  set (e2 := set_flow_refcnt e 2).
  assert (Hrel : flow_put K jiffies dm1 (Some p) = flow_store dm1 p e2).
  { unfold flow_put. rewrite flow_put_not_last; rewrite Hnew, Href; [reflexivity|discriminate]. }
  rewrite Hrel. set (dmr := flow_store dm1 p e2).
  assert (Hatr : flow_at dmr p = e2) by (unfold dmr; now apply flow_at_store_same).
  destruct (flow_table_inv_store K dm1 p e2) as [S1 S2]; [now rewrite Hnew|].
  fold dmr in S1, S2. specialize (S2 L4).
  assert (Hin : In p (Hash.for_each (flow_table dmr))).
  { pose proof (flow_lookup_spec K dm1 (local_port e) L4) as Hs. rewrite L2 in Hs.
    exact (proj1 Hs). }
  assert (Hnin : ~ In p (@nil nat)) by (intros []).
  assert (Hrest : forall q, hd_error (@nil nat) = Some q ->
                            time_before jiffies' (expires (flow_at dmr q)) = true)
    by (intros q H; discriminate H).
  pose proof (flows_putq_drain_unbound K jiffies' dmr p [] S2 Hin) as D.
  rewrite Hatr in D.
  specialize (D Hputq Hnin eq_refl).
  cbn [flow_flags e2 set_flow_refcnt] in D. rewrite Hfl in D. specialize (D eq_refl).
  cbn [expires e2 set_flow_refcnt] in D. rewrite Hexpires in D. specialize (D Hexp Hrest).
  cbv zeta in D. cbn [local_port e2 set_flow_refcnt hd_error option_map] in D.
  destruct D as (D1 & D2 & D3 & D4 & _ & _ & D7 & D8 & _ & _ & _ & D12 & D13).
  rewrite Hatr, Hnew, S1.
  assert (Hfresh : ~ In p (Hash.for_each (flow_table dm))).
  { intros H. apply (flow_table_inv_linked K dm p Hinv) in H. unfold p in H. lia. }
  assert (Hh : (hash_min K (local_port e) PORT_ID_HASHTABLE_BITS < length (flow_table dm))%nat).
  { destruct Hinv as (Hlen & _). rewrite Hlen. apply Hrange. discriminate. }
  splits; auto.
  - rewrite D12. change (flow_table dmr) with (flow_table dm1). rewrite Htab.
    now apply hash_del_add.
  - rewrite D13. change (port_id_bitmap dmr) with (port_id_bitmap dm1). rewrite Hbit.
    apply bitmap_clear_set; [lia|apply B3; lia].
  - intros port. destruct (Z.eq_dec port (local_port e)) as [->|Hne].
    + now rewrite D3, L1.
    + rewrite D4, S1 by exact Hne. now apply L3.
  - rewrite D7. change (flows_removeq dmr) with (flows_removeq dm1). now rewrite Hremq.
Qed.

Lemma X30_unbound_flow_reclaimed_witness :
  flow_table (flows_putq_drain Example.K0 5000
                (flow_put Example.K0 1000
                   (snd (Gfp.flow_add Example.K0 true 1000 IpcpExample.dm3 1 (Some 0%nat) None
                           None 0)) (Some 0%nat)))
  = flow_table IpcpExample.dm3.
Proof.
  assert (Hf : Hash.for_each (flow_table IpcpExample.dm3) = []) by (vm_compute; reflexivity).
  assert (Hinv : flow_table_inv Example.K0 IpcpExample.dm3).
  { unfold flow_table_inv. rewrite Hf. splits.
    - vm_compute; reflexivity.
    - constructor.
    - constructor.
    - intros h p Hin. apply hash_bucket_in_for_each in Hin. rewrite Hf in Hin. contradiction. }
  assert (Hq : flows_putq IpcpExample.dm3 = []) by (vm_compute; reflexivity).
  assert (Hz : fst (fst (Gfp.flow_add Example.K0 true 1000 IpcpExample.dm3 1 (Some 0%nat) None
                           None 0)) = 0) by (vm_compute; reflexivity).
  assert (Hp : snd (fst (Gfp.flow_add Example.K0 true 1000 IpcpExample.dm3 1 (Some 0%nat) None
                           None 0)) = Some 0%nat) by (vm_compute; reflexivity).
  assert (Hexp : time_before 5000 (ulong (1000 + RL_UNBOUND_FLOW_TO Example.K0)) = false)
    by (vm_compute; reflexivity).
  assert (Hfound : Bitmap.find_first_zero (port_id_bitmap IpcpExample.dm3) PORT_ID_BITMAP_SIZE
                   < PORT_ID_BITMAP_SIZE) by (vm_compute; reflexivity).
  destruct (X30_unbound_flow_reclaimed Example.K0 true 1000 5000 IpcpExample.dm3 1
              (Some 0%nat) None 0 example_hash_in_range Hinv Hq Hfound Hz Hexp)
    as (p & Hsome & X).
  rewrite Hp in Hsome. injection Hsome as <-.
  cbv zeta in X. exact (proj1 (proj2 (proj2 X))).
Defined.
